(* ===== verification/_CoqProject ===== *)
-Q . S2P
Prelude.v
Word.v
PageSource.v
Buddy.v
Slab.v
Mem.v
Heap.v
Fifo.v
Ipc.v
Port.v
Pic.v
Serial.v
Idt.v
Sched.v
Ps2.v
Vfs.v
Utf8.v
Initrd.v
Elf.v
Disk.v
Ext3.v
Ext3Dir.v
Paging.v
Gdt.v
Ring3.v
Syscall.v
Gfx.v
Pci.v
Listing.v
Ahci.v
Volume.v
Storage.v
Bringup.v
Mmio.v
Shell.v
Cpu.v
Tsc.v
Smp.v
Start.v
Boot.v
Api.v
Memtest.v
Task.v
User.v
Kernel.v
