(* ===== verification/Prelude.v ===== *)
(** * A verification library for the Avaria kernel

    Avaria is a small x86-64 kernel in Rust ([src/src]).  This library models
    its core by shallow embedding: pure functions are Rocq functions, code with
    state passes the state, code that can fail returns an [outcome]
    (below), and every definition follows the source line by line and runs
    under [vm_compute].

    ** Conventions

    Integers are [Z]; a [w]-bit operation wraps as the release build does ([Word]:
    [a ⊞ b], [a ⊟ b], [a ⊠ b] for 64 bits, [wadd w] etc. otherwise), shift amounts
    are masked, indexing and slicing out of range is [Crash IndexPanic],
    division by zero [Crash DivPanic], a raw access outside its object
    [Crash UndefinedBehaviour].  Bytes are [Z] below 256, strings lists of bytes.
    A pointer is its address; null is 0 or, where the source only tests for
    it, [None].  A [while] loop is a fixpoint on fuel; [OutOfFuel] marks fuel that
    was too small, and the theorems show it never happens: 64 rounds for the
    order loops of the allocators (orders are below 64), one round per archive block
    for the tar parser, one per byte for directories, one per page for page-table ranges, 65 per
    number for the printers (a 64-bit value has at most 64 digits); polling loops over hardware
    take a bound that exceeds what the device class promises, and the wait for the timer one that
    exists for every clock rate ([Tsc]).  Hardware
    and the parts of the kernel a file does not model are type classes: operations, and laws
    that state documented behaviour; each class has an instance, so its laws can be met.

    ** Files

    - [Prelude]: outcomes, arrays and slices with Rust's bounds, searching loops,
      reachability, tactics.  [Word]: machine words, bitmaps, little-endian fields.
    - Memory ([src/src/kern/mm], [kern/mem.rs]).  [PageSource]: the class of page
      allocators the slabs need.  [Buddy]: [buddy.rs], the page allocator, an
      instance of it.  [Slab]: [slab.rs] in modules [Page], [Cache], [Slabs].  [Mem]: the heap
      [kmalloc]/[kfree] over both; [Heap]: the heap under arbitrary calls.  [Paging]: [make_executable]
      of [mem.rs] and [make_user_accessible] of [drv/ring3], against the processor's
      four-level walk; [Mmio]: [map_mmio] over the same walk, and [lapic.rs].
    - Communication ([kern/arch/x86_64/ipc.rs]).  [Fifo]: the class of bounded queues, ring
      buffers, and one sender and one receiver on a ring step by step (module [Spsc]).  [Ipc]:
      messages ([Msg]), rings ([Ring]), the channel table ([Chan]) and the spin lock ([Spin]).
    - Devices.  [Port]: port input and output ([cpu.rs]).  [Pic]: [pic.rs] and [pit.rs].  [Serial]:
      [kern/serial.rs] and runs of log output.  [Ps2]: [drv/ps2], keyboard and controller.  [Pci]:
      [drv/pci.rs].  [Ahci]: [drv/disk/ahci.rs].  [Volume]: the driver as an
      instance of [Disk]'s class, and the file system on it.  [Storage]: the controller as a whole, and
      the driver's [init].  [Gfx]: [gfx/vesa.rs] and
      [gfx/psf.rs].  [Shell]: the shell task of [main.rs], on keyboard and screen.
    - Processor ([kern/arch/x86_64]).  [Idt]: [idt.rs], gates, the assembly entry path,
      dispatch.  [Gdt]: [gdt.rs] and [tss.rs].  [Cpu]: the other instructions of [cpu.rs], [sse.rs].  [Tsc]: [tsc.rs].
      [Smp]: [smp.rs], all processors step by step.  [Sched]: [kern/sched.rs].  [Syscall]: [kxvm/syscall.rs].
      [Ring3]: [enter_ring3] of [drv/ring3].
    - Files.  [Vfs]: [fs/vfs.rs] and the string functions paths use.  [Utf8]: strings as
      characters.  [Initrd]: [fs/initrd.rs].  [Elf]: the loader crate [crates/avaria-elf].  [Disk]: the heap
      and the disk driver as classes, the monad of the file system and its program logic.
      [Ext3]: bytes, superblock, inodes and block trees of [fs/ext3].  [Ext3Dir]: directories, paths,
      mount.  [Listing]: what [pci::dump] and [dump_root] print.
    - The whole ([src/main.rs]).  [Start]: [_start] up to the memory map, and the panic handler.  [Bringup]: from
      the PCI bus to the listing of a disk.  [Boot]: from the RAM disk to the scheduler.  [Kernel]: all of [_start] on
      one machine, heap and set of page tables, with the interrupt handlers it leaves.  [Api]: the table of functions for modules and the crate
      [crates/avaria-api]; the class [HostLaws] is what a module may rely on.  [Memtest]:
      [modules/memtest] against that class.  [Task]: it as a task of the scheduler.  [User]: [modules/init] in user mode.

    State corresponds to the source's statics: [BuddyAllocator], [SlabAllocator], [KMem]
    (BUDDY, SLAB, HHDM), the channel table, [Tables] (ISR_HANDLERS, ISR_CTX_HANDLERS), [Sched]
    (TASKS, CURRENT, ACTIVE and the counters), [Kb] (KB_BUF, KB_HEAD, KB_TAIL and the modifier flags),
    [PciTable], [Smp] (CPU_COUNT, APS_READY, ALL_GO, CPU_ONLINE), [Machine] and [Kern] (the statics [main.rs] sets up),
    and [Kernel.World], all of these together.

    ** What is shown

    - Allocators: well-formedness is invariant; results lie in the region, are
      aligned, and overlap no live object (slabs over any lawful page source,
      [kmalloc] up to 2048 bytes); freeing removes exactly the freed object; whatever is
      called with whatever pointer, the heap never panics.  For
      blocks of different orders the buddy allocator does hand out overlapping
      memory, and a free can release a page that is held: both are theorems.
    - Channels refine a table of bounded queues; the ring delivers in order under
      every interleaving of one sender and one receiver; the lock excludes.
    - Scheduler: at most one running task in every reachable state, round robin,
      bounded waiting; its treatment of user code's segments is a theorem too.
    - Interrupts and system calls end to end: stub, saved context, dispatch,
      handler, return; a user program from its entry to the kernel's trampoline.
    - Paging: no translation and no right is lost; the range becomes accessible, at
      the granularity of the tables; device memory is mapped uncached and nothing else changes.
    - Parsers and loaders: the tar archive, the ELF image, the font and directory blocks are
      read back as what they were made of; behaviour on bad input is exact.
    - Disk: the AHCI driver sets a port up, delivers exactly the disk's sectors and ends on errors; the
      file system reads exactly the disk's bytes, block lookup is
      search in a tree, a path is resolved and a file read without leaks; the two composed: from a
      port that is not set up to the bytes of a file, and from the PCI bus over all ports, which share
      nothing, to the listing of a root directory.
    - Drivers: printers, keyboard, controllers and PCI enumeration against device classes; calibration
      ends and is accurate; drawing stays on the screen; the shell shows a terminal.
    - Start-up: no processor passes the barrier early and nobody waits for ever; the first half of [_start]
      prints its log, halts where an answer is missing and leaves every table as promised;
      the last part loads the modules of the RAM disk as tasks; and [_start] as a whole, on a machine
      without an AHCI controller, reaches the scheduler with every stage's promise kept, exactly
      the timer's and the keyboard's lines open, and every interrupt running its handler.
    - Modules: the kernel keeps what the interface promises, so that a module verified against the
      interface runs on the kernel and as a task of the scheduler.

    ** Limits

    Memory is sequentially consistent; the interleavings of [Fifo.Spsc], [Ipc.Spin] and
    [Smp] are of single loads and stores.  Heap blocks in [Disk] are byte arrays of their own: overlap by the
    allocator is not seen there; its class promises whole sectors for requests of at most 8192, the
    driver's limit, and leaves open what a failed read does to the disk ([disk_resilient]): theorems about
    failing reads need a disk that goes on answering, which the driver does not.  Loops of a fixed count run as written: the benchmark's million rounds are
    reasoned about and never evaluated.  Calls of a module, and the statements of [_start],
    are not interrupted in the middle: what a key pressed during start-up does is the handler's theorem,
    not [_start]'s.

    [Kernel] lets each stage work on the state the stages before left; the processors run by a given
    interleaving, long enough for the boot processor to return.  [Bringup] shows the disks over a lawful heap
    ([HeapLaws]).  The kernel's own heap is none: once a page is freed beside a free one, it may be handed
    out while held ([Buddy.coalescing_reissues_held_page]).  So [kernel_boots] is about machines where no
    disk is mounted.  The page tables' words and the frame buffer are outside the heap, as [tables_ok] says of
    the former.

    ** Not modelled

    Log lines that only print constants are kept where output is what a theorem is about
    (all of [main.rs]: [Start], [Kernel], [Boot], [Shell]; and [Listing], [Syscall], [Memtest], [Task], [User]) and
    left out elsewhere: in [lapic.rs], [ps2], [ahci.rs], the mount and [sched.rs].  What [Kernel] says of the
    console is about the lines that are kept.
    TLB flushes, loads of the page-table base register and the single instructions [cli], [sti],
    [hlt] and [pause] leave no trace in the models' state beyond the interrupt flag.  The file
    [drv/usb/ehci.rs] is an empty stub, and the [mod.rs] files without code only declare modules. *)
From Stdlib Require Export ZArith Lia.
From stdpp Require Export base numbers option list.

#[global] Open Scope Z_scope.
#[global] Set Default Goal Selector "!".

(** * Outcomes

    A Rust function of the kernel returns, panics, runs into undefined
    behaviour (a raw read outside its allocation), or, in this model only,
    runs out of the fuel that bounds a [while] loop.  Every component states
    which of these can happen; [OutOfFuel] is always shown impossible. *)

Inductive crash : Set :=
  | IndexPanic          (* slice or array index out of range *)
  | DivPanic            (* division or remainder by zero *)
  | UnwrapPanic         (* [unwrap] on [None] *)
  | UndefinedBehaviour  (* raw pointer access outside the object *)
  | OutOfFuel.          (* the model's loop bound was too small *)

#[export] Instance crash_eq_dec : EqDecision crash.
Proof. solve_decision. Defined.

Inductive outcome (A : Type) : Type :=
  | Ret (a : A)
  | Crash (c : crash).
Arguments Ret {A} a.
Arguments Crash {A} c.

#[export] Instance outcome_ret : MRet outcome := fun A a => Ret a.
#[export] Instance outcome_bind : MBind outcome := fun A B f m =>
  match m with
  | Ret a => f a
  | Crash c => Crash c
  end.

(** [m] returns a value that satisfies [Q]; in particular it does not crash. *)
Definition returns {A} (m : outcome A) (Q : A -> Prop) : Prop :=
  exists a, m = Ret a /\ Q a.

Lemma bind_ret {A B} (a : A) (f : A -> outcome B) : (Ret a ≫= f) = f a.
Proof. reflexivity. Qed.

Lemma bind_crash {A B} c (f : A -> outcome B) : (Crash c ≫= f) = Crash c.
Proof. reflexivity. Qed.

Lemma bind_ret_inv {A B} (m : outcome A) (f : A -> outcome B) b :
  (m ≫= f) = Ret b -> exists a, m = Ret a /\ f a = Ret b.
Proof. destruct m as [a|c]; simpl; [eauto | discriminate]. Qed.

Lemma returns_bind {A B} (m : outcome A) (f : A -> outcome B) Q R :
  returns m Q -> (forall a, Q a -> returns (f a) R) -> returns (m ≫= f) R.
Proof. intros (a & -> & Ha) Hf. simpl. auto. Qed.

Lemma returns_ret {A} (a : A) (Q : A -> Prop) : Q a -> returns (Ret a) Q.
Proof. unfold returns; eauto. Qed.

Lemma returns_mono {A} (m : outcome A) (Q R : A -> Prop) :
  returns m Q -> (forall a, Q a -> R a) -> returns m R.
Proof. intros (a & -> & Ha) H. exists a. auto. Qed.

Lemma returns_eq {A} (m : outcome A) (Q : A -> Prop) a :
  returns m Q -> m = Ret a -> Q a.
Proof. intros (x & -> & Hx) [= ->]. exact Hx. Qed.

(** [PAGE_SIZE / obj_size] etc.: integer division panics on a zero divisor. *)
Definition checked_div (a b : Z) : outcome Z :=
  if b =? 0 then Crash DivPanic else Ret (a / b).

(** [a % b] *)
Definition checked_rem (a b : Z) : outcome Z :=
  if b =? 0 then Crash DivPanic else Ret (a mod b).

(** * Arrays and slices indexed by machine integers *)

Definition zlen {A} (l : list A) : Z := Z.of_nat (length l).

(** [l[i]] without the panic: [None] out of range. *)
Definition zget {A} (l : list A) (i : Z) : option A :=
  if 0 <=? i then l !! Z.to_nat i else None.

(** [l[i] = x]; out of range the list is unchanged (use [arr_set] for the
    panicking assignment). *)
Definition zset {A} (l : list A) (i : Z) (x : A) : list A :=
  if 0 <=? i then <[Z.to_nat i := x]> l else l.

Definition arr_get {A} (l : list A) (i : Z) : outcome A :=
  match zget l i with
  | Some x => Ret x
  | None => Crash IndexPanic
  end.

Definition arr_set {A} (l : list A) (i : Z) (x : A) : outcome (list A) :=
  if (0 <=? i) && (i <? zlen l) then Ret (zset l i x) else Crash IndexPanic.

(** [&l[lo..hi]] *)
Definition slice {A} (l : list A) (lo hi : Z) : outcome (list A) :=
  if (0 <=? lo) && (lo <=? hi) && (hi <=? zlen l)
  then Ret (take (Z.to_nat (hi - lo)) (drop (Z.to_nat lo) l))
  else Crash IndexPanic.

(** The bytes [lo .. lo+n) of a list, shorter when the list ends. *)
Definition sub {A} (l : list A) (lo n : Z) : list A :=
  take (Z.to_nat n) (drop (Z.to_nat lo) l).

Section arrays.
Context {A : Type}.
Implicit Types (l : list A) (i j : Z) (x y : A).

Lemma zlen_nonneg l : 0 <= zlen l.
Proof. unfold zlen. lia. Qed.

Lemma zlen_nil : zlen (@nil A) = 0.
Proof. reflexivity. Qed.

Lemma zlen_cons x l : zlen (x :: l) = zlen l + 1.
Proof. unfold zlen. simpl length. lia. Qed.

Lemma zlen_app l1 l2 : zlen (l1 ++ l2) = zlen l1 + zlen l2.
Proof. unfold zlen. rewrite length_app. lia. Qed.

Lemma zlen_replicate n x : zlen (replicate n x) = Z.of_nat n.
Proof. unfold zlen. by rewrite length_replicate. Qed.

Lemma zlen_zset l i x : zlen (zset l i x) = zlen l.
Proof. unfold zlen, zset. destruct (0 <=? i); [by rewrite length_insert | done]. Qed.

Lemma zget_Some l i x : zget l i = Some x -> 0 <= i < zlen l.
Proof.
  unfold zget, zlen. destruct (Z.leb_spec 0 i); [|done].
  intros H1%lookup_lt_Some. lia.
Qed.

Lemma zget_is_Some l i : 0 <= i < zlen l -> exists x, zget l i = Some x.
Proof.
  unfold zget, zlen. intros [H1 H2]. destruct (Z.leb_spec 0 i); [|lia].
  destruct (lookup_lt_is_Some_2 l (Z.to_nat i)) as [x Hx]; [lia | eauto].
Qed.

Lemma zget_None l i : zget l i = None <-> i < 0 \/ zlen l <= i.
Proof.
  unfold zget, zlen. destruct (Z.leb_spec 0 i).
  - rewrite lookup_ge_None. lia.
  - split; [lia | done].
Qed.

Lemma zget_zset_eq l i x : 0 <= i < zlen l -> zget (zset l i x) i = Some x.
Proof.
  unfold zget, zset, zlen. intros [H1 H2].
  destruct (Z.leb_spec 0 i); [|lia]. apply list_lookup_insert_eq. lia.
Qed.

Lemma zget_zset_ne l i j x : i <> j -> zget (zset l i x) j = zget l j.
Proof.
  unfold zget, zset. intros Hne.
  destruct (Z.leb_spec 0 j); [|done].
  destruct (Z.leb_spec 0 i); [|done].
  apply list_lookup_insert_ne. lia.
Qed.

Lemma zset_id l i x : zget l i = Some x -> zset l i x = l.
Proof.
  unfold zget, zset. destruct (0 <=? i); [|done]. apply list_insert_id.
Qed.

Lemma zset_zset l i x y : zset (zset l i x) i y = zset l i y.
Proof.
  unfold zset. destruct (0 <=? i); [|done]. apply list_insert_insert_eq.
Qed.

Lemma zget_ext l1 l2 : zlen l1 = zlen l2 ->
  (forall i, 0 <= i < zlen l1 -> zget l1 i = zget l2 i) -> l1 = l2.
Proof.
  intros Hlen H. apply list_eq. intros n.
  destruct (decide (n < length l1)%nat) as [Hn|Hn].
  - specialize (H (Z.of_nat n)). unfold zget, zlen in H.
    destruct (Z.leb_spec 0 (Z.of_nat n)); [|lia].
    rewrite Nat2Z.id in H. apply H. lia.
  - unfold zlen in Hlen.
    rewrite (lookup_ge_None_2 l1), (lookup_ge_None_2 l2) by lia. done.
Qed.

Lemma zget_replicate n x i : 0 <= i < Z.of_nat n -> zget (replicate n x) i = Some x.
Proof.
  unfold zget. intros [H1 H2]. destruct (Z.leb_spec 0 i); [|lia].
  apply lookup_replicate_2. lia.
Qed.

Lemma arr_get_Ret l i x : arr_get l i = Ret x <-> zget l i = Some x.
Proof. unfold arr_get. destruct (zget l i); split; intros; simplify_eq; done. Qed.

Lemma arr_set_ok l i x : 0 <= i < zlen l -> arr_set l i x = Ret (zset l i x).
Proof.
  intros [H1 H2]. unfold arr_set.
  destruct (Z.leb_spec 0 i); [|lia]. destruct (Z.ltb_spec i (zlen l)); [done | lia].
Qed.

Lemma Forall_zset P l i x : Forall P l -> P x -> Forall P (zset l i x).
Proof.
  intros Hl Hx. unfold zset. destruct (0 <=? i); [|done].
  by apply Forall_insert.
Qed.

Lemma Forall_zget P l i x : Forall P l -> zget l i = Some x -> P x.
Proof.
  unfold zget. destruct (0 <=? i); [|done]. intros Hl Hx.
  by eapply Forall_lookup_1.
Qed.
End arrays.

(** * Ranges of integers, as Rust's [lo..lo+n] *)

Fixpoint zseq (lo : Z) (n : nat) : list Z :=
  match n with
  | O => []
  | S n' => lo :: zseq (lo + 1) n'
  end.

Lemma zseq_length lo n : length (zseq lo n) = n.
Proof. revert lo. induction n; intros lo; simpl; [done | by rewrite IHn]. Qed.

Lemma elem_of_zseq lo n i : i ∈ zseq lo n <-> lo <= i < lo + Z.of_nat n.
Proof.
  revert lo. induction n as [|n IH]; intros lo; simpl.
  - split; [by intros ?%not_elem_of_nil | lia].
  - rewrite elem_of_cons, IH. lia.
Qed.

Lemma zseq_add lo m n : zseq lo (m + n) = zseq lo m ++ zseq (lo + Z.of_nat m) n.
Proof.
  revert lo. induction m as [|m IH]; intros lo; [simpl; f_equal; lia|].
  cbn [Nat.add zseq app]. rewrite IH. do 3 f_equal. lia.
Qed.

Lemma NoDup_zseq lo n : NoDup (zseq lo n).
Proof.
  revert lo. induction n as [|n IH]; intros lo; cbn [zseq]; [constructor|].
  constructor; [|apply IH]. rewrite elem_of_zseq. lia.
Qed.

(** [first_from p i n]: the first of [i, i+1, .., i+n-1] that satisfies [p].
    The searching loops of the allocators, the scheduler and the directory
    lookups are instances of it. *)
Fixpoint first_from (p : Z -> bool) (i : Z) (n : nat) : option Z :=
  match n with
  | O => None
  | S n' => if p i then Some i else first_from p (i + 1) n'
  end.

Section first_from.
Implicit Types (p q : Z -> bool).

Lemma first_from_Some p i n k :
  first_from p i n = Some k <->
  i <= k < i + Z.of_nat n /\ p k = true /\ (forall j, i <= j < k -> p j = false).
Proof.
  revert i. induction n as [|n IH]; intros i; simpl.
  - split; [done | lia].
  - destruct (p i) eqn:Hp.
    + split.
      * intros [= <-]. repeat split; [lia | lia | done |]. intros; lia.
      * intros (Hr & Hk & Hlt). f_equal.
        destruct (decide (i = k)); [done|]. rewrite Hlt in Hp; [done | lia].
    + rewrite IH. split.
      * intros (Hr & Hk & Hlt). repeat split; [lia | lia | done |].
        intros j Hj. destruct (decide (j = i)); [by subst | apply Hlt; lia].
      * intros (Hr & Hk & Hlt).
        assert (i <> k) by congruence.
        repeat split; [lia | lia | done |]. intros j Hj. apply Hlt. lia.
Qed.

Lemma first_from_None p i n :
  first_from p i n = None <-> (forall j, i <= j < i + Z.of_nat n -> p j = false).
Proof.
  revert i. induction n as [|n IH]; intros i; simpl.
  - split; [intros _ j; lia | done].
  - destruct (p i) eqn:Hp.
    + split; [done|]. intros H. rewrite H in Hp; [done | lia].
    + rewrite IH. split; intros H j Hj.
      * destruct (decide (j = i)); [by subst | apply H; lia].
      * apply H. lia.
Qed.

Lemma first_from_ext p q i n :
  (forall j, i <= j < i + Z.of_nat n -> p j = q j) ->
  first_from p i n = first_from q i n.
Proof.
  revert i. induction n as [|n IH]; intros i H; simpl; [done|].
  rewrite (H i) by lia. destruct (q i); [done|]. apply IH. intros. apply H. lia.
Qed.
End first_from.

(** * Counted loops, [for i in lo..hi] *)

Section for_range.
Context {S : Type} (body : Z -> S -> outcome S).

Fixpoint for_from (i : Z) (n : nat) (s : S) : outcome S :=
  match n with
  | O => Ret s
  | Datatypes.S n' => s ← body i s; for_from (i + 1) n' s
  end.

(** Empty when [hi <= lo]. *)
Definition for_range (lo hi : Z) (s : S) : outcome S := for_from lo (Z.to_nat (hi - lo)) s.

Lemma for_range_inv (I : Z -> S -> Prop) lo hi s : lo <= hi -> I lo s ->
  (forall i s, lo <= i < hi -> I i s -> returns (body i s) (I (i + 1))) ->
  returns (for_range lo hi s) (I hi).
Proof.
  intros Hle Hs Hstep. unfold for_range.
  remember (Z.to_nat (hi - lo)) as n eqn:Hn. revert lo s Hle Hs Hstep Hn.
  induction n as [|n IH]; intros lo s Hle Hs Hstep Hn; simpl.
  - assert (lo = hi) as <- by lia. by apply returns_ret.
  - eapply returns_bind; [apply Hstep; [lia | done]|]. intros s' Hs'.
    apply IH; [lia | done | | lia]. intros i x Hi. apply Hstep. lia.
Qed.

Lemma for_range_empty lo hi s : hi <= lo -> for_range lo hi s = Ret s.
Proof. intros Hle. unfold for_range. by replace (Z.to_nat (hi - lo)) with O by lia. Qed.
End for_range.

(** * Reachability of step relations *)

Section reach.
Context {S : Type} (init : S -> Prop) (step : S -> S -> Prop).

Inductive reachable : S -> Prop :=
  | reach_init s : init s -> reachable s
  | reach_step s s' : reachable s -> step s s' -> reachable s'.

Lemma reachable_invariant (I : S -> Prop) :
  (forall s, init s -> I s) ->
  (forall s s', I s -> step s s' -> I s') ->
  forall s, reachable s -> I s.
Proof. intros Hi Hs s H. induction H; eauto. Qed.
End reach.

(** * Automation *)

(** Split the boolean tests of the code into arithmetic facts. *)
Ltac case_ltb :=
  match goal with
  | |- context [if ?a <? ?b then _ else _] => destruct (Z.ltb_spec a b)
  | |- context [if ?a <=? ?b then _ else _] => destruct (Z.leb_spec a b)
  | |- context [if ?a =? ?b then _ else _] => destruct (Z.eqb_spec a b)
  | H : context [if ?a <? ?b then _ else _] |- _ => destruct (Z.ltb_spec a b)
  | H : context [if ?a <=? ?b then _ else _] |- _ => destruct (Z.leb_spec a b)
  | H : context [if ?a =? ?b then _ else _] |- _ => destruct (Z.eqb_spec a b)
  end.

(** Invert a successful bind in a hypothesis. *)
Ltac inv_bind H :=
  let a := fresh "v" in let Ha := fresh "Hv" in
  apply bind_ret_inv in H; destruct H as (a & Ha & H).

(** Evaluate a boolean test whose truth [lia] can decide. *)
Ltac decide_tests :=
  repeat match goal with
  | |- context [?a <? ?b] =>
      first [ replace (a <? b) with true by (symmetry; apply Z.ltb_lt; lia)
            | replace (a <? b) with false by (symmetry; apply Z.ltb_ge; lia) ]
  | |- context [?a <=? ?b] =>
      first [ replace (a <=? b) with true by (symmetry; apply Z.leb_le; lia)
            | replace (a <=? b) with false by (symmetry; apply Z.leb_gt; lia) ]
  | |- context [?a =? ?b] =>
      first [ replace (a =? b) with true by (symmetry; apply Z.eqb_eq; lia)
            | replace (a =? b) with false by (symmetry; apply Z.eqb_neq; lia) ]
  end.

(** * Slices and positions *)

Lemma slice_ok {A} (l : list A) lo hi : 0 <= lo -> lo <= hi -> hi <= zlen l ->
  slice l lo hi = Ret (sub l lo (hi - lo)).
Proof. intros H1 H2 H3. unfold slice, sub. decide_tests. done. Qed.

Lemma sub_len {A} (l : list A) lo n : 0 <= lo -> 0 <= n -> lo + n <= zlen l -> zlen (sub l lo n) = n.
Proof. unfold sub, zlen. intros H1 H2 H3. rewrite length_take, length_drop. lia. Qed.

Lemma Forall_sub {A} (P : A -> Prop) l lo n : Forall P l -> Forall P (sub l lo n).
Proof. intros H. unfold sub. by apply Forall_take, Forall_drop. Qed.

Lemma arr_get_mid {A} (l a c : list A) x i : l = a ++ x :: c -> i = zlen a -> arr_get l i = Ret x.
Proof.
  intros -> ->. apply arr_get_Ret. unfold zget, zlen. decide_tests. rewrite Nat2Z.id.
  by apply list_lookup_middle.
Qed.

Lemma slice_cases {A} (l : list A) lo hi :
  (exists x, slice l lo hi = Ret x) \/ slice l lo hi = Crash IndexPanic.
Proof. unfold slice. destruct (_ && _); [left; by eexists | by right]. Qed.

Lemma zget_app {A} (l1 l2 : list A) i : 0 <= i ->
  zget (l1 ++ l2) i = if i <? zlen l1 then zget l1 i else zget l2 (i - zlen l1).
Proof.
  intros Hi. unfold zget, zlen. case_ltb.
  - decide_tests. apply lookup_app_l. lia.
  - decide_tests. rewrite lookup_app_r by lia. f_equal. lia.
Qed.

Lemma zget_take {A} (l : list A) n i : 0 <= i < n -> zget (take (Z.to_nat n) l) i = zget l i.
Proof. intros Hi. unfold zget. decide_tests. apply lookup_take_lt. lia. Qed.

Lemma zget_drop {A} (l : list A) n i : 0 <= n -> 0 <= i -> zget (drop (Z.to_nat n) l) i = zget l (n + i).
Proof. intros Hn Hi. unfold zget. decide_tests. rewrite lookup_drop. f_equal. lia. Qed.

Lemma zget_sub {A} (l : list A) lo n i : 0 <= lo -> 0 <= i < n -> zget (sub l lo n) i = zget l (lo + i).
Proof. intros Hlo Hi. unfold sub. rewrite zget_take by done. apply zget_drop; lia. Qed.

Lemma zlen_take {A} (l : list A) n : 0 <= n -> n <= zlen l -> zlen (take (Z.to_nat n) l) = n.
Proof. unfold zlen. intros H1 H2. rewrite length_take. lia. Qed.

Lemma zlen_drop {A} (l : list A) n : 0 <= n -> n <= zlen l -> zlen (drop (Z.to_nat n) l) = zlen l - n.
Proof. unfold zlen. intros H1 H2. rewrite length_drop. lia. Qed.

(** Overwriting the bytes from [lo] by [x]. *)
Lemma splice_spec {A} (l x : list A) lo : 0 <= lo -> lo + zlen x <= zlen l ->
  let l' := take (Z.to_nat lo) l ++ x ++ drop (Z.to_nat (lo + zlen x)) l in
  zlen l' = zlen l /\
  forall i, 0 <= i ->
    zget l' i = if (lo <=? i) && (i <? lo + zlen x) then zget x (i - lo) else zget l i.
Proof.
  intros Hlo Hle. pose proof (zlen_nonneg x). simpl. split.
  - rewrite !zlen_app, zlen_take, zlen_drop by lia. lia.
  - intros i Hi. rewrite zget_app, zlen_take by lia. destruct (Z.ltb_spec i lo).
    + decide_tests. simpl. by rewrite zget_take by lia.
    + rewrite zget_app by lia. decide_tests. simpl. destruct (Z.ltb_spec (i - lo) (zlen x)).
      * by decide_tests.
      * decide_tests. rewrite zget_drop by lia. f_equal. lia.
Qed.

Lemma zget_fmap_zseq {A} (f : Z -> A) lo n i : 0 <= i < Z.of_nat n ->
  zget (f <$> zseq lo n) i = Some (f (lo + i)).
Proof.
  intros Hi. unfold zget. decide_tests. rewrite list_lookup_fmap.
  replace (zseq lo n !! Z.to_nat i) with (Some (lo + i)); [done|].
  remember (Z.to_nat i) as j eqn:Hj. revert lo i n Hi Hj.
  induction j as [|j IH]; intros lo i [|n] Hi Hj; simpl; try lia; [f_equal; lia|].
  rewrite <- (IH (lo + 1) (i - 1)) by lia. f_equal. lia.
Qed.

Lemma bind_ext_in {A B} (f g : A -> list B) (l : list A) : (forall x, x ∈ l -> f x = g x) -> l ≫= f = l ≫= g.
Proof.
  induction l as [|x l IH]; intros He; [done|]. cbn [mbind list_bind]. rewrite He by left. f_equal.
  apply IH. intros y Hy. apply He. by right.
Qed.

Lemma zlen_fmap_zseq {A} (f : Z -> A) lo n : 0 <= n -> zlen (f <$> zseq lo (Z.to_nat n)) = n.
Proof. intros Hn. unfold zlen. rewrite length_fmap, zseq_length. lia. Qed.

Lemma sub_mid {A} (l a b c : list A) lo n : l = a ++ b ++ c -> lo = zlen a -> n = zlen b ->
  sub l lo n = b.
Proof.
  intros -> -> ->. unfold sub, zlen. rewrite !Nat2Z.id. by rewrite drop_app_length, take_app_length.
Qed.

Lemma slice_mid {A} (l a b c : list A) lo hi : l = a ++ b ++ c -> lo = zlen a ->
  hi = lo + zlen b -> slice l lo hi = Ret b.
Proof.
  intros Hl Hlo ->. pose proof (zlen_nonneg a). pose proof (zlen_nonneg b). pose proof (zlen_nonneg c).
  rewrite slice_ok by (subst l; rewrite ?zlen_app; lia). f_equal. eapply sub_mid; [exact Hl | done | lia].
Qed.
