(* ===== verification/Word.v ===== *)
(** Machine integers: [w]-bit unsigned words as [Z], with the wrap-around of
    a release build written out; bit tests; little-endian byte sequences; and
    bit arrays (bitmaps) stored in lists of words. *)
From S2P Require Import Prelude.

(** * Words *)

Definition wrap (w x : Z) : Z := x mod 2 ^ w.

Definition wadd (w a b : Z) : Z := wrap w (a + b).
Definition wsub (w a b : Z) : Z := wrap w (a - b).
Definition wmul (w a b : Z) : Z := wrap w (a * b).
(** Release-mode shifts mask the shift amount by the width. *)
Definition wshl (w a n : Z) : Z := wrap w (Z.shiftl a (n mod w)).
Definition wshr (w a n : Z) : Z := Z.shiftr a (n mod w).
Definition wnot (w a : Z) : Z := Z.land (Z.lnot a) (Z.ones w).

Definition U64_MAX : Z := 2 ^ 64 - 1.

Declare Scope word_scope.
Delimit Scope word_scope with word.
Notation "a ⊞ b" := (wadd 64 a b) (at level 50, left associativity) : word_scope.
Notation "a ⊟ b" := (wsub 64 a b) (at level 50, left associativity) : word_scope.
Notation "a ⊠ b" := (wmul 64 a b) (at level 40, left associativity) : word_scope.
#[global] Open Scope word_scope.

(** [x] is a [w]-bit unsigned integer. *)
Definition in_word (w x : Z) : Prop := 0 <= x < 2 ^ w.

Create HintDb words.

Lemma wrap_small w x : in_word w x -> wrap w x = x.
Proof. unfold wrap, in_word. apply Z.mod_small. Qed.

Lemma wrap_in_word w x : 0 <= w -> in_word w (wrap w x).
Proof. intros. unfold wrap, in_word. apply Z.mod_pos_bound. lia. Qed.

Lemma wadd_small w a b : in_word w (a + b) -> wadd w a b = a + b.
Proof. apply wrap_small. Qed.

Lemma wsub_small w a b : in_word w (a - b) -> wsub w a b = a - b.
Proof. apply wrap_small. Qed.

Lemma wmul_small w a b : in_word w (a * b) -> wmul w a b = a * b.
Proof. apply wrap_small. Qed.

Lemma wshl_small w a n :
  0 <= n < w -> in_word w (a * 2 ^ n) -> wshl w a n = a * 2 ^ n.
Proof.
  intros Hn H. unfold wshl. rewrite Z.mod_small by lia.
  rewrite Z.shiftl_mul_pow2 by lia. by apply wrap_small.
Qed.

Lemma wshl_1 w n : 0 <= n < w -> wshl w 1 n = 2 ^ n.
Proof.
  intros Hn. rewrite wshl_small; [lia | lia |].
  unfold in_word. rewrite Z.mul_1_l.
  pose proof (Z.pow_lt_mono_r 2 n w). pose proof (Z.pow_pos_nonneg 2 n). lia.
Qed.

Lemma wshr_div w a n : 0 <= n < w -> wshr w a n = a / 2 ^ n.
Proof.
  intros Hn. unfold wshr. rewrite Z.mod_small by lia. apply Z.shiftr_div_pow2. lia.
Qed.

(** * Bits *)

Lemma testbit_high w x i : in_word w x -> w <= i -> Z.testbit x i = false.
Proof.
  intros [H1 H2] Hi. destruct (decide (x = 0)) as [->|]; [apply Z.bits_0|].
  apply Z.bits_above_log2; [lia|].
  apply Z.log2_lt_pow2; [lia|].
  assert (0 <= w) by (destruct (Z.ltb_spec w 0); [rewrite Z.pow_neg_r in H2 |]; lia).
  pose proof (Z.pow_le_mono_r 2 w i). lia.
Qed.

Lemma in_word_bits w x :
  0 <= w -> 0 <= x -> (forall i, w <= i -> Z.testbit x i = false) -> in_word w x.
Proof.
  intros Hw Hx H. split; [done|].
  destruct (Z.ltb_spec x (2 ^ w)) as [|Hge]; [done|].
  exfalso. assert (0 < x) by (pose proof (Z.pow_pos_nonneg 2 w); lia).
  assert (w <= Z.log2 x) by (apply Z.log2_le_pow2; lia).
  specialize (H (Z.log2 x)). rewrite Z.bit_log2 in H by lia. discriminate H. lia.
Qed.

Lemma in_word_lor w a b : in_word w a -> in_word w b -> in_word w (Z.lor a b).
Proof.
  intros Ha Hb. unfold in_word in *.
  assert (0 <= w) by (destruct (Z.ltb_spec w 0); [rewrite Z.pow_neg_r in Ha |]; lia).
  apply in_word_bits; [done | apply Z.lor_nonneg; lia |].
  intros i Hi. rewrite Z.lor_spec.
  by rewrite (testbit_high w a), (testbit_high w b).
Qed.

Lemma in_word_land w a b : in_word w a -> in_word w (Z.land a b).
Proof.
  intros Ha. unfold in_word in *.
  assert (0 <= w) by (destruct (Z.ltb_spec w 0); [rewrite Z.pow_neg_r in Ha |]; lia).
  apply in_word_bits; [done | apply Z.land_nonneg; lia |].
  intros i Hi. rewrite Z.land_spec. by rewrite (testbit_high w a).
Qed.

Lemma in_word_pow2 w n : 0 <= n < w -> in_word w (2 ^ n).
Proof.
  intros. split; [lia|]. apply Z.pow_lt_mono_r; lia.
Qed.

Lemma wnot_spec w a i :
  0 <= w -> 0 <= i -> Z.testbit (wnot w a) i = negb (Z.testbit a i) && (i <? w).
Proof.
  intros Hw Hi. unfold wnot. rewrite Z.land_spec, Z.lnot_spec by lia. f_equal.
  destruct (Z.ltb_spec i w).
  - apply Z.ones_spec_low. lia.
  - apply Z.ones_spec_high. lia.
Qed.

Lemma wnot_in_word w a : 0 <= w -> in_word w (wnot w a).
Proof.
  intros Hw. unfold wnot. rewrite Z.land_ones by done. by apply wrap_in_word.
Qed.

Lemma wnot_zero w a : 0 <= w -> in_word w a -> (wnot w a = 0 <-> a = Z.ones w).
Proof.
  intros Hw Ha. split.
  - intros H. apply Z.bits_inj'. intros i Hi.
    pose proof (wnot_spec w a i Hw Hi) as Hs. rewrite H, Z.bits_0 in Hs.
    destruct (Z.ltb_spec i w).
    + rewrite Z.ones_spec_low by lia. destruct (Z.testbit a i); done.
    + rewrite Z.ones_spec_high by lia. by apply (testbit_high w).
  - intros ->. apply Z.bits_inj'. intros i Hi. rewrite wnot_spec, Z.bits_0 by done.
    destruct (Z.ltb_spec i w).
    + by rewrite Z.ones_spec_low by lia.
    + by rewrite andb_false_r.
Qed.

(** The code's bit test [x & (1 << n) != 0]. *)
Definition bit_set (w x n : Z) : bool := negb (Z.land x (wshl w 1 n) =? 0).

Lemma land_pow2 x n : 0 <= n -> Z.land x (2 ^ n) = if Z.testbit x n then 2 ^ n else 0.
Proof.
  intros Hn. apply Z.bits_inj'. intros i Hi.
  rewrite Z.land_spec, Z.pow2_bits_eqb by done.
  destruct (Z.eqb_spec n i) as [->|].
  - rewrite andb_true_r. destruct (Z.testbit x i).
    + by rewrite Z.pow2_bits_true.
    + by rewrite Z.bits_0.
  - rewrite andb_false_r. destruct (Z.testbit x n).
    + by rewrite Z.pow2_bits_false.
    + by rewrite Z.bits_0.
Qed.

Lemma land_bit x n : 0 <= n -> negb (Z.land x (2 ^ n) =? 0) = Z.testbit x n.
Proof.
  intros Hn. rewrite land_pow2 by done. pose proof (Z.pow_pos_nonneg 2 n).
  destruct (Z.testbit x n); [by decide_tests | done].
Qed.

Lemma bit_set_testbit w x n : 0 <= n < w -> bit_set w x n = Z.testbit x n.
Proof.
  intros Hn. unfold bit_set. rewrite wshl_1, land_pow2 by lia.
  destruct (Z.testbit x n); [|done].
  destruct (Z.eqb_spec (2 ^ n) 0); [|done]. pose proof (Z.pow_pos_nonneg 2 n). lia.
Qed.

(** [u64::trailing_zeros], the index of the lowest set bit ([w] when none). *)
Definition trailing_zeros (w x : Z) : Z :=
  match first_from (Z.testbit x) 0 (Z.to_nat w) with
  | Some i => i
  | None => w
  end.

(** [x.count_ones()] *)
Definition count_ones (w x : Z) : Z :=
  zlen (List.filter (Z.testbit x) (zseq 0 (Z.to_nat w))).

Lemma nonzero_has_bit w x : 0 <= w -> in_word w x -> x <> 0 ->
  exists i, 0 <= i < w /\ Z.testbit x i = true.
Proof.
  intros Hw [H1 H2] Hne. exists (Z.log2 x).
  split; [|apply Z.bit_log2; lia].
  split; [apply Z.log2_nonneg | apply Z.log2_lt_pow2; lia].
Qed.

Lemma trailing_zeros_spec w x : 0 <= w -> in_word w x -> x <> 0 ->
  let i := trailing_zeros w x in
  0 <= i < w /\ Z.testbit x i = true /\ (forall j, 0 <= j < i -> Z.testbit x j = false).
Proof.
  intros Hw Hx Hne. unfold trailing_zeros.
  destruct (first_from _ _ _) as [k|] eqn:Hk.
  - apply first_from_Some in Hk as (Hr & Hb & Hlt). repeat split; [lia | lia | done |].
    intros. apply Hlt. lia.
  - destruct (nonzero_has_bit w x) as (i & Hi & Hbi); [done..|].
    rewrite first_from_None in Hk. rewrite Hk in Hbi; [done | lia].
Qed.

#[export] Hint Resolve in_word_lor in_word_land in_word_pow2 wnot_in_word wrap_in_word : words.

(** Fields side by side: [a] in the low [w] bits, [b] above. *)
Lemma land_shifted w a b : 0 <= w -> in_word w a -> Z.land a (b * 2 ^ w) = 0.
Proof.
  intros Hw Ha. apply Z.bits_inj'. intros i Hi. rewrite Z.land_spec, Z.bits_0.
  destruct (Z.ltb_spec i w).
  - by rewrite Z.mul_pow2_bits_low, andb_false_r by lia.
  - by rewrite (testbit_high w a) by done.
Qed.

Lemma lor_shifted w a b : 0 <= w -> in_word w a -> Z.lor a (b * 2 ^ w) = a + b * 2 ^ w.
Proof.
  intros Hw Ha. pose proof (Z.add_lor_land a (b * 2 ^ w)) as Hs.
  rewrite land_shifted in Hs by done. lia.
Qed.

(** The buddy index [i ^ 1]. *)
Lemma lxor_1 i : 0 <= i -> Z.lxor i 1 = if Z.even i then i + 1 else i - 1.
Proof.
  intros Hi.
  assert (forall q, Z.lxor (2 * q) 1 = 2 * q + 1) as Heven.
  { intros q. symmetry. apply Z.add_nocarry_lxor. apply Z.bits_inj'. intros n Hn.
    rewrite Z.land_spec, Z.bits_0. destruct (decide (n = 0)) as [->|].
    - by rewrite Z.testbit_even_0.
    - change 1 with (2 ^ 0). rewrite Z.pow2_bits_false, andb_false_r by lia. done. }
  destruct (Z.even i) eqn:He.
  - apply Z.even_spec in He as [q ->]. apply Heven.
  - assert (Z.odd i = true) as Ho by (by rewrite <- Z.negb_even, He).
    apply Z.odd_spec in Ho as [q ->].
    rewrite <- Heven, Z.lxor_assoc, Z.lxor_nilpotent, Z.lxor_0_r, Heven. lia.
Qed.

Lemma lxor_1_range i : 0 <= i -> 0 <= Z.lxor i 1 <= i + 1 /\ Z.lxor i 1 <> i.
Proof.
  intros Hi. rewrite lxor_1 by done. destruct (Z.even i) eqn:He; [lia|].
  assert (i <> 0) by (intros ->; discriminate). lia.
Qed.

(** * Bit arrays

    A list of [w]-bit words read as an array of bits: bit [i] is bit [i mod w]
    of word [i / w].  A bit outside the array counts as set. *)

Section bitmap.
Context (w : Z) (Hw : 0 < w).
Implicit Types (l : list Z) (i j : Z).

Definition bm_test l i : bool :=
  match zget l (i / w) with
  | Some x => Z.testbit x (i mod w)
  | None => true
  end.

Definition bm_set l i : list Z :=
  match zget l (i / w) with
  | Some x => zset l (i / w) (Z.lor x (wshl w 1 (i mod w)))
  | None => l
  end.

Definition bm_clear l i : list Z :=
  match zget l (i / w) with
  | Some x => zset l (i / w) (Z.land x (wnot w (wshl w 1 (i mod w))))
  | None => l
  end.

Definition bm_wf l : Prop := Forall (in_word w) l.

(** Number of bits of the array. *)
Definition bm_bits l : Z := zlen l * w.

Lemma bm_index l i : 0 <= i ->
  (0 <= i / w < zlen l <-> i < bm_bits l) /\ 0 <= i mod w < w.
Proof.
  intros Hi. unfold bm_bits. pose proof (Z.mod_pos_bound i w Hw).
  pose proof (Z.div_mod i w). split; [|done]. split; intros; nia.
Qed.

Lemma bm_index_eq i j : i / w = j / w -> i mod w = j mod w -> i = j.
Proof.
  intros H1 H2. rewrite (Z.div_mod i w), (Z.div_mod j w), H1, H2 by lia. done.
Qed.

Lemma bm_test_out l i : 0 <= i -> bm_bits l <= i -> bm_test l i = true.
Proof.
  intros Hi Hr. unfold bm_test.
  rewrite (proj2 (zget_None l (i / w))); [done|].
  destruct (bm_index l i Hi). pose proof (Z.div_pos i w). lia.
Qed.

Lemma bm_set_len l i : zlen (bm_set l i) = zlen l.
Proof. unfold bm_set. destruct (zget _ _); [apply zlen_zset | done]. Qed.

Lemma bm_clear_len l i : zlen (bm_clear l i) = zlen l.
Proof. unfold bm_clear. destruct (zget _ _); [apply zlen_zset | done]. Qed.

Lemma bm_set_wf l i : bm_wf l -> bm_wf (bm_set l i).
Proof.
  unfold bm_wf, bm_set. intros Hl. destruct (zget _ _) eqn:Hx; [|done].
  apply Forall_zset; [done|]. apply in_word_lor; [by eapply Forall_zget|].
  apply wrap_in_word. lia.
Qed.

Lemma bm_clear_wf l i : bm_wf l -> bm_wf (bm_clear l i).
Proof.
  unfold bm_wf, bm_clear. intros Hl. destruct (zget _ _) eqn:Hx; [|done].
  apply Forall_zset; [done|]. apply in_word_land. by eapply Forall_zget.
Qed.

Lemma bm_test_set l i j : 0 <= i < bm_bits l -> 0 <= j ->
  bm_test (bm_set l i) j = (i =? j) || bm_test l j.
Proof.
  intros [Hi Hr] Hj. destruct (bm_index l i Hi) as [Hin Hm].
  apply Hin in Hr. destruct (zget_is_Some l (i / w) Hr) as [x Hx].
  unfold bm_test, bm_set. rewrite Hx.
  destruct (decide (i / w = j / w)) as [Heq|Hne].
  - rewrite <- Heq, zget_zset_eq, Hx by done.
    rewrite wshl_1, Z.lor_spec, Z.pow2_bits_eqb, orb_comm by lia. f_equal.
    apply Bool.eq_iff_eq_true. rewrite !Z.eqb_eq.
    split; [by apply bm_index_eq | by intros ->].
  - rewrite zget_zset_ne by done.
    destruct (Z.eqb_spec i j) as [->|]; [done|]. done.
Qed.

Lemma bm_test_clear l i j : 0 <= i < bm_bits l -> 0 <= j ->
  bm_test (bm_clear l i) j = negb (i =? j) && bm_test l j.
Proof.
  intros [Hi Hr] Hj. destruct (bm_index l i Hi) as [Hin Hm].
  apply Hin in Hr. destruct (zget_is_Some l (i / w) Hr) as [x Hx].
  unfold bm_test, bm_clear. rewrite Hx.
  destruct (decide (i / w = j / w)) as [Heq|Hne].
  - rewrite <- Heq, zget_zset_eq, Hx by done.
    pose proof (Z.mod_pos_bound j w Hw).
    rewrite Z.land_spec, wnot_spec, wshl_1, Z.pow2_bits_eqb by lia.
    replace (j mod w <? w) with true by (symmetry; apply Z.ltb_lt; lia).
    rewrite andb_true_r, andb_comm. f_equal. f_equal.
    apply Bool.eq_iff_eq_true. rewrite !Z.eqb_eq.
    split; [by apply bm_index_eq | by intros ->].
  - rewrite zget_zset_ne by done.
    destruct (Z.eqb_spec i j) as [->|]; [done|]. done.
Qed.

(** Two well-formed arrays with the same bits are the same list of words. *)
Lemma bm_ext l1 l2 : bm_wf l1 -> bm_wf l2 -> zlen l1 = zlen l2 ->
  (forall j, 0 <= j < bm_bits l1 -> bm_test l1 j = bm_test l2 j) -> l1 = l2.
Proof.
  intros H1 H2 Hlen Heq. apply zget_ext; [done|]. intros k Hk.
  destruct (zget_is_Some l1 k Hk) as [x Hx].
  destruct (zget_is_Some l2 k) as [y Hy]; [lia|].
  rewrite Hx, Hy. f_equal. apply Z.bits_inj'. intros n Hn.
  pose proof (Forall_zget _ _ _ _ H1 Hx) as Hxw.
  pose proof (Forall_zget _ _ _ _ H2 Hy) as Hyw.
  destruct (Z.ltb_spec n w) as [Hlt|].
  - specialize (Heq (k * w + n)). unfold bm_test in Heq.
    replace ((k * w + n) / w) with k in Heq by (rewrite Z.div_add_l, (Z.div_small n) by lia; lia).
    replace ((k * w + n) mod w) with n in Heq by (rewrite Z.add_comm, Z.mod_add, Z.mod_small by lia; lia).
    rewrite Hx, Hy in Heq. apply Heq. unfold bm_bits. nia.
  - by rewrite (testbit_high w x), (testbit_high w y).
Qed.

Lemma bm_test_zero n i : 0 <= i < Z.of_nat n * w -> bm_test (replicate n 0) i = false.
Proof.
  intros Hi. unfold bm_test. pose proof (Z.div_mod i w). pose proof (Z.mod_pos_bound i w Hw).
  rewrite zget_replicate by nia. apply Z.bits_0.
Qed.

Lemma bm_wf_zero n : bm_wf (replicate n 0).
Proof.
  apply Forall_replicate. split; [lia|]. apply Z.pow_pos_nonneg; lia.
Qed.
End bitmap.

(** * Little-endian bytes *)

(** [x.to_le_bytes()] for an [n]-byte integer. *)
Fixpoint to_le (n : nat) (x : Z) : list Z :=
  match n with
  | O => []
  | S n' => x mod 256 :: to_le n' (x / 256)
  end.

(** [from_le_bytes] *)
Fixpoint from_le (l : list Z) : Z :=
  match l with
  | [] => 0
  | b :: l => b + 256 * from_le l
  end.

Lemma to_le_length n x : length (to_le n x) = n.
Proof. revert x. induction n; intros x; simpl; [done | by rewrite IHn]. Qed.

Lemma pow_byte n : 2 ^ (8 * Z.of_nat (S n)) = 256 * 2 ^ (8 * Z.of_nat n).
Proof.
  replace (8 * Z.of_nat (S n)) with (8 + 8 * Z.of_nat n) by lia.
  rewrite Z.pow_add_r by lia. done.
Qed.

Lemma from_le_to_le n x : in_word (8 * Z.of_nat n) x -> from_le (to_le n x) = x.
Proof.
  revert x. induction n as [|n IH]; intros x [Hx Hlt]; cbn [to_le from_le].
  - simpl in Hlt. lia.
  - rewrite pow_byte in Hlt. rewrite IH.
    + pose proof (Z.div_mod x 256). lia.
    + split; [apply Z.div_pos; lia | apply Z.div_lt_upper_bound; lia].
Qed.

Lemma from_le_range l : Forall (in_word 8) l -> in_word (8 * zlen l) (from_le l).
Proof.
  unfold zlen. induction 1 as [|b l Hb Hl IH]; cbn [from_le length]; [by split|].
  unfold in_word in *. rewrite pow_byte. change (2 ^ 8) with 256 in Hb. lia.
Qed.

Lemma to_le_from_le l : Forall (in_word 8) l -> to_le (length l) (from_le l) = l.
Proof.
  induction 1 as [|b l Hb Hl IH]; simpl; [done|]. unfold in_word in Hb. change (2 ^ 8) with 256 in Hb.
  rewrite (Z.mul_comm 256), Z.mod_add, Z.mod_small by lia.
  rewrite Z.div_add, Z.div_small, Z.add_0_l, IH by lia. done.
Qed.

Lemma to_le_bytes n x : Forall (in_word 8) (to_le n x).
Proof.
  revert x. induction n as [|n IH]; intros x; simpl; constructor; [|apply IH].
  unfold in_word. change (2 ^ 8) with 256. apply Z.mod_pos_bound. lia.
Qed.

Definition bytes_ok (l : list Z) : Prop := Forall (in_word 8) l.

(** A little-endian field of [n] bytes at [off]. *)
Definition field (b : list Z) (off n : Z) : Z := from_le (sub b off n).

(** Fields are machine words. *)
Lemma field_range b off n : bytes_ok b -> 0 <= n -> 0 <= field b off n < 2 ^ (8 * n).
Proof.
  intros Hb Hn. unfold field.
  assert (Forall (in_word 8) (sub b off n)) as Hs by (unfold sub; by apply Forall_take, Forall_drop).
  destruct (from_le_range _ Hs) as [H1 H2].
  assert (2 ^ (8 * zlen (sub b off n)) <= 2 ^ (8 * n)); [|lia].
  apply Z.pow_le_mono_r; [lia|]. unfold sub, zlen. rewrite length_take. lia.
Qed.

#[export] Instance in_word_decision w x : Decision (in_word w x).
Proof. unfold in_word. apply _. Defined.

(** For byte lists given by their elements. *)
Lemma bytes_ok_check l : forallb (fun b => (0 <=? b) && (b <? 256)) l = true -> bytes_ok l.
Proof.
  induction l as [|b l IH]; simpl; [constructor|]. intros [Hb Hl]%andb_true_iff.
  constructor; [|by apply IH]. unfold in_word. change (2 ^ 8) with 256. lia.
Qed.
