(* ===== verification/PageSource.v ===== *)
(** The interface between the slab allocator and the page allocator below it:
    a source of single 4 KiB pages.  [Buddy] implements it with [alloc_one]
    and [free_one]; the theorems of [Slab] are proved against the laws only. *)
From S2P Require Import Prelude Word.

Definition PAGE_BYTES : Z := 4096.

(** The two operations [src/kern/mm/slab.rs] calls on [&mut BuddyAllocator]. *)
Class PageSource (P : Type) := {
  page_alloc : P -> outcome (option Z * P);
  page_free : Z -> P -> outcome P;
}.

(** What a client may assume of an allocation: it never crashes, a failure
    changes nothing, and a success returns a page that was not held before,
    lies in the address space and is disjoint from every other held page. *)
Class PageSourceLaws (P : Type) `{PageSource P} := {
  source_wf : P -> Prop;
  held : P -> Z -> Prop;
  held_bounds s a : source_wf s -> held s a -> 0 <= a /\ a + PAGE_BYTES < 2 ^ 64;
  held_apart s a a' : source_wf s -> held s a -> held s a' -> a <> a' ->
    a + PAGE_BYTES <= a' \/ a' + PAGE_BYTES <= a;
  page_alloc_law s : source_wf s ->
    returns (page_alloc s) (fun '(r, s') => source_wf s' /\
      match r with
      | None => s' = s
      | Some a => ~ held s a /\ forall x, held s' x <-> x = a \/ held s x
      end);
  page_free_law s a : source_wf s -> held s a ->
    returns (page_free a s) (fun s' => source_wf s');
}.
