(* ===== verification/Buddy.v ===== *)
(** The page allocator, [src/kern/mm/buddy.rs]: a bitmap in which bit
    [2^order - 1 + idx] stands for block [idx] of [2^order] pages. *)
From S2P Require Import Prelude Word PageSource.

Create HintDb buddy.

Definition PAGE_SIZE : Z := 4096.
Definition MAX_ORDER : Z := 20.
Definition BITMAP_SIZE : Z := Z.shiftl 1 MAX_ORDER.
Definition BITMAP_BYTES : nat := Z.to_nat (BITMAP_SIZE / 8).

(** [lia] after unfolding the constants of the allocator. *)
Ltac blia := unfold MAX_ORDER, PAGE_SIZE in *; lia.

Record BuddyAllocator := mkBuddy {
  base : Z;
  total_pages : Z;
  bitmap : list Z;
  max_order : Z;
}.

Definition new : BuddyAllocator :=
  {| base := 0; total_pages := 0; bitmap := replicate BITMAP_BYTES 0; max_order := 0 |}.

(** [while (1 << order) < self.total_pages && order < MAX_ORDER] *)
Fixpoint init_order (fuel : nat) (total order : Z) : outcome Z :=
  match fuel with
  | O => Crash OutOfFuel
  | S fuel' =>
      if (wshl 64 1 order <? total) && (order <? MAX_ORDER)
      then init_order fuel' total (order ⊞ 1)
      else Ret order
  end.

Definition init (base size : Z) (b : BuddyAllocator) : outcome BuddyAllocator :=
  let total := size / PAGE_SIZE in
  order ← init_order 21 total 0;
  Ret {| base := base; total_pages := total;
         bitmap := (fun _ => 0) <$> bitmap b; max_order := order |}.

Definition bit_index (order idx : Z) : Z := wshl 64 1 order ⊟ 1 ⊞ idx.

Definition get_bit (b : BuddyAllocator) (bit : Z) : bool :=
  if zlen (bitmap b) <=? bit / 8 then true
  else bit_set 8 (default 0 (zget (bitmap b) (bit / 8))) (bit mod 8).

Definition with_bitmap (b : BuddyAllocator) (m : list Z) : BuddyAllocator :=
  {| base := base b; total_pages := total_pages b; bitmap := m; max_order := max_order b |}.

Definition set_bit (b : BuddyAllocator) (bit : Z) : BuddyAllocator :=
  if bit / 8 <? zlen (bitmap b)
  then with_bitmap b (zset (bitmap b) (bit / 8)
         (Z.lor (default 0 (zget (bitmap b) (bit / 8))) (wshl 8 1 (bit mod 8))))
  else b.

Definition clear_bit (b : BuddyAllocator) (bit : Z) : BuddyAllocator :=
  if bit / 8 <? zlen (bitmap b)
  then with_bitmap b (zset (bitmap b) (bit / 8)
         (Z.land (default 0 (zget (bitmap b) (bit / 8))) (wnot 8 (wshl 8 1 (bit mod 8)))))
  else b.

Definition is_free (b : BuddyAllocator) (order idx : Z) : bool :=
  if order =? max_order b
  then let bit := bit_index order idx in negb (get_bit b bit)
  else let bit := bit_index order idx in negb (get_bit b bit).

Definition mark_allocated (b : BuddyAllocator) (order idx : Z) : BuddyAllocator :=
  set_bit b (bit_index order idx).

Definition mark_free (b : BuddyAllocator) (order idx : Z) : BuddyAllocator :=
  clear_bit b (bit_index order idx).

Definition find_free (b : BuddyAllocator) (order : Z) : option Z :=
  let count := wshr 64 (total_pages b) order in
  first_from (is_free b order) 0 (Z.to_nat count).

(** The inner loop of [alloc_pages]: descend to [order], freeing the right
    half at every level. *)
Fixpoint split_down (fuel : nat) (order current_order current_idx : Z)
    (b : BuddyAllocator) : outcome (Z * BuddyAllocator) :=
  match fuel with
  | O => Crash OutOfFuel
  | S fuel' =>
      if order <? current_order then
        let current_order := current_order ⊟ 1 in
        let buddy_idx := current_idx ⊠ 2 ⊞ 1 in
        let b := mark_free b current_order buddy_idx in
        split_down fuel' order current_order (current_idx ⊠ 2) b
      else Ret (current_idx, b)
  end.

(** [while split_order <= self.max_order] *)
Fixpoint split_loop (fuel : nat) (order split_order : Z)
    (b : BuddyAllocator) : outcome (option Z * BuddyAllocator) :=
  match fuel with
  | O => Crash OutOfFuel
  | S fuel' =>
      if split_order <=? max_order b then
        match find_free b split_order with
        | Some idx =>
            let b := mark_allocated b split_order idx in
            '(current_idx, b) ← split_down 22 order split_order idx b;
            let page := wshl 64 current_idx order in
            Ret (Some (base b ⊞ page ⊠ PAGE_SIZE), b)
        | None => split_loop fuel' order (split_order ⊞ 1) b
        end
      else Ret (None, b)
  end.

Definition alloc_pages (order : Z) (b : BuddyAllocator)
    : outcome (option Z * BuddyAllocator) :=
  if max_order b <? order then Ret (None, b)
  else match find_free b order with
  | Some idx =>
      let b := mark_allocated b order idx in
      let page := wshl 64 idx order in
      Ret (Some (base b ⊞ page ⊠ PAGE_SIZE), b)
  | None => split_loop 22 order (order ⊞ 1) b
  end.

(** [while current_order < self.max_order] of [free_pages] *)
Fixpoint coalesce (fuel : nat) (current_order idx : Z) (b : BuddyAllocator)
    : outcome BuddyAllocator :=
  match fuel with
  | O => Crash OutOfFuel
  | S fuel' =>
      if current_order <? max_order b then
        let buddy := Z.lxor idx 1 in
        if is_free b current_order buddy then
          let b := mark_allocated b current_order idx in
          let b := mark_allocated b current_order buddy in
          let idx := wshr 64 idx 1 in
          let current_order := current_order ⊞ 1 in
          coalesce fuel' current_order idx (mark_free b current_order idx)
        else Ret b
      else Ret b
  end.

Definition free_pages (addr order : Z) (b : BuddyAllocator) : outcome BuddyAllocator :=
  if addr <? base b then Ret b
  else
    let page := (addr ⊟ base b) / PAGE_SIZE in
    let idx := wshr 64 page order in
    coalesce 22 order idx (mark_free b order idx).

Definition alloc_one (b : BuddyAllocator) : outcome (option Z * BuddyAllocator) :=
  alloc_pages 0 b.

Definition free_one (addr : Z) (b : BuddyAllocator) : outcome BuddyAllocator :=
  free_pages addr 0 b.

#[global] Opaque BITMAP_BYTES.

(** * Well-formed allocators *)

(** The managed region lies inside the 64-bit address space, the bitmap is the
    code's fixed array, and [max_order] is at most [MAX_ORDER]. *)
Record wf (b : BuddyAllocator) : Prop := {
  wf_base : 0 <= base b;
  wf_total : 0 <= total_pages b;
  wf_region : base b + total_pages b * PAGE_SIZE < 2 ^ 64;
  wf_len : zlen (bitmap b) = BITMAP_SIZE / 8;
  wf_bytes : bm_wf 8 (bitmap b);
  wf_order : 0 <= max_order b <= MAX_ORDER;
}.

(** [b'] manages the same region as [b]. *)
Definition same_region (b b' : BuddyAllocator) : Prop :=
  base b' = base b /\ total_pages b' = total_pages b /\ max_order b' = max_order b.

#[export] Instance same_region_preorder : PreOrder same_region.
Proof.
  split.
  - intros b. repeat split.
  - intros b1 b2 b3 (H1 & H2 & H3) (H4 & H5 & H6). repeat split; congruence.
Qed.

(** The order-0 bit of page [i]. *)
Definition page_used (b : BuddyAllocator) (i : Z) : bool := bm_test 8 (bitmap b) i.

Lemma BITMAP_SIZE_val : BITMAP_SIZE = 1048576.
Proof. reflexivity. Qed.

Section bits.
Context (b : BuddyAllocator) (Hwf : wf b).

Lemma bm_bits_bitmap : bm_bits 8 (bitmap b) = BITMAP_SIZE.
Proof. unfold bm_bits. rewrite (wf_len b Hwf). reflexivity. Qed.

Lemma total_lt : total_pages b <= 2 ^ 52.
Proof. pose proof (wf_region b Hwf). pose proof (wf_base b Hwf). unfold PAGE_SIZE in *. lia. Qed.

Lemma get_bit_test bit : 0 <= bit -> get_bit b bit = page_used b bit.
Proof.
  intros Hb. unfold get_bit, page_used, bm_test.
  pose proof (Z.div_pos bit 8). pose proof (Z.mod_pos_bound bit 8).
  destruct (zget (bitmap b) (bit / 8)) as [x|] eqn:Hx.
  - apply zget_Some in Hx as Hr. case_ltb; [lia|]. simpl.
    apply bit_set_testbit. lia.
  - apply zget_None in Hx. case_ltb; [done | lia].
Qed.

Lemma set_bit_bm bit : 0 <= bit -> set_bit b bit = with_bitmap b (bm_set 8 (bitmap b) bit).
Proof.
  intros Hb. unfold set_bit, bm_set. pose proof (Z.div_pos bit 8).
  destruct (zget (bitmap b) (bit / 8)) as [x|] eqn:Hx.
  - apply zget_Some in Hx as Hr. case_ltb; [done | lia].
  - apply zget_None in Hx. case_ltb; [lia | by destruct b].
Qed.

Lemma clear_bit_bm bit :
  0 <= bit -> clear_bit b bit = with_bitmap b (bm_clear 8 (bitmap b) bit).
Proof.
  intros Hb. unfold clear_bit, bm_clear. pose proof (Z.div_pos bit 8).
  destruct (zget (bitmap b) (bit / 8)) as [x|] eqn:Hx.
  - apply zget_Some in Hx as Hr. case_ltb; [done | lia].
  - apply zget_None in Hx. case_ltb; [lia | by destruct b].
Qed.

Lemma set_bit_wf bit : 0 <= bit -> wf (set_bit b bit).
Proof.
  intros. rewrite set_bit_bm by done. destruct Hwf.
  split; simpl; [done | done | done | by rewrite bm_set_len | | done].
  apply bm_set_wf; [lia | done].
Qed.

Lemma clear_bit_wf bit : 0 <= bit -> wf (clear_bit b bit).
Proof.
  intros. rewrite clear_bit_bm by done. destruct Hwf.
  split; simpl; [done | done | done | by rewrite bm_clear_len | | done].
  by apply bm_clear_wf.
Qed.

Lemma set_bit_region bit : same_region b (set_bit b bit).
Proof. unfold set_bit. destruct (_ <? _); repeat split. Qed.

Lemma clear_bit_region bit : same_region b (clear_bit b bit).
Proof. unfold clear_bit. destruct (_ <? _); repeat split. Qed.

Lemma used_set_bit i j : 0 <= i < BITMAP_SIZE -> 0 <= j ->
  page_used (set_bit b i) j = (i =? j) || page_used b j.
Proof.
  intros Hi Hj. rewrite set_bit_bm by lia. apply bm_test_set; [lia | | done].
  by rewrite bm_bits_bitmap.
Qed.

Lemma used_clear_bit i j : 0 <= i < BITMAP_SIZE -> 0 <= j ->
  page_used (clear_bit b i) j = negb (i =? j) && page_used b j.
Proof.
  intros Hi Hj. rewrite clear_bit_bm by lia. apply bm_test_clear; [lia | | done].
  by rewrite bm_bits_bitmap.
Qed.

Lemma used_out i : BITMAP_SIZE <= i -> page_used b i = true.
Proof.
  intros Hi. apply bm_test_out; [lia | | by rewrite bm_bits_bitmap].
  pose proof BITMAP_SIZE_val. lia.
Qed.

(** Two allocators of the same region with the same bits are equal. *)
Lemma buddy_ext b' : wf b' -> same_region b b' ->
  (forall i, 0 <= i < BITMAP_SIZE -> page_used b' i = page_used b i) -> b' = b.
Proof.
  intros Hwf' (H1 & H2 & H3) Hbits.
  assert (bitmap b' = bitmap b) as Hm.
  { apply (bm_ext 8); [lia | apply wf_bytes, Hwf' | apply wf_bytes, Hwf | |].
    - by rewrite (wf_len b' Hwf'), (wf_len b Hwf).
    - intros j Hj. apply Hbits. unfold bm_bits in Hj. rewrite (wf_len b' Hwf') in Hj.
      exact Hj. }
  destruct b, b'; simpl in *. by subst.
Qed.
End bits.

(** * Block indices *)

(** The bit of block [idx] of order [order], without wrap-around. *)
Lemma bit_index_eq order idx :
  0 <= order <= 52 -> 0 <= idx < 2 ^ 53 -> bit_index order idx = 2 ^ order - 1 + idx.
Proof.
  intros Ho Hi. unfold bit_index. rewrite wshl_1 by lia.
  assert (1 <= 2 ^ order) by (pose proof (Z.pow_pos_nonneg 2 order); lia).
  assert (2 ^ order <= 2 ^ 52) by (apply Z.pow_le_mono_r; lia).
  assert (2 ^ 52 = 4503599627370496) by reflexivity.
  assert (2 ^ 53 = 9007199254740992) by reflexivity.
  assert (2 ^ 64 = 18446744073709551616) by reflexivity.
  rewrite wsub_small by (unfold in_word; lia).
  apply wadd_small. unfold in_word. lia.
Qed.

Lemma bit_index_0 idx : 0 <= idx < 2 ^ 53 -> bit_index 0 idx = idx.
Proof. intros. rewrite bit_index_eq by lia. lia. Qed.

Lemma is_free_eq b order idx : is_free b order idx = negb (get_bit b (bit_index order idx)).
Proof. unfold is_free. by destruct (order =? max_order b). Qed.

(** Every bit consulted for a higher order is also the bit of some page:
    the bit positions of the orders overlap. *)
Lemma block_bit_is_page_bit total order idx :
  0 <= order -> 0 <= idx < total / 2 ^ order -> 2 ^ order - 1 + idx < total.
Proof.
  intros Ho Hi. pose proof (Z.pow_pos_nonneg 2 order).
  pose proof (Z.mul_div_le total (2 ^ order)).
  set (k := 2 ^ order) in *. set (q := total / k) in *. nia.
Qed.

Section alloc.
Context (b : BuddyAllocator) (Hwf : wf b).

Lemma find_free_range order idx : 0 <= order <= MAX_ORDER ->
  find_free b order = Some idx ->
  0 <= idx < total_pages b / 2 ^ order /\ is_free b order idx = true.
Proof.
  intros Ho Hf. unfold find_free, MAX_ORDER in *.
  apply first_from_Some in Hf as (Hr & Hfree & _).
  rewrite wshr_div in Hr by lia.
  assert (0 <= total_pages b / 2 ^ order).
  { apply Z.div_pos; [apply wf_total, Hwf | apply Z.pow_pos_nonneg; lia]. }
  split; [lia | done].
Qed.

(** A block found at [order] lies inside the region. *)
Lemma block_in_region order idx : 0 <= order <= MAX_ORDER ->
  0 <= idx < total_pages b / 2 ^ order ->
  0 <= idx * 2 ^ order /\ idx * 2 ^ order + 2 ^ order <= total_pages b /\ idx < 2 ^ 52.
Proof.
  intros Ho Hi. pose proof (Z.pow_pos_nonneg 2 order).
  pose proof (Z.mul_div_le (total_pages b) (2 ^ order)). pose proof (total_lt b Hwf).
  unfold MAX_ORDER in *. repeat split; nia.
Qed.

Lemma page_address page : 0 <= page < total_pages b ->
  base b ⊞ page ⊠ PAGE_SIZE = base b + page * PAGE_SIZE.
Proof.
  intros Hp. pose proof (wf_region b Hwf). pose proof (wf_base b Hwf).
  unfold PAGE_SIZE in *.
  rewrite wmul_small by (unfold in_word; lia). apply wadd_small. unfold in_word. lia.
Qed.
End alloc.

Lemma mark_allocated_wf b order idx : wf b -> 0 <= order <= 52 -> 0 <= idx < 2 ^ 53 ->
  wf (mark_allocated b order idx).
Proof.
  intros Hwf Ho Hi. apply set_bit_wf; [done|]. rewrite bit_index_eq by done.
  pose proof (Z.pow_pos_nonneg 2 order). lia.
Qed.

Lemma mark_free_wf b order idx : wf b -> 0 <= order <= 52 -> 0 <= idx < 2 ^ 53 ->
  wf (mark_free b order idx).
Proof.
  intros Hwf Ho Hi. apply clear_bit_wf; [done|]. rewrite bit_index_eq by done.
  pose proof (Z.pow_pos_nonneg 2 order). lia.
Qed.

#[export] Hint Resolve mark_allocated_wf mark_free_wf : buddy.

(** * The loops *)

Lemma split_down_returns fuel order cur ci b :
  wf b -> 0 <= order <= cur -> cur <= MAX_ORDER -> cur - order < Z.of_nat fuel ->
  0 <= ci -> ci * 2 ^ cur < 2 ^ 52 ->
  returns (split_down fuel order cur ci b) (fun '(ci', b') =>
    ci' = ci * 2 ^ (cur - order) /\ wf b' /\ same_region b b').
Proof.
  unfold MAX_ORDER. revert cur ci b.
  induction fuel as [|fuel IH]; intros cur ci b Hwf Ho Hc Hf Hci Hlt; [lia|]. cbn [split_down].
  case_ltb.
  - assert (2 ^ cur = 2 * 2 ^ (cur - 1)) as Hpow.
    { rewrite <- (Z.pow_succ_r 2 (cur - 1)) by lia. f_equal. lia. }
    pose proof (Z.pow_pos_nonneg 2 (cur - 1)).
    rewrite wsub_small, (wmul_small 64 ci) by (unfold in_word; nia).
    rewrite wadd_small by (unfold in_word; nia).
    assert (wf (mark_free b (cur - 1) (ci * 2 + 1))) by (apply mark_free_wf; [done | lia | nia]).
    eapply returns_mono.
    + apply IH; [done | lia | lia | lia | lia | nia].
    + intros [ci' b'] (-> & Hwf' & Hreg). repeat split; [| apply Hwf' .. | |  |].
      * rewrite <- Z.mul_assoc. f_equal.
        rewrite <- (Z.pow_succ_r 2 (cur - 1 - order)) by lia. f_equal. lia.
      * apply (transitivity (clear_bit_region b _) Hreg).
      * apply (transitivity (clear_bit_region b _) Hreg).
      * apply (transitivity (clear_bit_region b _) Hreg).
  - replace cur with order by lia. apply returns_ret.
    rewrite Z.sub_diag. repeat split; [lia | apply Hwf ..].
Qed.

(** The postcondition of an allocation of [2^order] pages from [b]. *)
Definition alloc_post (b : BuddyAllocator) (order : Z)
    (p : option Z * BuddyAllocator) : Prop :=
  wf p.2 /\ same_region b p.2 /\
  match p.1 with
  | None => p.2 = b
  | Some addr => exists page,
      addr = base b + page * PAGE_SIZE /\
      0 <= page /\ page + 2 ^ order <= total_pages b /\ (2 ^ order | page)
  end.

Lemma split_loop_returns fuel order so b :
  wf b -> 0 <= order <= so -> so <= MAX_ORDER + 1 ->
  0 < Z.of_nat fuel -> max_order b - so + 1 < Z.of_nat fuel ->
  returns (split_loop fuel order so b) (alloc_post b order).
Proof.
  unfold MAX_ORDER. revert so.
  induction fuel as [|fuel IH]; intros so Hwf Ho Hs Hf0 Hf; [lia|].
  cbn [split_loop]. pose proof (wf_order b Hwf) as Hmo. unfold MAX_ORDER in *. case_ltb.
  2: { apply returns_ret. split; [done|]. split; [done | reflexivity]. }
  destruct (find_free b so) as [idx|] eqn:Hfree.
  2: { rewrite wadd_small by (unfold in_word; lia). apply IH; [done | lia..]. }
  apply (find_free_range b Hwf) in Hfree as [Hidx _]; [|blia].
  destruct (block_in_region b Hwf so idx) as (Hp1 & Hp2 & Hp3); [blia | done|].
  pose proof (total_lt b Hwf). pose proof (Z.pow_pos_nonneg 2 so). pose proof (Z.pow_pos_nonneg 2 order).
  eapply returns_bind.
  { apply split_down_returns; [apply mark_allocated_wf; [done | lia | lia] | blia ..]. }
  intros [ci b'] (-> & Hwf' & Hreg). apply returns_ret.
  assert (idx * 2 ^ (so - order) * 2 ^ order = idx * 2 ^ so) as Hpage.
  { rewrite <- Z.mul_assoc, <- Z.pow_add_r by lia. do 2 f_equal. lia. }
  assert (2 ^ order <= 2 ^ so) by (apply Z.pow_le_mono_r; lia).
  assert (same_region b b') as Hreg'.
  { etransitivity; [apply set_bit_region | exact Hreg]. }
  split; [done|]. split; [done|]. exists (idx * 2 ^ so).
  rewrite wshl_small, Hpage by (unfold in_word; lia).
  destruct Hreg' as (Hb & _ & _). simpl. rewrite Hb.
  rewrite (page_address b Hwf) by lia.
  split; [done|]. split; [lia|]. split; [lia|].
  exists (idx * 2 ^ (so - order)). lia.
Qed.

Lemma alloc_pages_returns b order : wf b -> 0 <= order ->
  returns (alloc_pages order b) (alloc_post b order).
Proof.
  intros Hwf Ho. unfold alloc_pages. pose proof (wf_order b Hwf) as Hmo.
  unfold MAX_ORDER in *. case_ltb.
  { apply returns_ret. split; [done|]. split; [done | reflexivity]. }
  destruct (find_free b order) as [idx|] eqn:Hfree.
  - apply (find_free_range b Hwf) in Hfree as [Hidx _]; [|blia].
    destruct (block_in_region b Hwf order idx) as (Hp1 & Hp2 & Hp3);
      [blia | done|].
    pose proof (total_lt b Hwf). pose proof (Z.pow_pos_nonneg 2 order).
    apply returns_ret. split; [apply mark_allocated_wf; [done | lia | lia]|].
    split; [apply set_bit_region|]. exists (idx * 2 ^ order).
    rewrite wshl_small by (unfold in_word; lia).
    simpl. replace (base (mark_allocated b order idx)) with (base b)
      by (symmetry; apply (set_bit_region b)).
    rewrite (page_address b Hwf) by lia.
    split; [done|]. split; [lia|]. split; [lia|]. by exists idx.
  - rewrite wadd_small by (unfold in_word; lia). apply split_loop_returns; [done | blia..].
Qed.

(** * Allocation of single pages *)

(** When no page is free no larger block is either, because every block bit
    is a page bit; the splitting loop then finds nothing. *)
Lemma no_free_page_no_free_block b order : wf b -> 0 <= order <= MAX_ORDER ->
  find_free b 0 = None -> find_free b order = None.
Proof.
  intros Hwf Ho H0. unfold find_free, MAX_ORDER in *. pose proof (total_lt b Hwf).
  pose proof (wf_total b Hwf).
  apply first_from_None. intros idx Hi.
  pose proof (Z.pow_pos_nonneg 2 order). rewrite wshr_div in Hi by lia.
  assert (0 <= total_pages b / 2 ^ order) by (apply Z.div_pos; lia).
  assert (total_pages b / 2 ^ order <= total_pages b) by (apply Z.div_le_upper_bound; nia).
  pose proof (block_bit_is_page_bit (total_pages b) order idx).
  rewrite first_from_None in H0. rewrite wshr_div, Z.pow_0_r, Z.div_1_r in H0 by lia.
  specialize (H0 (2 ^ order - 1 + idx)).
  rewrite is_free_eq, bit_index_0 in H0 by lia.
  rewrite is_free_eq, bit_index_eq by lia. apply H0. lia.
Qed.

Lemma split_loop_none fuel order so b :
  wf b -> 0 <= order <= so -> so <= MAX_ORDER + 1 ->
  0 < Z.of_nat fuel -> max_order b - so + 1 < Z.of_nat fuel ->
  find_free b 0 = None -> split_loop fuel order so b = Ret (None, b).
Proof.
  intros Hwf Ho Hso Hpos Hfuel H0. revert so Ho Hso Hpos Hfuel.
  pose proof (wf_order b Hwf) as Hmo. unfold MAX_ORDER in *.
  induction fuel as [|fuel IH]; intros so Ho Hs Hf0 Hf; [lia|].
  cbn [split_loop]. case_ltb; [|done].
  rewrite no_free_page_no_free_block by (done || blia).
  rewrite wadd_small by (unfold in_word; lia). apply IH; lia.
Qed.

(** The pages that [alloc_one] searches, in order. *)
Definition first_unused (b : BuddyAllocator) : option Z :=
  first_from (fun i => negb (page_used b i)) 0 (Z.to_nat (total_pages b)).

Lemma find_free_0 b : wf b -> find_free b 0 = first_unused b.
Proof.
  intros Hwf. unfold find_free, first_unused. pose proof (total_lt b Hwf).
  rewrite wshr_div, Z.pow_0_r, Z.div_1_r by lia.
  apply first_from_ext. intros i Hi.
  rewrite is_free_eq, bit_index_0, get_bit_test by (done || lia). done.
Qed.

Lemma first_unused_range b i : wf b -> first_unused b = Some i ->
  0 <= i < total_pages b /\ i < BITMAP_SIZE /\ page_used b i = false.
Proof.
  intros Hwf Hi. apply first_from_Some in Hi as (Hr & Hu & _).
  pose proof (wf_total b Hwf). apply negb_true_iff in Hu.
  repeat split; [lia | lia | | done].
  destruct (Z.ltb_spec i BITMAP_SIZE); [done|]. rewrite used_out in Hu; [done | done | lia].
Qed.

Lemma alloc_one_eq b : wf b ->
  alloc_one b = Ret (match first_unused b with
                     | Some i => (Some (base b + i * PAGE_SIZE), set_bit b i)
                     | None => (None, b)
                     end).
Proof.
  intros Hwf. unfold alloc_one, alloc_pages. pose proof (wf_order b Hwf) as Hmo.
  decide_tests. rewrite find_free_0 by done.
  destruct (first_unused b) as [i|] eqn:Hi.
  - apply first_unused_range in Hi as (Hr & Hlt & Hu); [|done]. pose proof (total_lt b Hwf).
    unfold mark_allocated. rewrite bit_index_0 by lia.
    rewrite wshl_small, Z.mul_1_r by (unfold in_word; lia).
    replace (base (set_bit b i)) with (base b) by (symmetry; apply (set_bit_region b)).
    by rewrite page_address.
  - unfold MAX_ORDER in *. rewrite wadd_small by (unfold in_word; lia).
    apply split_loop_none; [done | blia .. |].
    by rewrite find_free_0.
Qed.

(** * Initialisation *)

Lemma init_order_returns fuel total order :
  0 <= order <= MAX_ORDER -> MAX_ORDER - order < Z.of_nat fuel ->
  (forall o, 0 <= o < order -> 2 ^ o < total) ->
  returns (init_order fuel total order) (fun mo =>
    order <= mo <= MAX_ORDER /\ (total <= 2 ^ mo \/ mo = MAX_ORDER) /\
    (forall o, 0 <= o < mo -> 2 ^ o < total)).
Proof.
  unfold MAX_ORDER. revert order.
  induction fuel as [|fuel IH]; intros order Ho Hf Hlt; [lia|]. cbn [init_order].
  rewrite wshl_1 by lia. unfold MAX_ORDER.
  destruct (Z.ltb_spec (2 ^ order) total), (Z.ltb_spec order 20); simpl.
  - rewrite wadd_small by (unfold in_word; lia).
    eapply returns_mono.
    + apply IH; [lia | lia |]. intros o Hol.
      destruct (decide (o = order)); [by subst | apply Hlt; lia].
    + intros mo (H1 & H2 & H3). repeat split; [lia | lia | done | done].
  - apply returns_ret. repeat split; [lia | lia | lia | done].
  - apply returns_ret. repeat split; [lia | lia | lia | done].
  - apply returns_ret. repeat split; [lia | lia | lia | done].
Qed.

Definition init_post (base0 size : Z) (b : BuddyAllocator) : Prop :=
  wf b /\ base b = base0 /\ total_pages b = size / PAGE_SIZE /\
  (total_pages b <= 2 ^ max_order b \/ max_order b = MAX_ORDER) /\
  (forall o, 0 <= o < max_order b -> 2 ^ o < total_pages b) /\
  (forall i, 0 <= i < BITMAP_SIZE -> page_used b i = false).

Lemma init_returns base0 size b :
  0 <= base0 -> 0 <= size -> base0 + size < 2 ^ 64 ->
  zlen (bitmap b) = BITMAP_SIZE / 8 ->
  returns (init base0 size b) (init_post base0 size).
Proof.
  intros Hb Hs Hr Hlen. unfold init. eapply returns_bind.
  { apply init_order_returns; [blia | blia |]. intros; lia. }
  intros mo (Hmo & Hmax & Hmin). apply returns_ret.
  assert (((fun _ => 0) <$> bitmap b) = replicate (length (bitmap b)) 0) as Hz.
  { clear. induction (bitmap b) as [|x l IH]; simpl; [done | by rewrite <- IH]. }
  pose proof (Z.mul_div_le size PAGE_SIZE). pose proof (Z.div_pos size PAGE_SIZE).
  unfold init_post. simpl. rewrite Hz.
  repeat split; simpl; try done; try blia.
  - unfold zlen. by rewrite length_replicate.
  - apply bm_wf_zero. lia.
  - intros i Hi. apply bm_test_zero; [lia|]. unfold zlen in Hlen. rewrite Hlen.
    rewrite BITMAP_SIZE_val in *. change (1048576 / 8 * 8) with 1048576. lia.
Qed.

(** * Freeing *)

Lemma coalesce_returns fuel order idx b :
  wf b -> 0 <= order <= MAX_ORDER -> MAX_ORDER - order < Z.of_nat fuel ->
  0 <= idx < 2 ^ 52 ->
  returns (coalesce fuel order idx b) (fun b' => wf b' /\ same_region b b').
Proof.
  unfold MAX_ORDER. revert order idx b.
  induction fuel as [|fuel IH]; intros order idx b Hwf Ho Hf Hi; [lia|]. cbn [coalesce].
  pose proof (wf_order b Hwf). pose proof (lxor_1_range idx).
  case_ltb; [|apply returns_ret; split; [done | reflexivity]].
  destruct (is_free b order (Z.lxor idx 1)); [|apply returns_ret; split; [done | reflexivity]].
  assert (wf (mark_allocated (mark_allocated b order idx) order (Z.lxor idx 1))) as Hwf2.
  { apply mark_allocated_wf; [apply mark_allocated_wf; [done|..] | ..]; lia. }
  rewrite wshr_div by lia. rewrite wadd_small by (unfold in_word; lia). change (2 ^ 1) with 2.
  assert (0 <= idx / 2 <= idx) by (split; [apply Z.div_pos | apply Z.div_le_upper_bound]; lia).
  eapply returns_mono.
  - apply IH; [apply mark_free_wf; [done | blia | lia] | blia | blia | lia].
  - intros b' [Hwf' Hreg]. split; [done|]. etransitivity; [|exact Hreg].
    unfold mark_free, mark_allocated.
    etransitivity; [apply set_bit_region|]. etransitivity; [apply set_bit_region|].
    apply clear_bit_region.
Qed.

Lemma free_pages_returns b addr order :
  wf b -> 0 <= order <= MAX_ORDER -> in_word 64 addr ->
  returns (free_pages addr order b) (fun b' => wf b' /\ same_region b b').
Proof.
  intros Hwf Ho Ha. unfold free_pages. pose proof (wf_base b Hwf). unfold in_word in Ha.
  case_ltb; [apply returns_ret; split; [done | reflexivity]|].
  rewrite wsub_small by (unfold in_word; lia).
  assert (0 <= (addr - base b) / PAGE_SIZE < 2 ^ 52).
  { unfold PAGE_SIZE. split; [apply Z.div_pos; lia | apply Z.div_lt_upper_bound; lia]. }
  rewrite wshr_div by blia. pose proof (Z.pow_pos_nonneg 2 order).
  assert (0 <= (addr - base b) / PAGE_SIZE / 2 ^ order < 2 ^ 52).
  { split; [apply Z.div_pos; lia | apply Z.div_lt_upper_bound; nia]. }
  eapply returns_mono.
  - apply coalesce_returns; [apply mark_free_wf; [done | blia | lia] | blia | blia | lia].
  - intros b' [Hwf' Hreg]. split; [done|]. etransitivity; [|exact Hreg].
    apply clear_bit_region.
Qed.

Lemma coalesce_unfold fuel current_order idx b :
  coalesce (S fuel) current_order idx b =
    if current_order <? max_order b then
      if is_free b current_order (Z.lxor idx 1) then
        coalesce fuel (current_order ⊞ 1) (wshr 64 idx 1)
          (mark_free (mark_allocated (mark_allocated b current_order idx)
                        current_order (Z.lxor idx 1))
             (current_order ⊞ 1) (wshr 64 idx 1))
      else Ret b
    else Ret b.
Proof. reflexivity. Qed.

(** Freeing a page whose buddy is in use clears its bit and nothing else. *)
Lemma free_one_buddy_used b i : wf b -> 0 <= i < total_pages b -> i < BITMAP_SIZE ->
  page_used b (Z.lxor i 1) = true ->
  free_one (base b + i * PAGE_SIZE) b = Ret (clear_bit b i).
Proof.
  intros Hwf Hi Hlt Hbud. pose proof (wf_region b Hwf). pose proof (wf_base b Hwf).
  pose proof (lxor_1_range i). pose proof (total_lt b Hwf).
  unfold free_one, free_pages. unfold PAGE_SIZE in *. decide_tests.
  rewrite wsub_small by (unfold in_word; lia).
  replace (base b + i * 4096 - base b) with (i * 4096) by lia. rewrite Z.div_mul by lia.
  rewrite wshr_div, Z.pow_0_r, Z.div_1_r by lia.
  unfold mark_free. rewrite bit_index_0 by lia. rewrite coalesce_unfold. case_ltb; [|done].
  rewrite is_free_eq, bit_index_0, get_bit_test by lia.
  rewrite used_clear_bit by (done || lia). rewrite Hbud.
  replace (i =? Z.lxor i 1) with false by (symmetry; apply Z.eqb_neq; lia). done.
Qed.

(** Clearing a bit that was just set restores the allocator. *)
Lemma clear_set_bit b i : wf b -> 0 <= i < BITMAP_SIZE -> page_used b i = false ->
  clear_bit (set_bit b i) i = b.
Proof.
  intros Hwf Hi Hu. assert (wf (set_bit b i)) by (apply set_bit_wf; [done | lia]).
  apply buddy_ext; [done | apply clear_bit_wf; [done | lia] | |].
  - etransitivity; [apply set_bit_region | apply clear_bit_region].
  - intros j Hj. rewrite used_clear_bit, used_set_bit by (done || lia).
    destruct (Z.eqb_spec i j) as [->|]; [by rewrite Hu | done].
Qed.

(** * Sequences of operations *)

Inductive page_op := AllocOne | FreeOne (addr : Z).

(** Run a client's operations in order and collect what the allocations
    return. *)
Fixpoint run (ops : list page_op) (b : BuddyAllocator)
    : outcome (list (option Z) * BuddyAllocator) :=
  match ops with
  | [] => Ret ([], b)
  | AllocOne :: ops =>
      '(r, b) ← alloc_one b; '(rs, b) ← run ops b; Ret (r :: rs, b)
  | FreeOne addr :: ops => b ← free_one addr b; run ops b
  end.

(** The first [k] pages are in use, the others free. *)
Definition prefix_used (b : BuddyAllocator) (k : Z) : Prop :=
  forall i, 0 <= i < BITMAP_SIZE -> page_used b i = (i <? k).

Lemma alloc_one_prefix b k : wf b -> prefix_used b k ->
  0 <= k < total_pages b -> k < BITMAP_SIZE ->
  returns (alloc_one b) (fun '(r, b') =>
    r = Some (base b + k * PAGE_SIZE) /\ wf b' /\ same_region b b' /\ prefix_used b' (k + 1)).
Proof.
  intros Hwf Hp Hk Hlt. rewrite alloc_one_eq by done.
  replace (first_unused b) with (Some k).
  - apply returns_ret. split; [done|]. split; [apply set_bit_wf; [done | lia]|].
    split; [apply set_bit_region|]. intros i Hi.
    rewrite used_set_bit, Hp by (done || lia).
    destruct (Z.eqb_spec k i), (Z.ltb_spec i k), (Z.ltb_spec i (k + 1)); done || lia.
  - symmetry. apply first_from_Some. rewrite Hp by lia. rewrite Z.ltb_irrefl.
    repeat split; [lia | lia |]. intros j Hj. rewrite Hp by lia.
    by replace (j <? k) with true by (symmetry; apply Z.ltb_lt; lia).
Qed.

Lemma alloc_one_exhausted b : wf b -> prefix_used b (Z.min (total_pages b) BITMAP_SIZE) ->
  alloc_one b = Ret (None, b).
Proof.
  intros Hwf Hp. rewrite alloc_one_eq by done. pose proof (wf_total b Hwf).
  replace (first_unused b) with (@None Z); [done|]. symmetry.
  apply first_from_None. intros i Hi. apply negb_false_iff.
  destruct (Z.ltb_spec i BITMAP_SIZE); [|apply used_out; [done | lia]].
  rewrite Hp by lia. apply Z.ltb_lt. lia.
Qed.

Lemma run_allocs n b k : wf b -> prefix_used b k -> 0 <= k ->
  k + Z.of_nat n <= Z.min (total_pages b) BITMAP_SIZE ->
  returns (run (replicate n AllocOne) b) (fun '(rs, b') =>
    rs = (fun i => Some (base b + i * PAGE_SIZE)) <$> zseq k n /\
    wf b' /\ same_region b b' /\ prefix_used b' (k + Z.of_nat n)).
Proof.
  revert b k. induction n as [|n IH]; intros b k Hwf Hp Hk Hle.
  - apply returns_ret. rewrite Z.add_0_r. repeat split; try done; apply Hwf.
  - cbn [replicate run].
    eapply returns_bind; [apply (alloc_one_prefix b k); [done | done | lia | lia]|].
    intros [r b1] (-> & Hwf1 & Hreg & Hp1). destruct Hreg as (H1 & H2 & H3).
    eapply returns_bind; [apply (IH b1 (k + 1)); [done | done | lia | rewrite H2; lia]|].
    intros [rs b2] (-> & Hwf2 & Hreg2 & Hp2). apply returns_ret.
    rewrite H1. split; [done|]. split; [done|]. split.
    + etransitivity; [|exact Hreg2]. done.
    + by replace (k + Z.of_nat (S n)) with (k + 1 + Z.of_nat n) by lia.
Qed.

(** * The allocator as a page source *)

#[export] Instance buddy_source : PageSource BuddyAllocator :=
  {| page_alloc := alloc_one; page_free := free_one |}.

(** A page of the region whose bit is set. *)
Definition page_held (b : BuddyAllocator) (a : Z) : Prop :=
  exists i, a = base b + i * PAGE_SIZE /\ 0 <= i < total_pages b /\ page_used b i = true.

#[export] Program Instance buddy_source_laws : PageSourceLaws BuddyAllocator :=
  {| source_wf := wf; held := page_held |}.
Next Obligation.
  intros b a Hwf (i & -> & Hi & _). pose proof (wf_region b Hwf). pose proof (wf_base b Hwf).
  unfold PAGE_BYTES, PAGE_SIZE in *. lia.
Qed.
Next Obligation.
  intros b a a' Hwf (i & -> & Hi & _) (j & -> & Hj & _) Hne.
  unfold PAGE_BYTES, PAGE_SIZE in *. lia.
Qed.
Next Obligation.
  intros b Hwf. simpl. rewrite alloc_one_eq by done.
  destruct (first_unused b) as [i|] eqn:Hi; apply returns_ret; [|done].
  apply first_unused_range in Hi as (Hr & Hlt & Hu); [|done].
  split; [apply set_bit_wf; [done | lia]|].
  pose proof (set_bit_region b i) as (H1 & H2 & _). split.
  - intros (j & Heq & Hj & Huj). assert (i = j) as <- by blia. congruence.
  - intros x. unfold page_held. rewrite H1, H2. split.
    + intros (j & -> & Hj & Huj). rewrite used_set_bit in Huj by (done || lia).
      destruct (Z.eqb_spec i j) as [->|]; [by left | right; eauto].
    + intros [-> | (j & -> & Hj & Huj)].
      * exists i. rewrite used_set_bit, Z.eqb_refl by (done || lia). done.
      * exists j. rewrite used_set_bit, Huj, orb_true_r by (done || lia). done.
Qed.
Next Obligation.
  intros b a Hwf (i & -> & Hi & _). simpl. eapply returns_mono.
  - apply free_pages_returns; [done | blia |].
    pose proof (wf_region b Hwf). pose proof (wf_base b Hwf).
    unfold in_word, PAGE_SIZE in *. lia.
  - intros b' H. apply H.
Qed.

(** * Properties *)

(** A freshly initialised allocator over 16 pages, for the witnesses. *)
Definition demo_base : Z := 18446603336221196288. (* 0xFFFF800000000000 *)
Definition demo : BuddyAllocator :=
  match init demo_base (16 * PAGE_SIZE) new with Ret b => b | Crash _ => new end.

(** The value an operation returns, without the state; closed runs are
    evaluated through it. *)
Definition observed {A B} (m : outcome (A * B)) : option A :=
  match m with Ret (a, _) => Some a | Crash _ => None end.

Lemma observed_Some {A B} (m : outcome (A * B)) a :
  observed m = Some a -> exists b, m = Ret (a, b).
Proof. destruct m as [[x b]|c]; simpl; intros [= ->]. by exists b. Qed.

Lemma new_len : zlen (bitmap new) = BITMAP_SIZE / 8.
Proof. vm_compute. reflexivity. Qed.

Lemma demo_post : init_post demo_base (16 * PAGE_SIZE) demo.
Proof.
  unfold demo. destruct (init_returns demo_base (16 * PAGE_SIZE) new) as (b & -> & Hb).
  - unfold demo_base. lia.
  - unfold PAGE_SIZE. lia.
  - unfold demo_base, PAGE_SIZE. lia.
  - apply new_len.
  - exact Hb.
Qed.

Lemma demo_wf : wf demo.
Proof. apply demo_post. Qed.

(** C6: [alloc_pages] always terminates without a crash, keeps the allocator
    well formed and over the same region, changes nothing when it fails, and
    otherwise returns the address of a block of [2^order] pages that is aligned
    to its size (relative to the base) and lies wholly inside the region. *)
Theorem alloc_pages_sound (b : BuddyAllocator) (order : Z) :
  wf b -> 0 <= order ->
  exists r b', alloc_pages order b = Ret (r, b') /\ wf b' /\ same_region b b' /\
    match r with
    | None => b' = b
    | Some addr => exists page,
        addr = base b + page * PAGE_SIZE /\ 0 <= page /\
        page + 2 ^ order <= total_pages b /\ (2 ^ order | page)
    end.
Proof.
  intros Hwf Ho. destruct (alloc_pages_returns b order Hwf Ho) as ([r b'] & -> & H).
  exists r, b'. split; [done|]. apply H.
Qed.

Lemma alloc_pages_sound_witness : exists b', alloc_pages 2 demo = Ret (Some demo_base, b') /\ wf b'.
Proof.
  destruct (alloc_pages_sound demo 2 demo_wf ltac:(lia)) as (r & b' & Hr & Hwf & _).
  exists b'. split; [|exact Hwf].
  assert (observed (alloc_pages 2 demo) = Some (Some demo_base)) as He by (vm_compute; reflexivity).
  rewrite Hr in He. injection He as ->. exact Hr.
Defined.

(** [alloc_one] is first fit: it returns the lowest page whose bit is
    clear and sets exactly that bit; it fails exactly when no page of the
    region has a clear bit, and then leaves the allocator unchanged.  In
    particular the block-splitting path never contributes a single page. *)
Theorem alloc_one_first_fit (b : BuddyAllocator) :
  wf b ->
  (forall i, 0 <= i < total_pages b -> page_used b i = false ->
     (forall j, 0 <= j < i -> page_used b j = true) ->
     exists b', alloc_one b = Ret (Some (base b + i * PAGE_SIZE), b') /\
       forall j, 0 <= j -> page_used b' j = (i =? j) || page_used b j) /\
  ((forall i, 0 <= i < total_pages b -> page_used b i = true) ->
     alloc_one b = Ret (None, b)).
Proof.
  intros Hwf. rewrite alloc_one_eq by done. split.
  - intros i Hi Hu Hlt.
    assert (first_unused b = Some i) as Hf.
    { apply first_from_Some. rewrite Hu. repeat split; [lia | lia |].
      intros j Hj. by rewrite Hlt. }
    rewrite Hf. apply first_unused_range in Hf as (_ & Hsz & _); [|done].
    exists (set_bit b i). split; [done|]. intros j Hj. apply used_set_bit; [done | lia | done].
  - intros Hall. pose proof (wf_total b Hwf).
    replace (first_unused b) with (@None Z); [done|]. symmetry.
    apply first_from_None. intros i Hi. rewrite Hall by lia. done.
Qed.

Lemma alloc_one_first_fit_witness :
  exists b', alloc_one demo = Ret (Some (base demo + 0 * PAGE_SIZE), b').
Proof.
  destruct (proj1 (alloc_one_first_fit demo demo_wf) 0) as (b' & H & _).
  - split; [lia | vm_compute; reflexivity].
  - vm_compute. reflexivity.
  - intros j Hj. lia.
  - exists b'. exact H.
Defined.

(** on a freshly initialised allocator, [n] successive [alloc_one] hand
    out the pages [0 .. n-1] of the region, each once, in ascending order, for
    every [n] up to the number of pages the bitmap covers; after that the
    allocator reports exhaustion. *)
Theorem fresh_allocations_distinct (base0 size : Z) (b0 : BuddyAllocator) (n : nat) :
  0 <= base0 -> 0 <= size -> base0 + size < 2 ^ 64 -> zlen (bitmap b0) = BITMAP_SIZE / 8 ->
  Z.of_nat n <= Z.min (size / PAGE_SIZE) BITMAP_SIZE ->
  exists b b', init base0 size b0 = Ret b /\
    run (replicate n AllocOne) b =
      Ret ((fun i => Some (base0 + i * PAGE_SIZE)) <$> zseq 0 n, b') /\
    (Z.of_nat n = Z.min (size / PAGE_SIZE) BITMAP_SIZE -> alloc_one b' = Ret (None, b')).
Proof.
  intros Hb Hs Hr Hlen Hn.
  destruct (init_returns base0 size b0 Hb Hs Hr Hlen)
    as (b & Hinit & Hwf & Hbase & Htot & _ & _ & Hfree).
  destruct (run_allocs n b 0 Hwf) as ([rs b'] & Hrun & -> & Hwf' & Hreg & Hp).
  - intros i Hi. rewrite Hfree by done. symmetry. apply Z.ltb_ge. lia.
  - lia.
  - rewrite Htot. lia.
  - exists b, b'. split; [done|]. rewrite Hbase in Hrun. split; [done|].
    intros Hfull. apply alloc_one_exhausted; [done|].
    destruct Hreg as (_ & -> & _). rewrite Htot, <- Hfull. done.
Qed.

Lemma fresh_allocations_distinct_witness :
  exists b b', init demo_base (16 * PAGE_SIZE) new = Ret b /\
    run (replicate 16 AllocOne) b =
      Ret ((fun i => Some (demo_base + i * PAGE_SIZE)) <$> zseq 0 16, b') /\
    (Z.of_nat 16 = Z.min (16 * PAGE_SIZE / PAGE_SIZE) BITMAP_SIZE ->
     alloc_one b' = Ret (None, b')).
Proof.
  apply (fresh_allocations_distinct demo_base (16 * PAGE_SIZE) new 16);
    [unfold demo_base; lia | unfold PAGE_SIZE; lia | unfold demo_base, PAGE_SIZE; lia
    | apply new_len | vm_compute; discriminate].
Defined.

(** [free_one] undoes [alloc_one] exactly, as long as the buddy of the
    returned page is in use (so that freeing does not coalesce). *)
Theorem alloc_free_one_roundtrip (b b' : BuddyAllocator) (addr : Z) :
  wf b -> alloc_one b = Ret (Some addr, b') ->
  page_used b (Z.lxor ((addr - base b) / PAGE_SIZE) 1) = true ->
  free_one addr b' = Ret b.
Proof.
  intros Hwf Ha Hbud. rewrite alloc_one_eq in Ha by done.
  destruct (first_unused b) as [i|] eqn:Hi; [|done].
  apply first_unused_range in Hi as (Hr & Hlt & Hu); [|done].
  injection Ha as <- <-.
  replace ((base b + i * PAGE_SIZE - base b) / PAGE_SIZE) with i in Hbud.
  2: { replace (base b + i * PAGE_SIZE - base b) with (i * PAGE_SIZE) by lia.
       symmetry. apply Z.div_mul. unfold PAGE_SIZE. lia. }
  pose proof (set_bit_region b i) as (H1 & H2 & H3). pose proof (lxor_1_range i).
  rewrite <- H1. rewrite free_one_buddy_used.
  - by rewrite clear_set_bit by (done || lia).
  - apply set_bit_wf; [done | lia].
  - lia.
  - done.
  - rewrite used_set_bit by (done || lia). by rewrite Hbud, orb_true_r.
Qed.

(** The demo allocator with its first page handed out. *)
Definition demo1 : BuddyAllocator :=
  match alloc_one demo with Ret (_, b) => b | Crash _ => demo end.

Lemma demo1_wf : wf demo1.
Proof.
  unfold demo1. destruct (alloc_pages_returns demo 0 demo_wf ltac:(lia)) as ([r b1] & H1 & H & _).
  unfold alloc_one. rewrite H1. exact H.
Qed.

Lemma alloc_free_one_roundtrip_witness : exists b2,
  alloc_one demo1 = Ret (Some (demo_base + PAGE_SIZE), b2) /\
  free_one (demo_base + PAGE_SIZE) b2 = Ret demo1.
Proof.
  destruct (observed_Some (alloc_one demo1) (Some (demo_base + PAGE_SIZE))) as [b2 H2];
    [vm_compute; reflexivity|].
  exists b2. split; [exact H2|].
  apply (alloc_free_one_roundtrip demo1 b2 (demo_base + PAGE_SIZE) demo1_wf H2).
  vm_compute. reflexivity.
Defined.

(** The initial state of every region: no bit is set. *)
Lemma fresh_bits base0 size b : init_post base0 size b ->
  forall i, 0 <= i < BITMAP_SIZE -> page_used b i = false.
Proof. intros (_ & _ & _ & _ & _ & H). exact H. Qed.

(** on every freshly initialised region of at least two pages, a
    one-page allocation followed by a two-page allocation returns the same
    address twice: allocating a block does not mark the blocks of the other
    orders that contain it, so the two live blocks overlap. *)
Theorem mixed_orders_overlap (base0 size : Z) (b0 : BuddyAllocator) :
  0 <= base0 -> 0 <= size -> base0 + size < 2 ^ 64 -> zlen (bitmap b0) = BITMAP_SIZE / 8 ->
  2 * PAGE_SIZE <= size ->
  exists b b1 b2, init base0 size b0 = Ret b /\
    alloc_pages 0 b = Ret (Some base0, b1) /\ alloc_pages 1 b1 = Ret (Some base0, b2).
Proof.
  intros Hb Hs Hr Hlen H2.
  destruct (init_returns base0 size b0 Hb Hs Hr Hlen)
    as (b & Hinit & Hwf & Hbase & Htot & Hmax & Hmin & Hfree).
  assert (2 <= total_pages b) as Ht.
  { rewrite Htot. apply Z.div_le_lower_bound; [blia | lia]. }
  assert (1 <= max_order b) as Hmo.
  { destruct Hmax as [Hmax| ->]; [|blia].
    destruct (Z.ltb_spec (max_order b) 1); [|done]. pose proof (wf_order b Hwf).
    replace (max_order b) with 0 in Hmax by lia. simpl in Hmax. lia. }
  pose proof BITMAP_SIZE_val.
  assert (alloc_pages 0 b = Ret (Some base0, set_bit b 0)) as H0.
  { change (alloc_pages 0 b) with (alloc_one b). rewrite alloc_one_eq by done.
    replace (first_unused b) with (Some 0).
    - by rewrite Z.mul_0_l, Z.add_0_r, Hbase.
    - symmetry. apply first_from_Some. rewrite Hfree by lia.
      repeat split; [lia | lia |]. intros j Hj. lia. }
  pose proof (set_bit_region b 0) as (R1 & R2 & R3).
  exists b, (set_bit b 0), (mark_allocated (set_bit b 0) 1 0).
  split; [done|]. split; [done|]. unfold alloc_pages. decide_tests.
  replace (find_free (set_bit b 0) 1) with (Some 0).
  - change (wshl 64 0 1) with 0. unfold mark_allocated at 1.
    replace (base (set_bit (set_bit b 0) (bit_index 1 0))) with base0.
    + change (0 ⊠ PAGE_SIZE) with 0. rewrite wadd_small, Z.add_0_r; [done|].
      unfold in_word. blia.
    + destruct (set_bit_region (set_bit b 0) (bit_index 1 0)) as (-> & _ & _). congruence.
  - symmetry. unfold find_free. apply first_from_Some.
    rewrite wshr_div, R2 by lia. change (2 ^ 1) with 2.
    assert (1 <= total_pages b / 2) by (apply Z.div_le_lower_bound; lia).
    repeat split; [lia | lia | | intros j Hj; lia].
    rewrite is_free_eq, bit_index_eq, get_bit_test by lia. change (2 ^ 1 - 1 + 0) with 1.
    rewrite used_set_bit, Hfree by (done || lia). done.
Qed.

Lemma mixed_orders_overlap_witness : exists b b1 b2,
  init demo_base (16 * PAGE_SIZE) new = Ret b /\
  alloc_pages 0 b = Ret (Some demo_base, b1) /\ alloc_pages 1 b1 = Ret (Some demo_base, b2).
Proof.
  apply (mixed_orders_overlap demo_base (16 * PAGE_SIZE) new);
    [unfold demo_base; lia | unfold PAGE_SIZE; lia | unfold demo_base, PAGE_SIZE; lia
    | apply new_len | unfold PAGE_SIZE; lia].
Defined.

(** coalescing corrupts the map of single pages.  On a fresh region of 16
    pages, after six [alloc_one] (pages 0 to 5) and [free_one] of pages 5 and
    4, the next [alloc_one] returns page 3, which is still held: the order-1
    bit that the coalescing clears is also the bit of page 3. *)
Theorem coalescing_reissues_held_page :
  exists b b', init demo_base (16 * PAGE_SIZE) new = Ret b /\
    run (replicate 6 AllocOne ++
         [FreeOne (demo_base + 5 * PAGE_SIZE); FreeOne (demo_base + 4 * PAGE_SIZE); AllocOne]) b
    = Ret ((fun i => Some (demo_base + i * PAGE_SIZE)) <$> [0; 1; 2; 3; 4; 5; 3], b').
Proof.
  destruct (init demo_base (16 * PAGE_SIZE) new) as [b|c] eqn:Hi.
  2: { exfalso. destruct (init_returns demo_base (16 * PAGE_SIZE) new) as (b & Hb & _);
       [unfold demo_base; lia | blia | unfold demo_base; blia | apply new_len | congruence]. }
  exists b. set (ops := replicate 6 AllocOne ++ _).
  destruct (observed_Some (run ops b)
    ((fun i => Some (demo_base + i * PAGE_SIZE)) <$> [0; 1; 2; 3; 4; 5; 3])) as [b' Hb'].
  - replace b with demo by (unfold demo; by rewrite Hi). vm_compute. reflexivity.
  - by exists b'.
Qed.
