(* ===== verification/Slab.v ===== *)
(** The object allocator, [src/kern/mm/slab.rs]: [SlabPage] is module [Page],
    [SlabCache] module [Cache], [SlabAllocator] module [Slabs].  The page
    allocator below is any [PageSource]; the kernel's is [Buddy]. *)
From S2P Require Import Prelude Word PageSource.

Definition SLAB_SIZES : list Z := [16; 32; 64; 128; 256; 512; 1024; 2048].
Definition MAX_SLABS_PER_SIZE : Z := 16.

Module Page.

Record SlabPage := mkPage {
  base : Z;
  obj_size : Z;
  capacity : Z;
  bitmap : list Z;
}.

#[export] Instance SlabPage_eq_dec : EqDecision SlabPage.
Proof. solve_decision. Defined.

Definition with_bitmap (p : SlabPage) (m : list Z) : SlabPage :=
  {| base := base p; obj_size := obj_size p; capacity := capacity p; bitmap := m |}.

Definition new (base obj_size : Z) : outcome SlabPage :=
  capacity ← checked_div PAGE_BYTES obj_size;
  let capacity := if 256 <? capacity then 256 else capacity in
  Ret {| base := base; obj_size := obj_size; capacity := capacity; bitmap := replicate 4 0 |}.

(** [for word in 0..4]; [words] are the indices still to visit. *)
Fixpoint alloc_words (words : list Z) (p : SlabPage) : outcome (option Z * SlabPage) :=
  match words with
  | [] => Ret (None, p)
  | word :: words =>
      x ← arr_get (bitmap p) word;
      let free := wnot 64 x in
      if negb (free =? 0) then
        let bit := trailing_zeros 64 free in
        let i := word ⊠ 64 ⊞ bit in
        if capacity p <=? i then alloc_words words p
        else
          m ← arr_set (bitmap p) word (Z.lor x (wshl 64 1 bit));
          Ret (Some (base p ⊞ i ⊠ obj_size p), with_bitmap p m)
      else alloc_words words p
  end.

Definition alloc (p : SlabPage) : outcome (option Z * SlabPage) :=
  alloc_words (zseq 0 4) p.

Definition in_range (p : SlabPage) (addr : Z) : bool :=
  (base p <=? addr) && (addr <? base p ⊞ capacity p ⊠ obj_size p).

Definition free (ptr : Z) (p : SlabPage) : outcome (bool * SlabPage) :=
  if (ptr <? base p) || (base p ⊞ capacity p ⊠ obj_size p <=? ptr) then Ret (false, p)
  else
    idx ← checked_div (ptr ⊟ base p) (obj_size p);
    let word := idx / 64 in
    let bit := idx mod 64 in
    x ← arr_get (bitmap p) word;
    m ← arr_set (bitmap p) word (Z.land x (wnot 64 (wshl 64 1 bit)));
    Ret (true, with_bitmap p m).

(** [for w in 0..full_words] of [is_full]: all these words are [u64::MAX]. *)
Fixpoint full_words_set (ws : list Z) (p : SlabPage) : outcome bool :=
  match ws with
  | [] => Ret true
  | w :: ws =>
      x ← arr_get (bitmap p) w;
      if negb (x =? U64_MAX) then Ret false else full_words_set ws p
  end.

Definition is_full (p : SlabPage) : outcome bool :=
  let full_words := capacity p / 64 in
  full ← full_words_set (zseq 0 (Z.to_nat full_words)) p;
  if (full : bool) then
    let rem := capacity p mod 64 in
    if 0 <? rem then
      let mask := wshl 64 1 rem ⊟ 1 in
      x ← arr_get (bitmap p) full_words;
      Ret (Z.land x mask =? mask)
    else Ret true
  else Ret false.

Definition is_empty (p : SlabPage) : bool := bool_decide (bitmap p = replicate 4 0).

Definition contains (ptr : Z) (p : SlabPage) : bool :=
  (base p <=? ptr) && (ptr <? base p ⊞ capacity p ⊠ obj_size p).

(** ** Invariant *)

(** Object [i] of the page is allocated. *)
Definition used (p : SlabPage) (i : Z) : bool := bm_test 64 (bitmap p) i.

Record wf (p : SlabPage) : Prop := {
  wf_base : 0 <= base p;
  wf_region : base p + PAGE_BYTES < 2 ^ 64;
  wf_size : 0 < obj_size p <= PAGE_BYTES;
  wf_capacity : capacity p = Z.min 256 (PAGE_BYTES / obj_size p);
  wf_len : zlen (bitmap p) = 4;
  wf_words : bm_wf 64 (bitmap p);
  wf_tail : forall i, capacity p <= i < 256 -> used p i = false;
}.

Definition obj_addr (p : SlabPage) (i : Z) : Z := base p + i * obj_size p.

(** The objects of the page that are handed out, by address. *)
Definition live (p : SlabPage) (a : Z) : Prop :=
  exists i, a = obj_addr p i /\ 0 <= i < capacity p /\ used p i = true.

Definition first_unused (p : SlabPage) : option Z :=
  first_from (fun i => negb (used p i)) 0 (Z.to_nat (capacity p)).

Section page.
Context (p : SlabPage) (Hwf : wf p).

Lemma bits_256 : bm_bits 64 (bitmap p) = 256.
Proof. unfold bm_bits. by rewrite (wf_len p Hwf). Qed.

Lemma capacity_range : 0 < capacity p <= 256 /\ capacity p * obj_size p <= PAGE_BYTES.
Proof.
  rewrite (wf_capacity p Hwf). pose proof (wf_size p Hwf) as Hs.
  pose proof (Z.mul_div_le PAGE_BYTES (obj_size p)).
  assert (1 <= PAGE_BYTES / obj_size p) by (apply Z.div_le_lower_bound; lia). nia.
Qed.

Lemma obj_range i : 0 <= i < capacity p ->
  base p <= obj_addr p i /\ obj_addr p i + obj_size p <= base p + capacity p * obj_size p.
Proof. intros Hi. unfold obj_addr. pose proof (wf_size p Hwf). nia. Qed.

Lemma end_addr :
  base p ⊞ capacity p ⊠ obj_size p = base p + capacity p * obj_size p.
Proof.
  pose proof capacity_range. pose proof (wf_size p Hwf). pose proof (wf_region p Hwf).
  pose proof (wf_base p Hwf). unfold PAGE_BYTES in *.
  rewrite (wmul_small 64) by (unfold in_word; lia).
  apply wadd_small. unfold in_word. lia.
Qed.

Lemma used_set i j : 0 <= i < 256 -> 0 <= j ->
  used (with_bitmap p (bm_set 64 (bitmap p) i)) j = (i =? j) || used p j.
Proof. intros. apply bm_test_set; [lia | rewrite bits_256; lia | done]. Qed.

Lemma used_clear i j : 0 <= i < 256 -> 0 <= j ->
  used (with_bitmap p (bm_clear 64 (bitmap p) i)) j = negb (i =? j) && used p j.
Proof. intros. apply bm_test_clear; [lia | rewrite bits_256; lia | done]. Qed.

Lemma set_wf i : 0 <= i < capacity p -> wf (with_bitmap p (bm_set 64 (bitmap p) i)).
Proof.
  intros Hi. pose proof capacity_range. destruct Hwf. split; simpl; try done.
  - by rewrite bm_set_len.
  - apply bm_set_wf; [lia | done].
  - intros j Hj. rewrite used_set by lia.
    destruct (Z.eqb_spec i j); [lia | by apply wf_tail0].
Qed.

Lemma clear_wf i : 0 <= i < 256 -> wf (with_bitmap p (bm_clear 64 (bitmap p) i)).
Proof.
  intros Hi. pose proof capacity_range. destruct Hwf. split; simpl; try done.
  - by rewrite bm_clear_len.
  - by apply bm_clear_wf.
  - intros j Hj. rewrite used_clear, wf_tail0, andb_false_r by lia. done.
Qed.

(** Bits of one word of the map. *)
Lemma word_used k x b : zget (bitmap p) k = Some x -> 0 <= b < 64 ->
  Z.testbit x b = used p (64 * k + b).
Proof.
  intros Hx Hb. unfold used, bm_test.
  replace ((64 * k + b) / 64) with k
    by (rewrite Z.mul_comm, Z.div_add_l, Z.div_small by lia; lia).
  replace ((64 * k + b) mod 64) with b
    by (rewrite Z.mul_comm, Z.add_comm, Z.mod_add, Z.mod_small by lia; lia).
  by rewrite Hx.
Qed.

Lemma word_get k : 0 <= k < 4 -> exists x, zget (bitmap p) k = Some x /\ in_word 64 x.
Proof.
  intros Hk. destruct (zget_is_Some (bitmap p) k) as [x Hx].
  { rewrite (wf_len p Hwf). lia. }
  exists x. split; [done|]. by eapply Forall_zget; [apply wf_words|].
Qed.
End page.

(** *** Allocation is first fit over the page's objects *)

Lemma alloc_words_spec p k n : wf p -> 0 <= k -> k + Z.of_nat n = 4 ->
  (forall j, 0 <= j < 64 * k -> j < capacity p -> used p j = true) ->
  alloc_words (zseq k n) p =
    Ret (match first_unused p with
         | Some i => (Some (obj_addr p i), with_bitmap p (bm_set 64 (bitmap p) i))
         | None => (None, p)
         end).
Proof.
  intros Hwf. revert k. induction n as [|n IH]; intros k Hk Hn Hused; cbn [zseq alloc_words].
  - destruct (capacity_range p Hwf). replace (first_unused p) with (@None Z); [done|].
    symmetry. apply first_from_None. intros j Hj. apply negb_false_iff, Hused; lia.
  - destruct (word_get p Hwf k) as (x & Hx & Hxw); [lia|].
    unfold arr_get. rewrite Hx, bind_ret.
    destruct (Z.eqb_spec (wnot 64 x) 0) as [Hz|Hz]; simpl.
    + apply IH; [lia | lia |]. intros j Hj Hc.
      destruct (Z.ltb_spec j (64 * k)); [apply Hused; lia|].
      replace j with (64 * k + (j - 64 * k)) by lia. rewrite <- (word_used p k x) by (done || lia).
      apply wnot_zero in Hz as ->; [|lia|done]. apply Z.ones_spec_low. lia.
    + destruct (trailing_zeros_spec 64 (wnot 64 x)) as (Hb & Hset & Hlow);
        [lia | apply wnot_in_word; lia | done|].
      set (bit := trailing_zeros 64 (wnot 64 x)) in *.
      rewrite wmul_small, wadd_small by (unfold in_word; lia).
      assert (forall b, 0 <= b < bit -> used p (64 * k + b) = true) as Hbelow.
      { intros b Hbb. rewrite <- (word_used p k x) by (done || lia).
        specialize (Hlow b Hbb). rewrite wnot_spec in Hlow by lia.
        replace (b <? 64) with true in Hlow by (symmetry; apply Z.ltb_lt; lia).
        by destruct (Z.testbit x b). }
      assert (forall j, 0 <= j < 64 * k + bit -> j < capacity p -> used p j = true) as Hall.
      { intros j Hj Hc. destruct (Z.ltb_spec j (64 * k)); [apply Hused; lia|].
        replace j with (64 * k + (j - 64 * k)) by lia. apply Hbelow. lia. }
      case_ltb.
      * apply IH; [lia | lia |]. intros j Hj Hc. apply Hall; lia.
      * assert (used p (64 * k + bit) = false) as Hfree.
        { rewrite <- (word_used p k x) by (done || lia).
          rewrite wnot_spec in Hset by lia. by destruct (Z.testbit x bit). }
        replace (first_unused p) with (Some (64 * k + bit)).
        2: { symmetry. apply first_from_Some. rewrite Hfree.
             repeat split; [lia | lia |]. intros j Hj. by rewrite Hall by lia. }
        rewrite arr_set_ok by (rewrite (wf_len p Hwf); lia). rewrite bind_ret.
        destruct (capacity_range p Hwf). pose proof (obj_range p Hwf (64 * k + bit)).
        pose proof (wf_size p Hwf). pose proof (wf_base p Hwf). pose proof (wf_region p Hwf).
        unfold obj_addr, PAGE_BYTES in *. rewrite (Z.mul_comm k 64).
        rewrite (wmul_small 64), wadd_small by (unfold in_word; nia).
        unfold bm_set.
        replace ((64 * k + bit) / 64) with k
          by (rewrite Z.mul_comm, Z.div_add_l, Z.div_small by lia; lia).
        replace ((64 * k + bit) mod 64) with bit
          by (rewrite Z.mul_comm, Z.add_comm, Z.mod_add, Z.mod_small by lia; lia).
        by rewrite Hx.
Qed.

Lemma alloc_spec p : wf p ->
  alloc p =
    Ret (match first_unused p with
         | Some i => (Some (obj_addr p i), with_bitmap p (bm_set 64 (bitmap p) i))
         | None => (None, p)
         end).
Proof. intros Hwf. apply alloc_words_spec; [done | lia | lia |]. intros; lia. Qed.

Lemma page_unused_range p i : wf p -> first_unused p = Some i ->
  0 <= i < capacity p /\ used p i = false.
Proof.
  intros Hwf Hi. apply first_from_Some in Hi as (Hr & Hu & _).
  destruct (capacity_range p Hwf). split; [lia|]. by apply negb_true_iff.
Qed.

(** *** [is_full] *)

Lemma ones_word x : in_word 64 x ->
  (x = U64_MAX <-> forall b, 0 <= b < 64 -> Z.testbit x b = true).
Proof.
  intros Hx. split.
  - intros -> b Hb. change U64_MAX with (Z.ones 64). apply Z.ones_spec_low. lia.
  - intros H. apply Z.bits_inj'. intros b Hb. change U64_MAX with (Z.ones 64).
    destruct (Z.ltb_spec b 64).
    + rewrite Z.ones_spec_low, H by lia. done.
    + rewrite Z.ones_spec_high by lia. by apply (testbit_high 64).
Qed.

Lemma mask_word x rem : 0 < rem < 64 ->
  (Z.land x (wshl 64 1 rem ⊟ 1) = wshl 64 1 rem ⊟ 1 <->
   forall b, 0 <= b < rem -> Z.testbit x b = true).
Proof.
  intros Hr. rewrite wshl_1 by lia.
  pose proof (Z.pow_lt_mono_r 2 rem 64). pose proof (Z.pow_pos_nonneg 2 rem).
  rewrite wsub_small by (unfold in_word; lia). rewrite Z.sub_1_r, <- Z.ones_equiv. split.
  - intros Hl b Hb. apply (f_equal (fun z => Z.testbit z b)) in Hl.
    rewrite Z.land_spec, Z.ones_spec_low in Hl by lia. by rewrite andb_true_r in Hl.
  - intros H1. apply Z.bits_inj'. intros b Hb. rewrite Z.land_spec.
    destruct (Z.ltb_spec b rem).
    + rewrite Z.ones_spec_low, H1 by lia. done.
    + rewrite Z.ones_spec_high, andb_false_r by lia. done.
Qed.

Lemma full_words_spec p k n : wf p -> 0 <= k -> k + Z.of_nat n <= 4 ->
  returns (full_words_set (zseq k n) p) (fun full =>
    full = true <-> forall j, 64 * k <= j < 64 * (k + Z.of_nat n) -> used p j = true).
Proof.
  intros Hwf. revert k. induction n as [|n IH]; intros k Hk Hn; cbn [zseq full_words_set].
  - apply returns_ret. split; [intros _ j Hj; lia | done].
  - destruct (word_get p Hwf k) as (x & Hx & Hxw); [lia|].
    unfold arr_get. rewrite Hx, bind_ret. pose proof (ones_word x Hxw) as Hones.
    assert ((x =? U64_MAX) = true <-> forall j, 64 * k <= j < 64 * (k + 1) -> used p j = true) as Hword.
    { rewrite Z.eqb_eq, Hones. split; intros H j Hj.
      - replace j with (64 * k + (j - 64 * k)) by lia.
        rewrite <- (word_used p k x) by (done || lia). apply H. lia.
      - rewrite (word_used p k x) by (done || lia). apply H. lia. }
    destruct (x =? U64_MAX); simpl.
    + eapply returns_mono; [apply IH; lia|]. intros full ->. split; intros H j Hj.
      * destruct (Z.ltb_spec j (64 * (k + 1))); [apply Hword; [done | lia] | apply H; lia].
      * apply H. lia.
    + apply returns_ret. split; [done|]. intros H. apply Hword. intros j Hj. apply H. lia.
Qed.

Lemma is_full_spec p : wf p ->
  returns (is_full p) (fun full => full = true <-> first_unused p = None).
Proof.
  intros Hwf. destruct (capacity_range p Hwf) as [Hc _]. unfold is_full.
  pose proof (Z.div_mod (capacity p) 64). pose proof (Z.mod_pos_bound (capacity p) 64).
  assert (first_unused p = None <-> forall j, 0 <= j < capacity p -> used p j = true) as Hnone.
  { unfold first_unused. rewrite first_from_None. split; intros H' j Hj.
    - apply negb_false_iff, H'. lia.
    - apply negb_false_iff, H'. lia. }
  eapply returns_bind; [apply full_words_spec; [done | lia | lia]|].
  intros full Hfull. rewrite Z.add_0_l, Z2Nat.id in Hfull by lia.
  destruct full; simpl.
  - pose proof (proj1 Hfull eq_refl) as Hlow. case_ltb.
    + destruct (word_get p Hwf (capacity p / 64)) as (x & Hx & Hxw); [lia|].
      unfold arr_get. rewrite Hx, bind_ret. apply returns_ret.
      rewrite Z.eqb_eq, mask_word, Hnone by lia. split; intros Hb j Hj.
      * destruct (Z.ltb_spec j (64 * (capacity p / 64))); [apply Hlow; lia|].
        replace j with (64 * (capacity p / 64) + (j - 64 * (capacity p / 64))) by lia.
        rewrite <- (word_used p (capacity p / 64) x) by (done || lia). apply Hb. lia.
      * rewrite (word_used p (capacity p / 64) x) by (done || lia). apply Hb. lia.
    + apply returns_ret. rewrite Hnone. split; [|done]. intros _ j Hj. apply Hlow. lia.
  - apply returns_ret. rewrite Hnone. split; [done|]. intros Hb. apply Hfull.
    intros j Hj. apply Hb. lia.
Qed.

(** *** [free], [contains], [is_empty] *)

Lemma in_range_iff p ptr : wf p ->
  (contains ptr p = true <-> base p <= ptr < base p + capacity p * obj_size p).
Proof.
  intros Hwf. unfold contains. rewrite end_addr by done.
  rewrite andb_true_iff, Z.leb_le, Z.ltb_lt. done.
Qed.

Lemma free_spec p ptr : wf p ->
  free ptr p = Ret (if contains ptr p
                    then (true, with_bitmap p (bm_clear 64 (bitmap p)
                                                 ((ptr - base p) / obj_size p)))
                    else (false, p)).
Proof.
  intros Hwf. unfold free, contains. rewrite end_addr by done.
  destruct (Z.ltb_spec ptr (base p)), (Z.leb_spec (base p) ptr); try lia; [done|]. simpl.
  destruct (Z.leb_spec (base p + capacity p * obj_size p) ptr),
    (Z.ltb_spec ptr (base p + capacity p * obj_size p)); try lia; [done|].
  pose proof (wf_size p Hwf). pose proof (wf_base p Hwf). pose proof (wf_region p Hwf).
  destruct (capacity_range p Hwf). unfold checked_div, PAGE_BYTES in *. decide_tests.
  rewrite bind_ret. rewrite wsub_small by (unfold in_word; lia).
  set (idx := (ptr - base p) / obj_size p).
  assert (0 <= idx < capacity p) as Hidx.
  { split; [apply Z.div_pos; lia | apply Z.div_lt_upper_bound; nia]. }
  pose proof (Z.div_mod idx 64). pose proof (Z.mod_pos_bound idx 64).
  destruct (word_get p Hwf (idx / 64)) as (x & Hx & Hxw); [lia|].
  unfold arr_get. rewrite Hx, bind_ret. unfold bm_clear. rewrite Hx.
  rewrite arr_set_ok by (rewrite (wf_len p Hwf); lia). done.
Qed.

Lemma is_empty_spec p : wf p ->
  (is_empty p = true <-> forall i, 0 <= i < capacity p -> used p i = false).
Proof.
  intros Hwf. unfold is_empty. rewrite bool_decide_eq_true. split.
  - intros Hm i Hi. unfold used. rewrite Hm. apply bm_test_zero; [lia|].
    destruct (capacity_range p Hwf). lia.
  - intros H. apply (bm_ext 64); [lia | apply wf_words, Hwf | apply bm_wf_zero; lia | |].
    + by rewrite (wf_len p Hwf).
    + intros j Hj. rewrite bits_256 in Hj by done. rewrite bm_test_zero by lia.
      destruct (Z.ltb_spec j (capacity p)); [apply H; lia | apply (wf_tail p Hwf); lia].
Qed.

Lemma new_spec b sz : 0 <= b -> b + PAGE_BYTES < 2 ^ 64 -> 0 < sz <= PAGE_BYTES ->
  returns (new b sz) (fun p => wf p /\ base p = b /\ obj_size p = sz /\
                               forall i, 0 <= i < 256 -> used p i = false).
Proof.
  intros Hb Hr Hs. unfold new, checked_div. decide_tests. rewrite bind_ret. apply returns_ret.
  assert (forall i, 0 <= i < 256 -> bm_test 64 (replicate 4 0) i = false) as Hz.
  { intros i Hi. apply bm_test_zero; lia. }
  split; [|repeat split; apply Hz].
  split; simpl; try done; try lia.
  - case_ltb; lia.
  - apply (bm_wf_zero 64 ltac:(lia) 4).
  - intros i Hi. apply Hz.
    assert (1 <= PAGE_BYTES / sz) by (apply Z.div_le_lower_bound; lia).
    case_ltb; lia.
Qed.

(** *** The set of live objects *)

Lemma live_range p a : wf p -> live p a ->
  base p <= a < base p + capacity p * obj_size p /\ a < base p + PAGE_BYTES.
Proof.
  intros Hwf (i & -> & Hi & _). pose proof (obj_range p Hwf i Hi). pose proof (wf_size p Hwf).
  destruct (capacity_range p Hwf). lia.
Qed.

Lemma obj_addr_inj p i j : wf p -> obj_addr p i = obj_addr p j -> i = j.
Proof. intros Hwf. unfold obj_addr. pose proof (wf_size p Hwf). nia. Qed.

Lemma alloc_live p k : wf p -> first_unused p = Some k ->
  let p' := with_bitmap p (bm_set 64 (bitmap p) k) in
  wf p' /\ ~ live p (obj_addr p k) /\
  forall x, live p' x <-> x = obj_addr p k \/ live p x.
Proof.
  intros Hwf Hk p'. apply page_unused_range in Hk as [Hr Hu]; [|done].
  destruct (capacity_range p Hwf) as [Hc _].
  split; [by apply set_wf|]. split.
  - intros (j & Heq & Hj & Huj). apply obj_addr_inj in Heq as <-; [congruence | done].
  - intros x. split.
    + intros (j & -> & Hj & Huj). simpl in Hj. unfold p' in Huj. rewrite used_set in Huj by (done || lia).
      destruct (Z.eqb_spec k j) as [->|]; [by left | right; exists j; done].
    + intros [-> | (j & -> & Hj & Huj)].
      * exists k. unfold p'. rewrite used_set, Z.eqb_refl by (done || lia). done.
      * exists j. unfold p'. rewrite used_set, Huj, orb_true_r by (done || lia). done.
Qed.

Lemma free_live p a : wf p -> live p a ->
  let p' := with_bitmap p (bm_clear 64 (bitmap p) ((a - base p) / obj_size p)) in
  wf p' /\ forall x, live p' x <-> live p x /\ x <> a.
Proof.
  intros Hwf (k & -> & Hk & Hu) p'. destruct (capacity_range p Hwf) as [Hc _].
  pose proof (wf_size p Hwf) as Hs.
  assert ((obj_addr p k - base p) / obj_size p = k) as Hidx.
  { unfold obj_addr. replace (base p + k * obj_size p - base p) with (k * obj_size p) by lia.
    apply Z.div_mul. lia. }
  unfold p'. rewrite Hidx. split; [apply clear_wf; [done | lia]|]. intros x. split.
  - intros (j & -> & Hj & Huj). simpl in Hj. rewrite used_clear in Huj by (done || lia).
    apply andb_true_iff in Huj as [Hne Huj]. apply negb_true_iff, Z.eqb_neq in Hne.
    split; [by exists j|]. intros Heq. apply Hne. symmetry. by eapply obj_addr_inj.
  - intros [(j & -> & Hj & Huj) Hne]. exists j. rewrite used_clear, Huj, andb_true_r by (done || lia).
    split; [done|]. split; [done|]. apply negb_true_iff, Z.eqb_neq. by intros ->.
Qed.

Lemma empty_no_live p : wf p -> is_empty p = true -> forall x, ~ live p x.
Proof.
  intros Hwf He x (i & -> & Hi & Hu). rewrite is_empty_spec in He by done.
  rewrite He in Hu; done.
Qed.

End Page.

(** * [SlabCache] *)

Module Cache.
Import Page.

Record SlabCache := mkCache {
  cache_size : Z;                    (* [obj_size] *)
  pages : list (option SlabPage);
  count : Z;
}.

Definition new (obj_size : Z) : SlabCache :=
  {| cache_size := obj_size; pages := replicate 16 None; count := 0 |}.

Definition with_pages (c : SlabCache) (ps : list (option SlabPage)) : SlabCache :=
  {| cache_size := cache_size c; pages := ps; count := count c |}.

Section ops.
Context {P : Type} `{PageSource P}.

(** [for i in 0..self.count] of [alloc]: the first page that is not full
    serves the request.  [None]: the loop fell through. *)
Fixpoint alloc_in_pages (idxs : list Z) (c : SlabCache)
    : outcome (option (option Z * SlabCache)) :=
  match idxs with
  | [] => Ret None
  | i :: idxs =>
      slot ← arr_get (pages c) i;
      match (slot : option SlabPage) with
      | Some page =>
          full ← is_full page;
          if negb full then
            '(r, page) ← Page.alloc page;
            ps ← arr_set (pages c) i (Some page);
            Ret (Some (r, with_pages c ps))
          else alloc_in_pages idxs c
      | None => alloc_in_pages idxs c
      end
  end.

Definition alloc (c : SlabCache) (buddy : P) : outcome (option Z * SlabCache * P) :=
  served ← alloc_in_pages (zseq 0 (Z.to_nat (count c))) c;
  match served with
  | Some (r, c) => Ret (r, c, buddy)
  | None =>
      if MAX_SLABS_PER_SIZE <=? count c then Ret (None, c, buddy)
      else
        '(page_addr, buddy) ← page_alloc buddy;
        match page_addr with
        | None => Ret (None, c, buddy)
        | Some page_addr =>
            slab ← Page.new page_addr (cache_size c);
            '(result, slab) ← Page.alloc slab;
            ps ← arr_set (pages c) (count c) (Some slab);
            Ret (result,
                 {| cache_size := cache_size c; pages := ps; count := count c ⊞ 1 |},
                 buddy)
        end
  end.

(** [while i < self.count - 1 { self.pages.swap(i, i + 1); i += 1 }] *)
Fixpoint shift_down (fuel : nat) (i : Z) (c : SlabCache) : outcome SlabCache :=
  match fuel with
  | O => Crash OutOfFuel
  | S fuel =>
      if i <? count c ⊟ 1 then
        x ← arr_get (pages c) i;
        y ← arr_get (pages c) (i ⊞ 1);
        ps ← arr_set (pages c) i y;
        ps ← arr_set ps (i ⊞ 1) x;
        shift_down fuel (i ⊞ 1) (with_pages c ps)
      else Ret c
  end.

Definition compact (removed : Z) (c : SlabCache) : outcome SlabCache :=
  c ← (if removed <? count c ⊟ 1 then shift_down 17 removed c else Ret c);
  Ret {| cache_size := cache_size c; pages := pages c; count := count c ⊟ 1 |}.

(** The searching loop of [free]: [found], with the page already updated. *)
Fixpoint free_in_pages (idxs : list Z) (ptr : Z) (c : SlabCache)
    : outcome (option (Z * bool * Z) * SlabCache) :=
  match idxs with
  | [] => Ret (None, c)
  | i :: idxs =>
      slot ← arr_get (pages c) i;
      match (slot : option SlabPage) with
      | Some page =>
          if contains ptr page then
            '(_, page) ← Page.free ptr page;
            ps ← arr_set (pages c) i (Some page);
            Ret (Some (i, is_empty page, base page), with_pages c ps)
          else free_in_pages idxs ptr c
      | None => free_in_pages idxs ptr c
      end
  end.

(** [self.pages[..self.count].iter().enumerate().any(..)] *)
Definition has_other_empty (i : Z) (c : SlabCache) : outcome bool :=
  ps ← slice (pages c) 0 (count c);
  Ret (existsb (fun '(j, p) => negb (j =? i) &&
                  match (p : option SlabPage) with Some pg => is_empty pg | None => false end)
               (combine (zseq 0 (length ps)) ps)).

Definition free (ptr : Z) (c : SlabCache) (buddy : P) : outcome (bool * SlabCache * P) :=
  '(found, c) ← free_in_pages (zseq 0 (Z.to_nat (count c))) ptr c;
  match found with
  | None => Ret (false, c, buddy)
  | Some (i, empty, base) =>
      if empty && (1 <? count c) then
        other ← has_other_empty i c;
        if (other : bool) then
          buddy ← page_free base buddy;
          ps ← arr_set (pages c) i None;
          c ← compact i (with_pages c ps);
          Ret (true, c, buddy)
        else Ret (true, c, buddy)
      else Ret (true, c, buddy)
  end.
End ops.

(** ** Invariant *)

(** The first [count] slots hold well-formed pages of the cache's object size
    at distinct addresses; the others are empty. *)
Record wf (c : SlabCache) : Prop := {
  wf_csize : 0 < cache_size c <= PAGE_BYTES;
  wf_slots : zlen (pages c) = MAX_SLABS_PER_SIZE;
  wf_count : 0 <= count c <= MAX_SLABS_PER_SIZE;
  wf_pages : forall i, 0 <= i < count c ->
    exists p, zget (pages c) i = Some (Some p) /\ Page.wf p /\ obj_size p = cache_size c;
  wf_empty : forall i, count c <= i < MAX_SLABS_PER_SIZE -> zget (pages c) i = Some None;
  wf_distinct : forall i j p q, zget (pages c) i = Some (Some p) ->
    zget (pages c) j = Some (Some q) -> i <> j ->
    base p + PAGE_BYTES <= base q \/ base q + PAGE_BYTES <= base p;
}.

(** The objects of the cache that are handed out. *)
Definition live (c : SlabCache) (a : Z) : Prop :=
  exists i p, zget (pages c) i = Some (Some p) /\ Page.live p a.

Lemma no_page_beyond c i p : wf c -> zget (pages c) i = Some (Some p) -> 0 <= i < count c.
Proof.
  intros Hwf Hp. apply zget_Some in Hp as Hr. rewrite (wf_slots c Hwf) in Hr.
  destruct (Z.ltb_spec i (count c)); [lia|].
  rewrite (wf_empty c Hwf i) in Hp by lia. discriminate.
Qed.

Lemma page_at c i p : wf c -> zget (pages c) i = Some (Some p) ->
  0 <= i < count c /\ Page.wf p /\ obj_size p = cache_size c.
Proof.
  intros Hwf Hp. pose proof (no_page_beyond c i p Hwf Hp) as Hi.
  destruct (wf_pages c Hwf i Hi) as (q & Hq & ? & ?). rewrite Hp in Hq. injection Hq as <-. done.
Qed.

(** Replacing a page by another one at the same address. *)
Lemma update_wf c i p p' : wf c -> zget (pages c) i = Some (Some p) ->
  Page.wf p' -> base p' = base p -> obj_size p' = obj_size p ->
  wf (with_pages c (zset (pages c) i (Some p'))).
Proof.
  intros Hwf Hp Hwf' Hb Hs. destruct (page_at c i p Hwf Hp) as (Hi & Hpw & Hps).
  pose proof (zget_Some _ _ _ Hp) as Hr.
  assert (forall j q, zget (zset (pages c) i (Some p')) j = Some (Some q) ->
    exists q0, zget (pages c) j = Some (Some q0) /\ base q = base q0 /\ (q = q0 \/ q = p')) as Hinv.
  { intros j q Hq. destruct (decide (i = j)) as [<-|].
    - rewrite zget_zset_eq in Hq by done. injection Hq as <-. exists p. auto.
    - rewrite zget_zset_ne in Hq by done. exists q. auto. }
  destruct Hwf as [H1 H2 H3 H4 H5 H6]. split; simpl; try done.
  - by rewrite zlen_zset.
  - intros j Hj. destruct (decide (i = j)) as [<-|].
    + exists p'. rewrite zget_zset_eq by done. repeat split; [apply Hwf' .. | congruence].
    + rewrite zget_zset_ne by done. by apply H4.
  - intros j Hj. rewrite zget_zset_ne by lia. by apply H5.
  - intros j k q q' Hq Hq' Hne.
    destruct (Hinv j q Hq) as (q0 & Hq0 & -> & _), (Hinv k q' Hq') as (q1 & Hq1 & -> & _).
    by eapply H6.
Qed.

(** The live objects after replacing slot [i]. *)
Lemma live_update c i s : 0 <= i < zlen (pages c) -> forall x,
  live (with_pages c (zset (pages c) i s)) x <->
    (exists p', s = Some p' /\ Page.live p' x) \/
    (exists j q, j <> i /\ zget (pages c) j = Some (Some q) /\ Page.live q x).
Proof.
  intros Hi x. split.
  - intros (j & q & Hq & Hl). simpl in Hq. destruct (decide (i = j)) as [<-|Hne].
    + rewrite zget_zset_eq in Hq by done. injection Hq as ->. left. eauto.
    + rewrite zget_zset_ne in Hq by done. right. exists j, q. auto.
  - intros [(p' & -> & Hl) | (j & q & Hne & Hq & Hl)].
    + exists i, p'. simpl. by rewrite zget_zset_eq.
    + exists j, q. simpl. by rewrite zget_zset_ne.
Qed.

Lemma live_split c i p : zget (pages c) i = Some (Some p) -> forall x,
  live c x <-> Page.live p x \/
    (exists j q, j <> i /\ zget (pages c) j = Some (Some q) /\ Page.live q x).
Proof.
  intros Hp x. split.
  - intros (j & q & Hq & Hl). destruct (decide (j = i)) as [->|].
    + rewrite Hp in Hq. injection Hq as ->. by left.
    + right. exists j, q. auto.
  - intros [Hl | (j & q & Hne & Hq & Hl)]; [by exists i, p | by exists j, q].
Qed.

(** A live object belongs to the one page that contains it. *)
Lemma live_page_unique c i j p q a : wf c ->
  zget (pages c) i = Some (Some p) -> zget (pages c) j = Some (Some q) ->
  base p <= a < base p + capacity p * obj_size p -> Page.live q a -> i = j.
Proof.
  intros Hwf Hp Hq Ha Hl. destruct (decide (i = j)) as [|Hne]; [done|].
  destruct (page_at c i p Hwf Hp) as (_ & Hpw & _), (page_at c j q Hwf Hq) as (_ & Hqw & _).
  apply live_range in Hl as [Hr Hr']; [|done]. destruct (capacity_range p Hpw).
  pose proof (wf_distinct c Hwf i j p q Hp Hq Hne). lia.
Qed.

(** Every page of the cache is held at the page source. *)
Definition owned {P} `{PageSourceLaws P} (c : SlabCache) (s : P) : Prop :=
  forall i p, zget (pages c) i = Some (Some p) -> held s (base p).

(** ** Allocation *)

Definition served_post (c : SlabCache) (a : Z) (c' : SlabCache) : Prop :=
  wf c' /\ cache_size c' = cache_size c /\ ~ live c a /\
  (forall x, live c' x <-> x = a \/ live c x).

Lemma alloc_in_pages_spec c k n : wf c -> 0 <= k -> k + Z.of_nat n = count c ->
  returns (alloc_in_pages (zseq k n) c) (fun served =>
    match served with
    | None => forall i p, k <= i -> zget (pages c) i = Some (Some p) -> first_unused p = None
    | Some (r, c') => exists a, r = Some a /\ served_post c a c' /\
        (forall i p, zget (pages c') i = Some (Some p) ->
           exists q, zget (pages c) i = Some (Some q) /\ base p = base q)
    end).
Proof.
  intros Hwf. revert k. induction n as [|n IH]; intros k Hk Hn; cbn [zseq alloc_in_pages].
  { apply returns_ret. intros i p Hi Hp. pose proof (no_page_beyond c i p Hwf Hp). lia. }
  destruct (wf_pages c Hwf k) as (p & Hp & Hpw & Hps); [lia|].
  unfold arr_get. rewrite Hp, bind_ret.
  destruct (is_full_spec p Hpw) as (full & -> & Hfull). rewrite bind_ret.
  destruct full; simpl.
  - eapply returns_mono; [apply IH; lia|]. intros [[r c']|]; [done|].
    intros H i q Hi Hq. destruct (decide (i = k)) as [->|]; [|apply (H i); [lia | done]].
    rewrite Hp in Hq. injection Hq as <-. by apply Hfull.
  - rewrite alloc_spec, bind_ret by done.
    destruct (first_unused p) as [j|] eqn:Hj; [|by exfalso; assert (false = true) by by apply Hfull].
    apply zget_Some in Hp as Hr. rewrite arr_set_ok by done. rewrite bind_ret.
    destruct (alloc_live p j Hpw Hj) as (Hpw' & Hfresh & Hlive).
    apply page_unused_range in Hj as [Hjr _]; [|done].
    apply returns_ret. exists (obj_addr p j). split; [done|]. split.
    + split; [by eapply update_wf|]. split; [done|]. split.
      * intros (i & q & Hq & Hl). apply Hfresh.
        assert (k = i) as <-.
        { eapply live_page_unique; [done | exact Hp | exact Hq | | exact Hl].
          pose proof (obj_range p Hpw j Hjr). pose proof (wf_size p Hpw). lia. }
        rewrite Hp in Hq. by injection Hq as <-.
      * intros x. rewrite live_update, (live_split c k p) by done. split.
        -- intros [(p' & [= <-] & Hl) | H]; [apply Hlive in Hl as [->|]|]; auto.
        -- intros [->|[Hl|H]]; [left..|by right].
           ++ eexists. split; [done|]. apply Hlive. by left.
           ++ eexists. split; [done|]. apply Hlive. by right.
    + intros i q Hq. simpl in Hq. destruct (decide (k = i)) as [<-|].
      * rewrite zget_zset_eq in Hq by done. injection Hq as <-. exists p. done.
      * rewrite zget_zset_ne in Hq by done. exists q. done.
Qed.

Section source.
Context {P : Type} `{PageSourceLaws P}.

(** A fresh page enters the first empty slot. *)
Lemma push_page_wf c (s : P) slab : wf c -> count c < MAX_SLABS_PER_SIZE ->
  Page.wf slab -> obj_size slab = cache_size c ->
  (forall i q, zget (pages c) i = Some (Some q) ->
     base slab + PAGE_BYTES <= base q \/ base q + PAGE_BYTES <= base slab) ->
  wf {| cache_size := cache_size c; pages := zset (pages c) (count c) (Some slab);
        count := count c + 1 |}.
Proof.
  intros Hwf Hc Hsw Hss Hap. destruct Hwf as [H1' H2' H3' H4' H5' H6'].
  unfold MAX_SLABS_PER_SIZE in *.
  split; simpl; unfold MAX_SLABS_PER_SIZE; [done | by rewrite zlen_zset | lia | | |].
  - intros i Hi. destruct (decide (count c = i)) as [<-|].
    + exists slab. by rewrite zget_zset_eq by lia.
    + rewrite zget_zset_ne by done. apply H4'. lia.
  - intros i Hi. rewrite zget_zset_ne by lia. apply H5'. lia.
  - assert (forall j q, zget (zset (pages c) (count c) (Some slab)) j = Some (Some q) ->
      (j = count c /\ q = slab) \/ (j <> count c /\ zget (pages c) j = Some (Some q))) as Hinv.
    { intros j q Hq. destruct (decide (count c = j)) as [<-|].
      - rewrite zget_zset_eq in Hq by lia. injection Hq as <-. by left.
      - rewrite zget_zset_ne in Hq by done. right. split; [congruence | done]. }
    intros i j p q Hp%Hinv Hq%Hinv Hne.
    destruct Hp as [[-> ->]|[Hi Hp]], Hq as [[-> ->]|[Hj Hq]].
    + done.
    + by eapply Hap.
    + destruct (Hap i p Hp); auto.
    + by eapply H6'.
Qed.

Definition alloc_post (c : SlabCache) (s : P) (x : option Z * SlabCache * P) : Prop :=
  let '(r, c', s') := x in
  source_wf s' /\ owned c' s' /\ (forall x, held s x -> held s' x) /\
  (forall i p, zget (pages c') i = Some (Some p) ->
     (exists j q, zget (pages c) j = Some (Some q) /\ base p = base q) \/ ~ held s (base p)) /\
  match r with
  | Some a => served_post c a c'
  | None => c' = c /\ s' = s /\
      (forall i p, zget (pages c) i = Some (Some p) -> first_unused p = None)
  end.

(** A page that is pushed adds its objects. *)
Lemma live_push c slab : wf c -> count c < MAX_SLABS_PER_SIZE -> forall x,
  live {| cache_size := cache_size c; pages := zset (pages c) (count c) (Some slab); count := count c + 1 |} x <->
  Page.live slab x \/ live c x.
Proof.
  intros Hwf Hc x. pose proof (wf_count c Hwf). pose proof (wf_slots c Hwf). unfold MAX_SLABS_PER_SIZE in *.
  change (live {| cache_size := cache_size c; pages := zset (pages c) (count c) (Some slab); count := count c + 1 |} x)
    with (live (with_pages c (zset (pages c) (count c) (Some slab))) x).
  rewrite live_update by lia. split.
  - intros [(p' & [= <-] & Hl) | (j & q & _ & Hq & Hl)]; [by left | right; by exists j, q].
  - intros [Hl | (j & q & Hq & Hl)]; [left; by exists slab|].
    right. exists j, q. split; [|done]. intros ->. pose proof (no_page_beyond c _ q Hwf Hq). lia.
Qed.

(** The first object of a fresh page. *)
Lemma fresh_page_alloc a size : 0 < size <= PAGE_BYTES -> 0 <= a -> a + PAGE_BYTES < 2 ^ 64 ->
  exists slab slab', Page.new a size = Ret slab /\ Page.alloc slab = Ret (Some a, slab') /\
    Page.wf slab' /\ base slab' = a /\ obj_size slab' = size /\ forall x, Page.live slab' x <-> x = a.
Proof.
  intros Hsize Ha Hend. destruct (Page.new_spec a size) as (slab & Hn & Hsw & Hsb & Hss & Hsu); [done..|].
  destruct (capacity_range slab Hsw) as [Hcap _].
  assert (first_unused slab = Some 0) as Hfirst.
  { apply first_from_Some. rewrite Hsu by lia. repeat split; [lia | lia | intros; lia]. }
  destruct (alloc_live slab 0 Hsw Hfirst) as (Hsw' & _ & Hlive).
  assert (obj_addr slab 0 = a) as Haddr by (unfold obj_addr; lia). rewrite Haddr in Hlive.
  exists slab, (with_bitmap slab (bm_set 64 (bitmap slab) 0)). rewrite Page.alloc_spec, Hfirst, Haddr by done.
  do 2 (split; [done|]). do 3 (split; [done|]). intros x. rewrite Hlive. split; [|by left].
  intros [->|(k & _ & Hk & Hu)]; [done|]. rewrite Hsu in Hu; [done | lia].
Qed.

(** The branch of [alloc] that adds a page [a] from the source. *)
Lemma cache_grow c s s' a : wf c -> owned c s -> count c < MAX_SLABS_PER_SIZE -> source_wf s' ->
  ~ held s a -> (forall x, held s' x <-> x = a \/ held s x) ->
  returns (slab ← Page.new a (cache_size c);
           '(result, slab) ← Page.alloc slab;
           ps ← arr_set (pages c) (count c) (Some slab);
           Ret (result, {| cache_size := cache_size c; pages := ps; count := count c ⊞ 1 |}, s'))
    (alloc_post c s).
Proof.
  intros Hwf Hown Hc Hs' Hnot Hheld. pose proof (wf_count c Hwf). pose proof (wf_slots c Hwf) as Hslots.
  assert (held s' a) as Ha by (apply Hheld; by left). destruct (held_bounds s' a Hs' Ha). pose proof (wf_csize c Hwf).
  destruct (fresh_page_alloc a (cache_size c)) as (slab & slab' & Hn & Hal & Hsw & Hsb & Hss & Hlive); [done..|].
  pose proof Hc as Hc'. unfold MAX_SLABS_PER_SIZE in Hc', Hslots.
  rewrite Hn, bind_ret, Hal, bind_ret, arr_set_ok, bind_ret by lia. rewrite wadd_small by (unfold in_word; lia).
  apply returns_ret.
  assert (forall i q, zget (pages c) i = Some (Some q) -> a + PAGE_BYTES <= base q \/ base q + PAGE_BYTES <= a) as Hap.
  { intros i q Hq. apply (held_apart s'); [done | done | apply Hheld; right; by eapply Hown|].
    intros ->. apply Hnot. by eapply Hown. }
  assert (forall i p, zget (zset (pages c) (count c) (Some slab')) i = Some (Some p) ->
      base p = a \/ zget (pages c) i = Some (Some p)) as Hpages.
  { intros i p Hp. destruct (decide (count c = i)) as [<-|]; [|rewrite zget_zset_ne in Hp by done; by right].
    rewrite zget_zset_eq in Hp by lia. injection Hp as <-. by left. }
  split; [done|]. split; [|split; [intros x Hx; apply Hheld; by right|split]].
  - intros i p Hp. apply Hheld. destruct (Hpages i p Hp) as [|Hq]; [by left | right; by eapply Hown].
  - intros i p Hp. destruct (Hpages i p Hp) as [->|Hq]; [by right | left; by exists i, p].
  - split; [apply push_page_wf; try done; by rewrite Hsb|]. split; [done|]. split.
    + intros (i & q & Hq & Hl). destruct (page_at c i q Hwf Hq) as (_ & Hqw & _).
      apply live_range in Hl as [? ?]; [|done]. specialize (Hap i q Hq). unfold PAGE_BYTES in *. lia.
    + intros x. by rewrite live_push, Hlive.
Qed.

Lemma cache_alloc_spec c s : wf c -> source_wf s -> owned c s ->
  returns (alloc c s) (alloc_post c s).
Proof.
  intros Hwf Hs Hown. pose proof (wf_count c Hwf). unfold alloc.
  eapply returns_bind; [apply alloc_in_pages_spec; [done | lia | lia]|].
  intros [[r c']|] Hserved; simpl.
  - destruct Hserved as (a & -> & Hpost & Hpages). apply returns_ret.
    split; [done|]. split; [|split; [done | split; [|done]]].
    + intros i p (q & Hq & ->)%Hpages. by eapply Hown.
    + intros i p (q & Hq & ->)%Hpages. left. by exists i, q.
  - assert (forall i p, zget (pages c) i = Some (Some p) -> first_unused p = None) as Hfull.
    { intros i p Hp. apply (Hserved i p); [|done].
      pose proof (no_page_beyond c i p Hwf Hp). lia. }
    assert (alloc_post c s (None, c, s)) as Hnone.
    { split; [done|]. split; [done|]. split; [done|]. split; [|done].
      intros i p Hp. left. by exists i, p. }
    case_ltb; [by apply returns_ret|].
    destruct (page_alloc_law s Hs) as ([ra s'] & -> & Hs' & Hra). rewrite bind_ret.
    destruct ra as [a|]; [|subst; by apply returns_ret].
    destruct Hra as [Hnot Hheld]. by apply cache_grow.
Qed.
End source.

(** ** Compaction *)

(** The slots after moving slot [r] behind slot [n - 1]. *)
Definition rotated (ps : list (option SlabPage)) (r n j : Z) : option (option SlabPage) :=
  if (j <? r) || (n <=? j) then zget ps j
  else if j <? n - 1 then zget ps (j + 1) else zget ps r.

Lemma swap_get (ps : list (option SlabPage)) i x y j : 0 <= i -> i + 1 < zlen ps ->
  zget ps i = Some x -> zget ps (i + 1) = Some y ->
  zget (zset (zset ps i y) (i + 1) x) j =
    if j =? i then Some y else if j =? i + 1 then Some x else zget ps j.
Proof.
  intros Hi Hl Hx Hy. destruct (Z.eqb_spec j i) as [->|].
  - rewrite zget_zset_ne, zget_zset_eq by lia. done.
  - destruct (Z.eqb_spec j (i + 1)) as [->|].
    + rewrite zget_zset_eq; [done | rewrite zlen_zset; lia].
    + by rewrite !zget_zset_ne by lia.
Qed.

Lemma shift_down_spec fuel i c : 0 <= i -> i < count c -> count c <= zlen (pages c) ->
  count c <= MAX_SLABS_PER_SIZE -> count c - i < Z.of_nat fuel ->
  returns (shift_down fuel i c) (fun c' =>
    cache_size c' = cache_size c /\ count c' = count c /\ zlen (pages c') = zlen (pages c) /\
    forall j, 0 <= j -> zget (pages c') j = rotated (pages c) i (count c) j).
Proof.
  unfold MAX_SLABS_PER_SIZE. revert i c.
  induction fuel as [|fuel IH]; intros i c Hi Hic Hl Hm Hf; [lia|]. cbn [shift_down].
  rewrite wsub_small by (unfold in_word; lia). case_ltb.
  - rewrite wadd_small by (unfold in_word; lia).
    destruct (zget_is_Some (pages c) i) as [x Hx]; [lia|].
    destruct (zget_is_Some (pages c) (i + 1)) as [y Hy]; [lia|].
    unfold arr_get. rewrite Hx, bind_ret, Hy, bind_ret.
    rewrite arr_set_ok by lia. rewrite bind_ret.
    rewrite arr_set_ok by (rewrite zlen_zset; lia). rewrite bind_ret.
    eapply returns_mono.
    + apply IH; simpl; rewrite ?zlen_zset; lia.
    + intros c' (H1 & H2 & H3 & H4). simpl in *. rewrite !zlen_zset in H3.
      repeat split; try done. intros j Hj. rewrite H4 by done. unfold rotated.
      rewrite !(swap_get (pages c) i x y) by (done || lia).
      destruct (Z.ltb_spec j (i + 1)), (Z.ltb_spec j i), (Z.leb_spec (count c) j);
        simpl; decide_tests; try done; try lia.
      1: { replace j with i by lia. by rewrite Hy. }
      case_ltb; decide_tests; done.
  - apply returns_ret. repeat split; try done. intros j Hj. unfold rotated.
    destruct (Z.ltb_spec j i), (Z.leb_spec (count c) j); simpl; try done.
    decide_tests. f_equal. lia.
Qed.

Lemma compact_spec r c : 0 <= r < count c -> count c <= zlen (pages c) ->
  count c <= MAX_SLABS_PER_SIZE ->
  returns (compact r c) (fun c' =>
    cache_size c' = cache_size c /\ count c' = count c - 1 /\
    zlen (pages c') = zlen (pages c) /\
    forall j, 0 <= j -> zget (pages c') j = rotated (pages c) r (count c) j).
Proof.
  intros Hr Hl Hm. unfold compact, MAX_SLABS_PER_SIZE in *.
  rewrite wsub_small by (unfold in_word; lia).
  eapply returns_bind with (Q := fun c' =>
    cache_size c' = cache_size c /\ count c' = count c /\ zlen (pages c') = zlen (pages c) /\
    forall j, 0 <= j -> zget (pages c') j = rotated (pages c) r (count c) j).
  - case_ltb.
    + apply shift_down_spec; unfold MAX_SLABS_PER_SIZE; lia.
    + apply returns_ret. repeat split; try done. intros j Hj. unfold rotated.
      destruct (Z.ltb_spec j r), (Z.leb_spec (count c) j); simpl; try done.
      decide_tests. f_equal. lia.
  - intros c' (H1 & H2 & H3 & H4). apply returns_ret. simpl. rewrite H2.
    rewrite wsub_small by (unfold in_word; lia). done.
Qed.

(** Where the surviving pages of [c] are after slot [r] is cleared and moved
    to the end. *)
Lemma rotated_Some c r j p : wf c -> 0 <= r < count c -> 0 <= j ->
  (rotated (zset (pages c) r None) r (count c) j = Some (Some p) <->
   j < count c - 1 /\ zget (pages c) (if j <? r then j else j + 1) = Some (Some p)).
Proof.
  intros Hwf Hr Hj. pose proof (wf_count c Hwf). pose proof (wf_slots c Hwf) as Hlen.
  unfold rotated. destruct (Z.ltb_spec j r), (Z.leb_spec (count c) j); simpl; try lia.
  - rewrite zget_zset_ne by lia. split; [intros; split; [lia | done] | by intros [_ ?]].
  - rewrite zget_zset_ne by lia. split; [|lia].
    intros Hp. pose proof (no_page_beyond c j p Hwf Hp). lia.
  - case_ltb.
    + rewrite zget_zset_ne by lia. split; [done | by intros [_ ?]].
    + rewrite zget_zset_eq by lia. split; [done | lia].
Qed.

Lemma drop_page c c' r p : wf c -> zget (pages c) r = Some (Some p) ->
  cache_size c' = cache_size c -> count c' = count c - 1 -> zlen (pages c') = zlen (pages c) ->
  (forall j, 0 <= j -> zget (pages c') j = rotated (zset (pages c) r None) r (count c) j) ->
  (forall x, ~ Page.live p x) ->
  wf c' /\ forall x, live c' x <-> live c x.
Proof.
  intros Hwf Hp Hcs Hcc Hl Hget Hempty. pose proof (no_page_beyond c r p Hwf Hp) as Hr.
  assert (forall j q, zget (pages c') j = Some (Some q) <->
    0 <= j < count c - 1 /\ zget (pages c) (if j <? r then j else j + 1) = Some (Some q)) as Hiff.
  { intros j q. split.
    - intros Hq. pose proof (zget_Some _ _ _ Hq). rewrite Hget in Hq by lia.
      apply rotated_Some in Hq; [|done | done | lia]. split; [lia | apply Hq].
    - intros [Hj Hq]. rewrite Hget by lia. apply rotated_Some; [done | done | lia |].
      split; [lia | done]. }
  destruct Hwf as [H1' H2' H3' H4' H5' H6'] eqn:Hw. split.
  - split; [by rewrite Hcs | by rewrite Hl | lia | | |].
    + intros i Hi. rewrite Hcs. destruct (H4' (if i <? r then i else i + 1)) as (q & Hq & ? & ?).
      { case_ltb; lia. }
      exists q. split; [|done]. apply Hiff. split; [lia | done].
    + intros i Hi. destruct (zget_is_Some (pages c') i) as [[q|] Hq]; [lia | | done].
      apply Hiff in Hq. lia.
    + intros i j q q' Hq Hq' Hne. apply Hiff in Hq as [Hi Hq], Hq' as [Hj Hq'].
      eapply H6'; [exact Hq | exact Hq' |]. repeat case_ltb; lia.
  - intros x. split.
    + intros (j & q & Hq & Hx). apply Hiff in Hq as [_ Hq]. by eexists _, q.
    + intros (j & q & Hq & Hx). destruct (decide (j = r)) as [->|Hne].
      * rewrite Hp in Hq. injection Hq as <-. by apply Hempty in Hx.
      * pose proof (no_page_beyond c j q Hwf Hq).
        exists (if j <? r then j else j - 1), q. split; [|done]. apply Hiff.
        destruct (Z.ltb_spec j r).
        -- split; [lia|]. by replace (j <? r) with true by (symmetry; apply Z.ltb_lt; lia).
        -- split; [lia|]. replace (j - 1 <? r) with false by (symmetry; apply Z.ltb_ge; lia).
           by replace (j - 1 + 1) with j by lia.
Qed.

(** ** Freeing *)

(** The page after freeing the object that contains [ptr]. *)
Definition freed (p : SlabPage) (ptr : Z) : SlabPage :=
  with_bitmap p (bm_clear 64 (bitmap p) ((ptr - base p) / obj_size p)).

Lemma free_in_pages_spec c ptr k n : wf c -> 0 <= k -> k + Z.of_nat n = count c ->
  (forall i p, i < k -> zget (pages c) i = Some (Some p) -> contains ptr p = false) ->
  returns (free_in_pages (zseq k n) ptr c) (fun '(found, c') =>
    match found with
    | None => c' = c /\ forall i p, zget (pages c) i = Some (Some p) -> contains ptr p = false
    | Some (i, empty, b) => exists p, zget (pages c) i = Some (Some p) /\
        contains ptr p = true /\ b = base p /\ empty = is_empty (freed p ptr) /\
        c' = with_pages c (zset (pages c) i (Some (freed p ptr)))
    end).
Proof.
  intros Hwf. revert k. induction n as [|n IH]; intros k Hk Hn Hno; cbn [zseq free_in_pages].
  { apply returns_ret. split; [done|]. intros i p Hp. apply (Hno i); [|done].
    pose proof (no_page_beyond c i p Hwf Hp). lia. }
  destruct (wf_pages c Hwf k) as (p & Hp & Hpw & Hps); [lia|].
  unfold arr_get. rewrite Hp, bind_ret. pose proof (zget_Some _ _ _ Hp).
  destruct (contains ptr p) eqn:Hc.
  - rewrite Page.free_spec, Hc, bind_ret by done. rewrite arr_set_ok, bind_ret by done.
    apply returns_ret. by exists p.
  - apply IH; [lia | lia |]. intros i q Hi Hq. destruct (decide (i = k)) as [->|].
    + rewrite Hp in Hq. by injection Hq as <-.
    + apply (Hno i); [lia | done].
Qed.

Section source_free.
Context {P : Type} `{PageSourceLaws P}.

Lemma free_miss c (s : P) ptr : wf c ->
  (forall i p, zget (pages c) i = Some (Some p) -> contains ptr p = false) ->
  free ptr c s = Ret (false, c, s).
Proof.
  intros Hwf Hno. pose proof (wf_count c Hwf). unfold free.
  destruct (free_in_pages_spec c ptr 0 (Z.to_nat (count c)) Hwf) as ([found c'] & -> & Hf);
    [lia | lia | intros; by eapply Hno |].
  rewrite bind_ret. destruct found as [[[i e] b]|]; [|by destruct Hf as [-> _]].
  destruct Hf as (p & Hp & Hc & _). rewrite (Hno i p Hp) in Hc. discriminate.
Qed.

Definition free_post (c : SlabCache) (s : P) (ptr : Z) (x : bool * SlabCache * P) : Prop :=
  let '(ok, c', s') := x in
  ok = true /\ source_wf s' /\ wf c' /\ cache_size c' = cache_size c /\
  (forall i p, zget (pages c') i = Some (Some p) ->
     exists j q, zget (pages c) j = Some (Some q) /\ base p = base q) /\
  (forall x, live c' x <-> live c x /\ x <> ptr).

(** A cache after an object's bit is cleared. *)
Lemma free_object c i p ptr : wf c -> zget (pages c) i = Some (Some p) -> Page.live p ptr ->
  let c1 := with_pages c (zset (pages c) i (Some (freed p ptr))) in
  wf c1 /\ (forall x, live c1 x <-> live c x /\ x <> ptr) /\
  (forall k q, zget (pages c1) k = Some (Some q) ->
     exists j' q', zget (pages c) j' = Some (Some q') /\ base q = base q').
Proof.
  intros Hwf Hp Hlp c1. pose proof (wf_count c Hwf) as Hcnt. pose proof (wf_slots c Hwf) as Hlen.
  destruct (page_at c i p Hwf Hp) as (Hi & Hpw & Hps). destruct (Page.free_live p ptr Hpw Hlp) as [Hpw' Hlive].
  pose proof (proj1 (live_range p ptr Hpw Hlp)) as Hrange. split; [by eapply update_wf|]. split.
  - intros x. unfold c1. rewrite live_update, (live_split c i p) by (done || lia). split.
    + intros [(p' & [= <-] & Hx) | (k & q & Hk & Hq & Hx)].
      * apply Hlive in Hx as [Hx Hne]. auto.
      * split; [right; by exists k, q|]. intros ->. apply Hk. symmetry.
        by apply (live_page_unique c i k p q ptr).
    + intros [[Hx|Hx] Hne]; [left | by right]. eexists. split; [done|]. by apply Hlive.
  - intros k q Hq. simpl in Hq. destruct (decide (i = k)) as [<-|].
    + rewrite zget_zset_eq in Hq by lia. injection Hq as <-. by exists i, p.
    + rewrite zget_zset_ne in Hq by done. by exists k, q.
Qed.

Lemma free_hit c s ptr : wf c -> source_wf s -> owned c s -> live c ptr ->
  returns (free ptr c s) (free_post c s ptr).
Proof.
  intros Hwf Hs Hown (i & p & Hp & Hlp). pose proof (wf_count c Hwf) as Hcnt.
  pose proof (wf_slots c Hwf) as Hlen.
  destruct (page_at c i p Hwf Hp) as (Hi & Hpw & Hps). unfold free.
  eapply returns_bind; [apply free_in_pages_spec; [done | lia | lia | intros j q Hj Hq;
    pose proof (no_page_beyond c j q Hwf Hq); lia]|].
  intros [[[[j e] b]|] c'] Hf.
  2: { destruct Hf as [_ Hf]. specialize (Hf i p Hp).
       apply not_true_iff_false in Hf as []. apply in_range_iff; [done|]. by apply live_range. }
  destruct Hf as (q & Hq & Hc & -> & -> & ->).
  destruct (page_at c j q Hwf Hq) as (Hj & Hqw & Hqs). apply in_range_iff in Hc; [|done].
  assert (j = i) as -> by (by apply (live_page_unique c j i q p ptr)).
  rewrite Hp in Hq. injection Hq as <-.
  destruct (free_object c i p ptr Hwf Hp Hlp) as (Hwf1 & Hl1 & Hbases).
  set (c1 := with_pages c (zset (pages c) i (Some (freed p ptr)))) in *.
  assert (zget (pages c1) i = Some (Some (freed p ptr))) as Hpi by (apply zget_zset_eq; lia).
  assert (Page.wf (freed p ptr)) as Hpw' by apply (Page.free_live p ptr Hpw Hlp).
  assert (free_post c s ptr (true, c1, s)) as Hkeep.
  { split; [done|]. split; [done|]. split; [done|]. split; [done|]. by split. }
  destruct (is_empty (freed p ptr)) eqn:Hempty; simpl; [|by apply returns_ret].
  case_ltb; [|by apply returns_ret]. unfold MAX_SLABS_PER_SIZE in *.
  unfold has_other_empty, slice. unfold c1 at 1 2 3. simpl. rewrite zlen_zset. decide_tests. simpl.
  destruct (existsb _ _); [|by apply returns_ret].
  destruct (page_free_law s (base p)) as (s' & -> & Hs'); [done | by eapply Hown|].
  rewrite bind_ret. rewrite arr_set_ok by (rewrite zlen_zset; lia). rewrite bind_ret.
  eapply returns_bind.
  { apply (compact_spec i); simpl; rewrite ?zlen_zset; unfold MAX_SLABS_PER_SIZE; lia. }
  intros c2 (E1 & E2 & E3 & E4). simpl in E1, E2, E3, E4. rewrite !zlen_zset in E3.
  assert (forall x, ~ Page.live (freed p ptr) x) as Hno by (by apply Page.empty_no_live).
  destruct (drop_page c1 c2 i (freed p ptr)) as [Hwf2 Hl2]; try done.
  { simpl. by rewrite zlen_zset. }
  apply returns_ret. split; [done|]. split; [done|]. split; [done|]. split; [done|]. split.
  - intros k q Hq. pose proof (zget_Some _ _ _ Hq). rewrite E4 in Hq by lia.
    change (zset (pages c) i _) with (pages c1) in Hq.
    change (count c) with (count c1) in Hq.
    apply rotated_Some in Hq; [|done | done | lia]. destruct Hq as [_ Hq]. by eapply Hbases.
  - intros x. by rewrite Hl2, Hl1.
Qed.
End source_free.

End Cache.

(** * [SlabAllocator] *)

Module Slabs.
Import Page Cache.

(** [SlabAllocator { caches }] *)
Definition SlabAllocator : Type := list SlabCache.

Definition new : SlabAllocator := Cache.new <$> SLAB_SIZES.

Section ops.
Context {P : Type} `{PageSource P}.

Fixpoint alloc (size : Z) (caches : SlabAllocator) (buddy : P)
    : outcome (option Z * SlabAllocator * P) :=
  match caches with
  | [] => Ret (None, [], buddy)
  | cache :: rest =>
      if size <=? cache_size cache then
        '(r, cache, buddy) ← Cache.alloc cache buddy;
        Ret (r, cache :: rest, buddy)
      else
        '(r, rest, buddy) ← alloc size rest buddy;
        Ret (r, cache :: rest, buddy)
  end.

Fixpoint free (ptr : Z) (caches : SlabAllocator) (buddy : P)
    : outcome (bool * SlabAllocator * P) :=
  match caches with
  | [] => Ret (false, [], buddy)
  | cache :: rest =>
      '(ok, cache, buddy) ← Cache.free ptr cache buddy;
      if (ok : bool) then Ret (true, cache :: rest, buddy)
      else
        '(ok, rest, buddy) ← free ptr rest buddy;
        Ret (ok, cache :: rest, buddy)
  end.
End ops.

(** ** Invariant *)

(** Pages of two caches do not overlap. *)
Definition apart (c d : SlabCache) : Prop :=
  forall i j p q, zget (pages c) i = Some (Some p) -> zget (pages d) j = Some (Some q) ->
    base p + PAGE_BYTES <= base q \/ base q + PAGE_BYTES <= base p.

(** Every cache is well formed and pages of different caches are apart. *)
Inductive wf : SlabAllocator -> Prop :=
  | wf_nil : wf []
  | wf_cons c rest : Cache.wf c -> Forall (apart c) rest -> wf rest -> wf (c :: rest).

(** Object of [n] bytes at [a] that is handed out. *)
Definition live (al : SlabAllocator) (a n : Z) : Prop :=
  exists c, c ∈ al /\ Cache.live c a /\ n = cache_size c.

Lemma wf_elem al c : wf al -> c ∈ al -> Cache.wf c.
Proof. induction 1; rewrite ?elem_of_cons; [by intros ?%not_elem_of_nil | intros [->|]; auto]. Qed.

Lemma apart_sym c d : apart c d -> apart d c.
Proof. intros H i j p q Hp Hq. destruct (H j i q p Hq Hp); auto. Qed.

Lemma live_cons c rest a n :
  live (c :: rest) a n <-> (Cache.live c a /\ n = cache_size c) \/ live rest a n.
Proof.
  unfold live. split.
  - intros (d & [->|Hd]%elem_of_cons & Hl & ->); [by left | right; eauto].
  - intros [[Hl ->]|(d & Hd & Hl & ->)]; eexists; rewrite elem_of_cons; eauto.
Qed.

Lemma live_size al a n : live al a n -> n ∈ cache_size <$> al.
Proof. intros (c & Hc & _ & ->). apply list_elem_of_fmap. eauto. Qed.

(** Live objects inside one cache do not overlap. *)
Lemma cache_objects_disjoint c a a' : Cache.wf c ->
  Cache.live c a -> Cache.live c a' -> a <> a' ->
  a + cache_size c <= a' \/ a' + cache_size c <= a.
Proof.
  intros Hwf (i & p & Hp & Hl) (j & q & Hq & Hl') Hne.
  destruct (page_at c i p Hwf Hp) as (_ & Hpw & Hps), (page_at c j q Hwf Hq) as (_ & Hqw & Hqs).
  destruct (decide (i = j)) as [<-|Hij].
  - rewrite Hp in Hq. injection Hq as <-.
    destruct Hl as (k & -> & Hk & _), Hl' as (k' & -> & Hk' & _).
    unfold obj_addr in *. rewrite <- Hps. pose proof (Page.wf_size p Hpw).
    assert (k <> k') by congruence. nia.
  - destruct Hl as (k & -> & Hk & _), Hl' as (k' & -> & Hk' & _).
    pose proof (obj_range p Hpw k Hk). pose proof (obj_range q Hqw k' Hk').
    destruct (capacity_range p Hpw), (capacity_range q Hqw).
    pose proof (wf_distinct c Hwf i j p q Hp Hq Hij). lia.
Qed.

Lemma apart_objects_disjoint c d a a' : Cache.wf c -> Cache.wf d -> apart c d ->
  Cache.live c a -> Cache.live d a' ->
  a + cache_size c <= a' \/ a' + cache_size d <= a.
Proof.
  intros Hc Hd Hap (i & p & Hp & Hl) (j & q & Hq & Hl').
  destruct (page_at c i p Hc Hp) as (_ & Hpw & Hps), (page_at d j q Hd Hq) as (_ & Hqw & Hqs).
  destruct Hl as (k & -> & Hk & _), Hl' as (k' & -> & Hk' & _).
  pose proof (obj_range p Hpw k Hk). pose proof (obj_range q Hqw k' Hk').
  destruct (capacity_range p Hpw), (capacity_range q Hqw).
  pose proof (Hap i j p q Hp Hq). lia.
Qed.

Section source.
Context {P : Type} `{PageSourceLaws P}.

Definition owned_all (al : SlabAllocator) (s : P) : Prop := Forall (fun c => owned c s) al.

Lemma owned_cons c rest s : owned_all (c :: rest) s <-> owned c s /\ owned_all rest s.
Proof. unfold owned_all. apply Forall_cons_iff. Qed.

Lemma owned_mono c s s' : (forall x, held s x -> held s' x) -> owned c s -> owned c s'.
Proof. intros Hm Ho i p Hp. apply Hm. by eapply Ho. Qed.

(** A cache updated by [Cache.alloc] stays apart from an owned cache. *)
Lemma alloc_apart c c' d (s s' : P) :
  source_wf s' -> (forall x, held s x -> held s' x) -> owned c' s' -> owned d s -> apart c d ->
  (forall i p, zget (pages c') i = Some (Some p) ->
     (exists j q, zget (pages c) j = Some (Some q) /\ base p = base q) \/ ~ held s (base p)) ->
  apart c' d.
Proof.
  intros Hs' Hm Hoc' Hod Hap Hpages i j p q Hp Hq.
  destruct (Hpages i p Hp) as [(k & p0 & Hp0 & ->)|Hnew]; [by eapply Hap|].
  apply (held_apart s'); [done | by eapply Hoc' | apply Hm; by eapply Hod |].
  intros Heq. apply Hnew. rewrite Heq. by eapply Hod.
Qed.

(** The caches [alloc] leaves behind, together with what it returns. *)
Definition alloc_post (size : Z) (al : SlabAllocator) (s : P)
    (x : option Z * SlabAllocator * P) : Prop :=
  let '(r, al', s') := x in
  wf al' /\ source_wf s' /\ owned_all al' s' /\ (forall x, held s x -> held s' x) /\
  (cache_size <$> al') = (cache_size <$> al) /\
  match r with
  | Some a => exists n, find (fun n => size <=? n) (cache_size <$> al) = Some n /\
      ~ live al a n /\ (forall x m, live al' x m <-> (x = a /\ m = n) \/ live al x m)
  | None => forall x m, live al' x m <-> live al x m
  end.

(** Owned caches that were apart from all caches stay so. *)
Definition stays_apart (al al' : SlabAllocator) (s : P) : Prop :=
  forall d, owned d s -> Forall (apart d) al -> Forall (apart d) al'.

(** The first cache serves the request. *)
Lemma alloc_here size c rest s : wf (c :: rest) -> source_wf s -> owned_all (c :: rest) s ->
  NoDup (cache_size <$> (c :: rest)) -> (size <=? cache_size c) = true ->
  returns (alloc size (c :: rest) s) (fun x => alloc_post size (c :: rest) s x /\
    stays_apart (c :: rest) x.1.2 s).
Proof.
  inversion_clear 1 as [|? ? Hc Hap Hrest]. intros Hs Hown Hnd Hsz.
  apply owned_cons in Hown as [Hoc Hor]. apply NoDup_cons in Hnd as [Hnin Hnd].
  cbn [alloc]. rewrite Hsz.
  eapply returns_bind; [by apply Cache.cache_alloc_spec|].
  intros [[r c'] s'] (Hs' & Hoc' & Hm & Hpages & Hr). apply returns_ret.
  assert (stays_apart [c] [c'] s) as Hd.
  { intros d Hod Hdc. rewrite Forall_singleton in Hdc |- *. apply apart_sym.
    apply (alloc_apart c c' d s s'); try done. by apply apart_sym. }
  assert (Cache.wf c' /\ cache_size c' = cache_size c) as [Hwf' Hcs].
  { destruct r; [split; apply Hr | by destruct Hr as [-> _]]. }
  split.
  - split; [|split; [done|split; [|split; [done|]]]].
    + constructor; [done | | done]. apply Forall_forall. intros d Hdin.
      unfold owned_all in Hor. rewrite Forall_forall in Hap, Hor. apply apart_sym.
      specialize (Hd d (Hor d Hdin)). rewrite !Forall_singleton in Hd.
      apply Hd, apart_sym. by apply Hap.
    + constructor; [done|]. eapply Forall_impl; [exact Hor|]. intros d. by apply owned_mono.
    + csimpl. rewrite Hcs, Hsz. split; [done|]. destruct r as [a|]; [|by destruct Hr as [-> _]].
      destruct Hr as (_ & _ & Hfresh & Hlive). exists (cache_size c). split; [done|].
      split.
      * rewrite live_cons. intros [[? _]|Hl%live_size]; done.
      * intros x m. rewrite !live_cons, Hlive, Hcs. tauto.
  - intros d Hod [H1' H2']%Forall_cons_iff. simpl. constructor; [|done].
    specialize (Hd d Hod). rewrite !Forall_singleton in Hd. by apply Hd.
Qed.

(** Caches of one allocator have distinct sizes. *)
Lemma alloc_returns size al s : wf al -> source_wf s -> owned_all al s ->
  NoDup (cache_size <$> al) ->
  returns (alloc size al s) (fun x => alloc_post size al s x /\ stays_apart al x.1.2 s).
Proof.
  intros Hwf. induction Hwf as [|c rest Hc Hap Hrest IH]; intros Hs Hown Hnd.
  { apply returns_ret. split; [|by intros d]. repeat split; try done. constructor. }
  destruct (size <=? cache_size c) eqn:Hsz; [apply alloc_here; [by constructor | done ..]|].
  apply owned_cons in Hown as [Hoc Hor]. apply NoDup_cons in Hnd as [Hnin Hnd].
  cbn [alloc]. rewrite Hsz. eapply returns_bind; [by apply IH|].
  intros [[r rest'] s'] [(Hw' & Hs' & Ho' & Hm & Hcs & Hr) Hap']. simpl in Hap'.
  apply returns_ret. split.
  - split; [|split; [done|split; [|split; [done|]]]].
    + constructor; [done | by apply Hap' | done].
    + constructor; [by eapply owned_mono | done].
    + csimpl. rewrite Hcs, Hsz. split; [done|]. destruct r as [a|].
      * destruct Hr as (n & Hn & Hfresh & Hlive). exists n. split; [done|]. split.
        -- rewrite live_cons. intros [[_ ->]|]; [|done].
           apply find_some in Hn as [_ Hn]. congruence.
        -- intros x m. rewrite !live_cons, Hlive. tauto.
      * intros x m. rewrite !live_cons, Hr. done.
  - intros d Hod [H1' H2']%Forall_cons_iff. simpl. constructor; [done | by apply Hap'].
Qed.

Definition free_post (al : SlabAllocator) (ptr n : Z) (x : bool * SlabAllocator * P) : Prop :=
  let '(ok, al', s') := x in
  ok = true /\ source_wf s' /\ wf al' /\ (cache_size <$> al') = (cache_size <$> al) /\
  (forall x m, live al' x m <-> live al x m /\ ~ (x = ptr /\ m = n)).

(** A page that contains [ptr] belongs to the cache where [ptr] is live. *)
Lemma contains_elsewhere c d ptr i p : Cache.wf c -> Cache.wf d -> apart c d ->
  Cache.live d ptr -> zget (pages c) i = Some (Some p) -> contains ptr p = false.
Proof.
  intros Hc Hd Hap (j & q & Hq & Hl) Hp. apply not_true_iff_false. intros Hin.
  destruct (page_at c i p Hc Hp) as (_ & Hpw & _), (page_at d j q Hd Hq) as (_ & Hqw & _).
  apply in_range_iff in Hin; [|done]. apply live_range in Hl as [? ?]; [|done].
  destruct (capacity_range p Hpw). pose proof (Hap i j p q Hp Hq). lia.
Qed.

Lemma free_returns al s ptr n : wf al -> source_wf s -> owned_all al s ->
  NoDup (cache_size <$> al) -> live al ptr n ->
  returns (free ptr al s) (fun x => free_post al ptr n x /\
    forall d, Forall (apart d) al -> Forall (apart d) x.1.2).
Proof.
  intros Hwf. induction Hwf as [|c rest Hc Hap Hrest IH]; intros Hs Hown Hnd Hlive.
  { destruct Hlive as (c & []%not_elem_of_nil & _). }
  apply owned_cons in Hown as [Hoc Hor]. apply NoDup_cons in Hnd as [Hnin Hnd].
  cbn [free]. rewrite live_cons in Hlive. rewrite Forall_forall in Hap.
  destruct Hlive as [[Hl ->]|Hl].
  - eapply returns_bind; [by apply Cache.free_hit|].
    intros [[ok c'] s'] (-> & Hs' & Hwf' & Hcs & Hpages & Hlive). apply returns_ret.
    assert (forall d, apart d c -> apart d c') as Hsub.
    { intros d Hd i j p q Hp Hq. destruct (Hpages j q Hq) as (k & q0 & Hq0 & ->).
      by apply (Hd i k p q0). }
    split; [|intros d [H1' H2']%Forall_cons_iff; constructor; [by apply Hsub | done]].
    split; [done|]. split; [done|]. split; [|split; [csimpl; by rewrite Hcs|]].
    + constructor; [done | | done]. apply Forall_forall. intros d Hd.
      by apply apart_sym, Hsub, apart_sym, Hap.
    + intros x m. rewrite !live_cons, Hlive, Hcs. split; [|tauto].
      intros [[[? ?] ->]|Hr]; [tauto|]. split; [by right|]. intros [-> ->].
      by apply live_size in Hr.
  - pose proof Hl as (d & Hd & Hdl & ->). rewrite Cache.free_miss; [|done|].
    2: { intros i p Hp. apply (contains_elsewhere c d ptr i); [done | by eapply wf_elem | auto..]. }
    rewrite bind_ret. eapply returns_bind; [by apply IH|].
    intros [[ok rest'] s'] [(-> & Hs' & Hwf' & Hcs & Hlive') Hsub]. apply returns_ret.
    split; [|intros d' [H1' H2']%Forall_cons_iff; constructor; [done | by apply Hsub]].
    split; [done|]. split; [done|]. split; [|split; [csimpl; by rewrite Hcs|]].
    + constructor; [done | | done]. apply Hsub, Forall_forall, Hap.
    + intros x m. rewrite !live_cons, Hlive'. split; [|tauto].
      intros [[Hx ->]|?]; [|tauto]. split; [by left|]. intros [-> Heq].
      apply Hnin. rewrite Heq. by eapply live_size.
Qed.
End source.

(** Live objects never overlap. *)
Lemma live_disjoint al a n x m : wf al -> live al a n -> live al x m -> (a, n) <> (x, m) ->
  a + n <= x \/ x + m <= a.
Proof.
  induction 1 as [|c rest Hc Hap Hrest IH]; rewrite ?live_cons.
  - intros (c & []%not_elem_of_nil & _).
  - rewrite Forall_forall in Hap. intros [[Ha ->]|Ha] [[Hx ->]|Hx] Hne.
    + apply cache_objects_disjoint; [done..|]. congruence.
    + destruct Hx as (d & Hd & Hx & ->).
      apply (apart_objects_disjoint c d); [done | by eapply wf_elem | by apply Hap | done | done].
    + destruct Ha as (d & Hd & Ha & ->). apply or_comm.
      apply (apart_objects_disjoint c d); [done | by eapply wf_elem | by apply Hap | done | done].
    + by apply IH.
Qed.

Lemma new_cache_wf n : 0 < n <= PAGE_BYTES -> Cache.wf (Cache.new n).
Proof.
  intros Hn.
  assert (forall i, 0 <= i < 16 -> zget (pages (Cache.new n)) i = Some None) as Hnone.
  { intros i Hi. apply (zget_replicate 16 None). lia. }
  assert (forall i p, zget (pages (Cache.new n)) i <> Some (Some p)) as Hno.
  { intros i p Hp. apply zget_Some in Hp as Hr. change (zlen (pages (Cache.new n))) with 16 in Hr.
    rewrite Hnone in Hp by lia. discriminate. }
  split; simpl; try done.
  - intros i Hi. lia.
  - intros i j p q Hp. by apply Hno in Hp.
Qed.

Lemma new_no_pages c i p : c ∈ new -> zget (pages c) i <> Some (Some p).
Proof.
  intros Hc Hp. unfold new in Hc. apply list_elem_of_fmap in Hc as (n & -> & Hn).
  apply zget_Some in Hp as Hr. change (zlen (pages (Cache.new n))) with 16 in Hr.
  change (pages (Cache.new n)) with (replicate 16 (@None SlabPage)) in Hp.
  rewrite zget_replicate in Hp by lia. discriminate.
Qed.

Lemma new_wf : wf new.
Proof.
  assert (forall ns, (forall n, n ∈ ns -> 0 < n <= PAGE_BYTES) -> ns ⊆ SLAB_SIZES ->
            wf (Cache.new <$> ns)) as H.
  { induction ns as [|n ns IH]; intros Hn Hsub; csimpl; [constructor|]. constructor.
    - apply new_cache_wf, Hn. by left.
    - apply Forall_forall. intros d Hd i j p q Hp.
      exfalso. apply (new_no_pages (Cache.new n) i p); [|done].
      apply list_elem_of_fmap. exists n. split; [done|]. apply Hsub. by left.
    - apply IH; [intros; apply Hn; by right | intros ? ?; apply Hsub; by right]. }
  apply H; [|done]. apply Forall_forall.
  repeat constructor; unfold PAGE_BYTES; lia.
Qed.

Lemma new_owned {P} `{PageSourceLaws P} (s : P) : owned_all new s.
Proof.
  apply Forall_forall. intros c Hc i p Hp. by apply new_no_pages in Hp.
Qed.

Lemma new_sizes : NoDup (cache_size <$> new).
Proof. change (NoDup SLAB_SIZES). apply (bool_decide_unpack _). vm_compute. exact I. Qed.

End Slabs.

(** * Properties *)

Import Page.

(** [SlabPage::alloc] is first fit over the objects of the page and agrees
    with [is_full]: it hands out the lowest free object, marking exactly it,
    and fails exactly when [is_full] holds; neither function panics although
    both index the four-word bitmap.  [capacity] need not be a multiple of the
    word size. *)
Theorem page_alloc_first_fit (p : SlabPage) : Page.wf p ->
  exists full, is_full p = Ret full /\
    (full = true -> Page.alloc p = Ret (None, p)) /\
    (full = false -> exists i p', Page.alloc p = Ret (Some (base p + i * obj_size p), p') /\
       0 <= i < capacity p /\ used p i = false /\ (forall j, 0 <= j < i -> used p j = true) /\
       Page.wf p' /\ forall j, 0 <= j -> used p' j = (i =? j) || used p j).
Proof.
  intros Hwf. destruct (is_full_spec p Hwf) as (full & Hf & Hiff).
  exists full. split; [done|]. rewrite alloc_spec by done. split.
  - intros Ht. by rewrite (proj1 Hiff Ht).
  - intros ->. destruct (first_unused p) as [i|] eqn:Hi; [|by pose proof (proj2 Hiff eq_refl)].
    destruct (page_unused_range p i Hwf Hi) as [Hr Hu].
    destruct (capacity_range p Hwf) as [Hc _].
    exists i, (with_bitmap p (bm_set 64 (bitmap p) i)). split; [done|]. split; [done|].
    split; [done|]. apply first_from_Some in Hi as (_ & _ & Hlow). split.
    + intros j Hj. by apply negb_false_iff, Hlow.
    + split; [by apply set_wf|]. intros j Hj. apply used_set; [done | lia | done].
Qed.

(** A page of 40 objects of 100 bytes, 3 of them in use. *)
Definition demo_page : SlabPage :=
  {| base := 4096; obj_size := 100; capacity := 40; bitmap := [11; 0; 0; 0] |}.

Lemma demo_page_wf : Page.wf demo_page.
Proof.
  split; simpl; try done; unfold PAGE_BYTES; try lia.
  - repeat constructor; done.
  - intros i Hi. unfold used, bm_test. simpl.
    assert (i / 64 = 0 \/ i / 64 = 1 \/ i / 64 = 2 \/ i / 64 = 3) as H.
    { assert (0 <= i / 64 < 4) by (split; [apply Z.div_pos | apply Z.div_lt_upper_bound]; lia). lia. }
    pose proof (Z.div_mod i 64). pose proof (Z.mod_pos_bound i 64).
    destruct H as [H|[H|[H|H]]]; rewrite H; simpl; [|apply Z.bits_0..].
    apply (testbit_high 4); [done | lia].
Qed.

Lemma page_alloc_first_fit_witness : exists p', Page.alloc demo_page = Ret (Some 4296, p').
Proof.
  destruct (page_alloc_first_fit demo_page demo_page_wf) as (full & Hf & _ & H).
  assert (is_full demo_page = Ret false) as Hd by (vm_compute; reflexivity).
  rewrite Hd in Hf. injection Hf as <-.
  destruct (H eq_refl) as (i & p' & Ha & _). exists p'.
  assert (Page.alloc demo_page = Ret (Some 4296, with_bitmap demo_page [15; 0; 0; 0])) as He
    by (vm_compute; reflexivity).
  rewrite He in Ha |- *. injection Ha as _ <-. reflexivity.
Defined.

(** C4: [SlabAllocator::alloc], over any page source that satisfies the
    [PageSource] laws: the operation never crashes; it serves the request from
    the first (smallest) size class that fits; the object it returns was not
    live, does not overlap any live object, and is the only new live object;
    the allocator stays well formed; when it fails the live objects are
    unchanged. *)
Theorem slab_alloc_fresh {P} `{PageSourceLaws P} (size : Z) (al : Slabs.SlabAllocator) (s : P) :
  Slabs.wf al -> source_wf s -> Slabs.owned_all al s -> NoDup (Cache.cache_size <$> al) ->
  exists r al' s', Slabs.alloc size al s = Ret (r, al', s') /\
    Slabs.wf al' /\ source_wf s' /\ Slabs.owned_all al' s' /\
    match r with
    | None => forall x m, Slabs.live al' x m <-> Slabs.live al x m
    | Some a => exists n,
        find (fun n => size <=? n) (Cache.cache_size <$> al) = Some n /\ size <= n /\
        ~ Slabs.live al a n /\
        (forall x m, Slabs.live al' x m <-> (x = a /\ m = n) \/ Slabs.live al x m) /\
        (forall x m, Slabs.live al x m -> a + n <= x \/ x + m <= a)
    end.
Proof.
  intros Hwf Hs Hown Hnd.
  destruct (Slabs.alloc_returns size al s Hwf Hs Hown Hnd)
    as ([[r al'] s'] & Ha & (Hw' & Hs' & Ho' & _ & _ & Hr) & _).
  exists r, al', s'. do 4 (split; [done|]). destruct r as [a|]; [|done].
  destruct Hr as (n & Hn & Hfresh & Hlive). exists n. split; [done|].
  split; [apply find_some in Hn as [_ Hn]; by apply Z.leb_le|].
  split; [done|]. split; [done|]. intros x m Hx.
  apply (Slabs.live_disjoint al'); [done | apply Hlive; by left | apply Hlive; by right |].
  by intros [= <- <-].
Qed.

(** C5: [SlabAllocator::free] of a live object, over any page source: it
    reports success, the object is no longer live, every other object stays
    live at its place although empty pages may have been returned to the page
    source and the caches compacted, and the allocator stays well formed. *)
Theorem slab_free_live {P} `{PageSourceLaws P} (ptr n : Z) (al : Slabs.SlabAllocator) (s : P) :
  Slabs.wf al -> source_wf s -> Slabs.owned_all al s -> NoDup (Cache.cache_size <$> al) ->
  Slabs.live al ptr n ->
  exists al' s', Slabs.free ptr al s = Ret (true, al', s') /\ Slabs.wf al' /\ source_wf s' /\
    (forall x m, Slabs.live al' x m <-> Slabs.live al x m /\ ~ (x = ptr /\ m = n)).
Proof.
  intros Hwf Hs Hown Hnd Hl.
  destruct (Slabs.free_returns al s ptr n Hwf Hs Hown Hnd Hl)
    as ([[ok al'] s'] & Hf & (-> & Hs' & Hw' & _ & Hlive) & _).
  by exists al', s'.
Qed.

(** A page source that serves the pages [0, 4096, ..] below 1 MiB in turn and
    never reuses one, for the witnesses. *)
#[export] Instance counter_source : PageSource Z :=
  {| page_alloc k := Ret (if k <? 256 then (Some (k * PAGE_BYTES), k + 1) else (None, k));
     page_free a k := Ret k |}.

#[export] Program Instance counter_laws : PageSourceLaws Z :=
  {| source_wf k := 0 <= k <= 256; held k a := exists i, a = i * PAGE_BYTES /\ 0 <= i < k |}.
Next Obligation. intros k a Hk (i & -> & Hi). simpl in *. unfold PAGE_BYTES. lia. Qed.
Next Obligation.
  intros k a a' Hk (i & -> & Hi) (j & -> & Hj) Hne. simpl in *. unfold PAGE_BYTES in *. lia.
Qed.
Next Obligation.
  intros k Hk. simpl in *. apply returns_ret. case_ltb; [|done]. split; [lia|]. split.
  - intros (i & Hi & Hr). unfold PAGE_BYTES in *. lia.
  - intros x. split.
    + intros (i & -> & Hi). destruct (decide (i = k)) as [->|]; [by left | right; exists i; lia].
    + intros [-> | (i & -> & Hi)]; [exists k; lia | exists i; lia].
Qed.
Next Obligation. intros k a Hk Ha. simpl. by apply returns_ret. Qed.

Lemma slab_alloc_fresh_witness : exists al' s',
  Slabs.alloc 100 Slabs.new 3 = Ret (Some 12288, al', s') /\ Slabs.live al' 12288 128.
Proof.
  destruct (slab_alloc_fresh 100 Slabs.new 3) as (r & al' & s' & Ha & _ & _ & _ & Hr);
    [apply Slabs.new_wf | simpl; lia | apply Slabs.new_owned | apply Slabs.new_sizes |].
  exists al', s'.
  assert (r = Some 12288) as ->.
  { vm_compute in Ha. by injection Ha as <- _ _. }
  split; [exact Ha|]. destruct Hr as (n & Hn & _ & _ & Hlive & _).
  vm_compute in Hn. injection Hn as <-. apply Hlive. by left.
Defined.

Lemma slab_free_live_witness : exists al1 s1 al2 s2,
  Slabs.alloc 100 Slabs.new 3 = Ret (Some 12288, al1, s1) /\
  Slabs.free 12288 al1 s1 = Ret (true, al2, s2) /\ ~ Slabs.live al2 12288 128.
Proof.
  destruct (Slabs.alloc_returns 100 Slabs.new 3) as ([[r al1] s1] & Ha & (Hw & Hs & Ho & _ & Hc & Hr) & _);
    [apply Slabs.new_wf | simpl; lia | apply Slabs.new_owned | apply Slabs.new_sizes |].
  assert (r = Some 12288) as ->.
  { vm_compute in Ha. by injection Ha as <- _ _. }
  destruct Hr as (n & Hn & _ & Hlive). vm_compute in Hn. injection Hn as <-.
  destruct (slab_free_live 12288 128 al1 s1 Hw Hs Ho) as (al2 & s2 & Hf & _ & _ & Hl2).
  - rewrite Hc. apply Slabs.new_sizes.
  - apply Hlive. by left.
  - exists al1, s1, al2, s2. split; [exact Ha|]. split; [exact Hf|].
    rewrite Hl2. intros [_ []]. done.
Defined.
