(* ===== verification/Mem.v ===== *)
(** The kernel heap, [src/kern/mem.rs]: the choice of the managed region,
    [kmalloc] and [kfree] over the slab and the page allocator, and the linear
    map between physical and virtual addresses.  The page-table routines of the
    same source file are in [Paging]. *)
From S2P Require Import Prelude Word PageSource Buddy Slab.

Definition PAGE_SIZE : Z := 0x1000.

(** The statics [BUDDY], [SLAB] and [HHDM]. *)
Record KMem := mkMem {
  BUDDY : BuddyAllocator;
  SLAB : Slabs.SlabAllocator;
  HHDM : Z;
}.

Definition boot : KMem := {| BUDDY := Buddy.new; SLAB := Slabs.new; HHDM := 0 |}.

Definition with_buddy (m : KMem) (b : BuddyAllocator) : KMem :=
  {| BUDDY := b; SLAB := SLAB m; HHDM := HHDM m |}.

Definition with_slab (m : KMem) (al : Slabs.SlabAllocator) (b : BuddyAllocator) : KMem :=
  {| BUDDY := b; SLAB := al; HHDM := HHDM m |}.

(** An entry of the boot loader's memory map. *)
Record Entry := mkEntry { e_usable : bool; e_base : Z; e_length : Z }.

(** The loop of [init]: the last strictly larger usable entry wins. *)
Definition pick_region (entries : list Entry) (best : Z * Z) : Z * Z :=
  fold_left (fun '(best_base, best_size) e =>
    if e_usable e && (best_size <? e_length e) then (e_base e, e_length e)
    else (best_base, best_size)) entries best.

Definition init (hhdm_offset : Z) (entries : list Entry) (m : KMem) : outcome KMem :=
  let m := {| BUDDY := BUDDY m; SLAB := SLAB m; HHDM := hhdm_offset |} in
  let '(best_base, best_size) := pick_region entries (0, 0) in
  if best_size =? 0 then Ret m
  else
    b ← Buddy.init (hhdm_offset ⊞ best_base) best_size (BUDDY m);
    Ret (with_buddy m b).

(** [let mut order = 0; while (1 << order) < pages { order += 1; }] *)
Fixpoint order_loop (fuel : nat) (order pages : Z) : outcome Z :=
  match fuel with
  | O => Crash OutOfFuel
  | S fuel' => if wshl 64 1 order <? pages then order_loop fuel' (order ⊞ 1) pages else Ret order
  end.

Definition order_for (pages : Z) : outcome Z := order_loop 64 0 pages.

(** The block allocation that ends [kmalloc] and [kmalloc_aligned]. *)
Definition alloc_block (size : Z) (m : KMem) : outcome (Z * KMem) :=
  let pages := (size ⊞ PAGE_SIZE ⊟ 1) / PAGE_SIZE in
  order ← order_for pages;
  '(r, b) ← Buddy.alloc_pages order (BUDDY m);
  Ret (default 0 r, with_buddy m b).

(** A null pointer is 0. *)
Definition kmalloc (size : Z) (m : KMem) : outcome (Z * KMem) :=
  if size =? 0 then Ret (0, m)
  else if size <=? 2048 then
    '(r, al, b) ← Slabs.alloc size (SLAB m) (BUDDY m);
    let m := with_slab m al b in
    match r with
    | Some ptr => Ret (ptr, m)
    | None => alloc_block size m
    end
  else alloc_block size m.

Definition free_block (ptr size : Z) (m : KMem) : outcome KMem :=
  let pages := (size ⊞ PAGE_SIZE ⊟ 1) / PAGE_SIZE in
  order ← order_for pages;
  b ← Buddy.free_pages ptr order (BUDDY m);
  Ret (with_buddy m b).

Definition kfree (ptr size : Z) (m : KMem) : outcome KMem :=
  if (ptr =? 0) || (size =? 0) then Ret m
  else if size <=? 2048 then
    '(ok, al, b) ← Slabs.free ptr (SLAB m) (BUDDY m);
    let m := with_slab m al b in
    if (ok : bool) then Ret m else free_block ptr size m
  else free_block ptr size m.

Definition alloc_pages (order : Z) (m : KMem) : outcome (option Z * KMem) :=
  '(r, b) ← Buddy.alloc_pages order (BUDDY m);
  Ret (r, with_buddy m b).

Definition free_pages (addr order : Z) (m : KMem) : outcome KMem :=
  b ← Buddy.free_pages addr order (BUDDY m);
  Ret (with_buddy m b).

Definition kmalloc_aligned (size align : Z) (m : KMem) : outcome (Z * KMem) :=
  if size =? 0 then Ret (0, m)
  else alloc_block (if size <? align then align else size) m.

Definition virt_to_phys (vaddr : Z) (m : KMem) : Z := vaddr ⊟ HHDM m.

Definition phys_to_virt_pub (phys : Z) (m : KMem) : Z := HHDM m ⊞ phys.

(** * Invariant *)

(** Both allocators are well formed and every slab page is a held page. *)
Record wf (m : KMem) : Prop := {
  wf_buddy : Buddy.wf (BUDDY m);
  wf_slab : Slabs.wf (SLAB m);
  wf_owned : Slabs.owned_all (SLAB m) (BUDDY m);
  wf_sizes : (Cache.cache_size <$> SLAB m) = SLAB_SIZES;
}.

(** Heap object of [n] bytes at [a] in use. *)
Definition live (m : KMem) (a n : Z) : Prop := Slabs.live (SLAB m) a n.

Lemma sizes_nodup m : wf m -> NoDup (Cache.cache_size <$> SLAB m).
Proof. intros Hwf. rewrite (wf_sizes m Hwf). exact Slabs.new_sizes. Qed.

(** * Orders *)

(** The loop finds the least sufficient order. *)
Lemma order_loop_spec fuel order pages : 0 <= order -> order + Z.of_nat fuel = 64 ->
  pages <= 2 ^ 63 ->
  (forall o, 0 <= o < order -> 2 ^ o < pages) -> order < 64 ->
  returns (order_loop fuel order pages) (fun o =>
    0 <= o < 64 /\ pages <= 2 ^ o /\ (forall o', 0 <= o' < o -> 2 ^ o' < pages)).
Proof.
  revert order. induction fuel as [|fuel IH]; intros order Ho Hf Hp Hlow Hlt; [lia|].
  cbn [order_loop]. rewrite wshl_1 by lia. case_ltb.
  - assert (order < 63).
    { assert (order <> 63) by (intros ->; lia). lia. }
    rewrite wadd_small by (unfold in_word; lia). apply IH; [lia..| | lia].
    intros o Hr. destruct (decide (o = order)); [by subst | apply Hlow; lia].
  - apply returns_ret. split_and!; [lia..|done].
Qed.

Lemma order_for_spec pages : pages <= 2 ^ 63 ->
  returns (order_for pages) (fun o =>
    0 <= o < 64 /\ pages <= 2 ^ o /\ (forall o', 0 <= o' < o -> 2 ^ o' < pages)).
Proof. intros Hp. apply order_loop_spec; [lia.. | intros; lia | lia]. Qed.

(** Number of pages that hold [size] bytes. *)
Definition pages_of (size : Z) : Z := (size + 4095) / 4096.

Lemma pages_small size : 0 <= size -> size + 4096 < 2 ^ 64 ->
  (size ⊞ PAGE_SIZE ⊟ 1) / PAGE_SIZE = pages_of size.
Proof.
  intros H0 H1. unfold pages_of, PAGE_SIZE. rewrite wadd_small, wsub_small by (unfold in_word; lia).
  f_equal. lia.
Qed.

(** What [alloc_block] returns for [pages] pages. *)
Definition block_post (pages : Z) (m : KMem) (p : Z * KMem) : Prop :=
  let '(ptr, m') := p in
  SLAB m' = SLAB m /\ HHDM m' = HHDM m /\ Buddy.wf (BUDDY m') /\
  same_region (BUDDY m) (BUDDY m') /\
  ((ptr = 0 /\ m' = m) \/ exists page o,
    ptr = Buddy.base (BUDDY m) + page * PAGE_SIZE /\ 0 <= o < 64 /\
    pages <= 2 ^ o /\ (forall o', 0 <= o' < o -> 2 ^ o' < pages) /\
    0 <= page /\ page + 2 ^ o <= total_pages (BUDDY m) /\ (2 ^ o | page)).

Lemma alloc_block_spec size m : Buddy.wf (BUDDY m) ->
  returns (alloc_block size m) (block_post ((size ⊞ PAGE_SIZE ⊟ 1) / PAGE_SIZE) m).
Proof.
  intros Hb. unfold alloc_block. set (pages := _ / _).
  assert (pages <= 2 ^ 63) as Hp.
  { subst pages. assert (in_word 64 (size ⊞ PAGE_SIZE ⊟ 1)) as [H1 H2] by (by apply wrap_in_word).
    apply Z.lt_le_incl, Z.div_lt_upper_bound; unfold PAGE_SIZE in *; lia. }
  eapply returns_bind; [apply (order_for_spec pages Hp)|]. intros o (Ho & Hle & Hleast).
  eapply returns_bind; [apply alloc_pages_returns; [done | lia]|].
  intros [r b] (Hw & Hreg & Hr). apply returns_ret. simpl in *.
  do 2 (split; [done|]). split; [done|]. split; [done|]. destruct r as [addr|].
  - right. destruct Hr as (page & -> & H1 & H2 & H3). by exists page, o.
  - left. split; [done|]. subst b. by destruct m.
Qed.

(** * Small objects *)

(** One page from the buddy allocator, as [alloc_block] asks for it. *)
Lemma alloc_block_one size m : 0 < size <= 4096 ->
  alloc_block size m = ('(r, b) ← alloc_one (BUDDY m); Ret (default 0 r, with_buddy m b)).
Proof.
  intros Hs. unfold alloc_block. rewrite pages_small by lia.
  assert (pages_of size = 1) as ->; [|reflexivity].
  unfold pages_of. symmetry. apply (Z.div_unique _ _ 1 (size - 1)); lia.
Qed.

(** An object of a well-formed heap lies in a page that is held. *)
Lemma live_in_held m x n : wf m -> live m x n ->
  exists pg, held (BUDDY m) pg /\ pg <= x /\ x + n <= pg + PAGE_BYTES.
Proof.
  intros [Hb Hs Ho _] (c & Hc & (i & p & Hp & Hl) & ->).
  pose proof (Slabs.wf_elem _ _ Hs Hc) as Hcw.
  destruct (Cache.page_at c i p Hcw Hp) as (_ & Hpw & Hsz).
  exists (Page.base p). unfold Slabs.owned_all in Ho. rewrite Forall_forall in Ho.
  split; [by apply (Ho c Hc i)|]. destruct Hl as (k & -> & Hk & _).
  pose proof (Page.obj_range p Hpw k Hk) as Hr. unfold Page.obj_addr in *. rewrite <- Hsz.
  destruct (Page.capacity_range p Hpw) as [_ Hcap]. lia.
Qed.

Lemma alloc_one_heap m : wf m ->
  returns (alloc_one (BUDDY m)) (fun '(r, b) => wf (with_buddy m b) /\
    match r with
    | Some a => page_held b a /\
        forall x n, live m x n -> a + PAGE_BYTES <= x \/ x + n <= a
    | None => True
    end).
Proof.
  intros Hwf. destruct (@page_alloc_law _ _ buddy_source_laws (BUDDY m) (wf_buddy m Hwf)) as ([r b] & Heq & Hb & Hr).
  change (page_alloc (BUDDY m)) with (alloc_one (BUDDY m)) in Heq. rewrite Heq.
  apply returns_ret. assert (forall x, held (BUDDY m) x -> held b x) as Hm.
  { destruct r as [a|]; [|by subst b]. intros x Hx. apply Hr. by right. }
  split.
  - destruct Hwf as [H1 H2 H3 H4]. split; [done..| |done].
    eapply Forall_impl; [exact H3|]. intros c. by apply Slabs.owned_mono.
  - destruct r as [a|]; [|done]. destruct Hr as [Hfresh Hiff].
    split; [apply Hiff; by left|]. intros x n Hl.
    destruct (live_in_held m x n Hwf Hl) as (pg & Hpg & H1 & H2).
    assert (a <> pg) as Hne by congruence.
    pose proof (held_apart b a pg Hb (proj2 (Hiff a) (or_introl eq_refl)) (Hm pg Hpg) Hne). lia.
Qed.


(** [kfree] of a live object with a size of 1 to 2048 bytes succeeds, makes
    exactly that object free, and keeps every other object and the
    well-formedness of both allocators. *)
Theorem kfree_live m ptr n size : wf m -> 0 < size <= 2048 -> ptr <> 0 -> live m ptr n ->
  exists m', kfree ptr size m = Ret m' /\ Slabs.wf (SLAB m') /\ Buddy.wf (BUDDY m') /\
    (forall x k, live m' x k <-> live m x k /\ ~ (x = ptr /\ k = n)).
Proof.
  intros Hwf Hs Hp Hl. unfold kfree. decide_tests. simpl. pose proof Hwf as [_ H2 H3 H4].
  assert (source_wf (BUDDY m)) as H1 by apply Hwf.
  destruct (Slabs.free_returns (SLAB m) (BUDDY m) ptr n H2 H1 H3 (sizes_nodup m Hwf) Hl)
    as ([[ok al] b] & -> & (-> & Hb & Hw & _ & Hlive) & _).
  rewrite bind_ret. eexists. split; [done|]. split; [done|]. split; [done | exact Hlive].
Qed.

(** * Large blocks *)

(** [kmalloc] of more than 2048 bytes (short of the top page of the
    address space) never crashes and returns null with the heap unchanged, or a
    block of the least power of two of pages that holds the request, aligned
    to its size relative to the region's base and inside the region; the slabs
    are not touched. *)
Theorem kmalloc_large_block m size : Buddy.wf (BUDDY m) -> 2048 < size < 2 ^ 64 - 4096 ->
  exists ptr m', kmalloc size m = Ret (ptr, m') /\ SLAB m' = SLAB m /\ Buddy.wf (BUDDY m') /\
    ((ptr = 0 /\ m' = m) \/ exists page o, 0 <= o /\
      size <= 2 ^ o * PAGE_SIZE /\ (forall o', 0 <= o' < o -> 2 ^ o' * PAGE_SIZE < size) /\
      ptr = Buddy.base (BUDDY m) + page * PAGE_SIZE /\
      0 <= page /\ page + 2 ^ o <= total_pages (BUDDY m) /\ (2 ^ o | page)).
Proof.
  intros Hb Hs. unfold kmalloc. decide_tests.
  destruct (alloc_block_spec size m Hb) as ([ptr m'] & -> & Hsl & _ & Hw & _ & Hr).
  rewrite pages_small in Hr by lia. exists ptr, m'. do 3 (split; [done|]).
  destruct Hr as [Hr|(page & o & Hptr & Ho & Hle & Hlt & Hr)]; [by left | right].
  pose proof (Z.div_mod (size + 4095) 4096). pose proof (Z.mod_pos_bound (size + 4095) 4096).
  unfold pages_of, PAGE_SIZE in *. exists page, o.
  do 2 (split; [lia|]). split; [intros o' Ho'; specialize (Hlt o' Ho'); lia | done].
Qed.

(** A request for the last page of the address space wraps around: the
    number of pages becomes zero and [kmalloc] answers it like a request for
    one page. *)
Theorem kmalloc_size_wraps m size : 2 ^ 64 - 4095 <= size < 2 ^ 64 ->
  kmalloc size m = kmalloc 4096 m.
Proof.
  intros Hs. unfold kmalloc. decide_tests. rewrite (alloc_block_one 4096) by lia.
  unfold alloc_block. assert ((size ⊞ PAGE_SIZE ⊟ 1) / PAGE_SIZE = 0) as ->; [|reflexivity].
  unfold wsub, wadd, wrap, PAGE_SIZE.
  assert ((size + 4096) mod 2 ^ 64 = size + 4096 - 2 ^ 64) as ->.
  { symmetry. apply (Z.mod_unique _ _ 1); lia. }
  rewrite Z.mod_small by lia. apply Z.div_small. lia.
Qed.

(** * The managed region *)

Lemma pick_region_spec entries best : 0 <= best.2 ->
  let r := pick_region entries best in
  best.2 <= r.2 /\ (forall e, e ∈ entries -> e_usable e = true -> e_length e <= r.2) /\
  (r = best \/ exists e, e ∈ entries /\ e_usable e = true /\ r = (e_base e, e_length e)).
Proof.
  unfold pick_region. revert best. induction entries as [|e es IH]; intros [bb bs] Hb; simpl.
  - split; [lia|]. split; [by intros e ?%not_elem_of_nil | by left].
  - set (b1 := if e_usable e && (bs <? e_length e) then (e_base e, e_length e) else (bb, bs)).
    assert (bs <= b1.2 /\ (e_usable e = true -> e_length e <= b1.2) /\
      (b1 = (bb, bs) \/ (e_usable e = true /\ b1 = (e_base e, e_length e)))) as (H1 & H2 & H3).
    { subst b1. destruct (e_usable e); simpl; [|auto with lia].
      case_ltb; simpl; (split; [lia|]; split; [lia|]; auto). }
    destruct (IH b1) as (I1 & I2 & I3); [simpl in *; lia|]. split; [simpl in *; lia|]. split.
    + intros e' [->|He]%elem_of_cons Hu; [specialize (H2 Hu); lia | by apply I2].
    + destruct I3 as [-> | (e' & He & Hu & ->)].
      * destruct H3 as [-> | [Hu ->]]; [by left | right]. exists e. split; [by left | done].
      * right. exists e'. split; [by right | done].
Qed.

(** [init] gives the page allocator a largest usable entry of the memory
    map, at its address in the linear map, with every page free, and reaches a
    well-formed heap from the boot state. *)
Theorem init_manages_largest hhdm entries :
  0 <= hhdm -> (forall e, e ∈ entries -> 0 <= e_base e /\ 0 <= e_length e /\
    hhdm + e_base e + e_length e < 2 ^ 64) ->
  exists m, init hhdm entries boot = Ret m /\ HHDM m = hhdm /\
    ((forall e, e ∈ entries -> e_usable e = true -> e_length e = 0) /\ BUDDY m = Buddy.new \/
     wf m /\ exists e, e ∈ entries /\ e_usable e = true /\
       (forall e', e' ∈ entries -> e_usable e' = true -> e_length e' <= e_length e) /\
       init_post (hhdm + e_base e) (e_length e) (BUDDY m)).
Proof.
  intros Hh Hes. unfold init.
  destruct (pick_region_spec entries (0, 0)) as (_ & Hmax & Hpick); [simpl; lia|].
  destruct (pick_region entries (0, 0)) as [bb bs]. simpl in Hmax, Hpick.
  destruct (Z.eqb_spec bs 0) as [->|Hne].
  - eexists. split; [done|]. split; [done|]. left. split; [|done]. intros e He Hu.
    specialize (Hmax e He Hu). destruct (Hes e He) as (_ & ? & _). lia.
  - destruct Hpick as [[= -> ->] | (e & He & Hu & [= -> ->])]; [done|].
    destruct (Hes e He) as (H1 & H2 & H3).
    rewrite wadd_small by (unfold in_word; lia).
    destruct (init_returns (hhdm + e_base e) (e_length e) Buddy.new) as (b & Hb & Hpost);
      [lia.. | apply new_len |].
    simpl BUDDY. rewrite Hb, bind_ret. eexists. split; [done|]. split; [done|]. right. split.
    + split; simpl; [apply Hpost | apply Slabs.new_wf | apply Slabs.new_owned | reflexivity].
    + by exists e.
Qed.

(** The two directions of the linear map are inverse, modulo 2^64. *)
Lemma virt_phys_inverse m a : in_word 64 a ->
  phys_to_virt_pub (virt_to_phys a m) m = a /\ virt_to_phys (phys_to_virt_pub a m) m = a.
Proof.
  unfold phys_to_virt_pub, virt_to_phys, wadd, wsub, wrap, in_word. intros Ha.
  rewrite Zplus_mod_idemp_r, Zminus_mod_idemp_l. split.
  - replace (HHDM m + (a - HHDM m)) with a by lia. by apply Z.mod_small.
  - replace (HHDM m + a - HHDM m) with a by lia. by apply Z.mod_small.
Qed.

(** * Witnesses *)

Definition demo_heap : KMem :=
  {| BUDDY := Buddy.demo; SLAB := Slabs.new; HHDM := demo_base |}.

Lemma demo_heap_wf : wf demo_heap.
Proof. split; [apply demo_wf | apply Slabs.new_wf | apply Slabs.new_owned | reflexivity]. Qed.

Lemma demo_kmalloc : exists m', kmalloc 100 demo_heap = Ret (demo_base, m') /\ wf m' /\
  live m' demo_base 128.
Proof.
  pose proof demo_heap_wf as Hwf. pose proof Hwf as [_ H2 H3 H4].
  assert (source_wf (BUDDY demo_heap)) as H1 by apply Hwf.
  destruct (Slabs.alloc_returns 100 (SLAB demo_heap) (BUDDY demo_heap) H2 H1 H3
    (sizes_nodup _ Hwf)) as ([[r al] b] & Ha & (Hw & Hb & Ho & _ & Hsz & Hr) & _).
  assert (r = Some demo_base) as ->.
  { assert (match Slabs.alloc 100 (SLAB demo_heap) (BUDDY demo_heap) with
      | Ret (x, _, _) => Some x | Crash _ => None end = Some (Some demo_base)) as He
      by (vm_compute; reflexivity).
    rewrite Ha in He. by injection He. }
  destruct Hr as (n & Hn & _ & Hlive). vm_compute in Hn. injection Hn as <-.
  exists (with_slab demo_heap al b). split.
  - unfold kmalloc. cbn [Z.eqb Z.leb Z.compare]. rewrite Ha. reflexivity.
  - split; [split; [done..|]; simpl; by rewrite Hsz | apply Hlive; by left].
Qed.


Lemma kfree_live_witness : exists m1 m2, kmalloc 100 demo_heap = Ret (demo_base, m1) /\
  kfree demo_base 100 m1 = Ret m2 /\ ~ live m2 demo_base 128.
Proof.
  destruct demo_kmalloc as (m1 & H1 & Hwf & Hl).
  destruct (kfree_live m1 demo_base 128 100 Hwf) as (m2 & H2 & _ & _ & Hl2); [lia | done | done |].
  exists m1, m2. split; [done|]. split; [done|]. rewrite Hl2. intros [_ []]. done.
Defined.

Lemma kmalloc_large_block_witness : exists m',
  kmalloc 0x4000 demo_heap = Ret (demo_base, m') /\ SLAB m' = Slabs.new.
Proof.
  destruct (kmalloc_large_block demo_heap 0x4000 demo_wf) as (ptr & m' & Hk & Hs & _); [lia|].
  exists m'. split; [|done].
  assert (observed (kmalloc 0x4000 demo_heap) = Some demo_base) as He by (vm_compute; reflexivity).
  rewrite Hk in He |- *. by injection He as ->.
Defined.

Lemma kmalloc_size_wraps_witness : exists m',
  kmalloc (2 ^ 64 - 1) demo_heap = Ret (demo_base, m').
Proof.
  destruct (observed_Some (kmalloc 4096 demo_heap) demo_base) as [m' Hm]; [vm_compute; reflexivity|].
  exists m'. rewrite (kmalloc_size_wraps demo_heap (2 ^ 64 - 1)); [exact Hm | lia].
Defined.

Definition demo_map : list Entry :=
  [mkEntry false 0 0x100000; mkEntry true 0x100000 0x8000; mkEntry true 0x200000 0x10000].

Lemma init_manages_largest_witness : exists m, init demo_base demo_map boot = Ret m /\ wf m.
Proof.
  destruct (init_manages_largest demo_base demo_map) as (m & Hm & _ & Hr).
  - unfold demo_base. lia.
  - intros e He. unfold demo_map, demo_base in *.
    repeat (apply elem_of_cons in He as [->|He]; [simpl; lia|]). by apply not_elem_of_nil in He.
  - exists m. split; [done|]. destruct Hr as [[Hz _]|[Hw _]]; [|done].
    exfalso. specialize (Hz (mkEntry true 0x200000 0x10000)).
    enough (0x10000 = 0) by lia. apply Hz; [|done]. unfold demo_map. rewrite !elem_of_cons. auto.
Defined.
