(* ===== verification/Heap.v ===== *)
(** Robustness of the kernel heap: what [kmalloc], [kfree] and the block
    operations of [src/kern/mem.rs] guarantee for arbitrary sequences of calls,
    wrong ones included (double frees, foreign pointers, wrong sizes).  The
    invariant is weaker than that of [Mem], whose ownership of pages such calls
    destroy; it is what remains. *)
From S2P Require Import Prelude Word PageSource Buddy Slab Mem.
Import Page Cache.

(** [n] bytes at [a] lie in the region that the allocator manages. *)
Definition inside (b : BuddyAllocator) (a n : Z) : Prop :=
  Buddy.base b <= a /\ a + n <= Buddy.base b + total_pages b * Buddy.PAGE_SIZE.

(** A page in use by a slab cache, and a cache: the pages may overlap. *)
Definition page_ok (b : BuddyAllocator) (size : Z) (p : SlabPage) : Prop :=
  Page.wf p /\ obj_size p = size /\ inside b (Page.base p) PAGE_BYTES.

Record cache_ok (b : BuddyAllocator) (c : SlabCache) : Prop := {
  ok_size : 0 < cache_size c <= PAGE_BYTES;
  ok_slots : zlen (pages c) = MAX_SLABS_PER_SIZE;
  ok_count : 0 <= count c <= MAX_SLABS_PER_SIZE;
  ok_pages : forall i, 0 <= i < count c ->
    exists p, zget (pages c) i = Some (Some p) /\ page_ok b (cache_size c) p;
}.

Definition robust (m : KMem) : Prop := Buddy.wf (BUDDY m) /\ Forall (cache_ok (BUDDY m)) (SLAB m).

(** * Pages *)

Lemma region_sym b b' : same_region b b' -> same_region b' b.
Proof. intros (H1 & H2 & H3). by repeat split. Qed.

Lemma inside_region b b' a n : same_region b b' -> inside b a n -> inside b' a n.
Proof. intros (H1 & H2 & _) H. unfold inside. by rewrite H1, H2. Qed.

Lemma cache_ok_region b b' c : same_region b b' -> cache_ok b c -> cache_ok b' c.
Proof.
  intros Hreg [H1 H2 H3 H4]. split; [done..|]. intros i Hi. destruct (H4 i Hi) as (p & Hp & Hw & Hs & Hin).
  exists p. do 3 (split; [done|]). by eapply inside_region.
Qed.

Lemma page_ok_bitmap b n p m : page_ok b n p -> Page.wf (with_bitmap p m) -> page_ok b n (with_bitmap p m).
Proof. intros (_ & Hs & Hin) Hw. by split. Qed.

(** Allocation in a page of a cache. *)
Lemma page_alloc_ok b n p : page_ok b n p ->
  exists r p', Page.alloc p = Ret (r, p') /\ page_ok b n p' /\ forall a, r = Some a -> inside b a n.
Proof.
  intros Hp. pose proof Hp as (Hw & Hs & Hin). rewrite Page.alloc_spec by done.
  destruct (first_unused p) as [i|] eqn:Hi; [|by exists None, p].
  apply page_unused_range in Hi as [Hi _]; [|done]. do 2 eexists. split; [done|]. split.
  - by apply page_ok_bitmap, set_wf.
  - intros a [= <-]. pose proof (obj_range p Hw i Hi). destruct (capacity_range p Hw).
    unfold inside in *. lia.
Qed.

Lemma freed_ok b n p ptr : page_ok b n p -> contains ptr p = true -> page_ok b n (freed p ptr).
Proof.
  intros Hp Hc. pose proof Hp as (Hw & _). apply page_ok_bitmap; [done|]. apply clear_wf; [done|].
  apply in_range_iff in Hc; [|done]. destruct (capacity_range p Hw). pose proof (wf_size p Hw).
  split; [apply Z.div_pos; lia | apply Z.div_lt_upper_bound; nia].
Qed.

(** A page is replaced in its slot. *)
Lemma update_ok b c i p : cache_ok b c -> 0 <= i < count c -> page_ok b (cache_size c) p ->
  cache_ok b (with_pages c (zset (pages c) i (Some p))).
Proof.
  intros [H1 H2 H3 H4] Hi Hp. split; simpl; [done | by rewrite zlen_zset | done |].
  intros j Hj. destruct (decide (i = j)) as [<-|].
  - exists p. by rewrite zget_zset_eq by lia.
  - rewrite zget_zset_ne by done. by apply H4.
Qed.

(** * Caches *)

Lemma alloc_in_pages_ok b c k n : cache_ok b c -> 0 <= k -> k + Z.of_nat n = count c ->
  exists served, alloc_in_pages (zseq k n) c = Ret served /\
    forall r c', served = Some (r, c') -> cache_ok b c' /\ cache_size c' = cache_size c /\
      forall a, r = Some a -> inside b a (cache_size c).
Proof.
  intros Hc. revert k. induction n as [|n IH]; intros k Hk Hn; cbn [zseq alloc_in_pages]; [by exists None|].
  destruct (ok_pages b c Hc k) as (p & Hp & Hok); [lia|].
  unfold arr_get. rewrite Hp, bind_ret.
  destruct (is_full_spec p (proj1 Hok)) as (full & -> & _). rewrite bind_ret.
  destruct full; simpl; [apply IH; lia|].
  destruct (page_alloc_ok b _ p Hok) as (r & p' & -> & Hok' & Hr). rewrite bind_ret.
  rewrite arr_set_ok by (eapply zget_Some; exact Hp). rewrite bind_ret. eexists. split; [done|].
  intros r' c' [= <- <-]. split; [apply update_ok; [done | lia | done] | done].
Qed.

(** The outcome of an operation on a cache of object size [n]. *)
Definition cache_post (b : BuddyAllocator) (n : Z) (c' : SlabCache) (b' : BuddyAllocator) : Prop :=
  Buddy.wf b' /\ same_region b b' /\ cache_ok b' c' /\ cache_size c' = n.

Lemma push_ok b c p : cache_ok b c -> count c < MAX_SLABS_PER_SIZE -> page_ok b (cache_size c) p ->
  cache_ok b {| cache_size := cache_size c; pages := zset (pages c) (count c) (Some p); count := count c ⊞ 1 |}.
Proof.
  intros [H1 H2 H3 H4] Hlt Hp. unfold MAX_SLABS_PER_SIZE in *.
  rewrite wadd_small by (unfold in_word; lia).
  split; simpl; unfold MAX_SLABS_PER_SIZE; [done | by rewrite zlen_zset | lia |].
  intros j Hj. destruct (decide (count c = j)) as [<-|].
  - exists p. by rewrite zget_zset_eq by lia.
  - rewrite zget_zset_ne by done. apply H4. lia.
Qed.

Lemma cache_alloc_ok b c : Buddy.wf b -> cache_ok b c ->
  exists r c' b', Cache.alloc c b = Ret (r, c', b') /\ cache_post b (cache_size c) c' b' /\
    forall a, r = Some a -> inside b a (cache_size c).
Proof.
  intros Hb Hc. pose proof (ok_count b c Hc) as Hn. unfold Cache.alloc.
  destruct (alloc_in_pages_ok b c 0 (Z.to_nat (count c)) Hc) as (served & -> & Hs); [lia | lia |].
  rewrite bind_ret. destruct served as [[r c']|].
  { destruct (Hs r c' eq_refl) as (Hc' & Hsz & Hr). by exists r, c', b. }
  case_ltb; [by exists None, c, b|]. simpl page_alloc. unfold alloc_one.
  destruct (alloc_pages_returns b 0 Hb ltac:(lia)) as ([r b'] & -> & Hb' & Hreg & Hr). simpl in Hb', Hreg, Hr.
  rewrite bind_ret. assert (cache_ok b' c) as Hc' by (by eapply cache_ok_region).
  destruct r as [a|]; [|by exists None, c, b'].
  destruct Hr as (page & -> & Hpos & Hle & _). pose proof (Buddy.wf_region b Hb). pose proof (Buddy.wf_base b Hb).
  pose proof (ok_size b c Hc). unfold MAX_SLABS_PER_SIZE, PAGE_BYTES, Buddy.PAGE_SIZE in *.
  destruct (Page.new_spec (Buddy.base b + page * 4096) (cache_size c)) as (p & -> & Hw & Hpb & Hps & _);
    unfold PAGE_BYTES; [lia..|]. rewrite bind_ret.
  assert (page_ok b' (cache_size c) p) as Hp.
  { split; [done|]. split; [done|]. eapply inside_region; [done|]. rewrite Hpb.
    unfold inside, PAGE_BYTES, Buddy.PAGE_SIZE. lia. }
  destruct (page_alloc_ok b' _ p Hp) as (r & p' & -> & Hp' & Hr). rewrite bind_ret.
  rewrite arr_set_ok by (rewrite (ok_slots b c Hc); unfold MAX_SLABS_PER_SIZE; lia). rewrite bind_ret.
  do 3 eexists. split; [done|]. split.
  - do 2 (split; [done|]). split; [by apply push_ok | done].
  - intros a Ha. eapply inside_region; [by apply region_sym | by apply Hr].
Qed.

Lemma free_in_pages_ok b c ptr k n : cache_ok b c -> 0 <= k -> k + Z.of_nat n = count c ->
  exists found c', free_in_pages (zseq k n) ptr c = Ret (found, c') /\
    cache_ok b c' /\ cache_size c' = cache_size c /\ count c' = count c /\
    forall i e a, found = Some (i, e, a) -> 0 <= i < count c /\ inside b a PAGE_BYTES.
Proof.
  intros Hc. revert k. induction n as [|n IH]; intros k Hk Hn; cbn [zseq free_in_pages]; [by exists None, c|].
  destruct (ok_pages b c Hc k) as (p & Hp & Hok); [lia|].
  unfold arr_get. rewrite Hp, bind_ret.
  destruct (contains ptr p) eqn:Hin; [|apply IH; lia].
  rewrite Page.free_spec, Hin, bind_ret by apply Hok.
  rewrite arr_set_ok by (eapply zget_Some; exact Hp). rewrite bind_ret.
  do 2 eexists. split; [done|]. split; [apply update_ok; [done | lia | by apply freed_ok]|].
  do 2 (split; [done|]). intros i e a [= <- <- <-]. split; [lia | apply Hok].
Qed.

(** [compact] moves the pages behind the removed one forward. *)
Lemma compact_ok b c r : cache_ok b c -> 0 <= r < count c ->
  exists c', compact r (with_pages c (zset (pages c) r None)) = Ret c' /\
    cache_ok b c' /\ cache_size c' = cache_size c.
Proof.
  intros [H1 H2 H3 H4] Hr. unfold MAX_SLABS_PER_SIZE in *.
  destruct (compact_spec r (with_pages c (zset (pages c) r None))) as (c' & -> & E1 & E2 & E3 & E4);
    simpl; rewrite ?zlen_zset; unfold MAX_SLABS_PER_SIZE; [lia..|]. simpl in *. rewrite zlen_zset in E3.
  exists c'. split; [done|]. split; [|done].
  split; unfold MAX_SLABS_PER_SIZE; [by rewrite E1 | lia | lia |].
  intros i Hi. rewrite E4, E1 by lia. unfold rotated.
  destruct (Z.ltb_spec i r), (Z.leb_spec (count c) i); simpl; try lia.
  - rewrite zget_zset_ne by lia. apply H4. lia.
  - decide_tests. rewrite zget_zset_ne by lia. apply H4. lia.
Qed.

Lemma inside_word b a n : Buddy.wf b -> inside b a n -> 0 <= n -> in_word 64 a.
Proof.
  intros Hb [H1 H2] Hn. pose proof (Buddy.wf_region b Hb). pose proof (Buddy.wf_base b Hb). unfold in_word. lia.
Qed.

Lemma cache_free_ok b c ptr : Buddy.wf b -> cache_ok b c ->
  exists ok c' b', Cache.free ptr c b = Ret (ok, c', b') /\ cache_post b (cache_size c) c' b'.
Proof.
  intros Hb Hc. pose proof (ok_count b c Hc) as Hn. unfold Cache.free.
  destruct (free_in_pages_ok b c ptr 0 (Z.to_nat (count c)) Hc) as (found & c1 & -> & Hc1 & Hs & Hcnt & Hf); [lia | lia |].
  rewrite bind_ret. assert (cache_post b (cache_size c) c1 b) as Hkeep by done.
  destruct found as [[[i e] a]|]; [|by do 3 eexists].
  destruct (Hf i e a eq_refl) as [Hi Ha]. destruct (e && _); [|by do 3 eexists].
  unfold has_other_empty, slice. rewrite (ok_slots b c1 Hc1). unfold MAX_SLABS_PER_SIZE in *.
  decide_tests. simpl. destruct (existsb _ _); [|by do 3 eexists].
  unfold free_one. destruct (free_pages_returns b a 0 Hb) as (b' & -> & Hb' & Hreg);
    [unfold MAX_ORDER; lia | by apply (inside_word b a PAGE_BYTES)|].
  rewrite bind_ret. rewrite arr_set_ok by (rewrite (ok_slots b c1 Hc1); unfold MAX_SLABS_PER_SIZE; lia).
  rewrite bind_ret. destruct (compact_ok b c1 i Hc1) as (c2 & -> & Hc2 & Hs2); [lia|].
  rewrite bind_ret. do 3 eexists. split; [done|]. do 2 (split; [done|]).
  split; [by eapply cache_ok_region | congruence].
Qed.

(** * The slabs *)

Definition slabs_post (b : BuddyAllocator) (al : Slabs.SlabAllocator) (al' : Slabs.SlabAllocator)
    (b' : BuddyAllocator) : Prop :=
  Buddy.wf b' /\ same_region b b' /\ Forall (cache_ok b') al' /\ cache_size <$> al' = cache_size <$> al.

Lemma caches_region b b' al : same_region b b' -> Forall (cache_ok b) al -> Forall (cache_ok b') al.
Proof. intros Hreg Hal. eapply Forall_impl; [exact Hal|]. intros c. by apply cache_ok_region. Qed.

Lemma slabs_alloc_ok size b al : Buddy.wf b -> Forall (cache_ok b) al ->
  exists r al' b', Slabs.alloc size al b = Ret (r, al', b') /\ slabs_post b al al' b' /\
    forall a, r = Some a -> inside b a size.
Proof.
  intros Hb Hal. revert b Hb Hal. induction al as [|c al IH]; intros b Hb Hal; cbn [Slabs.alloc].
  { by exists None, [], b. }
  apply Forall_cons in Hal as [Hc Hal]. case_ltb.
  - destruct (cache_alloc_ok b c Hb Hc) as (r & c' & b' & -> & (Hb' & Hreg & Hc' & Hs) & Hr). rewrite bind_ret.
    do 3 eexists. split; [done|]. split.
    + do 2 (split; [done|]). split; [|by rewrite !fmap_cons, Hs].
      constructor; [done | by eapply caches_region].
    + intros a Ha. specialize (Hr a Ha). unfold inside in *. lia.
  - destruct (IH b Hb Hal) as (r & al' & b' & -> & (Hb' & Hreg & Hal' & Hs) & Hr). rewrite bind_ret.
    do 3 eexists. split; [done|]. split; [|done].
    do 2 (split; [done|]). split; [|by rewrite !fmap_cons, Hs].
    constructor; [by eapply cache_ok_region | done].
Qed.

Lemma slabs_free_ok ptr b al : Buddy.wf b -> Forall (cache_ok b) al ->
  exists ok al' b', Slabs.free ptr al b = Ret (ok, al', b') /\ slabs_post b al al' b'.
Proof.
  intros Hb Hal. revert b Hb Hal. induction al as [|c al IH]; intros b Hb Hal; cbn [Slabs.free].
  { by exists false, [], b. }
  apply Forall_cons in Hal as [Hc Hal].
  destruct (cache_free_ok b c ptr Hb Hc) as (ok & c' & b1 & -> & (Hb1 & Hreg1 & Hc' & Hs1)). rewrite bind_ret.
  pose proof (caches_region b b1 al Hreg1 Hal) as Hal1. destruct ok.
  - do 3 eexists. split; [done|]. do 2 (split; [done|]). split; [by constructor | by rewrite !fmap_cons, Hs1].
  - destruct (IH b1 Hb1 Hal1) as (ok & al' & b2 & -> & (Hb2 & Hreg2 & Hal2 & Hs2)). rewrite bind_ret.
    do 3 eexists. split; [done|]. split; [done|]. split; [by etransitivity|].
    split; [|by rewrite !fmap_cons, Hs1, Hs2]. constructor; [by eapply cache_ok_region | done].
Qed.

(** * Blocks *)

(** Pages of a 64-bit number of bytes. *)
Lemma pages_range size : in_word 64 size -> 0 <= (size ⊞ Mem.PAGE_SIZE ⊟ 1) / Mem.PAGE_SIZE < 2 ^ 52.
Proof.
  intros Hs. assert (in_word 64 (size ⊞ Mem.PAGE_SIZE ⊟ 1)) as [H1 H2] by (by apply wrap_in_word).
  unfold Mem.PAGE_SIZE in *. split; [apply Z.div_pos; lia | apply Z.div_lt_upper_bound; lia].
Qed.

(** The least sufficient order of so many pages. *)
Lemma order_small pages : 0 <= pages < 2 ^ 52 -> exists o, order_for pages = Ret o /\ 0 <= o <= 52 /\ pages <= 2 ^ o.
Proof.
  intros Hp. destruct (order_for_spec pages) as (o & Ho & Hr & Hle & Hleast); [lia|].
  exists o. split; [done|]. split; [|done]. split; [lia|]. destruct (decide (o <= 52)) as [|Hgt]; [done|].
  specialize (Hleast 52 ltac:(lia)). lia.
Qed.

(** [free_pages] with any order that [kfree] computes. *)
Lemma free_pages_total b addr order : Buddy.wf b -> 0 <= order <= 52 -> in_word 64 addr ->
  exists b', Buddy.free_pages addr order b = Ret b' /\ Buddy.wf b' /\ same_region b b'.
Proof.
  intros Hb Ho Ha. destruct (decide (order <= MAX_ORDER)) as [Hle|Hgt].
  { destruct (free_pages_returns b addr order Hb) as (b' & Hf & Hb' & Hreg); [lia | done |]. by exists b'. }
  pose proof (Buddy.wf_base b Hb). pose proof (Buddy.wf_order b Hb). unfold MAX_ORDER, in_word in *.
  unfold Buddy.free_pages. case_ltb; [by exists b|].
  rewrite wsub_small by (unfold in_word; lia). rewrite wshr_div by lia.
  set (idx := _ / 2 ^ order). assert (0 <= idx < 2 ^ 52) as Hidx.
  { subst idx. pose proof (Z.pow_pos_nonneg 2 order). unfold Buddy.PAGE_SIZE.
    assert (0 <= (addr - Buddy.base b) / 4096 < 2 ^ 52).
    { split; [apply Z.div_pos; lia | apply Z.div_lt_upper_bound; lia]. }
    split; [apply Z.div_pos; lia | apply Z.div_lt_upper_bound; nia]. }
  assert (same_region b (mark_free b order idx)) as Hreg by apply clear_bit_region.
  rewrite coalesce_unfold. destruct Hreg as (E1 & E2 & E3). rewrite E3. decide_tests.
  eexists. split; [done|]. split; [apply mark_free_wf; [done | lia | lia] | done].
Qed.

Lemma alloc_block_ok size m : robust m -> in_word 64 size ->
  exists ptr m', alloc_block size m = Ret (ptr, m') /\ robust m' /\ same_region (BUDDY m) (BUDDY m') /\
    (ptr <> 0 -> inside (BUDDY m) ptr 1 /\ (size < 2 ^ 64 - 4095 -> inside (BUDDY m) ptr size)).
Proof.
  intros [Hb Hal] Hs. destruct (alloc_block_spec size m Hb) as ([ptr m'] & Hm & Hsl & _ & Hb' & Hreg & Hr).
  exists ptr, m'. split; [done|]. split; [|split; [done|]].
  - split; [done|]. rewrite Hsl. by eapply caches_region.
  - intros Hne. destruct Hr as [[? _]|(page & o & -> & Ho & Hle & _ & Hpos & Hend & _)]; [done|].
    pose proof (Z.pow_pos_nonneg 2 o). split; [unfold inside, Mem.PAGE_SIZE, Buddy.PAGE_SIZE; lia|].
    intros Hlt. destruct (Z.ltb_spec (size + 4096) (2 ^ 64)) as [Hsm|Hbig].
    + rewrite pages_small in Hle by (unfold in_word in *; lia). unfold pages_of in Hle.
      pose proof (Z.div_mod (size + 4095) 4096). pose proof (Z.mod_pos_bound (size + 4095) 4096).
      unfold inside, Mem.PAGE_SIZE, Buddy.PAGE_SIZE. lia.
    + assert (size = 2 ^ 64 - 4096) as -> by lia.
      change ((2 ^ 64 - 4096) ⊞ Mem.PAGE_SIZE ⊟ 1) with (2 ^ 64 - 1) in Hle.
      change ((2 ^ 64 - 1) / Mem.PAGE_SIZE) with (2 ^ 52 - 1) in Hle.
      unfold inside, Mem.PAGE_SIZE, Buddy.PAGE_SIZE. lia.
Qed.

(** * The operations *)

(** Results of a state change: still robust, over the same region. *)
Definition keeps (m m' : KMem) : Prop := robust m' /\ same_region (BUDDY m) (BUDDY m').

Lemma kmalloc_ok size m : robust m -> in_word 64 size ->
  exists ptr m', kmalloc size m = Ret (ptr, m') /\ keeps m m' /\
    (ptr <> 0 -> inside (BUDDY m) ptr 1 /\ (size < 2 ^ 64 - 4095 -> inside (BUDDY m) ptr size)).
Proof.
  intros Hm Hs. unfold kmalloc. pose proof Hm as [Hb Hal].
  destruct (Z.eqb_spec size 0); [by exists 0, m|].
  case_ltb; [|by destruct (alloc_block_ok size m Hm Hs) as (ptr & m' & ? & ? & ? & ?); exists ptr, m'].
  destruct (slabs_alloc_ok size (BUDDY m) (SLAB m) Hb Hal) as (r & al' & b' & -> & (Hb' & Hreg & Hal' & _) & Hr).
  rewrite bind_ret. assert (robust (with_slab m al' b')) as Hm1 by done.
  destruct r as [a|]; [exists a; eexists; split; [done|]; split; [done|]; intros _; specialize (Hr a eq_refl); unfold inside, in_word in *; split; lia|].
  destruct (alloc_block_ok size _ Hm1 Hs) as (ptr & m' & Heq & Hm' & Hreg' & Hin).
  exists ptr, m'. split; [exact Heq|]. split; [split; [done | by etransitivity]|].
  intros Hne. destruct (Hin Hne) as [H1 H2].
  split; [|intros Hlt]; (eapply inside_region; [apply region_sym, Hreg | auto]).
Qed.

Lemma free_block_ok ptr size m : robust m -> in_word 64 ptr -> in_word 64 size ->
  exists m', free_block ptr size m = Ret m' /\ keeps m m'.
Proof.
  intros [Hb Hal] Hp Hs. unfold free_block.
  destruct (order_small _ (pages_range size Hs)) as (o & -> & Ho & _). rewrite bind_ret.
  destruct (free_pages_total (BUDDY m) ptr o Hb Ho Hp) as (b' & -> & Hb' & Hreg). rewrite bind_ret.
  eexists. split; [done|]. split; [|done]. split; [done|]. by eapply caches_region.
Qed.

Lemma kfree_ok ptr size m : robust m -> in_word 64 ptr -> in_word 64 size ->
  exists m', kfree ptr size m = Ret m' /\ keeps m m'.
Proof.
  intros Hm Hp Hs. unfold kfree. pose proof Hm as [Hb Hal].
  destruct (_ || _); [by exists m|]. case_ltb; [|by apply free_block_ok].
  destruct (slabs_free_ok ptr (BUDDY m) (SLAB m) Hb Hal) as (ok & al' & b' & -> & (Hb' & Hreg & Hal' & _)).
  rewrite bind_ret. assert (robust (with_slab m al' b')) as Hm1 by done.
  destruct ok; [by eexists|].
  destruct (free_block_ok ptr size _ Hm1 Hp Hs) as (m' & Heq & Hm' & Hreg').
  exists m'. split; [exact Heq|]. split; [done | by etransitivity].
Qed.

(** A call of the heap's interface. *)
Inductive call :=
  | Kmalloc (size : Z)
  | KmallocAligned (size align : Z)
  | AllocPages (order : Z)
  | Kfree (ptr size : Z).

(** The caller's side: arguments are 64-bit values. *)
Definition typed (c : call) : Prop :=
  match c with
  | Kmalloc size => in_word 64 size
  | KmallocAligned size align => in_word 64 size /\ in_word 64 align
  | AllocPages order => 0 <= order
  | Kfree ptr size => in_word 64 ptr /\ in_word 64 size
  end.

(** Bytes the caller is entitled to, when its request does not wrap around. *)
Definition requested (c : call) : option Z :=
  match c with
  | Kmalloc size => Some size
  | KmallocAligned size align => Some (Z.max size align)
  | AllocPages order => Some (2 ^ order * Buddy.PAGE_SIZE)
  | Kfree _ _ => None
  end.

Definition exec (c : call) (m : KMem) : outcome (Z * KMem) :=
  match c with
  | Kmalloc size => kmalloc size m
  | KmallocAligned size align => kmalloc_aligned size align m
  | AllocPages order => '(r, m) ← Mem.alloc_pages order m; Ret (default 0 r, m)
  | Kfree ptr size => m ← kfree ptr size m; Ret (0, m)
  end.

(** The results of a sequence of calls. *)
Fixpoint run (calls : list call) (m : KMem) : outcome (list Z * KMem) :=
  match calls with
  | [] => Ret ([], m)
  | c :: calls => '(r, m) ← exec c m; '(rs, m) ← run calls m; Ret (r :: rs, m)
  end.

(** A result of the call: nothing, or as many bytes of the region as it asked for. *)
Definition granted (b : BuddyAllocator) (c : call) (r : Z) : Prop :=
  r = 0 \/ exists n, requested c = Some n /\ (n < 2 ^ 64 - 4095 -> inside b r n).

Lemma exec_ok c m : robust m -> typed c ->
  exists r m', exec c m = Ret (r, m') /\ keeps m m' /\ granted (BUDDY m) c r.
Proof.
  intros Hm Ht. destruct c as [size|size align|order|ptr size]; simpl in Ht |- *.
  - destruct (kmalloc_ok size m Hm Ht) as (r & m' & Heq & Hk & Hin). exists r, m'.
    split; [done|]. split; [done|]. destruct (decide (r = 0)); [by left | right; exists size; split; [done | by apply Hin]].
  - destruct Ht as [Hs Ha]. unfold kmalloc_aligned. destruct (Z.eqb_spec size 0).
    { exists 0, m. split; [done|]. split; [done | by left]. }
    replace (if size <? align then align else size) with (Z.max size align) by (case_ltb; lia).
    destruct (alloc_block_ok (Z.max size align) m Hm) as (r & m' & Heq & Hk & Hreg & Hin);
      [unfold in_word in *; lia|]. exists r, m'. split; [done|]. split; [done|].
    destruct (decide (r = 0)); [by left | right; eexists; split; [done | by apply Hin]].
  - destruct Hm as [Hb Hal]. unfold Mem.alloc_pages.
    destruct (alloc_pages_returns (BUDDY m) order Hb Ht) as ([r b'] & -> & Hb' & Hreg & Hr).
    rewrite !bind_ret. do 2 eexists. split; [done|]. split.
    + split; [split; [done|]; by eapply caches_region | done].
    + simpl in Hr. destruct r as [a|]; [right | by left]. eexists. split; [done|]. intros _.
      destruct Hr as (page & -> & H1 & H2 & _). unfold inside. simpl. unfold Buddy.PAGE_SIZE. lia.
  - destruct (kfree_ok ptr size m Hm (proj1 Ht) (proj2 Ht)) as (m' & -> & Hk). rewrite bind_ret.
    exists 0, m'. split; [done|]. split; [done | by left].
Qed.

(** The heap as it is at boot, with or without memory. *)
Lemma wf_robust m : Mem.wf m -> robust m.
Proof.
  intros Hwf. split; [apply Hwf|]. apply Forall_forall. intros c Hc.
  pose proof (Slabs.wf_elem _ _ (wf_slab m Hwf) Hc) as Hw. split; [apply Hw..|].
  intros i Hi. destruct (wf_pages c Hw i Hi) as (p & Hp & Hpw & Hs). exists p. split; [done|].
  do 2 (split; [done|]). pose proof (wf_owned m Hwf) as Ho. unfold Slabs.owned_all in Ho. rewrite Forall_forall in Ho.
  destruct (Ho c Hc i p Hp) as (k & -> & Hk & _). unfold inside, PAGE_BYTES, Buddy.PAGE_SIZE. lia.
Qed.

(** C7: The heap never panics and always returns, whatever sequence of calls
    it gets: requests of any size and frees of any pointer with any size, freed before,
    foreign or in use by someone else.  Every pointer it ever hands out is null or
    points to the requested number of bytes inside the managed region. *)
Theorem heap_never_panics calls m : robust m -> Forall typed calls ->
  exists rs m', run calls m = Ret (rs, m') /\ keeps m m' /\ Forall2 (granted (BUDDY m)) calls rs.
Proof.
  intros Hm Hc. revert m Hm. induction Hc as [|c calls Ht Hc IH]; intros m Hm; simpl.
  { exists [], m. by repeat split; try apply Hm. }
  destruct (exec_ok c m Hm Ht) as (r & m1 & -> & [Hm1 Hreg1] & Hr). rewrite bind_ret.
  destruct (IH m1 Hm1) as (rs & m2 & -> & [Hm2 Hreg2] & Hrs). rewrite bind_ret.
  do 2 eexists. split; [done|]. split; [split; [done | by etransitivity]|]. constructor; [done|].
  eapply Forall2_impl; [exact Hrs|]. intros c' r' [->|(n & Hn & Hin)]; [by left | right].
  exists n. split; [done|]. intros Hlt. eapply inside_region; [by apply region_sym | auto].
Qed.

(** A double free, a free of a foreign pointer and of one inside an object. *)
Definition demo_calls : list call :=
  [Kmalloc 100; Kfree demo_base 100; Kfree demo_base 100; Kfree 12345 16; Kmalloc 5000; Kfree (demo_base + 7) 3000].

Lemma heap_never_panics_witness : exists rs m', run demo_calls demo_heap = Ret (rs, m') /\ robust m'.
Proof.
  destruct (heap_never_panics demo_calls demo_heap) as (rs & m' & H & [Hm _] & _).
  - apply wf_robust, demo_heap_wf.
  - unfold demo_calls. repeat (constructor; [simpl; unfold in_word, demo_base; lia|]). constructor.
  - exists rs, m'. exact (conj H Hm).
Defined.
