(* ===== verification/Fifo.v ===== *)
(** Bounded first-in first-out buffers: the interface that the kernel's two
    ring buffers promise ([src/kern/arch/x86_64/ipc.rs] and the keyboard
    buffer of [src/kern/drv/ps2/mod.rs]), the index arithmetic they share, and
    the interleaved execution of one producer and one consumer. *)
From S2P Require Import Prelude Word.

(** * The interface *)

Class FifoOps (Q A : Type) := {
  fifo_push : A -> Q -> outcome (bool * Q);
  fifo_pop : Q -> outcome (option A * Q);
}.

(** A bounded queue: [push] appends, or refuses exactly when [capacity]
    elements are stored; [pop] takes the oldest element, or fails exactly when
    there is none. *)
Class FifoLaws (Q A : Type) `{FifoOps Q A} := {
  fifo_wf : Q -> Prop;
  contents : Q -> list A;
  fifo_capacity : Z;
  push_law x q : fifo_wf q -> returns (fifo_push x q) (fun '(ok, q') =>
    fifo_wf q' /\
    if zlen (contents q) <? fifo_capacity
    then ok = true /\ contents q' = contents q ++ [x]
    else ok = false /\ q' = q);
  pop_law q : fifo_wf q -> returns (fifo_pop q) (fun '(r, q') =>
    fifo_wf q' /\
    match contents q with
    | [] => r = None /\ q' = q
    | x :: rest => r = Some x /\ contents q' = rest
    end);
}.

(** The abstract queue and a client's sequence of operations on it. *)
Inductive fifo_op (A : Type) := OpPush (x : A) | OpPop.
Arguments OpPush {A} x.
Arguments OpPop {A}.

Inductive fifo_result (A : Type) := Pushed (ok : bool) | Popped (r : option A).
Arguments Pushed {A} ok.
Arguments Popped {A} r.

Definition spec_step {A} (cap : Z) (op : fifo_op A) (l : list A) : fifo_result A * list A :=
  match op with
  | OpPush x => if zlen l <? cap then (Pushed true, l ++ [x]) else (Pushed false, l)
  | OpPop => match l with [] => (Popped None, []) | x :: l => (Popped (Some x), l) end
  end.

Fixpoint spec_run {A} (cap : Z) (ops : list (fifo_op A)) (l : list A)
    : list (fifo_result A) * list A :=
  match ops with
  | [] => ([], l)
  | op :: ops =>
      let '(r, l) := spec_step cap op l in
      let '(rs, l) := spec_run cap ops l in (r :: rs, l)
  end.

Definition impl_step {Q A} `{FifoOps Q A} (op : fifo_op A) (q : Q)
    : outcome (fifo_result A * Q) :=
  match op with
  | OpPush x => '(ok, q) ← fifo_push x q; Ret (Pushed ok, q)
  | OpPop => '(r, q) ← fifo_pop q; Ret (Popped r, q)
  end.

Fixpoint impl_run {Q A} `{FifoOps Q A} (ops : list (fifo_op A)) (q : Q)
    : outcome (list (fifo_result A) * Q) :=
  match ops with
  | [] => Ret ([], q)
  | op :: ops =>
      '(r, q) ← impl_step op q;
      '(rs, q) ← impl_run ops q; Ret (r :: rs, q)
  end.

(** Every implementation of the laws refines the abstract queue. *)
Lemma impl_refines_spec {Q A} `{FifoLaws Q A} ops q : fifo_wf q ->
  exists q', impl_run ops q = Ret ((spec_run fifo_capacity ops (contents q)).1, q') /\
    fifo_wf q' /\ contents q' = (spec_run fifo_capacity ops (contents q)).2.
Proof.
  revert q. induction ops as [|op ops IH]; intros q Hwf; simpl; [by eexists|].
  assert (exists q1, impl_step op q = Ret ((spec_step fifo_capacity op (contents q)).1, q1) /\
    fifo_wf q1 /\ contents q1 = (spec_step fifo_capacity op (contents q)).2)
    as (q1 & -> & Hwf1 & Hc1).
  { destruct op as [x|]; simpl.
    - destruct (push_law x q Hwf) as ([ok q1] & -> & Hwf1 & Hr). exists q1. simpl.
      destruct (_ <? _); destruct Hr as [-> Hq]; [done | by subst].
    - destruct (pop_law q Hwf) as ([r q1] & -> & Hwf1 & Hr). exists q1. simpl.
      destruct (contents q) as [|x rest] eqn:Hc; destruct Hr as [-> Hq]; [by subst | done]. }
  simpl. destruct (IH q1 Hwf1) as (q2 & -> & Hwf2 & Hc2). exists q2.
  rewrite Hc1 in Hc2 |- *. destruct (spec_step _ _ _) as [r l]. simpl in *.
  destruct (spec_run _ ops l) as [rs l']. done.
Qed.

(** * Rings *)

Section ring.
Context {A : Type} (N : Z) (HN : 1 < N).
Implicit Types (buf : list A) (head tail : Z).

(** Number of stored elements and the elements, oldest first. *)
Definition ring_len head tail : Z := (head - tail) mod N.

Definition ring_contents buf head tail : list A :=
  omap (fun i => zget buf ((tail + i) mod N)) (zseq 0 (Z.to_nat (ring_len head tail))).

Definition ring_wf buf head tail : Prop :=
  zlen buf = N /\ 0 <= head < N /\ 0 <= tail < N.

Lemma ring_len_range head tail : 0 <= ring_len head tail < N.
Proof. apply Z.mod_pos_bound. lia. Qed.

Lemma ring_len_eq head tail : 0 <= head < N -> 0 <= tail < N ->
  ring_len head tail = if tail <=? head then head - tail else head - tail + N.
Proof.
  intros Hh Ht. unfold ring_len. destruct (Z.leb_spec tail head).
  - apply Z.mod_small. lia.
  - rewrite <- (Z.mod_add _ 1) by lia. rewrite Z.mul_1_l. apply Z.mod_small. lia.
Qed.

Lemma next_eq i : 0 <= i < N -> (i + 1) mod N = if i + 1 =? N then 0 else i + 1.
Proof.
  intros Hi. destruct (Z.eqb_spec (i + 1) N) as [->|]; [apply Z.mod_same; lia|].
  apply Z.mod_small. lia.
Qed.

(** The code's emptiness and fullness tests. *)
Lemma ring_empty_iff head tail : 0 <= head < N -> 0 <= tail < N ->
  (tail = head <-> ring_len head tail = 0).
Proof. intros. rewrite ring_len_eq by done. case_ltb; lia. Qed.

Lemma ring_full_iff head tail : 0 <= head < N -> 0 <= tail < N ->
  ((head + 1) mod N = tail <-> ring_len head tail = N - 1).
Proof. intros. rewrite ring_len_eq, next_eq by done. repeat case_ltb; lia. Qed.

Lemma zseq_app lo n k : zseq lo (n + k) = zseq lo n ++ zseq (lo + Z.of_nat n) k.
Proof.
  revert lo. induction n as [|n IH]; intros lo; cbn [Nat.add zseq app].
  - by rewrite Z.add_0_r.
  - rewrite IH. do 3 f_equal. lia.
Qed.

Lemma omap_zseq_ext {B} (f g : Z -> option B) lo n :
  (forall i, lo <= i < lo + Z.of_nat n -> f i = g i) -> omap f (zseq lo n) = omap g (zseq lo n).
Proof.
  revert lo. induction n as [|n IH]; intros lo Hfg; csimpl; [done|].
  rewrite (Hfg lo) by lia. rewrite (IH (lo + 1)); [done|]. intros. apply Hfg. lia.
Qed.

Lemma omap_zseq_shift {B} (f : Z -> option B) lo n :
  omap f (zseq (lo + 1) n) = omap (fun i => f (i + 1)) (zseq lo n).
Proof.
  revert lo. induction n as [|n IH]; intros lo; csimpl; [done|]. by rewrite IH.
Qed.

Lemma ring_contents_len buf head tail : ring_wf buf head tail ->
  zlen (ring_contents buf head tail) = ring_len head tail.
Proof.
  intros (Hb & Hh & Ht). unfold ring_contents. pose proof (ring_len_range head tail).
  rewrite <- (Z2Nat.id (ring_len head tail)) at 2 by lia.
  generalize (Z.to_nat (ring_len head tail)) as n. intros n. generalize 0 as lo.
  induction n as [|n IH]; intros lo; csimpl; [done|].
  destruct (zget_is_Some buf ((tail + lo) mod N)) as [x ->].
  { rewrite Hb. apply Z.mod_pos_bound. lia. }
  rewrite zlen_cons, IH. lia.
Qed.

(** Writing a slot outside the stored part does not change the contents. *)
Lemma ring_write_outside buf head tail k x : ring_wf buf head tail -> 0 <= k < N ->
  ring_len head tail <= ring_len k tail ->
  ring_contents (zset buf k x) head tail = ring_contents buf head tail.
Proof.
  intros (Hb & Hh & Ht) Hk Hlen. unfold ring_contents. apply omap_zseq_ext. intros i Hi.
  rewrite Z2Nat.id in Hi by apply ring_len_range. apply zget_zset_ne. intros Heq.
  assert (ring_len k tail = i); [|lia]. unfold ring_len. rewrite Heq.
  pose proof (ring_len_range head tail).
  rewrite Zminus_mod_idemp_l. replace (tail + i - tail) with i by lia.
  apply Z.mod_small. lia.
Qed.

Lemma ring_push buf head tail x : ring_wf buf head tail -> ring_len head tail < N - 1 ->
  ring_contents (zset buf head x) ((head + 1) mod N) tail = ring_contents buf head tail ++ [x].
Proof.
  intros Hwf Hlen. pose proof Hwf as (Hb & Hh & Ht). pose proof (ring_len_range head tail).
  assert (ring_len ((head + 1) mod N) tail = ring_len head tail + 1) as Hl1.
  { rewrite !ring_len_eq, next_eq in * by (done || apply Z.mod_pos_bound; lia).
    repeat case_ltb; lia. }
  unfold ring_contents at 1. rewrite Hl1, Z2Nat.inj_add by lia.
  rewrite zseq_app, omap_app, Z.add_0_l, Z2Nat.id by lia.
  change (omap (fun i => zget (zset buf head x) ((tail + i) mod N))
            (zseq 0 (Z.to_nat (ring_len head tail))))
    with (ring_contents (zset buf head x) head tail).
  rewrite ring_write_outside by (done || lia). f_equal. csimpl.
  replace ((tail + ring_len head tail) mod N) with head.
  - by rewrite zget_zset_eq by lia.
  - unfold ring_len. rewrite Zplus_mod_idemp_r.
    replace (tail + (head - tail)) with head by lia. symmetry. by apply Z.mod_small.
Qed.

Lemma ring_pop buf head tail : ring_wf buf head tail -> tail <> head ->
  exists x, zget buf tail = Some x /\
    ring_contents buf head tail = x :: ring_contents buf head ((tail + 1) mod N).
Proof.
  intros (Hb & Hh & Ht) Hne. destruct (zget_is_Some buf tail) as [x Hx]; [lia|].
  exists x. split; [done|]. pose proof (ring_len_range head tail).
  pose proof (ring_empty_iff head tail Hh Ht).
  assert (ring_len head tail = ring_len head ((tail + 1) mod N) + 1) as Hl1.
  { rewrite !ring_len_eq, next_eq in * by (done || apply Z.mod_pos_bound; lia).
    repeat case_ltb; lia. }
  pose proof (ring_len_range head ((tail + 1) mod N)).
  unfold ring_contents. rewrite Hl1.
  replace (Z.to_nat (ring_len head ((tail + 1) mod N) + 1))
    with (S (Z.to_nat (ring_len head ((tail + 1) mod N)))) by lia.
  cbn [zseq]. csimpl. rewrite Z.add_0_r, Z.mod_small, Hx by lia. f_equal.
  rewrite (omap_zseq_shift _ 0). apply omap_zseq_ext. intros i Hi.
  rewrite Zplus_mod_idemp_l. do 2 f_equal. lia.
Qed.

Lemma ring_contents_empty buf head : ring_contents buf head head = [].
Proof. unfold ring_contents, ring_len. by rewrite Z.sub_diag, Z.mod_0_l by lia. Qed.
End ring.

(** * One producer and one consumer

    The accesses of [push] and [pop] to the shared ring, one atomic access or
    buffer access per step, under every interleaving of the two sides
    (sequentially consistent interleaving: the code's release stores are read
    by acquire loads of the other side, and each index has a single writer). *)

Module Spsc.

Section spsc.
Context {A : Type} (N : Z).

(** Where the producer is inside [push x]. *)
Inductive producer : Type :=
  | PIdle
  | PHead (x : A) (head : Z)          (* loaded [head] *)
  | PTail (x : A) (head tail : Z)     (* loaded [tail] *)
  | PWrote (x : A) (head : Z).        (* wrote [buf[head]] *)

(** Where the consumer is inside [pop]. *)
Inductive consumer : Type :=
  | CIdle
  | CTail (tail : Z)                  (* loaded [tail] *)
  | CHead (tail head : Z)             (* loaded [head] *)
  | CRead (tail : Z) (x : A).         (* read [buf[tail]] *)

(** Shared ring, the two program positions, and two histories: the elements
    whose [push] returned [true] and those that [pop] returned. *)
Record state := mkState {
  buf : list A; head : Z; tail : Z;
  prod : producer; cons : consumer;
  sent : list A; recvd : list A;
}.

Inductive step : state -> state -> Prop :=
  | push_load_head b h t c s r x :
      step (mkState b h t PIdle c s r) (mkState b h t (PHead x h) c s r)
  | push_load_tail b h t c s r x h0 :
      step (mkState b h t (PHead x h0) c s r) (mkState b h t (PTail x h0 t) c s r)
  | push_full b h t c s r x h0 t0 :
      (h0 + 1) mod N = t0 ->
      step (mkState b h t (PTail x h0 t0) c s r) (mkState b h t PIdle c s r)
  | push_write b h t c s r x h0 t0 :
      (h0 + 1) mod N <> t0 ->
      step (mkState b h t (PTail x h0 t0) c s r)
           (mkState (zset b h0 x) h t (PWrote x h0) c s r)
  | push_store_head b h t c s r x h0 :
      step (mkState b h t (PWrote x h0) c s r)
           (mkState b ((h0 + 1) mod N) t PIdle c (s ++ [x]) r)
  | pop_load_tail b h t p s r :
      step (mkState b h t p CIdle s r) (mkState b h t p (CTail t) s r)
  | pop_load_head b h t p s r t0 :
      step (mkState b h t p (CTail t0) s r) (mkState b h t p (CHead t0 h) s r)
  | pop_empty b h t p s r t0 h0 :
      t0 = h0 ->
      step (mkState b h t p (CHead t0 h0) s r) (mkState b h t p CIdle s r)
  | pop_read b h t p s r t0 h0 x :
      t0 <> h0 -> zget b t0 = Some x ->
      step (mkState b h t p (CHead t0 h0) s r) (mkState b h t p (CRead t0 x) s r)
  | pop_store_tail b h t p s r t0 x :
      step (mkState b h t p (CRead t0 x) s r)
           (mkState b h ((t0 + 1) mod N) p CIdle s (r ++ [x])).

(** An empty ring, nobody inside [push] or [pop]. *)
Definition init (s : state) : Prop :=
  zlen (buf s) = N /\ head s = tail s /\ 0 <= tail s < N /\
  prod s = PIdle /\ cons s = CIdle /\ sent s = [] /\ recvd s = [].

(** What each side may rely on while it is inside its operation. *)
Definition prod_ok (s : state) : Prop :=
  match prod s with
  | PIdle => True
  | PHead _ h => h = head s
  | PTail _ h t => h = head s /\ 0 <= t < N /\
      ring_len N (head s) (tail s) <= ring_len N (head s) t
  | PWrote x h => h = head s /\ ring_len N (head s) (tail s) < N - 1 /\
      zget (buf s) (head s) = Some x
  end.

Definition cons_ok (s : state) : Prop :=
  match cons s with
  | CIdle => True
  | CTail t => t = tail s
  | CHead t h => t = tail s /\ 0 <= h < N /\
      ring_len N h (tail s) <= ring_len N (head s) (tail s)
  | CRead t x => t = tail s /\ tail s <> head s /\ zget (buf s) (tail s) = Some x
  end.

Definition inv (s : state) : Prop :=
  ring_wf N (buf s) (head s) (tail s) /\
  sent s = recvd s ++ ring_contents N (buf s) (head s) (tail s) /\
  prod_ok s /\ cons_ok s.

Hypothesis HN : 1 < N.

Lemma init_inv s : init s -> inv s.
Proof.
  intros (Hb & Hh & Ht & Hp & Hc & Hs & Hr). unfold inv, prod_ok, cons_ok.
  rewrite Hp, Hc, Hs, Hr, Hh, ring_contents_empty by done. unfold ring_wf.
  split_and!; done || lia.
Qed.

(** The next index stays in range and changes the length by one. *)
Lemma head_advance h t : 0 <= h < N -> 0 <= t < N -> ring_len N h t < N - 1 ->
  0 <= (h + 1) mod N < N /\ ring_len N ((h + 1) mod N) t = ring_len N h t + 1.
Proof.
  intros Hh Ht. assert (0 <= (h + 1) mod N < N) by (apply Z.mod_pos_bound; lia).
  rewrite !ring_len_eq in * by done. rewrite next_eq in * by done. repeat case_ltb; lia.
Qed.

Lemma tail_advance h t : 0 <= h < N -> 0 <= t < N -> t <> h ->
  0 <= (t + 1) mod N < N /\ ring_len N h ((t + 1) mod N) = ring_len N h t - 1.
Proof.
  intros Hh Ht Hne. assert (0 <= (t + 1) mod N < N) by (apply Z.mod_pos_bound; lia).
  rewrite !ring_len_eq in * by done. rewrite next_eq in * by done. repeat case_ltb; lia.
Qed.

Lemma step_inv s s' : inv s -> step s s' -> inv s'.
Proof.
  intros (Hwf & Hsent & Hp & Hc) Hstep. pose proof Hwf as (Hb & Hh & Ht).
  unfold inv, prod_ok, cons_ok in *.
  destruct Hstep as [b h t c s r x|b h t c s r x h0|b h t c s r x h0 t0 Hn|b h t c s r x h0 t0 Hn
    |b h t c s r x h0|b h t p s r|b h t p s r t0|b h t p s r t0 h0 Hn|b h t p s r t0 h0 x Hn Hx
    |b h t p s r t0 x]; simpl in *.
  - auto.
  - subst h0. split_and!; done || lia.
  - auto.
  - destruct Hp as (-> & Ht0 & Hlen). pose proof (ring_full_iff N HN h t0 Hh Ht0) as Hfull.
    pose proof (ring_len_range N HN h t0). pose proof (ring_len_range N HN h t).
    split; [unfold ring_wf; by rewrite zlen_zset|]. split; [by rewrite ring_write_outside by (done || lia)|].
    split; [split; [done|]; split; [lia|]; apply zget_zset_eq; lia|].
    destruct c; try done. destruct Hc as (-> & Hne & Hx). by rewrite zget_zset_ne.
  - destruct Hp as (-> & Hlen & Hx). destruct (head_advance h t) as [Hh' Hl']; [done..|].
    split; [done|]. split; [|split; [done|]].
    + rewrite <- (zset_id b h x) by done. rewrite ring_push, Hsent by done. by rewrite app_assoc.
    + pose proof (ring_len_range N HN h t).
      pose proof (ring_empty_iff N HN ((h + 1) mod N) t Hh' Ht).
      destruct c; try done; [destruct Hc as (-> & ? & ?); repeat split; lia|].
      destruct Hc as (-> & ? & ?). repeat split; [lia | done].
  - auto.
  - subst t0. split_and!; done || lia.
  - auto.
  - destruct Hc as (-> & Hh0 & Hlen). split; [done|]. split; [done|]. split; [done|].
    split; [done|]. split; [|done].
    pose proof (ring_empty_iff N HN h0 t Hh0 Ht). pose proof (ring_empty_iff N HN h t Hh Ht).
    pose proof (ring_len_range N HN h0 t). intros ->. lia.
  - destruct Hc as (-> & Hne & Hx). destruct (tail_advance h t) as [Ht' Hl']; [done..|].
    split; [done|]. split; [|split; [|done]].
    + destruct (ring_pop N HN b h t Hwf Hne) as (y & Hy & Hcont).
      rewrite Hsent, Hcont. rewrite Hx in Hy. injection Hy as <-. by rewrite <- app_assoc.
    + destruct p; try done; [destruct Hp as (-> & ? & ?); repeat split; lia|].
      destruct Hp as (-> & ? & ?). repeat split; [lia | done].
Qed.

Lemma reachable_inv s : reachable init step s -> inv s.
Proof. apply reachable_invariant; [exact init_inv | exact step_inv]. Qed.
End spsc.

End Spsc.
