(* ===== verification/Ipc.v ===== *)
(** Message channels and the spin lock, [src/kern/arch/x86_64/ipc.rs]. *)
From S2P Require Import Prelude Word Fifo.

Definition MAX_CHANNELS : Z := 32.
Definition RING_SIZE : Z := 64.
Definition MSG_SIZE : Z := 64.

Record Message := mkMessage {
  src : Z;
  msg_type : Z;
  data : list Z;
}.

#[export] Instance Message_eq_dec : EqDecision Message.
Proof. solve_decision. Defined.

Module Msg.

Definition empty : Message :=
  {| src := 0; msg_type := 0; data := replicate (Z.to_nat (MSG_SIZE - 8)) 0 |}.

Definition new (src msg_type : Z) : Message :=
  {| src := src; msg_type := msg_type; data := replicate (Z.to_nat (MSG_SIZE - 8)) 0 |}.

Definition with_data (m : Message) (d : list Z) : Message :=
  {| src := src m; msg_type := msg_type m; data := d |}.

Definition with_u64 (val : Z) (m : Message) : Message :=
  with_data m (to_le 8 val ++ drop 8 (data m)).

Definition read_u64 (m : Message) : Z := from_le (take 8 (data m)).

Definition with_bytes (bytes : list Z) (m : Message) : Message :=
  let len := Nat.min (length bytes) (length (data m)) in
  with_data m (take len bytes ++ drop len (data m)).

End Msg.

(** * [RingBuffer] *)

Module Ring.

Record RingBuffer := mkRing {
  buf : list Message;
  head : Z;
  tail : Z;
}.

Definition new : RingBuffer :=
  {| buf := replicate (Z.to_nat RING_SIZE) Msg.empty; head := 0; tail := 0 |}.

Definition push (msg : Message) (r : RingBuffer) : outcome (bool * RingBuffer) :=
  let next := wadd 32 (head r) 1 mod RING_SIZE in
  if next =? tail r then Ret (false, r)
  else
    b ← arr_set (buf r) (head r) msg;
    Ret (true, {| buf := b; head := next; tail := tail r |}).

Definition pop (r : RingBuffer) : outcome (option Message * RingBuffer) :=
  if tail r =? head r then Ret (None, r)
  else
    msg ← arr_get (buf r) (tail r);
    Ret (Some msg, {| buf := buf r; head := head r;
                      tail := wadd 32 (tail r) 1 mod RING_SIZE |}).

Definition is_empty (r : RingBuffer) : bool := tail r =? head r.

Definition len (r : RingBuffer) : Z := (head r ⊞ RING_SIZE ⊟ tail r) mod RING_SIZE.

#[export] Instance ring_ops : FifoOps RingBuffer Message :=
  {| fifo_push := push; fifo_pop := pop |}.

Definition wf (r : RingBuffer) : Prop := ring_wf RING_SIZE (buf r) (head r) (tail r).

(** The queued messages, oldest first. *)
Definition queued (r : RingBuffer) : list Message :=
  ring_contents RING_SIZE (buf r) (head r) (tail r).

Lemma size_gt1 : 1 < RING_SIZE.
Proof. reflexivity. Qed.

Lemma new_ring_wf : wf new.
Proof. repeat split; reflexivity || discriminate. Qed.

Lemma new_ring_queued : queued new = [].
Proof. reflexivity. Qed.

Lemma queued_len r : wf r -> zlen (queued r) = ring_len RING_SIZE (head r) (tail r).
Proof. apply (ring_contents_len RING_SIZE size_gt1). Qed.

#[export] Program Instance ring_laws : FifoLaws RingBuffer Message :=
  {| fifo_wf := wf; contents := queued; fifo_capacity := RING_SIZE - 1 |}.
Next Obligation.
  intros x r Hwf. simpl. pose proof Hwf as (Hb & Hh & Ht). unfold push.
  assert (wadd 32 (head r) 1 = head r + 1) as ->.
  { apply wadd_small. unfold in_word, RING_SIZE in *. lia. }
  pose proof (ring_full_iff RING_SIZE size_gt1 (head r) (tail r) Hh Ht) as Hfull.
  pose proof (ring_len_range RING_SIZE size_gt1 (head r) (tail r)).
  rewrite queued_len by done.
  destruct (Z.eqb_spec ((head r + 1) mod RING_SIZE) (tail r)) as [He|He].
  - apply returns_ret. apply Hfull in He. decide_tests. done.
  - rewrite arr_set_ok, bind_ret by lia. apply returns_ret.
    assert (ring_len RING_SIZE (head r) (tail r) < RING_SIZE - 1) as Hlt.
    { assert (ring_len RING_SIZE (head r) (tail r) <> RING_SIZE - 1) by tauto. lia. }
    split.
    + repeat split; simpl; [by rewrite zlen_zset | apply Z.mod_pos_bound; done ..| |]; lia.
    + decide_tests. split; [done|]. apply (ring_push RING_SIZE size_gt1); [done | lia].
Qed.
Next Obligation.
  intros r Hwf. simpl. pose proof Hwf as (Hb & Hh & Ht). unfold pop.
  destruct (Z.eqb_spec (tail r) (head r)) as [He|He].
  - apply returns_ret. unfold queued. rewrite He, ring_contents_empty; done.
  - destruct (ring_pop RING_SIZE size_gt1 (buf r) (head r) (tail r) Hwf He) as (x & Hx & Hc).
    unfold arr_get. rewrite Hx, bind_ret. apply returns_ret.
    assert (wadd 32 (tail r) 1 = tail r + 1) as ->.
    { apply wadd_small. unfold in_word, RING_SIZE in *. lia. }
    split.
    + repeat split; simpl; [done | lia | lia | apply Z.mod_pos_bound; done ..].
    + unfold queued at 1. rewrite Hc. done.
Qed.

Lemma is_empty_queued r : wf r -> is_empty r = bool_decide (queued r = []).
Proof.
  intros Hwf. pose proof Hwf as (Hb & Hh & Ht). unfold is_empty.
  pose proof (queued_len r Hwf) as Hl.
  pose proof (ring_empty_iff RING_SIZE size_gt1 (head r) (tail r) Hh Ht) as He.
  destruct (queued r) as [|x l].
  - rewrite zlen_nil in Hl. apply Z.eqb_eq. tauto || (apply He; lia).
  - rewrite zlen_cons in Hl. pose proof (zlen_nonneg l). simpl. apply Z.eqb_neq. intros H'.
    apply He in H'. lia.
Qed.

Lemma len_queued r : wf r -> len r = zlen (queued r).
Proof.
  intros Hwf. pose proof Hwf as (Hb & Hh & Ht). rewrite queued_len by done.
  unfold len, ring_len, RING_SIZE in *.
  rewrite wadd_small, wsub_small by (unfold in_word; lia).
  rewrite <- (Z.mod_add (head r - tail r) 1 64) by lia. f_equal. lia.
Qed.

End Ring.

(** * The channel table *)

Module Chan.
Import Ring.

Record Channel := mkChannel {
  active : bool;
  ring : RingBuffer;
  owner : Z;
}.

Definition new_channel : Channel := {| active := false; ring := Ring.new; owner := 0 |}.

(** [CHANNELS] and [NEXT_CHANNEL]. *)
Record Ipc := mkIpc {
  channels : list Channel;
  next_channel : Z;
}.

Definition boot : Ipc :=
  {| channels := replicate (Z.to_nat MAX_CHANNELS) new_channel; next_channel := 0 |}.

Definition with_channels (s : Ipc) (cs : list Channel) : Ipc :=
  {| channels := cs; next_channel := next_channel s |}.

Definition with_ring (c : Channel) (r : RingBuffer) : Channel :=
  {| active := active c; ring := r; owner := owner c |}.

(** [fetch_add] returns the old value; the counter is restored on failure. *)
Definition create_channel (owner : Z) (s : Ipc) : outcome (option Z * Ipc) :=
  let id := next_channel s in
  let added := wadd 32 (next_channel s) 1 in
  if MAX_CHANNELS <=? id then
    Ret (None, {| channels := channels s; next_channel := wsub 32 added 1 |})
  else
    ch ← arr_get (channels s) id;
    cs ← arr_set (channels s) id {| active := true; ring := ring ch; owner := owner |};
    Ret (Some id, {| channels := cs; next_channel := added |}).

Definition send (channel_id : Z) (msg : Message) (s : Ipc) : outcome (bool * Ipc) :=
  if MAX_CHANNELS <=? channel_id then Ret (false, s)
  else
    ch ← arr_get (channels s) channel_id;
    if negb (active ch) then Ret (false, s)
    else
      '(ok, r) ← Ring.push msg (ring ch);
      cs ← arr_set (channels s) channel_id (with_ring ch r);
      Ret (ok, with_channels s cs).

Definition recv (channel_id : Z) (s : Ipc) : outcome (option Message * Ipc) :=
  if MAX_CHANNELS <=? channel_id then Ret (None, s)
  else
    ch ← arr_get (channels s) channel_id;
    if negb (active ch) then Ret (None, s)
    else
      '(m, r) ← Ring.pop (ring ch);
      cs ← arr_set (channels s) channel_id (with_ring ch r);
      Ret (m, with_channels s cs).

Definition peek (channel_id : Z) (s : Ipc) : outcome bool :=
  if MAX_CHANNELS <=? channel_id then Ret false
  else
    ch ← arr_get (channels s) channel_id;
    Ret (negb (Ring.is_empty (ring ch))).

Definition pending (channel_id : Z) (s : Ipc) : outcome Z :=
  if MAX_CHANNELS <=? channel_id then Ret 0
  else
    ch ← arr_get (channels s) channel_id;
    Ret (Ring.len (ring ch)).

Definition destroy_channel (channel_id : Z) (s : Ipc) : outcome Ipc :=
  if MAX_CHANNELS <=? channel_id then Ret s
  else
    ch ← arr_get (channels s) channel_id;
    cs ← arr_set (channels s) channel_id
           {| active := false; ring := ring ch; owner := owner ch |};
    Ret (with_channels s cs).

(** ** The operations as one interface *)

Inductive ipc_op :=
  | Create (owner : Z)
  | Send (id : Z) (m : Message)
  | Recv (id : Z)
  | Peek (id : Z)
  | Pending (id : Z)
  | Destroy (id : Z).

Inductive ipc_result :=
  | RCreate (id : option Z)
  | RSend (ok : bool)
  | RRecv (m : option Message)
  | RPeek (b : bool)
  | RPending (n : Z)
  | RDestroy.

Definition ipc_step (op : ipc_op) (s : Ipc) : outcome (ipc_result * Ipc) :=
  match op with
  | Create o => '(r, s) ← create_channel o s; Ret (RCreate r, s)
  | Send id m => '(r, s) ← send id m s; Ret (RSend r, s)
  | Recv id => '(r, s) ← recv id s; Ret (RRecv r, s)
  | Peek id => b ← peek id s; Ret (RPeek b, s)
  | Pending id => n ← pending id s; Ret (RPending n, s)
  | Destroy id => s ← destroy_channel id s; Ret (RDestroy, s)
  end.

Fixpoint ipc_run (ops : list ipc_op) (s : Ipc) : outcome (list ipc_result * Ipc) :=
  match ops with
  | [] => Ret ([], s)
  | op :: ops => '(r, s) ← ipc_step op s; '(rs, s) ← ipc_run ops s; Ret (r :: rs, s)
  end.

(** ** Abstract specification: a table of bounded queues *)

Record AChannel := mkAChannel {
  a_active : bool;
  a_owner : Z;
  a_queue : list Message;
}.

Record AIpc := mkAIpc {
  a_channels : list AChannel;
  a_created : Z;       (* number of channels created so far *)
}.

Definition a_boot : AIpc :=
  {| a_channels := replicate (Z.to_nat MAX_CHANNELS) (mkAChannel false 0 []); a_created := 0 |}.

Definition a_update (s : AIpc) (id : Z) (c : AChannel) : AIpc :=
  {| a_channels := zset (a_channels s) id c; a_created := a_created s |}.

(** Identifiers are handed out in order and never reused; a channel accepts a
    message while it is active and holds fewer than 63; messages of one channel
    come out in the order they went in; [peek] and [pending] look at the queue
    whether or not the channel is active. *)
Definition a_step (op : ipc_op) (s : AIpc) : ipc_result * AIpc :=
  match op with
  | Create o =>
      match zget (a_channels s) (a_created s) with
      | Some c => (RCreate (Some (a_created s)),
          {| a_channels := zset (a_channels s) (a_created s) (mkAChannel true o (a_queue c));
             a_created := a_created s + 1 |})
      | None => (RCreate None, s)
      end
  | Send id m =>
      match zget (a_channels s) id with
      | Some c =>
          if a_active c && (zlen (a_queue c) <? RING_SIZE - 1)
          then (RSend true, a_update s id (mkAChannel true (a_owner c) (a_queue c ++ [m])))
          else (RSend false, s)
      | None => (RSend false, s)
      end
  | Recv id =>
      match zget (a_channels s) id with
      | Some (mkAChannel true o (m :: q)) =>
          (RRecv (Some m), a_update s id (mkAChannel true o q))
      | _ => (RRecv None, s)
      end
  | Peek id =>
      match zget (a_channels s) id with
      | Some c => (RPeek (negb (bool_decide (a_queue c = []))), s)
      | None => (RPeek false, s)
      end
  | Pending id =>
      match zget (a_channels s) id with
      | Some c => (RPending (zlen (a_queue c)), s)
      | None => (RPending 0, s)
      end
  | Destroy id =>
      match zget (a_channels s) id with
      | Some c => (RDestroy, a_update s id (mkAChannel false (a_owner c) (a_queue c)))
      | None => (RDestroy, s)
      end
  end.

Fixpoint a_run (ops : list ipc_op) (s : AIpc) : list ipc_result * AIpc :=
  match ops with
  | [] => ([], s)
  | op :: ops => let '(r, s) := a_step op s in let '(rs, s) := a_run ops s in (r :: rs, s)
  end.

(** ** Refinement *)

Record wf (s : Ipc) : Prop := {
  wf_table : zlen (channels s) = MAX_CHANNELS;
  wf_rings : Forall (fun c => Ring.wf (ring c)) (channels s);
  wf_next : 0 <= next_channel s <= MAX_CHANNELS;
}.

Definition abs_channel (c : Channel) : AChannel :=
  mkAChannel (active c) (owner c) (queued (ring c)).

Definition abs (s : Ipc) : AIpc :=
  {| a_channels := abs_channel <$> channels s; a_created := next_channel s |}.

Lemma zget_fmap {A B} (f : A -> B) (l : list A) i : zget (f <$> l) i = f <$> zget l i.
Proof. unfold zget. destruct (0 <=? i); [apply list_lookup_fmap | done]. Qed.

Lemma zset_fmap {A B} (f : A -> B) (l : list A) i x : f <$> zset l i x = zset (f <$> l) i (f x).
Proof. unfold zset. destruct (0 <=? i); [apply list_fmap_insert | done]. Qed.

Lemma update_channel_wf s id c : wf s -> Ring.wf (ring c) ->
  wf (with_channels s (zset (channels s) id c)) /\
  abs (with_channels s (zset (channels s) id c)) = a_update (abs s) id (abs_channel c).
Proof.
  intros [H1 H2 H3] Hc. split.
  - split; simpl; [by rewrite zlen_zset | by apply Forall_zset | done].
  - unfold abs, a_update. simpl. by rewrite zset_fmap.
Qed.

(** The channel an identifier selects, in both worlds. *)
Lemma channel_lookup s id : wf s -> 0 <= id ->
  (MAX_CHANNELS <= id /\ zget (a_channels (abs s)) id = None) \/
  (id < MAX_CHANNELS /\ exists c, zget (channels s) id = Some c /\ Ring.wf (ring c) /\
     zget (a_channels (abs s)) id = Some (abs_channel c)).
Proof.
  intros Hwf Hid. pose proof (wf_table s Hwf) as Hl. simpl.
  destruct (Z.leb_spec MAX_CHANNELS id).
  - left. split; [done|]. rewrite zget_fmap. by rewrite (proj2 (zget_None _ _)) by lia.
  - right. split; [done|]. destruct (zget_is_Some (channels s) id) as [c Hc]; [lia|].
    exists c. split; [done|]. split.
    + exact (Forall_zget _ _ _ _ (wf_rings s Hwf) Hc).
    + by rewrite zget_fmap, Hc.
Qed.

(** The simulation for one operation. *)
Definition simulates (m : outcome (ipc_result * Ipc)) (a : ipc_result * AIpc) : Prop :=
  exists s', m = Ret (a.1, s') /\ wf s' /\ abs s' = a.2.

(** Identifiers are [u32], hence not negative. *)
Definition op_ok (op : ipc_op) : Prop :=
  match op with
  | Create _ => True
  | Send id _ | Recv id | Peek id | Pending id | Destroy id => 0 <= id
  end.

Lemma create_simulates o s : wf s -> simulates (ipc_step (Create o) s) (a_step (Create o) (abs s)).
Proof.
  intros Hwf. pose proof (wf_next s Hwf) as Hn. unfold MAX_CHANNELS in Hn.
  cbn [ipc_step a_step]. unfold create_channel.
  rewrite wadd_small, wsub_small by (unfold in_word; lia).
  destruct (channel_lookup s (next_channel s) Hwf) as [[Hr Ha]|(Hr & c & Hc & Hcw & Ha)]; [lia|..];
    change (a_created (abs s)) with (next_channel s); rewrite Ha; decide_tests; simpl.
  - eexists. split; [done|]. replace (next_channel s + 1 - 1) with (next_channel s) by lia.
    split; [by destruct Hwf | done].
  - unfold arr_get. rewrite Hc, bind_ret.
    rewrite arr_set_ok by (rewrite (wf_table s Hwf); lia). rewrite bind_ret.
    destruct (update_channel_wf s (next_channel s) {| active := true; ring := ring c; owner := o |}
      Hwf Hcw) as [[H1 H2 H3] Habs].
    eexists. split; [done|]. split.
    + split; [exact H1 | exact H2 | simpl; unfold MAX_CHANNELS in *; lia].
    + unfold abs, a_update in *. simpl in *. by injection Habs as ->.
Qed.

Lemma send_simulates id m s : wf s -> 0 <= id ->
  simulates (ipc_step (Send id m) s) (a_step (Send id m) (abs s)).
Proof.
  intros Hwf Hid. cbn [ipc_step a_step]. unfold send.
  destruct (channel_lookup s id Hwf Hid) as [[Hr Ha]|(Hr & c & Hc & Hcw & Ha)];
    rewrite Ha; decide_tests; [by exists s|].
  unfold arr_get. rewrite Hc, bind_ret. simpl. destruct (active c) eqn:Hact; simpl; [|by exists s].
  destruct (@push_law RingBuffer Message ring_ops ring_laws m (ring c) Hcw) as ([ok r] & Hp & Hrw & Hq). simpl in Hp, Hrw, Hq.
  rewrite Hp, bind_ret. rewrite arr_set_ok by (rewrite (wf_table s Hwf); lia). rewrite bind_ret.
  destruct (update_channel_wf s id (with_ring c r) Hwf Hrw) as [Hw Habs].
  unfold RING_SIZE in *. destruct (_ <? _); destruct Hq as [-> Hq].
  - eexists. split; [done|]. split; [exact Hw|]. rewrite Habs. unfold abs_channel. simpl.
    by rewrite Hq, Hact.
  - eexists. split; [done|]. subst r. split; [exact Hw|]. simpl.
    replace (with_ring c (ring c)) with c by (by destruct c).
    rewrite zset_id by done. by destruct s.
Qed.

Lemma recv_simulates id s : wf s -> 0 <= id ->
  simulates (ipc_step (Recv id) s) (a_step (Recv id) (abs s)).
Proof.
  intros Hwf Hid. cbn [ipc_step a_step]. unfold recv.
  destruct (channel_lookup s id Hwf Hid) as [[Hr Ha]|(Hr & c & Hc & Hcw & Ha)];
    rewrite Ha; decide_tests; [by exists s|].
  unfold arr_get. rewrite Hc, bind_ret. unfold abs_channel.
  destruct (active c) eqn:Hact; simpl; [|by exists s].
  destruct (@pop_law RingBuffer Message ring_ops ring_laws (ring c) Hcw) as ([r rb] & Hp & Hrw & Hq). simpl in Hp, Hrw, Hq.
  rewrite Hp, bind_ret. rewrite arr_set_ok by (rewrite (wf_table s Hwf); lia). rewrite bind_ret.
  destruct (update_channel_wf s id (with_ring c rb) Hwf Hrw) as [Hw Habs].
  destruct (queued (ring c)) as [|x q]; destruct Hq as [-> Hq].
  - eexists. split; [done|]. subst rb. split; [exact Hw|]. simpl.
    replace (with_ring c (ring c)) with c by (by destruct c).
    rewrite zset_id by done. by destruct s.
  - eexists. split; [done|]. split; [exact Hw|]. rewrite Habs. unfold abs_channel. simpl.
    by rewrite Hq, Hact.
Qed.

Lemma ipc_step_simulates op s : wf s -> op_ok op ->
  simulates (ipc_step op s) (a_step op (abs s)).
Proof.
  intros Hwf Hop. destruct op as [o|id m|id|id|id|id]; cbn [op_ok] in Hop.
  - by apply create_simulates.
  - by apply send_simulates.
  - by apply recv_simulates.
  - cbn [ipc_step a_step]. unfold peek.
    destruct (channel_lookup s id Hwf Hop) as [[Hr Ha]|(Hr & c & Hc & Hcw & Ha)];
      rewrite Ha; decide_tests; [by exists s|].
    unfold arr_get. rewrite Hc, bind_ret. simpl. rewrite is_empty_queued by done. by exists s.
  - cbn [ipc_step a_step]. unfold pending.
    destruct (channel_lookup s id Hwf Hop) as [[Hr Ha]|(Hr & c & Hc & Hcw & Ha)];
      rewrite Ha; decide_tests; [by exists s|].
    unfold arr_get. rewrite Hc, bind_ret. simpl. rewrite len_queued by done. by exists s.
  - cbn [ipc_step a_step]. unfold destroy_channel.
    destruct (channel_lookup s id Hwf Hop) as [[Hr Ha]|(Hr & c & Hc & Hcw & Ha)];
      rewrite Ha; decide_tests; [by exists s|].
    unfold arr_get. rewrite Hc, bind_ret. rewrite arr_set_ok by (rewrite (wf_table s Hwf); lia).
    rewrite bind_ret.
    destruct (update_channel_wf s id {| active := false; ring := ring c; owner := owner c |} Hwf Hcw)
      as [Hw Habs].
    eexists. split; [done|]. split; [exact Hw | exact Habs].
Qed.

Lemma boot_wf : wf boot.
Proof.
  split; [reflexivity | | unfold MAX_CHANNELS; simpl; lia].
  apply Forall_replicate. apply new_ring_wf.
Qed.

Lemma boot_abs : abs boot = a_boot.
Proof. reflexivity. Qed.

(** C1: Started from the kernel's initial state, every sequence of channel
    operations returns (no index panic, no division by zero), leaves the table
    well formed, and answers exactly as a table of 32 first-in first-out queues
    of at most 63 messages each: identifiers 0, 1, .. 31 are handed out once,
    a message is accepted iff its channel is active and not full, and the
    messages of a channel are received in the order they were sent. *)
Theorem ipc_refines_queues ops : Forall op_ok ops ->
  exists s, ipc_run ops boot = Ret ((a_run ops a_boot).1, s) /\ wf s /\ abs s = (a_run ops a_boot).2.
Proof.
  intros Hops. rewrite <- boot_abs. pose proof boot_wf as Hwf. revert Hwf. generalize boot as s.
  induction Hops as [|op ops Hop Hops IH]; intros s Hwf; simpl; [by exists s|].
  destruct (ipc_step_simulates op s Hwf Hop) as (s1 & -> & Hwf1 & Habs1).
  rewrite bind_ret. destruct (IH s1 Hwf1) as (s2 & -> & Hwf2 & Habs2). rewrite bind_ret.
  exists s2. rewrite Habs1 in Habs2 |- *. destruct (a_step op (abs s)) as [r t]. simpl in *.
  destruct (a_run ops t) as [rs t']. done.
Qed.

Definition demo_ops : list ipc_op :=
  [Create 7; Send 0 (Msg.new 1 2); Send 0 (Msg.new 1 3); Recv 0; Pending 0; Send 1 Msg.empty;
   Destroy 0; Recv 0; Peek 0].

Lemma ipc_refines_queues_witness :
  Forall op_ok demo_ops /\
  exists s, ipc_run demo_ops boot = Ret ([RCreate (Some 0); RSend true; RSend true;
      RRecv (Some (Msg.new 1 2)); RPending 1; RSend false; RDestroy; RRecv None; RPeek true], s).
Proof.
  assert (Forall op_ok demo_ops) as H.
  { repeat (apply Forall_cons; split; [simpl; first [exact I | lia]|]). apply Forall_nil. exact I. }
  split; [exact H|].
  destruct (ipc_refines_queues demo_ops H) as (s & Hs & _). exists s. exact Hs.
Defined.

(** Destroying a channel does not discard its messages: they are still
    reported by [pending] and [peek], while [recv] no longer delivers them and
    no later [create_channel] can give the channel back. *)
Lemma destroy_strands_messages id c s : wf s -> zget (channels s) id = Some c ->
  queued (ring c) <> [] -> id < next_channel s ->
  returns (destroy_channel id s) (fun s' =>
    wf s' /\ recv id s' = Ret (None, s') /\ peek id s' = Ret true /\
    pending id s' = Ret (zlen (queued (ring c))) /\
    forall o, returns (create_channel o s') (fun '(r, _) => r <> Some id)).
Proof.
  intros Hwf Hc Hq Hid. pose proof (zget_Some _ _ _ Hc) as Hr.
  pose proof (wf_table s Hwf) as Ht. rewrite Ht in Hr.
  pose proof (Forall_zget _ _ _ _ (wf_rings s Hwf) Hc) as Hcw. simpl in Hcw.
  unfold destroy_channel. decide_tests. unfold arr_get. rewrite Hc, bind_ret.
  rewrite arr_set_ok by lia. rewrite bind_ret. apply returns_ret.
  set (c' := {| active := false; ring := ring c; owner := owner c |}).
  destruct (update_channel_wf s id c' Hwf Hcw) as [Hw Ha].
  assert (zget (zset (channels s) id c') id = Some c') as Hget by (apply zget_zset_eq; lia).
  split; [exact Hw|]. unfold recv, peek, pending. decide_tests.
  unfold arr_get. simpl. rewrite Hget. simpl.
  split; [done|]. split; [|split].
  - rewrite is_empty_queued by done. by rewrite bool_decide_false.
  - by rewrite len_queued.
  - intros o. destruct (create_simulates o _ Hw) as (s2 & Hs2 & _).
    cbn [ipc_step a_step] in Hs2. unfold create_channel in *. simpl in *.
    destruct (_ <=? _); [apply returns_ret; discriminate|].
    destruct (arr_get _ _) as [ch|]; [|discriminate]. rewrite bind_ret in Hs2 |- *.
    destruct (arr_set _ _ _) as [cs|]; [|discriminate]. rewrite bind_ret in Hs2 |- *.
    apply returns_ret. intros [= He]. lia.
Qed.

End Chan.

(** * Message payloads *)

Module MsgFacts.
Import Msg.

Definition wf (m : Message) : Prop := zlen (data m) = MSG_SIZE - 8.

Lemma new_msg_wf s t : wf (Msg.new s t).
Proof. reflexivity. Qed.

(** A 64-bit value written into the payload is read back unchanged, the
    remaining 48 bytes, the source and the type are untouched, and a byte
    string of at most 56 bytes is stored as a prefix of the payload, whose
    length never changes. *)
Theorem payload_roundtrip m v bytes : wf m -> in_word 64 v ->
  read_u64 (with_u64 v m) = v /\ wf (with_u64 v m) /\
  src (with_u64 v m) = src m /\ msg_type (with_u64 v m) = msg_type m /\
  drop 8 (data (with_u64 v m)) = drop 8 (data m) /\
  wf (with_bytes bytes m) /\
  take (length bytes) (data (with_bytes bytes m)) = take (Z.to_nat (MSG_SIZE - 8)) bytes.
Proof.
  unfold wf, zlen, MSG_SIZE. intros Hm Hv. unfold read_u64, with_u64, with_bytes, with_data.
  cbn [data src msg_type].
  assert (length (to_le 8 v) = 8%nat) as Hl by apply to_le_length.
  split_and!; try done.
  - rewrite take_app_le, take_ge by lia. by apply from_le_to_le.
  - rewrite length_app, length_drop. lia.
  - rewrite length_app, length_take, length_drop. lia.
  - change (Z.to_nat (64 - 8)) with 56%nat. destruct (decide (length bytes <= 56)%nat) as [Hb|Hb].
    + rewrite Nat.min_l by lia. rewrite !take_ge with (l := bytes) by lia.
      by rewrite take_app_length.
    + rewrite Nat.min_r by lia. rewrite drop_ge by lia. rewrite app_nil_r, take_take.
      f_equal. lia.
Qed.

Lemma payload_roundtrip_witness :
  read_u64 (with_u64 0x1122334455667788 (Msg.new 1 2)) = 0x1122334455667788.
Proof.
  apply (payload_roundtrip (Msg.new 1 2) 0x1122334455667788 []); [reflexivity|].
  unfold in_word. lia.
Defined.

End MsgFacts.

(** * One sender and one receiver on one channel *)

(** C32: A sender and a receiver that use one ring concurrently, under every
    interleaving of their loads and stores: what was received is a prefix of
    what was sent, the difference is exactly the ring's contents, and at most
    63 messages are under way. *)
Theorem spsc_fifo (s : @Spsc.state Message) :
  reachable (Spsc.init RING_SIZE) (Spsc.step RING_SIZE) s ->
  Spsc.sent s = Spsc.recvd s ++
    ring_contents RING_SIZE (Spsc.buf s) (Spsc.head s) (Spsc.tail s) /\
  zlen (Spsc.sent s) - zlen (Spsc.recvd s) <= RING_SIZE - 1.
Proof.
  intros Hr. apply (Spsc.reachable_inv RING_SIZE Ring.size_gt1) in Hr.
  destruct Hr as (Hwf & Hsent & _). split; [exact Hsent|].
  rewrite Hsent, zlen_app, (ring_contents_len RING_SIZE Ring.size_gt1) by exact Hwf.
  pose proof (ring_len_range RING_SIZE Ring.size_gt1 (Spsc.head s) (Spsc.tail s)).
  unfold RING_SIZE in *. lia.
Qed.

Definition spsc_boot : @Spsc.state Message :=
  Spsc.mkState (Ring.buf Ring.new) 0 0 Spsc.PIdle Spsc.CIdle [] [].

(** A run in which the receiver looks at the ring while the sender is between
    its store to the buffer and its store to [head]. *)
Definition spsc_after_push : @Spsc.state Message :=
  Spsc.mkState (zset (Ring.buf Ring.new) 0 (Msg.new 1 2)) 1 0 Spsc.PIdle (Spsc.CTail 0)
    [Msg.new 1 2] [].

Lemma spsc_run : reachable (Spsc.init RING_SIZE) (Spsc.step RING_SIZE) spsc_after_push.
Proof.
  eapply reach_step; [|exact (Spsc.push_store_head RING_SIZE _ 0 0 _ [] [] (Msg.new 1 2) 0)].
  eapply reach_step; [|apply Spsc.pop_load_tail].
  eapply reach_step; [|apply (Spsc.push_write RING_SIZE (Ring.buf Ring.new) 0 0 _ [] [] _ 0 0)].
  2: { discriminate. }
  eapply reach_step; [|apply Spsc.push_load_tail].
  eapply reach_step; [|apply Spsc.push_load_head].
  apply reach_init. vm_compute. intuition discriminate.
Qed.

Lemma spsc_fifo_witness :
  reachable (Spsc.init RING_SIZE) (Spsc.step RING_SIZE) spsc_after_push /\
  zlen (Spsc.sent spsc_after_push) - zlen (Spsc.recvd spsc_after_push) <= RING_SIZE - 1.
Proof. split; [exact spsc_run|]. apply (spsc_fifo spsc_after_push spsc_run). Defined.

(** * [SpinLock] *)

Module Spin.

(** Where a thread is: outside, before the compare-and-exchange of [lock], in
    its inner loop, or holding the lock. *)
Inductive pc := Outside | Cas | Spinning | Critical.

#[export] Instance pc_eq_dec : EqDecision pc.
Proof. solve_decision. Defined.

Record state := mkState { locked : Z; threads : list pc }.

Definition init (s : state) : Prop := locked s = 0 /\ Forall (fun p => p = Outside) (threads s).

(** One atomic access of thread [i].  The weak compare-and-exchange may fail
    spuriously; the strong one of [try_lock] may not.  [unlock] is called by
    the thread that holds the lock. *)
Inductive step : state -> state -> Prop :=
  | lock_call l ts i : ts !! i = Some Outside ->
      step (mkState l ts) (mkState l (<[i := Cas]> ts))
  | lock_cas_ok l ts i : ts !! i = Some Cas -> l = 0 ->
      step (mkState l ts) (mkState 1 (<[i := Critical]> ts))
  | lock_cas_fail l ts i : ts !! i = Some Cas ->
      step (mkState l ts) (mkState l (<[i := Spinning]> ts))
  | lock_spin l ts i : ts !! i = Some Spinning -> l <> 0 ->
      step (mkState l ts) (mkState l ts)
  | lock_retry l ts i : ts !! i = Some Spinning -> l = 0 ->
      step (mkState l ts) (mkState l (<[i := Cas]> ts))
  | try_lock_ok l ts i : ts !! i = Some Outside -> l = 0 ->
      step (mkState l ts) (mkState 1 (<[i := Critical]> ts))
  | try_lock_fail l ts i : ts !! i = Some Outside -> l <> 0 ->
      step (mkState l ts) (mkState l ts)
  | unlock l ts i : ts !! i = Some Critical ->
      step (mkState l ts) (mkState 0 (<[i := Outside]> ts)).

(** The lock word says whether there is a holder, and there is at most one. *)
Definition inv (s : state) : Prop :=
  (locked s = 0 /\ forall i, threads s !! i <> Some Critical) \/
  (locked s = 1 /\ exists i, threads s !! i = Some Critical /\
     forall j, threads s !! j = Some Critical -> j = i).

Lemma insert_not_critical (ts : list pc) (i k : nat) p : p <> Critical ->
  <[i := p]> ts !! k = Some Critical -> k <> i /\ ts !! k = Some Critical.
Proof.
  intros Hp H. destruct (decide (k = i)) as [->|Hk].
  - destruct (decide (i < length ts)%nat) as [Hl|Hl].
    + rewrite list_lookup_insert_eq in H by done. congruence.
    + rewrite list_insert_ge in H by lia. rewrite lookup_ge_None_2 in H by lia. done.
  - by rewrite list_lookup_insert_ne in H.
Qed.

(** Moving a thread that is not the holder to a place outside the critical
    section keeps the invariant. *)
Lemma inv_move l ts i p q : inv (mkState l ts) -> ts !! i = Some p -> p <> Critical ->
  q <> Critical -> inv (mkState l (<[i := q]> ts)).
Proof.
  intros [[H1 H2]|[H1 (h & H2 & H3)]] Hi Hp Hq; simpl in *.
  - left. split; [done|]. intros k Hk. by apply insert_not_critical in Hk as [_ ?%H2].
  - right. split; [done|]. exists h. simpl. split.
    + rewrite list_lookup_insert_ne; [done|]. congruence.
    + intros j Hj. apply insert_not_critical in Hj as [_ ?]; auto.
Qed.

Lemma inv_enter ts i p : inv (mkState 0 ts) -> ts !! i = Some p ->
  inv (mkState 1 (<[i := Critical]> ts)).
Proof.
  intros [[_ H]|[H _]] Hi; simpl in *; [|done]. right. split; [done|]. exists i. simpl. split.
  - apply list_lookup_insert_eq. by apply lookup_lt_Some in Hi.
  - intros j Hj. destruct (decide (j = i)); [done|].
    rewrite list_lookup_insert_ne in Hj by done. by apply H in Hj.
Qed.

Lemma inv_leave l ts i : inv (mkState l ts) -> ts !! i = Some Critical ->
  inv (mkState 0 (<[i := Outside]> ts)).
Proof.
  intros [[_ H]|[_ (h & Hh & Hu)]] Hi; simpl in *; [by apply H in Hi|].
  left. split; [done|]. simpl. intros k Hk. apply insert_not_critical in Hk as [Hne Hk]; [|done].
  apply Hne. by rewrite (Hu k Hk), (Hu i Hi).
Qed.

Lemma spin_step_inv s s' : inv s -> step s s' -> inv s'.
Proof.
  intros Hinv Hstep. destruct Hstep; subst; eauto using inv_enter, inv_leave;
    (eapply inv_move; [done..|discriminate|discriminate]).
Qed.

Lemma spin_reachable_inv s : reachable init step s -> inv s.
Proof.
  apply reachable_invariant; [|exact spin_step_inv].
  intros s0 [Hl Ho]. left. split; [done|]. intros i Hi.
  by eapply Forall_lookup_1 in Ho; [|exact Hi].
Qed.

(** C33: Under every interleaving of any number of threads at most one thread
    is between a successful [lock] or [try_lock] and its [unlock], and the lock
    word is 0 or 1. *)
Theorem mutual_exclusion s i j : reachable init step s ->
  threads s !! i = Some Critical -> threads s !! j = Some Critical ->
  i = j /\ locked s = 1.
Proof.
  intros [[_ H]|[Hl (h & _ & Hu)]]%spin_reachable_inv Hi Hj; [by apply H in Hi|].
  by rewrite (Hu i Hi), (Hu j Hj).
Qed.

Lemma run_enter : reachable init step (mkState 1 [Critical; Spinning]).
Proof.
  eapply (reach_step _ _ (mkState 1 [Critical; Cas])); [|by apply (lock_cas_fail 1 [Critical; Cas] 1)].
  eapply (reach_step _ _ (mkState 0 [Cas; Cas])); [|by apply (lock_cas_ok 0 [Cas; Cas] 0)].
  eapply (reach_step _ _ (mkState 0 [Cas; Outside])); [|by apply (lock_call 0 [Cas; Outside] 1)].
  eapply (reach_step _ _ (mkState 0 [Outside; Outside])); [|by apply (lock_call 0 [Outside; Outside] 0)].
  apply reach_init. split; [done|]. by repeat constructor.
Qed.

Lemma mutual_exclusion_witness :
  reachable init step (mkState 1 [Critical; Spinning]) /\
  (0%nat = 0%nat /\ locked (mkState 1 [Critical; Spinning]) = 1).
Proof.
  split; [exact run_enter|].
  apply (mutual_exclusion (mkState 1 [Critical; Spinning]) 0 0 run_enter); reflexivity.
Defined.

(** The lock never gets stuck: whenever some thread waits in [lock], either
    another thread holds it, or a waiting thread can enter by its own next
    steps; and after [unlock] nobody holds it. *)
Theorem lock_progress s i p : reachable init step s ->
  threads s !! i = Some p -> p = Cas \/ p = Spinning ->
  (exists h, threads s !! h = Some Critical) \/
  exists s1 s2, (s1 = s \/ step s s1) /\ step s1 s2 /\ threads s2 !! i = Some Critical.
Proof.
  intros [[Hl H]|[Hl (h & Hh & _)]]%spin_reachable_inv Hi Hp; [right | left; by exists h].
  destruct s as [l ts]. simpl in *. subst l. pose proof (lookup_lt_Some _ _ _ Hi) as Hlen.
  destruct Hp as [->| ->].
  - exists (mkState 0 ts). eexists. split; [by left|]. split; [by apply lock_cas_ok with (i := i)|].
    simpl. by apply list_lookup_insert_eq.
  - exists (mkState 0 (<[i := Cas]> ts)). eexists. split; [right; by apply lock_retry with (i := i)|].
    split.
    + apply lock_cas_ok with (i := i); [|done]. by apply list_lookup_insert_eq.
    + simpl. apply list_lookup_insert_eq. by rewrite length_insert.
Qed.

Lemma lock_progress_witness :
  (exists h, threads (mkState 1 [Critical; Spinning]) !! h = Some Critical) \/
  exists s1 s2, (s1 = mkState 1 [Critical; Spinning] \/ step (mkState 1 [Critical; Spinning]) s1) /\
    step s1 s2 /\ threads s2 !! 1%nat = Some Critical.
Proof.
  apply (lock_progress _ 1 Spinning run_enter); [reflexivity | by right].
Defined.

End Spin.
