(* ===== verification/Port.v ===== *)
(** Port I/O, the instructions behind [inb], [outb] and their 16- and 32-bit
    forms of [src/kern/arch/x86_64/cpu.rs].  The device on the other side of the ports
    is not code of the kernel: it is a type [D] with the two operations of the
    class below, and what a driver relies on is stated by further classes
    ([Pic8259] for the interrupt controllers, [Uart] for the serial port,
    [PciHost] for the configuration space). *)
From S2P Require Import Prelude Word.

Class PortDevice (D : Type) := {
  port_in : Z -> D -> Z * D;
  port_out : Z -> Z -> D -> D;
}.

Definition inb {D} `{PortDevice D} (port : Z) (d : D) : Z * D :=
  let '(v, d) := port_in port d in (wrap 8 v, d).

Definition outb {D} `{PortDevice D} (port val : Z) (d : D) : D := port_out port val d.

(** The wider forms are transactions of their own: not two or four byte accesses. *)
Class WidePorts (D : Type) := {
  port_in16 : Z -> D -> Z * D;
  port_out16 : Z -> Z -> D -> D;
  port_in32 : Z -> D -> Z * D;
  port_out32 : Z -> Z -> D -> D;
}.

Definition inw {D} `{WidePorts D} (port : Z) (d : D) : Z * D :=
  let '(v, d) := port_in16 port d in (wrap 16 v, d).

Definition outw {D} `{WidePorts D} (port val : Z) (d : D) : D := port_out16 port val d.

Definition inl {D} `{WidePorts D} (port : Z) (d : D) : Z * D :=
  let '(v, d) := port_in32 port d in (wrap 32 v, d).

Definition outl {D} `{WidePorts D} (port val : Z) (d : D) : D := port_out32 port val d.

(** Writes in order, for the initialisation sequences. *)
Definition outbs {D} `{PortDevice D} (ws : list (Z * Z)) (d : D) : D :=
  fold_left (fun d '(port, val) => outb port val d) ws d.

Lemma inb_byte {D} `{PortDevice D} port (d : D) : in_word 8 (inb port d).1.
Proof. unfold inb. destruct (port_in port d). by apply wrap_in_word. Qed.

(** A device that answers reads from a script and records writes. *)
Record Recorder := mkRecorder { answers : list Z; written : list (Z * Z) }.

#[export] Instance recorder_device : PortDevice Recorder := {|
  port_in _ d := (hd 0 (answers d), mkRecorder (tl (answers d)) (written d));
  port_out port val d := mkRecorder (answers d) (written d ++ [(port, val)]);
|}.

Lemma outbs_recorder ws d :
  outbs ws d = mkRecorder (answers d) (written d ++ ws).
Proof.
  revert d. induction ws as [|[p v] ws IH]; intros [a w]; simpl; [by rewrite app_nil_r|].
  rewrite IH. simpl. by rewrite <- app_assoc.
Qed.
