(* ===== verification/Pic.v ===== *)
(** The interrupt controllers and the interval timer,
    [src/kern/arch/x86_64/pic.rs] and [src/kern/arch/x86_64/pit.rs]. *)
From S2P Require Import Prelude Word Port.

Definition PIC1_CMD : Z := 0x20.
Definition PIC1_DATA : Z := 0x21.
Definition PIC2_CMD : Z := 0xA0.
Definition PIC2_DATA : Z := 0xA1.
Definition ICW1_INIT : Z := 0x11.
Definition ICW4_8086 : Z := 0x01.

Section driver.
Context {D : Type} `{PortDevice D}.
Implicit Types (d : D).

Definition io_wait d : D := outb 0x80 0 d.

Definition remap (offset1 offset2 : Z) d : D :=
  let '(mask1, d) := inb PIC1_DATA d in
  let '(mask2, d) := inb PIC2_DATA d in
  let d := io_wait (outb PIC1_CMD ICW1_INIT d) in
  let d := io_wait (outb PIC2_CMD ICW1_INIT d) in
  let d := io_wait (outb PIC1_DATA offset1 d) in
  let d := io_wait (outb PIC2_DATA offset2 d) in
  let d := io_wait (outb PIC1_DATA 4 d) in
  let d := io_wait (outb PIC2_DATA 2 d) in
  let d := io_wait (outb PIC1_DATA ICW4_8086 d) in
  let d := io_wait (outb PIC2_DATA ICW4_8086 d) in
  outb PIC2_DATA mask2 (outb PIC1_DATA mask1 d).

Definition disable d : D := outb PIC2_DATA 0xFF (outb PIC1_DATA 0xFF d).

Definition eoi (irq : Z) d : D :=
  let d := if 8 <=? irq then outb PIC2_CMD 0x20 d else d in
  outb PIC1_CMD 0x20 d.

Definition mask_port (irq : Z) : Z * Z :=
  if irq <? 8 then (PIC1_DATA, irq) else (PIC2_DATA, wsub 8 irq 8).

Definition set_mask (irq : Z) d : D :=
  let '(port, irq) := mask_port irq in
  let '(v, d) := inb port d in
  outb port (Z.lor v (wshl 8 1 irq)) d.

Definition clear_mask (irq : Z) d : D :=
  let '(port, irq) := mask_port irq in
  let '(v, d) := inb port d in
  outb port (Z.land v (wnot 8 (wshl 8 1 irq))) d.
End driver.

(** * The 8259 pair *)

(** The registers of one controller that the driver programs: the mask, the
    vector offset, and how far the initialisation sequence has come. *)
Inductive phase := Operational | WantICW2 | WantICW3 | WantICW4.

Record chip := mkChip { imr : Z; vec_offset : Z; ph : phase; ic4 : bool }.

(** Documented behaviour of writes: a command with bit 4 set starts the
    sequence and clears the mask; the next data bytes are the vector offset
    (its low three bits are ignored), the cascade wiring and, if announced, the
    mode; otherwise a data byte is the mask. *)
Definition chip_cmd (v : Z) (c : chip) : chip :=
  if Z.testbit v 4 then mkChip 0 (vec_offset c) WantICW2 (Z.testbit v 0) else c.

Definition chip_data (v : Z) (c : chip) : chip :=
  match ph c with
  | Operational => mkChip v (vec_offset c) Operational (ic4 c)
  | WantICW2 => mkChip (imr c) (Z.land v 0xF8) WantICW3 (ic4 c)
  | WantICW3 => mkChip (imr c) (vec_offset c) (if ic4 c then WantICW4 else Operational) (ic4 c)
  | WantICW4 => mkChip (imr c) (vec_offset c) Operational (ic4 c)
  end.

Class Pic8259 (D : Type) `{PortDevice D} := {
  chip1 : D -> chip;
  chip2 : D -> chip;
  read_imr1 d : port_in PIC1_DATA d = (imr (chip1 d), d);
  read_imr2 d : port_in PIC2_DATA d = (imr (chip2 d), d);
  write_chip1 p v d : chip1 (port_out p v d) =
    if p =? PIC1_CMD then chip_cmd v (chip1 d)
    else if p =? PIC1_DATA then chip_data v (chip1 d) else chip1 d;
  write_chip2 p v d : chip2 (port_out p v d) =
    if p =? PIC2_CMD then chip_cmd v (chip2 d)
    else if p =? PIC2_DATA then chip_data v (chip2 d) else chip2 d;
}.

(** Lines of a controller pair: line [irq] is masked. *)
Definition masked {D} `{Pic8259 D} (d : D) (irq : Z) : bool :=
  if irq <? 8 then Z.testbit (imr (chip1 d)) irq else Z.testbit (imr (chip2 d)) (irq - 8).

Definition operational {D} `{Pic8259 D} (d : D) : Prop :=
  ph (chip1 d) = Operational /\ ph (chip2 d) = Operational /\
  in_word 8 (imr (chip1 d)) /\ in_word 8 (imr (chip2 d)).

Section laws.
Context {D : Type} `{Pic8259 D}.
Implicit Types (d : D).

(** What each write does to each controller, as rewrite rules. *)
Lemma chip1_io d : chip1 (io_wait d) = chip1 d.
Proof. unfold io_wait, outb. by rewrite write_chip1. Qed.

Lemma chip2_io d : chip2 (io_wait d) = chip2 d.
Proof. unfold io_wait, outb. by rewrite write_chip2. Qed.

Lemma chip1_cmd1 v d : chip1 (outb PIC1_CMD v d) = chip_cmd v (chip1 d).
Proof. unfold outb. by rewrite write_chip1. Qed.

Lemma chip1_data1 v d : chip1 (outb PIC1_DATA v d) = chip_data v (chip1 d).
Proof. unfold outb. by rewrite write_chip1. Qed.

Lemma chip1_cmd2 v d : chip1 (outb PIC2_CMD v d) = chip1 d.
Proof. unfold outb. by rewrite write_chip1. Qed.

Lemma chip1_data2 v d : chip1 (outb PIC2_DATA v d) = chip1 d.
Proof. unfold outb. by rewrite write_chip1. Qed.

Lemma chip2_cmd1 v d : chip2 (outb PIC1_CMD v d) = chip2 d.
Proof. unfold outb. by rewrite write_chip2. Qed.

Lemma chip2_data1 v d : chip2 (outb PIC1_DATA v d) = chip2 d.
Proof. unfold outb. by rewrite write_chip2. Qed.

Lemma chip2_cmd2 v d : chip2 (outb PIC2_CMD v d) = chip_cmd v (chip2 d).
Proof. unfold outb. by rewrite write_chip2. Qed.

Lemma chip2_data2 v d : chip2 (outb PIC2_DATA v d) = chip_data v (chip2 d).
Proof. unfold outb. by rewrite write_chip2. Qed.

Create Rewrite HintDb pic.
#[local] Hint Rewrite chip1_io chip2_io chip1_cmd1 chip1_data1 chip1_cmd2 chip1_data2
  chip2_cmd1 chip2_data1 chip2_cmd2 chip2_data2 : pic.

(** One controller through the whole initialisation sequence. *)
Lemma chip_sequence offset wiring mask c :
  chip_data mask (chip_data ICW4_8086 (chip_data wiring (chip_data offset (chip_cmd ICW1_INIT c))))
  = mkChip mask (Z.land offset 0xF8) Operational true.
Proof. reflexivity. Qed.

Lemma mask_bit v irq i : in_word 8 v -> 0 <= irq < 8 -> 0 <= i < 8 ->
  Z.testbit (Z.lor v (wshl 8 1 irq)) i = (i =? irq) || Z.testbit v i /\
  Z.testbit (Z.land v (wnot 8 (wshl 8 1 irq))) i = negb (i =? irq) && Z.testbit v i.
Proof.
  intros Hv Hq Hi. rewrite wshl_1 by lia. rewrite Z.lor_spec, Z.land_spec, wnot_spec by lia.
  rewrite Z.pow2_bits_eqb by lia. replace (i <? 8) with true by (symmetry; apply Z.ltb_lt; lia).
  rewrite (Z.eqb_sym irq i). destruct (i =? irq), (Z.testbit v i); done.
Qed.

(** [remap] programs both controllers: whatever phase they were in as long
    as they are operational, they end operational again with the requested
    vector offsets (multiples of 8) and exactly the masks they had before. *)
Theorem remap_keeps_masks offset1 offset2 d : operational d ->
  Z.land offset1 7 = 0 -> Z.land offset2 7 = 0 ->
  in_word 8 offset1 -> in_word 8 offset2 ->
  let d' := remap offset1 offset2 d in
  operational d' /\ vec_offset (chip1 d') = offset1 /\ vec_offset (chip2 d') = offset2 /\
  (forall irq, masked d' irq = masked d irq).
Proof.
  intros (H1 & H2 & H3 & H4) Ho1 Ho2 Hw1 Hw2.
  assert (forall o, Z.land o 7 = 0 -> in_word 8 o -> Z.land o 0xF8 = o) as Hal.
  { intros o Ho Hw. transitivity (Z.land o (Z.lor 0xF8 7)).
    - rewrite Z.land_lor_distr_r, Ho, Z.lor_0_r. done.
    - change (Z.lor 0xF8 7) with (Z.ones 8). rewrite Z.land_ones by lia. by apply wrap_small. }
  unfold remap, inb. rewrite read_imr1, read_imr2. rewrite !wrap_small by done.
  unfold masked, operational. autorewrite with pic. rewrite !chip_sequence.
  cbn [ph imr vec_offset]. by rewrite !Hal.
Qed.

(** [remap] and [disable] as start-up calls them. *)
Lemma remap_disable offset1 offset2 d :
  chip1 (disable (remap offset1 offset2 d)) = mkChip 0xFF (Z.land offset1 0xF8) Operational true /\
  chip2 (disable (remap offset1 offset2 d)) = mkChip 0xFF (Z.land offset2 0xF8) Operational true.
Proof.
  unfold disable, remap, inb. rewrite read_imr1, read_imr2. autorewrite with pic. by rewrite !chip_sequence.
Qed.

(** On operational controllers [set_mask] masks and [clear_mask] unmasks
    exactly the given line; every other line, of both controllers, keeps its
    state, and an end-of-interrupt changes no mask. *)
Theorem mask_one_line irq i d : operational d -> 0 <= irq < 16 -> 0 <= i < 16 ->
  masked (set_mask irq d) i = (i =? irq) || masked d i /\
  masked (clear_mask irq d) i = negb (i =? irq) && masked d i /\
  masked (eoi irq d) i = masked d i.
Proof.
  intros (H1 & H2 & H3 & H4) Hq Hi.
  assert (masked (eoi irq d) i = masked d i) as ->.
  { unfold masked, eoi. destruct (8 <=? irq); by autorewrite with pic. }
  unfold set_mask, clear_mask, mask_port.
  destruct (Z.ltb_spec irq 8) as [Hlt|Hge]; unfold inb; rewrite ?read_imr1, ?read_imr2;
    rewrite wrap_small by done; unfold masked; autorewrite with pic;
    unfold chip_data; rewrite ?H1, ?H2; cbn [imr].
  - case_ltb; [destruct (mask_bit (imr (chip1 d)) irq i H3) as [-> ->]; [lia..|done]|].
    replace (i =? irq) with false by (symmetry; apply Z.eqb_neq; lia). done.
  - rewrite wsub_small by (unfold in_word; lia). case_ltb.
    + replace (i =? irq) with false by (symmetry; apply Z.eqb_neq; lia). done.
    + destruct (mask_bit (imr (chip2 d)) (irq - 8) (i - 8) H4) as [-> ->]; [lia..|].
      replace (i - 8 =? irq - 8) with (i =? irq); [done|].
      destruct (Z.eqb_spec i irq), (Z.eqb_spec (i - 8) (irq - 8)); done || lia.
Qed.
End laws.

(** * The interval timer *)

Definition PIT_CH0_DATA : Z := 0x40.
Definition PIT_CMD : Z := 0x43.
Definition PIT_FREQ : Z := 1193182.

Definition pit_init {D} `{PortDevice D} (hz : Z) (d : D) : outcome D :=
  if hz =? 0 then Crash DivPanic
  else
    let divisor := PIT_FREQ / hz in
    let divisor := if 0xFFFF <? divisor then 0xFFFF else wrap 16 divisor in
    let d := outb PIT_CMD 0x34 d in
    let d := outb PIT_CH0_DATA (wrap 8 (Z.land divisor 0xFF)) d in
    Ret (outb PIT_CH0_DATA (wrap 8 (wshr 16 divisor 8)) d).

(** For a frequency the timer can produce (19 Hz up to its base frequency)
    [init] panics not and writes the rate-generator command followed by the
    two bytes, low first, of the largest divisor whose rate is at least the
    requested one. *)
Theorem pit_divisor hz a w : 19 <= hz <= PIT_FREQ ->
  exists lo hi, pit_init hz (mkRecorder a w) =
    Ret (mkRecorder a (w ++ [(PIT_CMD, 0x34); (PIT_CH0_DATA, lo); (PIT_CH0_DATA, hi)])) /\
  in_word 8 lo /\ in_word 8 hi /\
  let divisor := lo + 256 * hi in 0 < divisor /\ divisor * hz <= PIT_FREQ < (divisor + 1) * hz.
Proof.
  unfold PIT_FREQ. intros Hhz. unfold pit_init, PIT_FREQ. decide_tests.
  pose proof (Z.div_mod 1193182 hz). pose proof (Z.mod_pos_bound 1193182 hz).
  set (q := 1193182 / hz) in *.
  assert (1 <= q <= 62799) by nia. decide_tests.
  rewrite (wrap_small 16) by (unfold in_word; lia). rewrite wshr_div by lia.
  change 0xFF with (Z.ones 8). rewrite Z.land_ones by lia.
  pose proof (Z.div_mod q (2 ^ 8)). pose proof (Z.mod_pos_bound q (2 ^ 8)).
  assert (0 <= q / 2 ^ 8 < 2 ^ 8) by (split; [apply Z.div_pos | apply Z.div_lt_upper_bound]; lia).
  exists (q mod 2 ^ 8), (q / 2 ^ 8).
  rewrite !wrap_small by (unfold in_word; lia). simpl. rewrite <- !app_assoc. split; [done|].
  unfold in_word. split_and!; nia.
Qed.

Lemma pit_divisor_witness : exists lo hi, pit_init 100 (mkRecorder [] []) =
    Ret (mkRecorder [] [(PIT_CMD, 0x34); (PIT_CH0_DATA, lo); (PIT_CH0_DATA, hi)]).
Proof.
  destruct (pit_divisor 100 [] []) as (lo & hi & Hp & _); [unfold PIT_FREQ; lia|].
  by exists lo, hi.
Defined.

(** * A pair of controllers, for the witnesses *)

#[export] Instance pics_device : PortDevice (chip * chip) := {|
  port_in p d := (if p =? PIC1_DATA then imr d.1 else if p =? PIC2_DATA then imr d.2 else 0, d);
  port_out p v d :=
    (if p =? PIC1_CMD then chip_cmd v d.1 else if p =? PIC1_DATA then chip_data v d.1 else d.1,
     if p =? PIC2_CMD then chip_cmd v d.2 else if p =? PIC2_DATA then chip_data v d.2 else d.2);
|}.

#[export] Instance pics_8259 : Pic8259 (chip * chip).
Proof. refine {| chip1 := fst; chip2 := snd |}; done. Defined.

Definition demo_pics : chip * chip :=
  (mkChip 0xB8 8 Operational true, mkChip 0x8F 0x70 Operational true).

Lemma demo_pics_operational : operational demo_pics.
Proof. unfold operational, in_word; simpl. split_and!; done || lia. Qed.

Lemma remap_keeps_masks_witness :
  remap 32 40 demo_pics = (mkChip 0xB8 32 Operational true, mkChip 0x8F 40 Operational true) /\
  operational (remap 32 40 demo_pics).
Proof.
  split; [reflexivity|].
  apply (remap_keeps_masks 32 40 demo_pics demo_pics_operational);
    reflexivity || (unfold in_word; lia).
Defined.

Lemma mask_one_line_witness : masked (clear_mask 12 demo_pics) 12 = false.
Proof.
  destruct (mask_one_line 12 12 demo_pics demo_pics_operational) as (_ & H & _); [lia..|].
  rewrite H. reflexivity.
Defined.
