(* ===== verification/Serial.v ===== *)
(** The serial console, [src/kern/serial.rs]: transmission of bytes over a
    polled UART and the hexadecimal and decimal printers. *)
From S2P Require Import Prelude Word Port.

Definition COM1 : Z := 0x3F8.

(** What the driver relies on of a 16550 UART: bit 5 of the line status says
    that a byte may be written, which happens after finitely many polls; a byte
    written to the data port is sent unless the divisor latch (bit 7 of the line
    control register) is open. *)
Class Uart (D : Type) `{PortDevice D} := {
  uart_sent : D -> list Z;
  uart_busy : D -> nat;       (* polls until the transmitter is free *)
  uart_dlab : D -> bool;
  uart_polls : nat;           (* bound on the polls for one byte *)
  uart_status d : let '(v, d') := port_in (COM1 + 5) d in
    Z.testbit v 5 = bool_decide (uart_busy d = O) /\ uart_busy d' = Nat.pred (uart_busy d) /\
    uart_sent d' = uart_sent d /\ uart_dlab d' = uart_dlab d;
  uart_write p v d :
    uart_sent (port_out p v d) =
      (if (p =? COM1) && negb (uart_dlab d) then uart_sent d ++ [v] else uart_sent d) /\
    uart_dlab (port_out p v d) = (if p =? COM1 + 3 then Z.testbit v 7 else uart_dlab d) /\
    ((uart_busy d <= uart_polls)%nat -> (uart_busy (port_out p v d) <= uart_polls)%nat);
}.

Section driver.
Context {D : Type} `{PortDevice D}.
Implicit Types (d : D).

Definition init d : D :=
  outbs [(COM1 + 1, 0x00); (COM1 + 3, 0x80); (COM1, 0x03); (COM1 + 1, 0x00);
         (COM1 + 3, 0x03); (COM1 + 2, 0xC7); (COM1 + 4, 0x0B)] d.

(** [while (inb(COM1 + 5) & 0x20) == 0 {}]; [fuel] bounds the polls. *)
Fixpoint wait_free (fuel : nat) d : outcome D :=
  match fuel with
  | O => Crash OutOfFuel
  | S fuel' =>
      let '(v, d) := inb (COM1 + 5) d in
      if Z.land v 0x20 =? 0 then wait_free fuel' d else Ret d
  end.

Definition putb (fuel : nat) (b : Z) d : outcome D :=
  d ← wait_free fuel d; Ret (outb COM1 b d).

Fixpoint puts (fuel : nat) (s : list Z) d : outcome D :=
  match s with
  | [] => Ret d
  | b :: s => d ← putb fuel b d; puts fuel s d
  end.

(** [while i > 0 { i -= 1; putb(buf[i]); }] *)
Fixpoint drain (fuel : nat) (buf : list Z) (i : nat) d : outcome D :=
  match i with
  | O => Ret d
  | S i => b ← arr_get buf (Z.of_nat i); d ← putb fuel b d; drain fuel buf i d
  end.

(** [while v > 0] of [hex]; each round consumes four bits. *)
Fixpoint hex_fill (rounds : nat) (v : Z) (buf : list Z) (i : nat) : outcome (list Z * nat) :=
  match rounds with
  | O => Crash OutOfFuel
  | S rounds' =>
      if 0 <? v then
        let dg := wrap 8 (Z.land v 0xF) in
        buf ← arr_set buf (Z.of_nat i) (if dg <? 10 then wadd 8 48 dg else wsub 8 (wadd 8 97 dg) 10);
        hex_fill rounds' (wshr 64 v 4) buf (S i)
      else Ret (buf, i)
  end.

Definition hex (fuel : nat) (v : Z) d : outcome D :=
  if v =? 0 then putb fuel 48 d
  else
    '(buf, i) ← hex_fill 65 v (replicate 16 0) 0;
    drain fuel buf i d.

(** [while v > 0] of [dec] *)
Fixpoint dec_fill (rounds : nat) (v : Z) (buf : list Z) (i : nat) : outcome (list Z * nat) :=
  match rounds with
  | O => Crash OutOfFuel
  | S rounds' =>
      if 0 <? v then
        buf ← arr_set buf (Z.of_nat i) (wadd 8 48 (wrap 8 (v mod 10)));
        dec_fill rounds' (v / 10) buf (S i)
      else Ret (buf, i)
  end.

Definition dec (fuel : nat) (v : Z) d : outcome D :=
  if v =? 0 then putb fuel 48 d
  else
    '(buf, i) ← dec_fill 65 v (replicate 20 0) 0;
    drain fuel buf i d.
End driver.

(** * Digits *)

(** The value of a numeral, most significant character first. *)
Definition char_value (c : Z) : option Z :=
  if (48 <=? c) && (c <=? 57) then Some (c - 48)
  else if (97 <=? c) && (c <=? 102) then Some (c - 87) else None.

Fixpoint numeral_from (B acc : Z) (s : list Z) : option Z :=
  match s with
  | [] => Some acc
  | c :: s =>
      match char_value c with
      | Some v => if v <? B then numeral_from B (acc * B + v) s else None
      | None => None
      end
  end.

Definition numeral (B : Z) (s : list Z) : option Z :=
  match s with [] => None | _ => numeral_from B 0 s end.

(** [s] is the decimal numeral of [v] without leading zeros. *)
Definition is_decimal (v : Z) (s : list Z) : Prop :=
  numeral 10 s = Some v /\ (hd_error s = Some 48 -> s = [48]).

Definition digit_char (v : Z) : Z := if v <? 10 then 48 + v else 87 + v.

Lemma char_value_digit v : 0 <= v < 16 -> char_value (digit_char v) = Some v.
Proof.
  intros Hv. unfold char_value, digit_char. case_ltb; decide_tests; simpl; f_equal; lia.
Qed.

Lemma char_value_zero c d : char_value c = Some d -> 0 <= d /\ (d = 0 -> c = 48).
Proof.
  unfold char_value. destruct (Z.leb_spec 48 c), (Z.leb_spec c 57), (Z.leb_spec 97 c), (Z.leb_spec c 102);
    simpl; intros Hd; try discriminate Hd; injection Hd as <-; lia.
Qed.

Lemma numeral_from_bounds B acc s v : 0 < B -> numeral_from B acc s = Some v ->
  acc * B ^ zlen s <= v < (acc + 1) * B ^ zlen s.
Proof.
  intros HB. revert acc. induction s as [|c s IH]; intros acc; [intros [= <-]; change (zlen []) with 0; lia|].
  cbn [numeral_from]. destruct (char_value c) as [d|] eqn:Hd; [|done].
  destruct (Z.ltb_spec d B) as [Hlt|]; [|done]. intros Hs%IH. rewrite zlen_cons.
  pose proof (zlen_nonneg s). rewrite Z.pow_add_r, Z.pow_1_r by lia.
  pose proof (Z.pow_pos_nonneg B (zlen s) ltac:(lia) ltac:(lia)).
  apply char_value_zero in Hd as [Hd _]. nia.
Qed.

Lemma zero_decimal s : is_decimal 0 s -> s = [48].
Proof.
  intros [Hn Hz]. destruct s as [|c s]; [done|]. cbn [numeral numeral_from] in Hn.
  destruct (decide (c = 48)) as [->|Hc]; [by apply Hz|]. exfalso.
  destruct (char_value c) as [v|] eqn:Hv; [|done]. destruct (Z.ltb_spec v 10); [|done].
  apply numeral_from_bounds in Hn; [|lia]. pose proof (char_value_zero c v Hv) as [Hv0 Hv1].
  pose proof (Z.pow_pos_nonneg 10 (zlen s)). pose proof (zlen_nonneg s). nia.
Qed.

(** The loop both printers share. *)
Fixpoint fill (B : Z) (rounds : nat) (v : Z) (buf : list Z) (i : nat) : outcome (list Z * nat) :=
  match rounds with
  | O => Crash OutOfFuel
  | S rounds' =>
      if 0 <? v then
        buf ← arr_set buf (Z.of_nat i) (digit_char (v mod B));
        fill B rounds' (v / B) buf (S i)
      else Ret (buf, i)
  end.

Lemma hex_fill_eq rounds v buf i : hex_fill rounds v buf i = fill 16 rounds v buf i.
Proof.
  revert v buf i. induction rounds as [|n IH]; intros v buf i; simpl; [done|].
  assert (wrap 8 (Z.land v 15) = v mod 16) as ->.
  { change 15 with (Z.ones 4). rewrite Z.land_ones by lia. change (2 ^ 4) with 16.
    pose proof (Z.mod_pos_bound v 16). apply wrap_small. unfold in_word. lia. }
  assert ((if v mod 16 <? 10 then wadd 8 48 (v mod 16) else wsub 8 (wadd 8 97 (v mod 16)) 10)
    = digit_char (v mod 16)) as ->.
  { unfold digit_char. pose proof (Z.mod_pos_bound v 16).
    case_ltb; rewrite ?wadd_small by (unfold in_word; lia); [done|].
    rewrite wsub_small by (unfold in_word; lia). lia. }
  rewrite wshr_div by lia. change (2 ^ 4) with 16.
  destruct (0 <? v); [|done]. destruct (arr_set _ _ _); [apply IH | done].
Qed.

Lemma dec_fill_eq rounds v buf i : dec_fill rounds v buf i = fill 10 rounds v buf i.
Proof.
  revert v buf i. induction rounds as [|n IH]; intros v buf i; simpl; [done|].
  assert (wadd 8 48 (wrap 8 (v mod 10)) = digit_char (v mod 10)) as ->.
  { pose proof (Z.mod_pos_bound v 10). unfold digit_char. decide_tests.
    rewrite wrap_small, wadd_small by (unfold in_word; lia). done. }
  destruct (0 <? v); [|done]. destruct (arr_set _ _ _); [apply IH | done].
Qed.

(** The filled part of the buffer, as it is printed: from index [i - 1] down. *)
Fixpoint printed (buf : list Z) (i : nat) : list Z :=
  match i with
  | O => []
  | S i => default 0 (zget buf (Z.of_nat i)) :: printed buf i
  end.

Lemma printed_ext buf buf' i : (forall k, 0 <= k < Z.of_nat i -> zget buf k = zget buf' k) ->
  printed buf i = printed buf' i.
Proof.
  induction i as [|i IH]; intros He; simpl; [done|].
  rewrite He by lia. rewrite IH; [done|]. intros. apply He. lia.
Qed.

Lemma numeral_from_app B acc s t v : numeral_from B acc s = Some v ->
  numeral_from B acc (s ++ t) = numeral_from B v t.
Proof.
  revert acc. induction s as [|c s IH]; intros acc; simpl; [by intros [= ->]|].
  destruct (char_value c); [|done]. destruct (_ <? _); [apply IH | done].
Qed.

(** The loop keeps: what is printed so far continues any numeral of the
    remaining value to a numeral of the whole value. *)
Lemma fill_spec B rounds v buf i cap : 1 < B <= 16 -> 0 <= v -> zlen buf = cap ->
  v < 2 ^ (Z.of_nat rounds - 1) -> v * B ^ Z.of_nat i < B ^ cap -> Z.of_nat i <= cap ->
  (0 < rounds)%nat ->
  returns (fill B rounds v buf i) (fun '(buf', i') =>
    zlen buf' = cap /\ Z.of_nat i' <= cap /\ exists s, printed buf' i' = s ++ printed buf i /\
      numeral_from B 0 s = Some v /\ hd_error s <> Some 48 /\ (v <> 0 -> s <> [])).
Proof.
  intros HB. revert v buf i. induction rounds as [|n IH]; intros v buf i Hv Hlen Hr Hcap Hi Hpos; [lia|].
  cbn [fill]. destruct (Z.ltb_spec 0 v) as [Hv0|Hv0].
  2: { apply returns_ret. split; [done|]. split; [done|]. exists []. assert (v = 0) as -> by lia.
       split_and!; done. }
  pose proof (Z.div_mod v B). pose proof (Z.mod_pos_bound v B).
  assert (Z.of_nat i < cap) as Hi'.
  { destruct (decide (Z.of_nat i = cap)) as [He|]; [|lia]. rewrite He in Hcap.
    pose proof (Z.pow_pos_nonneg B cap). nia. }
  rewrite arr_set_ok, bind_ret by lia. set (c := digit_char (v mod B)).
  assert (n <> O) as Hn by (intros ->; simpl in Hr; lia).
  assert (v / B < 2 ^ (Z.of_nat n - 1)).
  { replace (Z.of_nat (S n) - 1) with (Z.succ (Z.of_nat n - 1)) in Hr by lia.
    rewrite Z.pow_succ_r in Hr by lia. apply Z.div_lt_upper_bound; nia. }
  assert (0 <= v / B) by (apply Z.div_pos; lia).
  eapply returns_mono.
  - apply IH; [done | by rewrite zlen_zset | done | | lia | lia].
    rewrite Nat2Z.inj_succ, Z.pow_succ_r by lia. pose proof (Z.pow_pos_nonneg B (Z.of_nat i)). nia.
  - intros [buf' i'] (Hl & Hi2 & s & Hp & Hs & Hhd & Hne). split; [done|]. split; [done|].
    exists (s ++ [c]). split; [|split; [|split]].
    + rewrite Hp, <- app_assoc. f_equal. simpl. rewrite zget_zset_eq by lia. simpl. f_equal.
      apply printed_ext. intros k Hk. apply zget_zset_ne. lia.
    + rewrite (numeral_from_app B 0 s [c] (v / B) Hs). simpl. subst c.
      rewrite char_value_digit by lia. decide_tests. f_equal. lia.
    + destruct s as [|c0 s]; [|exact Hhd]. simpl. simpl in Hs. injection Hs as Hz.
      intros [= Hc]. subst c. unfold digit_char in Hc. rewrite Hz in *. repeat case_ltb; lia.
    + intros _. by destruct s.
Qed.

(** * Transmission *)

Section laws.
Context {D : Type} `{Uart D}.
Implicit Types (d : D).

(** A console that is past [init]: the latch is closed and the transmitter
    becomes free within the bound. *)
Definition ready d : Prop := uart_dlab d = false /\ (uart_busy d <= uart_polls)%nat.

Definition transmits (m : outcome D) (s : list Z) d : Prop :=
  returns m (fun d' => ready d' /\ uart_sent d' = uart_sent d ++ s).

Context (fuel : nat) (Hfuel : (uart_polls < fuel)%nat).

Lemma wait_free_spec n d : (uart_busy d < n)%nat ->
  returns (wait_free n d) (fun d' => uart_busy d' = O /\ uart_sent d' = uart_sent d /\
    uart_dlab d' = uart_dlab d).
Proof.
  revert d. induction n as [|n IH]; intros d Hn; [lia|]. cbn [wait_free]. unfold inb.
  pose proof (uart_status d) as Hs. destruct (port_in (COM1 + 5) d) as [v d'].
  destruct Hs as (Hbit & Hb & Hse & Hd).
  change 0x20 with (2 ^ 5). rewrite land_pow2 by lia.
  unfold wrap. rewrite Z.mod_pow2_bits_low, Hbit by lia. case_bool_decide as Hz.
  - simpl. apply returns_ret. rewrite Hb, Hz. done.
  - simpl. eapply returns_mono; [apply IH; lia|]. intros d2 (H1 & H2 & H3).
    by rewrite H2, H3, Hse, Hd.
Qed.

Lemma putb_spec b d : ready d -> transmits (putb fuel b d) [b] d.
Proof.
  intros [Hd Hb]. unfold transmits, putb. eapply returns_bind; [apply wait_free_spec; lia|].
  intros d1 (Hb1 & Hs1 & Hd1). apply returns_ret. unfold outb, ready.
  destruct (uart_write COM1 b d1) as (Hs2 & Hd2 & Hb2). rewrite Hd1, Hd in Hs2, Hd2.
  rewrite Hs2, Hd2, Hs1. simpl. split_and!; [done | apply Hb2; lia | done].
Qed.

Lemma transmits_app m (k : D -> outcome D) s t d : transmits m s d ->
  (forall d', ready d' -> transmits (k d') t d') -> transmits (m ≫= k) (s ++ t) d.
Proof.
  intros Hm Hk. eapply returns_bind; [exact Hm|]. intros d1 [Hr Hs].
  eapply returns_mono; [by apply Hk|]. intros d2 [Hr2 Hs2]. split; [done|].
  by rewrite Hs2, Hs, app_assoc.
Qed.

Lemma puts_spec s d : ready d -> transmits (puts fuel s d) s d.
Proof.
  revert d. induction s as [|b s IH]; intros d Hd; simpl.
  - apply returns_ret. by rewrite app_nil_r.
  - apply (transmits_app _ _ [b] s); [by apply putb_spec | apply IH].
Qed.

Lemma drain_spec buf i d : ready d -> Z.of_nat i <= zlen buf ->
  transmits (drain fuel buf i d) (printed buf i) d.
Proof.
  revert d. induction i as [|i IH]; intros d Hd Hi; cbn [drain printed].
  - apply returns_ret. by rewrite app_nil_r.
  - destruct (zget_is_Some buf (Z.of_nat i)) as [c Hc]; [lia|].
    unfold arr_get. rewrite Hc, bind_ret. simpl.
    apply (transmits_app _ _ [c] (printed buf i)); [by apply putb_spec|].
    intros d' Hd'. apply IH; [done | lia].
Qed.

(** [fill] followed by [drain] prints a numeral of the value. *)
Lemma fill_drain B v d cap : 1 < B <= 16 -> in_word 64 v -> v <> 0 -> v < B ^ Z.of_nat cap ->
  ready d ->
  exists s, transmits ('(buf, i) ← fill B 65 v (replicate cap 0) 0; drain fuel buf i d) s d /\
    numeral B s = Some v /\ hd_error s <> Some 48.
Proof.
  intros HB Hv Hne Hcap Hd. unfold in_word in Hv.
  destruct (fill_spec B 65 v (replicate cap 0) 0 (Z.of_nat cap))
    as ([buf i] & -> & Hl & Hi & s & Hp & Hs & Hhd & Hnn);
    [done | lia | apply zlen_replicate | simpl; lia | simpl; lia | lia | lia |].
  rewrite bind_ret. simpl in Hp. rewrite app_nil_r in Hp. exists s. split; [|split; [|done]].
  - rewrite <- Hp. apply drain_spec; [done | lia].
  - unfold numeral. destruct s; [by destruct (Hnn Hne) | done].
Qed.

Lemma printers_spec v d : in_word 64 v -> ready d ->
  (exists s, transmits (hex fuel v d) s d /\ numeral 16 s = Some v /\
     (hd_error s = Some 48 -> s = [48])) /\
  (exists s, transmits (dec fuel v d) s d /\ numeral 10 s = Some v /\
     (hd_error s = Some 48 -> s = [48])).
Proof.
  intros Hv Hd. unfold hex, dec. destruct (Z.eqb_spec v 0) as [->|Hne].
  - split; exists [48]; (split; [by apply putb_spec | done]).
  - rewrite hex_fill_eq, dec_fill_eq. unfold in_word in Hv.
    change 16%nat with (Z.to_nat 16). change 20%nat with (Z.to_nat 20).
    split.
    + destruct (fill_drain 16 v d (Z.to_nat 16)) as (s & H1 & H2 & H3); [lia | done | done | | done |].
      { change (Z.of_nat (Z.to_nat 16)) with 16. lia. }
      exists s. done.
    + destruct (fill_drain 10 v d (Z.to_nat 20)) as (s & H1 & H2 & H3); [lia | done | done | | done |].
      { change (Z.of_nat (Z.to_nat 20)) with 20. lia. }
      exists s. done.
Qed.

(** [hex] and [dec] terminate without overrunning their 16- and 20-byte
    buffers for every 64-bit value, and transmit a numeral of exactly that
    value, in base 16 and 10, without leading zeros (a single 0 for zero);
    whenever the poll bound exceeds what the UART needs. *)
Theorem numbers_printed v d : in_word 64 v -> ready d ->
  (exists s, transmits (hex fuel v d) s d /\ numeral 16 s = Some v /\
     (hd_error s = Some 48 -> s = [48])) /\
  (exists s, transmits (dec fuel v d) s d /\ numeral 10 s = Some v /\
     (hd_error s = Some 48 -> s = [48])).
Proof. apply printers_spec. Qed.

Lemma init_ready d : (uart_busy d <= uart_polls)%nat -> ready (init d) /\ uart_sent (init d) = uart_sent d.
Proof.
  intros Hb. unfold init, outbs, outb, ready. cbn [fold_left].
  pose proof (fun p v e => proj1 (uart_write p v e)) as Hs.
  pose proof (fun p v e => proj1 (proj2 (uart_write p v e))) as Hd.
  pose proof (fun p v e => proj2 (proj2 (uart_write p v e))) as Hp.
  rewrite !Hs, !Hd. simpl. split; [|by rewrite ?andb_false_r].
  split; [done|]. by repeat apply Hp.
Qed.

(** From any UART state, [init] transmits nothing and leaves the console
    ready; from then on [puts] terminates and transmits exactly its bytes. *)
Theorem console_transmits s d : (uart_busy d <= uart_polls)%nat ->
  ready (init d) /\
  uart_sent (init d) = uart_sent d /\
  transmits (puts fuel s (init d)) s (init d).
Proof.
  intros Hb. destruct (init_ready d Hb) as [Hr Hs]. split; [done|]. split; [done|]. by apply puts_spec.
Qed.
End laws.

(** * Log output

    A run of [puts], [hex] and [dec] statements. *)

Inductive piece := Lit (s : list Z) | Hexa (v : Z) | Deca (v : Z).

Fixpoint log {D} `{PortDevice D} (fuel : nat) (l : list piece) (d : D) : outcome D :=
  match l with
  | [] => Ret d
  | p :: l =>
      d ← match p with Lit s => puts fuel s d | Hexa v => hex fuel v d | Deca v => dec fuel v d end;
      log fuel l d
  end.

(** [s] is the hexadecimal numeral of [v] without leading zeros. *)
Definition is_hexadecimal (v : Z) (s : list Z) : Prop :=
  numeral 16 s = Some v /\ (hd_error s = Some 48 -> s = [48]).

(** The characters of a run. *)
Inductive reads : list piece -> list Z -> Prop :=
  | reads_nil : reads [] []
  | reads_lit s l o : reads l o -> reads (Lit s :: l) (s ++ o)
  | reads_hex v n l o : is_hexadecimal v n -> reads l o -> reads (Hexa v :: l) (n ++ o)
  | reads_dec v n l o : is_decimal v n -> reads l o -> reads (Deca v :: l) (n ++ o).

(** A number that is printed is a 64-bit value. *)
Definition piece_ok (p : piece) : Prop :=
  match p with Lit _ => True | Hexa v | Deca v => in_word 64 v end.

Lemma reads_app l1 l2 o1 o2 : reads l1 o1 -> reads l2 o2 -> reads (l1 ++ l2) (o1 ++ o2).
Proof. induction 1; intros Hr; simpl; rewrite <- ?app_assoc; [done | constructor; auto..]. Qed.

Lemma log_app {D} `{PortDevice D} fuel l1 l2 (d : D) : log fuel (l1 ++ l2) d = (d ← log fuel l1 d; log fuel l2 d).
Proof.
  revert d. induction l1 as [|p l1 IH]; intros d; [done|]. cbn [app log].
  destruct (match p with Lit s => _ | Hexa v => _ | Deca v => _ end) as [d1|c]; [apply IH | done].
Qed.

(** [m] transmits the characters of [l]. *)
Definition logs {D} `{Uart D} (m : outcome D) (l : list piece) (d : D) : Prop :=
  exists s, reads l s /\ transmits m s d.

Section log.
Context {D : Type} `{Uart D}.
Context (fuel : nat) (Hfuel : (uart_polls < fuel)%nat).
Implicit Types (d : D).

Lemma logs_ret d : ready d -> logs (Ret d) [] d.
Proof. intros Hd. exists []. split; [constructor|]. apply returns_ret. by rewrite app_nil_r. Qed.

(** Writes to other devices. *)
Lemma ready_outb p v d : p <> COM1 -> p <> COM1 + 3 -> ready d -> ready (outb p v d) /\ uart_sent (outb p v d) = uart_sent d.
Proof.
  intros H1 H2 [Hd Hb]. unfold ready, outb. destruct (uart_write p v d) as (E1 & E2 & E3). rewrite E1, E2.
  rewrite !(proj2 (Z.eqb_neq p _)) by done. split; [|done]. split; [exact Hd | by apply E3].
Qed.

(** The console after a run of output. *)
Lemma logs_returns m l d : logs m l d -> exists d' s, m = Ret d' /\ ready d' /\ reads l s /\ uart_sent d' = uart_sent d ++ s.
Proof. intros (s & Hs & d' & -> & Hr & He). by exists d', s. Qed.

Lemma logs_bind m (f : D -> outcome D) l1 l2 d : logs m l1 d -> (forall d', ready d' -> logs (f d') l2 d') ->
  logs (m ≫= f) (l1 ++ l2) d.
Proof.
  intros (s1 & Hs1 & d1 & -> & Hr1 & E1) Hf. destruct (Hf d1 Hr1) as (s2 & Hs2 & d2 & Hr2 & Hrd & E2).
  exists (s1 ++ s2). split; [by apply reads_app|]. exists d2. split; [exact Hr2|]. split; [done|].
  by rewrite E2, E1, app_assoc.
Qed.

Lemma log_logs l d : ready d -> Forall piece_ok l -> logs (log fuel l d) l d.
Proof.
  intros Hd Hl. revert d Hd. induction Hl as [|p l Hp Hl IH]; intros d Hd; [by apply logs_ret|].
  apply (logs_bind _ _ [p] l); [|done]. destruct p as [s|v|v]; simpl in Hp |- *.
  - exists s. split; [rewrite <- (app_nil_r s) at 2; repeat constructor | by apply puts_spec].
  - destruct (printers_spec fuel Hfuel v d Hp Hd) as ((s & Ht & Hs) & _). exists s. split; [|done].
    rewrite <- (app_nil_r s). by apply reads_hex; [|constructor].
  - destruct (printers_spec fuel Hfuel v d Hp Hd) as (_ & s & Ht & Hs). exists s. split; [|done].
    rewrite <- (app_nil_r s). by apply reads_dec; [|constructor].
Qed.
End log.

(** ** What output leaves alone

    [P] survives the polls of the line status and the data port. *)
Section keeps.
Context {D : Type} `{PortDevice D} (fuel : nat) (P : D -> Prop).
Hypothesis P_poll : forall d, P d -> P (port_in (COM1 + 5) d).2.
Hypothesis P_send : forall v d, P d -> P (port_out COM1 v d).
Implicit Types (d : D).

Lemma wait_free_keeps n d d' : P d -> wait_free n d = Ret d' -> P d'.
Proof.
  revert d. induction n as [|n IH]; intros d Hd; cbn [wait_free]; [done|]. unfold inb.
  specialize (P_poll d Hd). destruct (port_in (COM1 + 5) d) as [v d1]. simpl in P_poll.
  destruct (_ =? 0); [by apply IH | by intros [= <-]].
Qed.

Lemma putb_keeps b d d' : P d -> putb fuel b d = Ret d' -> P d'.
Proof.
  intros Hd Hr. unfold putb in Hr. apply bind_ret_inv in Hr as (d1 & H1 & [= <-]).
  apply P_send. by eapply wait_free_keeps.
Qed.

Lemma puts_keeps s d d' : P d -> puts fuel s d = Ret d' -> P d'.
Proof.
  revert d. induction s as [|b s IH]; intros d Hd; cbn [puts]; [by intros [= <-]|].
  intros (d1 & H1 & H2)%bind_ret_inv. eapply IH; [|exact H2]. by eapply putb_keeps.
Qed.

Lemma drain_keeps buf i d d' : P d -> drain fuel buf i d = Ret d' -> P d'.
Proof.
  revert d. induction i as [|i IH]; intros d Hd; cbn [drain]; [by intros [= <-]|].
  intros (b & _ & (d1 & H1 & H2)%bind_ret_inv)%bind_ret_inv. eapply IH; [|exact H2]. by eapply putb_keeps.
Qed.

Lemma log_keeps l d d' : P d -> log fuel l d = Ret d' -> P d'.
Proof.
  revert d. induction l as [|p l IH]; intros d Hd; cbn [log]; [by intros [= <-]|].
  intros (d1 & H1 & H2)%bind_ret_inv. eapply IH; [|exact H2].
  destruct p as [s|v|v]; [by eapply puts_keeps|..].
  - unfold hex in H1. destruct (v =? 0); [by eapply putb_keeps|].
    apply bind_ret_inv in H1 as ([buf i] & _ & H1). by eapply drain_keeps.
  - unfold dec in H1. destruct (v =? 0); [by eapply putb_keeps|].
    apply bind_ret_inv in H1 as ([buf i] & _ & H1). by eapply drain_keeps.
Qed.
End keeps.

(** * A UART for the witnesses *)

(** It is busy for two polls after each byte. *)
Record Uart16550 := mkUart { u_sent : list Z; u_busy : nat; u_dlab : bool }.

#[export] Instance uart_device : PortDevice Uart16550 := {|
  port_in p u :=
    if p =? COM1 + 5 then (if decide (u_busy u = O) then 0x60 else 0,
                           mkUart (u_sent u) (Nat.pred (u_busy u)) (u_dlab u))
    else (0, u);
  port_out p v u :=
    mkUart (if (p =? COM1) && negb (u_dlab u) then u_sent u ++ [v] else u_sent u)
      (if p =? COM1 then 2%nat else u_busy u)
      (if p =? COM1 + 3 then Z.testbit v 7 else u_dlab u);
|}.

#[export] Instance uart_laws : Uart Uart16550.
Proof.
  refine {| uart_sent := u_sent; uart_busy := u_busy; uart_dlab := u_dlab; uart_polls := 2 |}.
  - intros d. simpl. split; [|done]. by destruct (decide (u_busy d = O)); case_bool_decide.
  - intros p v d. simpl. split; [done|]. split; [done|]. destruct (p =? COM1); lia.
Defined.

Lemma numbers_printed_witness : exists s,
  transmits (hex 3 0xFEE00000 (mkUart [] 1 false)) s (mkUart [] 1 false) /\
  numeral 16 s = Some 0xFEE00000.
Proof.
  destruct (@numbers_printed _ _ uart_laws 3 (le_n 3) 0xFEE00000 (mkUart [] 1 false)) as [(s & H1 & H2 & _) _].
  - unfold in_word. lia.
  - split; [done | simpl; lia].
  - by exists s.
Defined.

Lemma console_transmits_witness :
  transmits (puts 3 [97; 118] (init (mkUart [] 0 true))) [97; 118] (init (mkUart [] 0 true)).
Proof.
  destruct (@console_transmits _ _ uart_laws 3 (le_n 3) [97; 118] (mkUart [] 0 true)) as (_ & _ & H);
    [simpl; lia | exact H].
Defined.
