(* ===== verification/Idt.v ===== *)
(** Interrupt entry and dispatch, [src/kern/arch/x86_64/idt.rs]: gate
    descriptors, the assembly entry path as stack operations, and the handler
    tables. *)
From S2P Require Import Prelude Word.

Definition IDT_ENTRIES : Z := 256.

(** * Gates *)

Record IdtEntry := mkIdtEntry {
  offset_low : Z; selector : Z; ist : Z; type_attr : Z;
  offset_mid : Z; offset_high : Z; reserved : Z;
}.

Definition empty : IdtEntry := mkIdtEntry 0 0 0 0 0 0 0.

Definition set_handler (handler : Z) (e : IdtEntry) : IdtEntry :=
  mkIdtEntry (wrap 16 handler) 0x08 0 0x8E (wrap 16 (wshr 64 handler 16))
    (wrap 32 (wshr 64 handler 32)) 0.

Definition set_dpl (dpl : Z) (e : IdtEntry) : IdtEntry :=
  let base := Z.land (type_attr e) 0x9F in
  mkIdtEntry (offset_low e) (selector e) (ist e) (Z.lor base (wshl 8 (Z.land dpl 3) 5))
    (offset_mid e) (offset_high e) (reserved e).

(** The 16 bytes of a packed gate, as the processor reads them. *)
Definition gate_bytes (e : IdtEntry) : list Z :=
  to_le 2 (offset_low e) ++ to_le 2 (selector e) ++ [ist e] ++ [type_attr e] ++
  to_le 2 (offset_mid e) ++ to_le 4 (offset_high e) ++ to_le 4 (reserved e).

(** The fields of a gate in its bytes, by the architecture's layout. *)
Definition gate_target (b : list Z) : Z :=
  from_le (sub b 0 2) + 2 ^ 16 * from_le (sub b 6 2) + 2 ^ 32 * from_le (sub b 8 4).
Definition gate_selector (b : list Z) : Z := from_le (sub b 2 2).
Definition gate_attr (b : list Z) : Z := from_le (sub b 5 1).
Definition gate_dpl (b : list Z) : Z := Z.land (Z.shiftr (gate_attr b) 5) 3.
Definition gate_present (b : list Z) : bool := Z.testbit (gate_attr b) 7.
Definition gate_type (b : list Z) : Z := Z.land (gate_attr b) 0xF.

Definition Idt : Type := list IdtEntry.

Definition set_gate_dpl (vector dpl : Z) (t : Idt) : outcome Idt :=
  if vector <? IDT_ENTRIES then
    e ← arr_get t vector; arr_set t vector (set_dpl dpl e)
  else Ret t.

(** [init]: the stubs of vectors 0 to 47 and 0x80; [isr] gives their link
    addresses. *)
Fixpoint set_handlers (isr : Z -> Z) (vectors : list Z) (t : Idt) : outcome Idt :=
  match vectors with
  | [] => Ret t
  | i :: rest =>
      e ← arr_get t i; t ← arr_set t i (set_handler (isr i) e); set_handlers isr rest t
  end.

Definition init (isr : Z -> Z) (t : Idt) : outcome Idt :=
  t ← set_handlers isr (zseq 0 48) t;
  e ← arr_get t 0x80;
  arr_set t 0x80 (set_handler (isr 0x80) e).

(** What [init] passes to [lidt]: [size_of::<Idt>() - 1] and the address of [IDT]. *)
Definition idt_ptr (idt_addr : Z) : Z * Z := (wrap 16 (16 * IDT_ENTRIES - 1), idt_addr).

(** * The saved context *)

Record IsrContext := mkCtx {
  c_r15 : Z; c_r14 : Z; c_r13 : Z; c_r12 : Z; c_r11 : Z; c_r10 : Z; c_r9 : Z; c_r8 : Z;
  c_rbp : Z; c_rdi : Z; c_rsi : Z; c_rdx : Z; c_rcx : Z; c_rbx : Z; c_rax : Z;
  c_vector : Z; c_error_code : Z;
  c_rip : Z; c_cs : Z; c_rflags : Z; c_rsp : Z; c_ss : Z;
}.

#[export] Instance IsrContext_eq_dec : EqDecision IsrContext.
Proof. solve_decision. Defined.

(** [repr(C)]: the words of the structure in memory order. *)
Definition ctx_of_words (w : list Z) : option (IsrContext * list Z) :=
  match w with
  | a1 :: a2 :: a3 :: a4 :: a5 :: a6 :: a7 :: a8 :: a9 :: a10 :: a11 :: a12 :: a13 :: a14 :: a15 ::
    a16 :: a17 :: a18 :: a19 :: a20 :: a21 :: a22 :: rest =>
      Some (mkCtx a1 a2 a3 a4 a5 a6 a7 a8 a9 a10 a11 a12 a13 a14 a15 a16 a17 a18 a19 a20 a21 a22,
            rest)
  | _ => None
  end.

Definition ctx_words (c : IsrContext) : list Z :=
  [c_r15 c; c_r14 c; c_r13 c; c_r12 c; c_r11 c; c_r10 c; c_r9 c; c_r8 c; c_rbp c; c_rdi c; c_rsi c;
   c_rdx c; c_rcx c; c_rbx c; c_rax c; c_vector c; c_error_code c; c_rip c; c_cs c; c_rflags c;
   c_rsp c; c_ss c].

(** * The entry path *)

Inductive reg :=
  | RAX | RBX | RCX | RDX | RSI | RDI | RBP | R8 | R9 | R10 | R11 | R12 | R13 | R14 | R15.

#[export] Instance reg_eq_dec : EqDecision reg.
Proof. solve_decision. Defined.

Definition regs : Type := reg -> Z.

Record Cpu := mkCpu { gpr : regs; rip : Z; cs : Z; rflags : Z; rsp : Z; ss : Z }.

(** A stack is the list of its words, top first. *)
Definition push (v : Z) (st : list Z) : list Z := v :: st.

Definition pop_reg (r : reg) (s : option (regs * list Z)) : option (regs * list Z) :=
  match s with
  | Some (g, v :: st) => Some ((fun r' => if decide (r' = r) then v else g r'), st)
  | _ => None
  end.

(** The [push] instructions of [isr_common], in order, and its [pop]s. *)
Definition isr_pushes : list reg :=
  [RAX; RBX; RCX; RDX; RSI; RDI; RBP; R8; R9; R10; R11; R12; R13; R14; R15].
Definition isr_pops : list reg :=
  [R15; R14; R13; R12; R11; R10; R9; R8; RBP; RDI; RSI; RDX; RCX; RBX; RAX].

(** Which vectors are declared with [isr_err!]. *)
Definition stub_has_error (vec : Z) : bool :=
  bool_decide (vec ∈ [8; 10; 11; 12; 13; 14; 17; 21; 30]).

(** [isr_no_err!] pushes a zero first; both push the vector. *)
Definition isr_stub (vec : Z) (st : list Z) : list Z :=
  if stub_has_error vec then push vec st else push vec (push 0 st).

(** What the processor pushes before the stub runs. *)
Definition hardware_frame (cpu : Cpu) (err : option Z) : list Z :=
  let st := [rip cpu; cs cpu; rflags cpu; rsp cpu; ss cpu] in
  match err with Some e => push e st | None => st end.

(** [pop]s, [add rsp, 16], [iretq]. *)
Definition isr_return (st : list Z) (g : regs) : option Cpu :=
  match fold_left (fun s r => pop_reg r s) isr_pops (Some (g, st)) with
  | Some (g, _ :: _ :: rip :: cs :: rflags :: rsp :: ss :: _) => Some (mkCpu g rip cs rflags rsp ss)
  | _ => None
  end.

Section dispatch.
Context {K : Type}.

Definition handler : Type := Z -> Z -> K -> outcome K.
Definition ctx_handler : Type := IsrContext -> K -> outcome (IsrContext * K).

Record Tables := mkTables {
  ISR_HANDLERS : list (option handler);
  ISR_CTX_HANDLERS : list (option ctx_handler);
}.

Definition no_handlers : Tables := mkTables (replicate 256 None) (replicate 256 None).

Definition register_handler (vector : Z) (h : handler) (t : Tables) : outcome Tables :=
  if vector <? IDT_ENTRIES then
    hs ← arr_set (ISR_HANDLERS t) vector (Some h); Ret (mkTables hs (ISR_CTX_HANDLERS t))
  else Ret t.

Definition register_ctx_handler (vector : Z) (h : ctx_handler) (t : Tables) : outcome Tables :=
  if vector <? IDT_ENTRIES then
    hs ← arr_set (ISR_CTX_HANDLERS t) vector (Some h); Ret (mkTables (ISR_HANDLERS t) hs)
  else Ret t.

(** Vectors below 32 without a handler are reported on the console only. *)
Definition interrupt_dispatch (t : Tables) : ctx_handler := fun ctx k =>
  let vec := c_vector ctx in
  if vec <? IDT_ENTRIES then
    ch ← arr_get (ISR_CTX_HANDLERS t) vec;
    match ch with
    | Some h => h ctx k
    | None =>
        h ← arr_get (ISR_HANDLERS t) vec;
        match h with
        | Some h => k ← h (c_vector ctx) (c_error_code ctx) k; Ret (ctx, k)
        | None => Ret (ctx, k)
        end
    end
  else Ret (ctx, k).

(** The whole path of one interrupt: hardware frame, stub, [isr_common] with
    the Rust dispatcher called on the stack as an [IsrContext]; [clobbered] is
    what the call leaves in the registers. *)
Definition interrupt (t : Tables) (vec : Z) (err : option Z) (clobbered : regs) (cpu : Cpu) (k : K)
    : outcome (Cpu * K) :=
  let st := isr_stub vec (hardware_frame cpu err) in
  let st := fold_left (fun st r => push (gpr cpu r) st) isr_pushes st in
  match ctx_of_words st with
  | None => Crash UndefinedBehaviour
  | Some (ctx, rest) =>
      '(ctx, k) ← interrupt_dispatch t ctx k;
      match isr_return (ctx_words ctx ++ rest) clobbered with
      | None => Crash UndefinedBehaviour
      | Some cpu => Ret (cpu, k)
      end
  end.

(** * Properties *)

(** The context of an interrupted processor, and the processor a context
    resumes. *)
Definition ctx_of_cpu (vec : Z) (err : Z) (cpu : Cpu) : IsrContext :=
  let g := gpr cpu in
  mkCtx (g R15) (g R14) (g R13) (g R12) (g R11) (g R10) (g R9) (g R8) (g RBP) (g RDI) (g RSI)
    (g RDX) (g RCX) (g RBX) (g RAX) vec err (rip cpu) (cs cpu) (rflags cpu) (rsp cpu) (ss cpu).

Definition cpu_reg (c : IsrContext) (r : reg) : Z :=
  match r with
  | RAX => c_rax c | RBX => c_rbx c | RCX => c_rcx c | RDX => c_rdx c | RSI => c_rsi c
  | RDI => c_rdi c | RBP => c_rbp c | R8 => c_r8 c | R9 => c_r9 c | R10 => c_r10 c
  | R11 => c_r11 c | R12 => c_r12 c | R13 => c_r13 c | R14 => c_r14 c | R15 => c_r15 c
  end.

(** The processor agrees with the context on every register. *)
Definition resumes (c : IsrContext) (cpu : Cpu) : Prop :=
  (forall r, gpr cpu r = cpu_reg c r) /\ rip cpu = c_rip c /\ cs cpu = c_cs c /\
  rflags cpu = c_rflags c /\ rsp cpu = c_rsp c /\ ss cpu = c_ss c.

Lemma isr_return_resumes c g : exists cpu,
  isr_return (ctx_words c) g = Some cpu /\ resumes c cpu.
Proof. eexists. split; [reflexivity|]. split; [by intros [] | done]. Qed.

Lemma ctx_of_cpu_resumes vec err cpu : resumes (ctx_of_cpu vec err cpu) cpu.
Proof. split; [by intros [] | done]. Qed.

Lemma interrupt_context t vec err clobbered cpu k :
  stub_has_error vec = bool_decide (is_Some err) ->
  match interrupt_dispatch t (ctx_of_cpu vec (default 0 err) cpu) k with
  | Ret (c, k') => exists cpu', interrupt t vec err clobbered cpu k = Ret (cpu', k') /\ resumes c cpu'
  | Crash e => interrupt t vec err clobbered cpu k = Crash e
  end.
Proof.
  intros Herr. unfold interrupt, isr_stub. rewrite Herr.
  assert (exists rest, rest = [] /\ ctx_of_words (fold_left (fun st r => push (gpr cpu r) st) isr_pushes
      (if bool_decide (is_Some err) then push vec (hardware_frame cpu err)
       else push vec (push 0 (hardware_frame cpu err)))) =
    Some (ctx_of_cpu vec (default 0 err) cpu, rest)) as (rest & -> & ->).
  { destruct err as [e|]; case_bool_decide as He.
    - by eexists.
    - by destruct He.
    - by destruct He.
    - by eexists. }
  destruct (interrupt_dispatch t _ k) as [[c k']|e]; [|done]. rewrite bind_ret, app_nil_r.
  destruct (isr_return_resumes c clobbered) as (cpu' & -> & Hr). by exists cpu'.
Qed.

(** The entry path delivers the interrupted registers to the dispatcher
    field by field in the layout of [IsrContext], and resumes the processor
    with exactly the registers the dispatcher leaves in the context, whatever
    the call clobbered; provided the processor pushes an error code exactly for
    the vectors declared with [isr_err!]. *)
Theorem interrupt_delivers_context t vec err clobbered cpu k :
  stub_has_error vec = bool_decide (is_Some err) ->
  match interrupt_dispatch t (ctx_of_cpu vec (default 0 err) cpu) k with
  | Ret (c, k') => exists cpu', interrupt t vec err clobbered cpu k = Ret (cpu', k') /\ resumes c cpu'
  | Crash e => interrupt t vec err clobbered cpu k = Crash e
  end.
Proof. apply interrupt_context. Qed.

Lemma dispatch_to t vector h ctx k : zlen (ISR_CTX_HANDLERS t) = IDT_ENTRIES ->
  zlen (ISR_HANDLERS t) = IDT_ENTRIES -> 0 <= vector < IDT_ENTRIES -> 0 <= c_vector ctx ->
  returns (register_ctx_handler vector h t) (fun t' =>
    interrupt_dispatch t' ctx k =
      if c_vector ctx =? vector then h ctx k else interrupt_dispatch t ctx k).
Proof.
  intros Hl Hl2 Hv Hc. unfold register_ctx_handler. decide_tests.
  rewrite arr_set_ok, bind_ret by lia. apply returns_ret. unfold interrupt_dispatch. simpl.
  destruct (Z.eqb_spec (c_vector ctx) vector) as [->|Hne].
  - decide_tests. unfold arr_get. rewrite zget_zset_eq by lia. done.
  - unfold arr_get. rewrite zget_zset_ne by lia. done.
Qed.

(** After [register_ctx_handler] the dispatcher runs the new handler for
    its vector, in preference to a plain handler, and treats every other vector
    as before; plain handlers are called with vector and error code and leave
    the context alone. *)
Theorem dispatch_registered t vector h ctx k : zlen (ISR_CTX_HANDLERS t) = IDT_ENTRIES ->
  zlen (ISR_HANDLERS t) = IDT_ENTRIES -> 0 <= vector < IDT_ENTRIES -> 0 <= c_vector ctx ->
  returns (register_ctx_handler vector h t) (fun t' =>
    interrupt_dispatch t' ctx k =
      if c_vector ctx =? vector then h ctx k else interrupt_dispatch t ctx k).
Proof. apply dispatch_to. Qed.
End dispatch.
Arguments Tables : clear implicits.
Arguments handler : clear implicits.
Arguments ctx_handler : clear implicits.

(** * Gate encoding *)

Definition entry_wf (e : IdtEntry) : Prop :=
  in_word 16 (offset_low e) /\ in_word 16 (selector e) /\ in_word 8 (type_attr e) /\
  in_word 16 (offset_mid e) /\ in_word 32 (offset_high e).

Lemma gate_target_eq e : entry_wf e ->
  gate_target (gate_bytes e) = offset_low e + 2 ^ 16 * offset_mid e + 2 ^ 32 * offset_high e.
Proof.
  intros (H1 & _ & _ & H4 & H5). unfold gate_target.
  change (sub (gate_bytes e) 0 2) with (to_le 2 (offset_low e)).
  change (sub (gate_bytes e) 6 2) with (to_le 2 (offset_mid e)).
  change (sub (gate_bytes e) 8 4) with (to_le 4 (offset_high e)).
  by rewrite !from_le_to_le.
Qed.

Lemma gate_selector_eq e : entry_wf e -> gate_selector (gate_bytes e) = selector e.
Proof.
  intros (_ & H2 & _). unfold gate_selector.
  change (sub (gate_bytes e) 2 2) with (to_le 2 (selector e)). by rewrite from_le_to_le.
Qed.

Lemma gate_attr_eq e : gate_attr (gate_bytes e) = type_attr e.
Proof. unfold gate_attr. change (sub (gate_bytes e) 5 1) with [type_attr e]. simpl. lia. Qed.

Lemma set_handler_wf h e : entry_wf (set_handler h e).
Proof.
  unfold entry_wf, set_handler. simpl.
  split_and!; try (by apply wrap_in_word); unfold in_word; lia.
Qed.

Lemma land_3_cases x : Z.land x 3 = 0 \/ Z.land x 3 = 1 \/ Z.land x 3 = 2 \/ Z.land x 3 = 3.
Proof.
  change 3 with (Z.ones 2) at 1 2 3 4. rewrite Z.land_ones by lia.
  pose proof (Z.mod_pos_bound x (2 ^ 2)). lia.
Qed.

(** A gate written by [set_handler] and read back by the architecture's
    layout targets the handler's full 64-bit address in the kernel code
    segment, is present, is a 64-bit interrupt gate and is not callable from
    user mode; [set_dpl] then changes the privilege level to its low two bits
    and nothing else. *)
Theorem gate_roundtrip h dpl e : in_word 64 h -> in_word 8 dpl ->
  let g := gate_bytes (set_handler h e) in
  let g' := gate_bytes (set_dpl dpl (set_handler h e)) in
  gate_target g = h /\ gate_selector g = 0x08 /\ gate_present g = true /\ gate_type g = 0xE /\
  gate_dpl g = 0 /\
  gate_target g' = h /\ gate_selector g' = 0x08 /\ gate_present g' = true /\ gate_type g' = 0xE /\
  gate_dpl g' = Z.land dpl 3.
Proof.
  intros Hh Hd. cbv zeta. pose proof (set_handler_wf h e) as Hw0.
  assert (entry_wf (set_dpl dpl (set_handler h e)) /\
    type_attr (set_dpl dpl (set_handler h e)) = 0x8E + 32 * Z.land dpl 3) as [Hw Ha].
  { pose proof Hw0 as (H1 & H2 & _ & H4 & H5). unfold entry_wf. cbn [set_dpl type_attr set_handler].
    destruct (land_3_cases dpl) as [Hc | [Hc | [Hc | Hc]]]; rewrite Hc;
      (split; [split_and!; try done|done]); unfold in_word; vm_compute; intuition discriminate. }
  assert (wrap 16 h + 2 ^ 16 * wrap 16 (wshr 64 h 16) + 2 ^ 32 * wrap 32 (wshr 64 h 32) = h) as Hrec.
  { unfold in_word in Hh. rewrite !wshr_div by lia. unfold wrap.
    rewrite (Z.mod_small (h / 2 ^ 32)) by (split; [apply Z.div_pos | apply Z.div_lt_upper_bound]; lia).
    assert (h / 2 ^ 32 = h / 2 ^ 16 / 2 ^ 16) as -> by (by rewrite Z.div_div by lia).
    pose proof (Z.div_mod h (2 ^ 16)). pose proof (Z.div_mod (h / 2 ^ 16) (2 ^ 16)). lia. }
  unfold gate_present, gate_type, gate_dpl. rewrite !gate_attr_eq, Ha.
  rewrite !gate_target_eq, !gate_selector_eq by done.
  cbn [set_dpl set_handler offset_low offset_mid offset_high selector type_attr]. rewrite Hrec.
  destruct (land_3_cases dpl) as [-> | [-> | [-> | ->]]]; split_and!; done.
Qed.

Lemma gate_roundtrip_witness :
  gate_target (gate_bytes (set_handler 0xFFFFFFFF80001234 empty)) = 0xFFFFFFFF80001234.
Proof. apply (gate_roundtrip 0xFFFFFFFF80001234 3 empty); unfold in_word; lia. Defined.

Lemma set_handlers_spec isr vs t : Forall (fun v => 0 <= v < zlen t) vs ->
  returns (set_handlers isr vs t) (fun t' => zlen t' = zlen t /\
    forall i, zget t' i = if decide (i ∈ vs) then option_map (set_handler (isr i)) (zget t i)
                          else zget t i).
Proof.
  revert t. induction vs as [|v vs IH]; intros t Hvs; simpl.
  - apply returns_ret. split; [done|]. intros i.
    by destruct (decide (i ∈ [])) as [?%not_elem_of_nil|].
  - apply Forall_cons in Hvs as [Hv Hvs]. destruct (zget_is_Some t v Hv) as [e He].
    unfold arr_get. rewrite He, bind_ret, arr_set_ok, bind_ret by done.
    eapply returns_mono; [apply IH|].
    { eapply Forall_impl; [exact Hvs|]. intros x Hx. by rewrite zlen_zset. }
    intros t' [Hl Ht]. rewrite zlen_zset in Hl. split; [done|]. intros i. rewrite Ht.
    destruct (decide (i = v)) as [->|Hne].
    + rewrite zget_zset_eq, He by done. simpl.
      destruct (decide (v ∈ v :: vs)) as [_|[]]; [by destruct (decide (v ∈ vs)) | by left].
    + rewrite zget_zset_ne by done.
      destruct (decide (i ∈ vs)) as [Hi|Hi].
      * destruct (decide (i ∈ v :: vs)) as [_|[]]; [done | by right].
      * destruct (decide (i ∈ v :: vs)) as [[?|?]%elem_of_cons|_]; done.
Qed.

Lemma init_spec isr t : zlen t = IDT_ENTRIES ->
  returns (init isr t) (fun t' => zlen t' = IDT_ENTRIES /\ forall i, 0 <= i < IDT_ENTRIES ->
    exists e, zget t i = Some e /\
    zget t' i = Some (if (i <? 48) || (i =? 0x80) then set_handler (isr i) e else e)).
Proof.
  intros Hl. unfold init. eapply returns_bind.
  { apply set_handlers_spec. apply Forall_forall. intros v Hv%elem_of_zseq.
    rewrite Hl. unfold IDT_ENTRIES. lia. }
  intros t1 [Hl1 Ht1]. rewrite Hl in Hl1. unfold IDT_ENTRIES in *.
  destruct (zget_is_Some t1 128) as [e8 He8]; [lia|].
  unfold arr_get. rewrite He8, bind_ret, arr_set_ok by lia. apply returns_ret.
  split; [by rewrite zlen_zset|]. intros i Hi.
  destruct (zget_is_Some t i) as [e He]; [lia|]. exists e. split; [done|].
  destruct (Z.eqb_spec i 128) as [->|Hne].
  - rewrite zget_zset_eq by lia. rewrite Ht1, decide_False in He8 by (rewrite elem_of_zseq; lia).
    rewrite orb_true_r. congruence.
  - rewrite zget_zset_ne by done. rewrite Ht1, He, orb_false_r. case_ltb.
    + by rewrite decide_True by (apply elem_of_zseq; lia).
    + by rewrite decide_False by (rewrite elem_of_zseq; lia).
Qed.

(** [init] fills the 256-entry table without an index panic: the gates of
    vectors 0 to 47 and 0x80 target their stubs and are not callable from user
    mode, all other gates stay as they were. *)
Theorem init_installs_stubs isr t : zlen t = IDT_ENTRIES -> (forall i, in_word 64 (isr i)) ->
  returns (init isr t) (fun t' => zlen t' = IDT_ENTRIES /\ forall i, 0 <= i < IDT_ENTRIES ->
    exists e e', zget t i = Some e /\ zget t' i = Some e' /\
    if (i <? 48) || (i =? 0x80)
    then gate_target (gate_bytes e') = isr i /\ gate_dpl (gate_bytes e') = 0 /\
         gate_present (gate_bytes e') = true
    else e' = e).
Proof.
  intros Hl Hisr. eapply returns_mono; [by apply init_spec|]. intros t' [Hl' Ht']. split; [done|].
  intros i Hi. destruct (Ht' i Hi) as (e & He & He'). exists e. eexists. split; [done|]. split; [exact He'|].
  destruct (_ || _); [|done]. destruct (gate_roundtrip (isr i) 0 e) as (H1 & _ & H3 & _ & H5 & _);
    [apply Hisr | unfold in_word; lia | done].
Qed.

Definition demo_idt : Idt := replicate 256 empty.

Lemma init_installs_stubs_witness :
  returns (init (fun i => 0xFFFFFFFF80000000 + Z.land i 255) demo_idt) (fun t' => zlen t' = IDT_ENTRIES).
Proof.
  eapply returns_mono; [apply (init_installs_stubs (fun i => 0xFFFFFFFF80000000 + Z.land i 255) demo_idt)|].
  - reflexivity.
  - intros i. change 255 with (Z.ones 8). rewrite Z.land_ones by lia.
    pose proof (Z.mod_pos_bound i (2 ^ 8)). unfold in_word. lia.
  - intros t' H. apply H.
Defined.

(** An interrupted processor and a handler that advances [rip]. *)
Definition demo_cpu : Cpu := mkCpu (fun r => if decide (r = RAX) then 7 else 9) 0x1000 8 0x202 0x8000 16.

Definition skip_handler : ctx_handler Z := fun c k =>
  Ret (mkCtx (c_r15 c) (c_r14 c) (c_r13 c) (c_r12 c) (c_r11 c) (c_r10 c) (c_r9 c) (c_r8 c) (c_rbp c)
    (c_rdi c) (c_rsi c) (c_rdx c) (c_rcx c) (c_rbx c) (c_rax c) (c_vector c) (c_error_code c)
    (c_rip c + 2) (c_cs c) (c_rflags c) (c_rsp c) (c_ss c), k + c_error_code c).

Definition demo_tables : Tables Z :=
  mkTables (replicate 256 None) (zset (replicate 256 None) 13 (Some skip_handler)).

Lemma interrupt_delivers_context_witness : exists cpu',
  interrupt demo_tables 13 (Some 5) (fun _ => 0) demo_cpu 1 = Ret (cpu', 6) /\
  rip cpu' = 0x1002 /\ gpr cpu' RAX = 7.
Proof.
  pose proof (interrupt_delivers_context demo_tables 13 (Some 5) (fun _ => 0) demo_cpu 1) as H.
  change (interrupt_dispatch demo_tables (ctx_of_cpu 13 (default 0 (Some 5)) demo_cpu) 1)
    with (skip_handler (ctx_of_cpu 13 5 demo_cpu) 1) in H.
  destruct (H eq_refl) as (cpu' & H1 & Hg & Hr & _).
  exists cpu'. split; [exact H1|]. split; [exact Hr|]. rewrite Hg. reflexivity.
Defined.

Lemma dispatch_registered_witness :
  returns (register_ctx_handler 13 skip_handler no_handlers) (fun t' =>
    interrupt_dispatch t' (ctx_of_cpu 13 0 demo_cpu) 1 = skip_handler (ctx_of_cpu 13 0 demo_cpu) 1).
Proof. apply (dispatch_registered no_handlers 13 skip_handler (ctx_of_cpu 13 0 demo_cpu) 1); done. Defined.
