(* ===== verification/Sched.v ===== *)
(** The preemptive scheduler, [src/kern/sched.rs]: the task table, the timer
    interrupt that switches tasks, task creation and exit. *)
From S2P Require Import Prelude Word Port Pic Idt Buddy Mem.

Definition MAX_TASKS : Z := 16.
Definition TASK_STACK_SIZE : Z := 0x4000.
Definition TASK_STACK_ORDER : Z := 2.
Definition TIMER_HZ : Z := 100.
Definition TIMER_VECTOR : Z := 32.

Inductive TaskState := Empty | Ready | Running | Exited.

#[export] Instance TaskState_eq_dec : EqDecision TaskState.
Proof. solve_decision. Defined.

Record Task := mkTask {
  t_rip : Z; t_rsp : Z; t_rflags : Z;
  t_rax : Z; t_rbx : Z; t_rcx : Z; t_rdx : Z; t_rsi : Z; t_rdi : Z; t_rbp : Z;
  t_r8 : Z; t_r9 : Z; t_r10 : Z; t_r11 : Z; t_r12 : Z; t_r13 : Z; t_r14 : Z; t_r15 : Z;
  state : TaskState;
  id : Z;
  stack_base : Z;
  stack_size : Z;
  name : list Z;
}.

Definition empty_task : Task :=
  mkTask 0 0 0 0 0 0 0 0 0 0 0 0 0 0 0 0 0 0 Empty 0 0 0 (replicate 16 0).

Definition with_state (st : TaskState) (t : Task) : Task :=
  mkTask (t_rip t) (t_rsp t) (t_rflags t) (t_rax t) (t_rbx t) (t_rcx t) (t_rdx t) (t_rsi t) (t_rdi t)
    (t_rbp t) (t_r8 t) (t_r9 t) (t_r10 t) (t_r11 t) (t_r12 t) (t_r13 t) (t_r14 t) (t_r15 t)
    st (id t) (stack_base t) (stack_size t) (name t).

Definition save_ctx (t : Task) (c : IsrContext) : Task :=
  mkTask (c_rip c) (c_rsp c) (c_rflags c) (c_rax c) (c_rbx c) (c_rcx c) (c_rdx c) (c_rsi c) (c_rdi c)
    (c_rbp c) (c_r8 c) (c_r9 c) (c_r10 c) (c_r11 c) (c_r12 c) (c_r13 c) (c_r14 c) (c_r15 c)
    (state t) (id t) (stack_base t) (stack_size t) (name t).

Definition load_ctx (t : Task) (c : IsrContext) : IsrContext :=
  mkCtx (t_r15 t) (t_r14 t) (t_r13 t) (t_r12 t) (t_r11 t) (t_r10 t) (t_r9 t) (t_r8 t) (t_rbp t)
    (t_rdi t) (t_rsi t) (t_rdx t) (t_rcx t) (t_rbx t) (t_rax t) (c_vector c) (c_error_code c)
    (t_rip t) 0x08 (t_rflags t) (t_rsp t) 0x10.

Section kernel.
Context {D : Type} `{PortDevice D}.

(** The statics of the scheduler, the stack pointer of the task state segment,
    the heap, the interrupt flag and the devices. *)
Record Sched := mkSched {
  TASKS : list Task;
  CURRENT : Z;
  ACTIVE : bool;
  TICK_COUNT : Z;
  PREEMPT_COUNT : Z;
  rsp0 : Z;
  heap : KMem;
  IF : bool;
  dev : D;
}.

Definition boot (m : KMem) (d : D) : Sched :=
  mkSched (replicate (Z.to_nat MAX_TASKS) empty_task) 0 false 0 0 0 m true d.

Definition with_tasks (s : Sched) (ts : list Task) : Sched :=
  mkSched ts (CURRENT s) (ACTIVE s) (TICK_COUNT s) (PREEMPT_COUNT s) (rsp0 s) (heap s) (IF s) (dev s).

Definition with_dev (s : Sched) (d : D) : Sched :=
  mkSched (TASKS s) (CURRENT s) (ACTIVE s) (TICK_COUNT s) (PREEMPT_COUNT s) (rsp0 s) (heap s) (IF s) d.

Definition cli (s : Sched) : Sched :=
  mkSched (TASKS s) (CURRENT s) (ACTIVE s) (TICK_COUNT s) (PREEMPT_COUNT s) (rsp0 s) (heap s) false (dev s).

Definition sti (s : Sched) : Sched :=
  mkSched (TASKS s) (CURRENT s) (ACTIVE s) (TICK_COUNT s) (PREEMPT_COUNT s) (rsp0 s) (heap s) true (dev s).

(** [TASKS[i]] updated in place. *)
Definition update_task (i : Z) (f : Task -> Task) (s : Sched) : outcome Sched :=
  t ← arr_get (TASKS s) i; ts ← arr_set (TASKS s) i (f t); Ret (with_tasks s ts).

Definition eoi_timer (s : Sched) : Sched := with_dev s (Pic.eoi 0 (dev s)).

Definition task_exit (s : Sched) : outcome Sched :=
  let s := cli s in
  s ← update_task (CURRENT s) (with_state Exited) s;
  Ret (sti s).

(** [for _ in 0..MAX_TASKS { next = (next + 1) % MAX_TASKS; ... }] *)
Fixpoint scan (rounds : nat) (next : Z) (ts : list Task) : outcome Z :=
  match rounds with
  | O => Ret next
  | S rounds' =>
      let next := (next ⊞ 1) mod MAX_TASKS in
      t ← arr_get ts next;
      if decide (state t = Ready) then Ret next else scan rounds' next ts
  end.

(** The switch that ends [timer_tick]. *)
Definition switch_to (next : Z) (ctx : IsrContext) (s : Sched) : outcome (IsrContext * Sched) :=
  s ← update_task next (with_state Running) s;
  t ← arr_get (TASKS s) next;
  Ret (load_ctx t ctx,
       eoi_timer (mkSched (TASKS s) next (ACTIVE s) (TICK_COUNT s) (PREEMPT_COUNT s)
         (stack_base t ⊞ stack_size t) (heap s) (IF s) (dev s))).

Definition timer_tick (ctx : IsrContext) (s : Sched) : outcome (IsrContext * Sched) :=
  let s := mkSched (TASKS s) (CURRENT s) (ACTIVE s) (TICK_COUNT s ⊞ 1) (PREEMPT_COUNT s) (rsp0 s)
             (heap s) (IF s) (dev s) in
  if negb (ACTIVE s) || (0 <? PREEMPT_COUNT s) then Ret (ctx, eoi_timer s)
  else
    let cur := CURRENT s in
    s ← update_task cur (fun t => save_ctx t ctx) s;
    s ← update_task cur (fun t => if decide (state t = Running) then with_state Ready t else t) s;
    next ← scan (Z.to_nat MAX_TASKS) cur (TASKS s);
    tn ← arr_get (TASKS s) next;
    if decide (state tn <> Ready) then
      t0 ← arr_get (TASKS s) 0;
      if decide (state t0 = Exited) then Ret (ctx, eoi_timer s) else switch_to 0 ctx s
    else switch_to next ctx s.

(** [init] without the registration of the handler, which is in the tables of
    [Idt]; the timer is programmed and its line unmasked. *)
Definition init (s : Sched) : outcome Sched :=
  s ← update_task 0 (fun t => with_state Running t) s;
  s ← update_task 0 (fun t => mkTask (t_rip t) (t_rsp t) (t_rflags t) (t_rax t) (t_rbx t) (t_rcx t)
         (t_rdx t) (t_rsi t) (t_rdi t) (t_rbp t) (t_r8 t) (t_r9 t) (t_r10 t) (t_r11 t) (t_r12 t)
         (t_r13 t) (t_r14 t) (t_r15 t) (state t) 0 (stack_base t) (stack_size t)
         ([105; 100; 108; 101] ++ drop 4 (name t))) s;
  d ← pit_init TIMER_HZ (dev s);
  Ret (with_dev s (Pic.clear_mask 0 d)).

(** The search of [spawn] for a slot, from 1. *)
Definition slot_free (ts : list Task) (i : Z) : bool :=
  match zget ts i with
  | Some t => bool_decide (state t = Empty) || bool_decide (state t = Exited)
  | None => false
  end.

(** The address of the assembly-visible entry point [task_trampoline]. *)
Context (task_trampoline : Z).

Definition spawned_task (i base entry api : Z) (nm : list Z) : Task :=
  let copy_len := Nat.min (length nm) 15 in
  mkTask task_trampoline (base ⊞ TASK_STACK_SIZE ⊟ 8) 0x202 0 0 0 0 api entry 0 0 0 0 0 0 0 0 0
    Ready (wrap 16 i) base TASK_STACK_SIZE (take copy_len nm ++ drop copy_len (name empty_task)).

Definition spawn (entry api : Z) (nm : list Z) (s : Sched) : outcome (option Z * Sched) :=
  let s := cli s in
  match first_from (slot_free (TASKS s)) 1 (Z.to_nat (MAX_TASKS - 1)) with
  | None => Ret (None, sti s)
  | Some i =>
      '(r, m) ← Mem.alloc_pages TASK_STACK_ORDER (heap s);
      let s := mkSched (TASKS s) (CURRENT s) (ACTIVE s) (TICK_COUNT s) (PREEMPT_COUNT s) (rsp0 s) m
                 (IF s) (dev s) in
      match r with
      | None => Ret (None, sti s)
      | Some base =>
          s ← update_task i (fun _ => spawned_task i base entry api nm) s;
          Ret (Some (wrap 16 i), sti s)
      end
  end.

Definition start (s : Sched) : Sched :=
  mkSched (TASKS s) (CURRENT s) true (TICK_COUNT s) (PREEMPT_COUNT s) (rsp0 s) (heap s) (IF s) (dev s).

Definition preempt_disable (s : Sched) : Sched :=
  mkSched (TASKS s) (CURRENT s) (ACTIVE s) (TICK_COUNT s) (wadd 32 (PREEMPT_COUNT s) 1) (rsp0 s)
    (heap s) (IF s) (dev s).

Definition preempt_enable (s : Sched) : Sched :=
  if 0 <? PREEMPT_COUNT s then
    mkSched (TASKS s) (CURRENT s) (ACTIVE s) (TICK_COUNT s) (PREEMPT_COUNT s - 1) (rsp0 s)
      (heap s) (IF s) (dev s)
  else s.

(** * Invariant *)

Definition task_at (s : Sched) (i : Z) (t : Task) : Prop := zget (TASKS s) i = Some t.

Definition in_state (s : Sched) (i : Z) (st : TaskState) : Prop :=
  exists t, task_at s i t /\ state t = st.

(** The idle task never exits, the current task runs or has just exited, and no
    other task is running. *)
Record inv (s : Sched) : Prop := {
  inv_len : zlen (TASKS s) = MAX_TASKS;
  inv_current : 0 <= CURRENT s < MAX_TASKS;
  inv_idle : in_state s 0 Running \/ in_state s 0 Ready;
  inv_running : in_state s (CURRENT s) Running \/ in_state s (CURRENT s) Exited;
  inv_only : forall i, in_state s i Running -> i = CURRENT s;
  inv_heap : Buddy.wf (BUDDY (heap s));
  inv_preempt : 0 <= PREEMPT_COUNT s;
}.

(** May be chosen by the next tick. *)
Definition runnable (s : Sched) (i : Z) : Prop := in_state s i Ready \/ in_state s i Running.

(** The 18 saved registers of a task and those of a context. *)
Definition task_regs (t : Task) : list Z :=
  [t_rip t; t_rsp t; t_rflags t; t_rax t; t_rbx t; t_rcx t; t_rdx t; t_rsi t; t_rdi t; t_rbp t;
   t_r8 t; t_r9 t; t_r10 t; t_r11 t; t_r12 t; t_r13 t; t_r14 t; t_r15 t].
Definition ctx_regs (c : IsrContext) : list Z :=
  [c_rip c; c_rsp c; c_rflags c; c_rax c; c_rbx c; c_rcx c; c_rdx c; c_rsi c; c_rdi c; c_rbp c;
   c_r8 c; c_r9 c; c_r10 c; c_r11 c; c_r12 c; c_r13 c; c_r14 c; c_r15 c].

Definition saved (s : Sched) (i : Z) (r : list Z) : Prop :=
  exists t, task_at s i t /\ task_regs t = r.

Lemma in_state_unique s i st st' : in_state s i st -> in_state s i st' -> st = st'.
Proof. unfold in_state, task_at. intros (t & H1 & H2) (t' & H3 & H4). congruence. Qed.

Lemma update_task_eq i f s t : task_at s i t ->
  update_task i f s = Ret (with_tasks s (zset (TASKS s) i (f t))).
Proof.
  intros Ht. unfold update_task, arr_get. rewrite Ht, bind_ret. apply zget_Some in Ht.
  by rewrite arr_set_ok.
Qed.

Lemma task_exists s i : inv s -> 0 <= i < MAX_TASKS -> exists t, task_at s i t.
Proof. intros Hi Hr. apply zget_is_Some. by rewrite (inv_len s Hi). Qed.

Lemma next_slot i : 0 <= i < MAX_TASKS -> (i ⊞ 1) mod MAX_TASKS = (i + 1) mod MAX_TASKS.
Proof. unfold MAX_TASKS. intros Hi. by rewrite wadd_small by (unfold in_word; lia). Qed.

Lemma slot_range i : 0 <= i mod MAX_TASKS < MAX_TASKS.
Proof. by apply Z.mod_pos_bound. Qed.

(** The scan stops at the first ready slot, going round from [next]. *)
Lemma scan_spec n next ts : zlen ts = MAX_TASKS -> 0 <= next < MAX_TASKS -> (0 < n)%nat ->
  returns (scan n next ts) (fun k => exists j, 1 <= j <= Z.of_nat n /\
    k = (next + j) mod MAX_TASKS /\
    (forall j' t, 1 <= j' < j -> zget ts ((next + j') mod MAX_TASKS) = Some t -> state t <> Ready) /\
    (j = Z.of_nat n \/ exists t, zget ts k = Some t /\ state t = Ready)).
Proof.
  intros Hl. revert next. induction n as [|n IH]; intros next Hn Hpos; [lia|].
  cbn [scan]. rewrite next_slot by done. pose proof (slot_range (next + 1)) as Hr.
  destruct (zget_is_Some ts ((next + 1) mod MAX_TASKS)) as [t Ht]; [by rewrite Hl|].
  unfold arr_get. rewrite Ht, bind_ret. case_decide as Hst.
  - apply returns_ret. exists 1. split; [lia|]. split; [done|]. split; [intros; lia|].
    right. by exists t.
  - destruct (decide (n = O)) as [->|Hne].
    + apply returns_ret. exists 1. split; [lia|]. split; [done|]. split; [intros; lia | by left].
    + eapply returns_mono; [apply IH; [done | lia]|]. intros k (j & Hj & -> & Hlow & Hend).
      assert (forall x, ((next + 1) mod MAX_TASKS + x) mod MAX_TASKS = (next + (x + 1)) mod MAX_TASKS)
        as Heq.
      { intros x. rewrite Zplus_mod_idemp_l. f_equal. lia. }
      rewrite Heq in Hend |- *. exists (j + 1). split; [lia|]. split; [done|]. split.
      * intros j' t' Hj' Ht'. destruct (decide (j' = 1)) as [->|]; [congruence|].
        apply (Hlow (j' - 1)); [lia|]. rewrite Heq. by replace (j' - 1 + 1) with j' by lia.
      * destruct Hend as [->|He]; [left; lia | by right].
Qed.

(** The table after the interrupted task was saved. *)
Definition park (ctx : IsrContext) (t : Task) : Task :=
  let t := save_ctx t ctx in if decide (state t = Running) then with_state Ready t else t.

Lemma park_regs ctx t : task_regs (park ctx t) = ctx_regs ctx.
Proof. unfold park. simpl. by destruct (decide _). Qed.

Lemma park_state ctx t : state (park ctx t) = if decide (state t = Running) then Ready else state t.
Proof. unfold park. simpl. by destruct (decide _). Qed.

(** Every slot is one of the sixteen after [cur], and [cur] itself the last. *)
Lemma slot_distance cur i : 0 <= cur < MAX_TASKS -> 0 <= i < MAX_TASKS ->
  exists j, 1 <= j <= 16 /\ i = (cur + j) mod MAX_TASKS /\ (i <> cur -> j = (i - cur) mod MAX_TASKS).
Proof.
  unfold MAX_TASKS. intros Hc Hi. exists (if i <=? cur then i - cur + 16 else i - cur).
  case_ltb.
  - split; [lia|]. replace (cur + (i - cur + 16)) with (i + 1 * 16) by lia.
    rewrite Z.mod_add, Z.mod_small by lia. split; [done|]. intros Hne.
    rewrite <- (Z.mod_add (i - cur) 1) by lia. rewrite Z.mod_small; lia.
  - split; [lia|]. replace (cur + (i - cur)) with i by lia.
    rewrite Z.mod_small by lia. split; [done|]. intros Hne. rewrite Z.mod_small; lia.
Qed.

(** What one switching tick does, in one place. *)
Definition switch_post (ctx : IsrContext) (s : Sched) (x : IsrContext * Sched) : Prop :=
  let '(ctx', s') := x in
  exists tc tn j,
    task_at s (CURRENT s) tc /\
    1 <= j <= 16 /\ CURRENT s' = (CURRENT s + j) mod MAX_TASKS /\
    (forall j', 1 <= j' < j -> ~ runnable s ((CURRENT s + j') mod MAX_TASKS)) /\
    runnable s (CURRENT s') /\
    zget (zset (TASKS s) (CURRENT s) (park ctx tc)) (CURRENT s') = Some tn /\ state tn = Ready /\
    TASKS s' = zset (zset (TASKS s) (CURRENT s) (park ctx tc)) (CURRENT s') (with_state Running tn) /\
    ctx' = load_ctx tn ctx /\ rsp0 s' = stack_base tn ⊞ stack_size tn /\
    ACTIVE s' = ACTIVE s /\ PREEMPT_COUNT s' = PREEMPT_COUNT s /\ heap s' = heap s.

Lemma parked_ready s ctx tc i t : inv s -> task_at s (CURRENT s) tc ->
  zget (zset (TASKS s) (CURRENT s) (park ctx tc)) i = Some t -> (state t = Ready <-> runnable s i).
Proof.
  intros Hinv Hc Ht. pose proof (zget_Some _ _ _ Hc) as Hr. unfold runnable, in_state, task_at in *.
  destruct (decide (i = CURRENT s)) as [->|Hne].
  - rewrite zget_zset_eq in Ht by done. injection Ht as <-. rewrite park_state, Hc.
    destruct (decide (state tc = Running)) as [He|He].
    + split; [|done]. intros _. right. by exists tc.
    + split; [intros; left; by exists tc|].
      intros [(t & [= <-] & Ht)|(t & [= <-] & Ht)]; done.
  - rewrite zget_zset_ne in Ht by done. rewrite Ht. split; [left; by exists t|].
    intros [(t' & [= <-] & Ht')|(t' & [= <-] & Ht')]; [done|].
    destruct Hne. apply (inv_only s Hinv). by exists t.
Qed.

Lemma idle_runnable s : inv s -> runnable s 0.
Proof. intros Hinv. destruct (inv_idle s Hinv); [by right | by left]. Qed.

Lemma timer_tick_switches ctx s : inv s -> ACTIVE s = true -> PREEMPT_COUNT s = 0 ->
  returns (timer_tick ctx s) (switch_post ctx s).
Proof.
  intros Hinv Ha Hp. unfold timer_tick. cbn [ACTIVE PREEMPT_COUNT TASKS CURRENT].
  rewrite Ha, Hp. change (negb true || (0 <? 0)) with false. cbv iota zeta. pose proof (inv_current s Hinv) as Hcur. pose proof (inv_len s Hinv) as Hl.
  destruct (task_exists s _ Hinv Hcur) as [tc Htc].
  rewrite (update_task_eq _ _ _ tc) by exact Htc. rewrite bind_ret.
  rewrite (update_task_eq _ _ _ (save_ctx tc ctx)).
  2: { unfold task_at. simpl. apply zget_zset_eq. lia. }
  rewrite bind_ret. cbn [with_tasks TASKS]. rewrite zset_zset.
  change (if decide (state (save_ctx tc ctx) = Running) then with_state Ready (save_ctx tc ctx)
    else save_ctx tc ctx) with (park ctx tc).
  set (ts := zset (TASKS s) (CURRENT s) (park ctx tc)).
  assert (zlen ts = MAX_TASKS) as Hts by (subst ts; by rewrite zlen_zset).
  assert (forall i t, zget ts i = Some t -> (state t = Ready <-> runnable s i)) as Hrun.
  { intros i t. by apply parked_ready. }
  eapply returns_bind; [apply scan_spec; [done | done | unfold MAX_TASKS; lia]|].
  intros k (j & Hj & Hk & Hlow & Hend).
  change (Z.of_nat (Z.to_nat MAX_TASKS)) with 16 in *.
  assert (0 <= k < MAX_TASKS) as Hkr by (subst k; apply slot_range).
  destruct (zget_is_Some ts k) as [tn Htn]; [by rewrite Hts|].
  assert (state tn = Ready) as Hready.
  { destruct Hend as [->|(t & Ht & Hst)]; [|congruence].
    destruct (slot_distance (CURRENT s) 0) as (j0 & Hj0 & H0 & _); [done | done|].
    assert (j0 = 16) as ->.
    { destruct (decide (j0 = 16)) as [|Hne]; [done|].
      destruct (zget_is_Some ts 0) as [t0 Ht0]; [rewrite Hts; done|].
      exfalso. apply (Hlow j0 t0); [lia | by rewrite <- H0|].
      apply (Hrun 0 t0 Ht0), idle_runnable, Hinv. }
    rewrite <- H0 in Hk. subst k. apply (Hrun 0 tn Htn), idle_runnable, Hinv. }
  rewrite (proj2 (arr_get_Ret ts k tn) Htn), bind_ret, decide_False by (intros Hn; by apply Hn).
  unfold switch_to. erewrite update_task_eq by exact Htn. rewrite bind_ret.
  unfold arr_get. cbn [with_tasks TASKS]. rewrite zget_zset_eq by (rewrite Hts; done).
  rewrite bind_ret. apply returns_ret. exists tc, tn, j. cbn.
  split; [done|]. split; [lia|]. split; [done|]. split.
  { intros j' Hj' Hr. destruct (zget_is_Some ts ((CURRENT s + j') mod MAX_TASKS)) as [t Ht].
    { rewrite Hts. apply slot_range. }
    apply (Hlow j' t Hj' Ht). by apply (Hrun _ t Ht). }
  split; [by apply (Hrun k tn Htn)|]. done.
Qed.

(** Where a task of the new table comes from. *)
Lemma switch_lookup ctx s ctx' s' i t' : inv s -> switch_post ctx s (ctx', s') -> task_at s' i t' ->
  (i = CURRENT s' /\ state t' = Running /\ task_regs t' = ctx_regs ctx') \/
  (i <> CURRENT s' /\ exists t, task_at s i t /\
    if decide (i = CURRENT s) then t' = park ctx t else t' = t).
Proof.
  intros Hinv (tc & tn & j & Hc & Hj & Hn & _ & _ & Hg & Hst & Ht & -> & _) Hi.
  unfold task_at in Hi. rewrite Ht in Hi. pose proof (inv_len s Hinv) as Hl.
  assert (0 <= CURRENT s' < zlen (zset (TASKS s) (CURRENT s) (park ctx tc))) as Hr.
  { rewrite zlen_zset, Hl, Hn. apply slot_range. }
  destruct (decide (i = CURRENT s')) as [->|Hne].
  - left. rewrite zget_zset_eq in Hi by done. by injection Hi as <-.
  - right. split; [done|]. rewrite zget_zset_ne in Hi by done.
    destruct (decide (i = CURRENT s)) as [->|Hne'].
    + exists tc. split; [done|]. rewrite zget_zset_eq in Hi by (by eapply zget_Some). congruence.
    + exists t'. split; [|done]. by rewrite zget_zset_ne in Hi.
Qed.

Lemma switch_back ctx s ctx' s' i : inv s -> switch_post ctx s (ctx', s') -> 0 <= i < MAX_TASKS ->
  exists t', task_at s' i t'.
Proof.
  intros Hinv (tc & tn & j & Hc & Hj & Hn & _ & _ & Hg & Hst & Ht & _) Hi.
  apply zget_is_Some. rewrite Ht, !zlen_zset, (inv_len s Hinv). done.
Qed.

Lemma switch_current_runs ctx s ctx' s' : inv s -> switch_post ctx s (ctx', s') ->
  in_state s' (CURRENT s') Running.
Proof.
  intros Hinv Hp. pose proof Hp as (tc & tn & j & _ & _ & Hn & _).
  destruct (switch_back ctx s ctx' s' (CURRENT s') Hinv Hp) as [t Ht]; [rewrite Hn; apply slot_range|].
  exists t. split; [done|].
  destruct (switch_lookup ctx s ctx' s' _ t Hinv Hp Ht) as [(_ & Hr & _)|[[] _]]; done.
Qed.

(** A task that may run stays so across a tick. *)
Lemma switch_keeps_runnable ctx s ctx' s' i : inv s -> switch_post ctx s (ctx', s') ->
  runnable s i -> i = CURRENT s' \/ in_state s' i Ready.
Proof.
  intros Hinv Hp Hr. assert (0 <= i < MAX_TASKS) as Hi.
  { rewrite <- (inv_len s Hinv). by destruct Hr as [(t & Ht%zget_Some & _)|(t & Ht%zget_Some & _)]. }
  destruct (switch_back ctx s ctx' s' i Hinv Hp Hi) as [t' Ht'].
  destruct (switch_lookup ctx s ctx' s' i t' Hinv Hp Ht') as [(-> & _)|(Hne & t & Ht & Heq)];
    [by left | right].
  exists t'. split; [done|]. unfold runnable, in_state, task_at in Hr.
  destruct (decide (i = CURRENT s)) as [->|Hne'].
  - subst t'. rewrite park_state. destruct (decide _) as [|Hn]; [done|].
    destruct Hr as [(u & Hu & Hs)|(u & Hu & Hs)]; unfold task_at in *; congruence.
  - subst t'. destruct Hr as [(u & Hu & Hs)|(u & Hu & Hs)]; [unfold task_at in *; congruence|].
    destruct Hne'. apply (inv_only s Hinv). by exists u.
Qed.

Lemma switch_inv ctx s ctx' s' : inv s -> switch_post ctx s (ctx', s') -> inv s'.
Proof.
  intros Hinv Hp. pose proof Hp as (tc & tn & j & _ & _ & Hn & _ & _ & _ & _ & Ht & _ & _ & Hpre & Hpre2 & Hh).
  pose proof (conj Hpre Hpre2) as Hpre'. clear Hpre Hpre2. rename Hpre' into Hpre.
  pose proof (switch_current_runs ctx s ctx' s' Hinv Hp) as Hrun. split.
  - by rewrite Ht, !zlen_zset, (inv_len s Hinv).
  - rewrite Hn. apply slot_range.
  - destruct (switch_keeps_runnable ctx s ctx' s' 0 Hinv Hp (idle_runnable s Hinv)) as [->|H0];
      [by left | by right].
  - by left.
  - intros i (t & Hi & Hst).
    destruct (switch_lookup ctx s ctx' s' i t Hinv Hp Hi) as [(-> & _)|(Hne & u & Hu & Heq)]; [done|].
    exfalso. destruct (decide (i = CURRENT s)) as [->|Hne'].
    + subst t. rewrite park_state in Hst. by destruct (decide (state u = Running)).
    + subst t. apply Hne', (inv_only s Hinv). by exists u.
  - rewrite Hh. by apply inv_heap.
  - destruct Hpre as [_ ->]. by apply inv_preempt.
Qed.

(** C34: A timer tick with preemption allowed switches to the first runnable
    task in cyclic order after the current one (the current one is considered
    last): it stores the interrupted registers, resumes the chosen task with
    exactly the registers stored for it, leaves the stored registers of all
    other tasks alone, points the kernel stack of the task state segment at the
    chosen task's stack, and keeps the scheduler's invariant. *)
Theorem tick_round_robin ctx s : inv s -> ACTIVE s = true -> PREEMPT_COUNT s = 0 ->
  exists ctx' s', timer_tick ctx s = Ret (ctx', s') /\ inv s' /\ in_state s' (CURRENT s') Running /\
    (exists j, 1 <= j <= 16 /\ CURRENT s' = (CURRENT s + j) mod MAX_TASKS /\
       runnable s (CURRENT s') /\
       forall j', 1 <= j' < j -> ~ runnable s ((CURRENT s + j') mod MAX_TASKS)) /\
    saved s' (CURRENT s) (ctx_regs ctx) /\ saved s' (CURRENT s') (ctx_regs ctx') /\
    (forall i r, i <> CURRENT s -> saved s i r -> saved s' i r) /\
    (exists t, task_at s' (CURRENT s') t /\ rsp0 s' = stack_base t ⊞ stack_size t).
Proof.
  intros Hinv Ha Hp. destruct (timer_tick_switches ctx s Hinv Ha Hp) as ([ctx' s'] & -> & Hpost).
  exists ctx', s'. split; [done|]. split; [by eapply switch_inv|].
  split; [by eapply switch_current_runs|].
  pose proof Hpost as (tc & tn & j & Hc & Hj & Hn & Hlow & Hr & Hg & Hst & Ht & Hctx & Hsp & _).
  assert (zlen (zset (TASKS s) (CURRENT s) (park ctx tc)) = MAX_TASKS) as Hl
    by (rewrite zlen_zset; apply inv_len, Hinv).
  assert (task_at s' (CURRENT s') (with_state Running tn)) as Hnow.
  { unfold task_at. rewrite Ht, zget_zset_eq; [done|]. by eapply zget_Some. }
  assert (forall i t, i <> CURRENT s' -> zget (zset (TASKS s) (CURRENT s) (park ctx tc)) i = Some t ->
    task_at s' i t) as Hother.
  { intros i t Hne Hi. unfold task_at. by rewrite Ht, zget_zset_ne. }
  pose proof (zget_Some _ _ _ Hc) as Hcr.
  assert (forall i t, zget (zset (TASKS s) (CURRENT s) (park ctx tc)) i = Some t ->
    saved s' i (task_regs t)) as Hsaved.
  { intros i t Hi. destruct (decide (i = CURRENT s')) as [->|Hne].
    - exists (with_state Running tn). split; [done|].
      assert (t = tn) as -> by congruence. done.
    - exists t. by split; [apply Hother|]. }
  split; [by exists j|]. split; [|split; [|split]].
  - rewrite <- (park_regs ctx tc). apply Hsaved. by rewrite zget_zset_eq.
  - exists (with_state Running tn). split; [done|]. by subst ctx'.
  - intros i r Hne (t & Hi & <-). apply Hsaved. by rewrite zget_zset_ne.
  - exists (with_state Running tn). done.
Qed.

(** Consecutive ticks, each with the context it interrupts. *)
Fixpoint ticks (ctxs : list IsrContext) (s : Sched) : outcome Sched :=
  match ctxs with
  | [] => Ret s
  | c :: ctxs => '(_, s) ← timer_tick c s; ticks ctxs s
  end.

(** C35: No task starves: with preemption allowed a ready task runs after at most
    15 ticks, whatever the other tasks do with their registers. *)
Theorem bounded_waiting i s ctxs : inv s -> ACTIVE s = true -> PREEMPT_COUNT s = 0 ->
  in_state s i Ready -> i <> CURRENT s -> length ctxs = 15%nat ->
  exists n s', (1 <= n <= 15)%nat /\ ticks (take n ctxs) s = Ret s' /\ inv s' /\
    CURRENT s' = i /\ in_state s' i Running.
Proof.
  intros Hinv Ha Hp Hi Hne Hlen.
  assert (0 <= i < MAX_TASKS) as Hir.
  { rewrite <- (inv_len s Hinv). destruct Hi as (t & Ht%zget_Some & _). done. }
  destruct (slot_distance (CURRENT s) i (inv_current s Hinv) Hir) as (d & Hd & Hid & Hdd).
  assert (d < 16) as Hd15.
  { specialize (Hdd Hne). pose proof (slot_range (i - CURRENT s)). unfold MAX_TASKS in *. lia. }
  assert (Z.to_nat d <= length ctxs)%nat as Hlong by lia.
  enough (exists n s', (1 <= n <= Z.to_nat d)%nat /\ ticks (take n ctxs) s = Ret s' /\ inv s' /\
    CURRENT s' = i /\ in_state s' i Running) as (n & s' & Hn & Hrest).
  { exists n, s'. split; [lia | exact Hrest]. }
  clear Hlen Hdd. remember (Z.to_nat d) as m eqn:Hm. revert s ctxs d Hinv Ha Hp Hi Hne Hd Hid Hd15 Hlong Hm.
  induction (lt_wf m) as [m _ IH]. intros s ctxs d Hinv Ha Hp Hi Hne Hd Hid Hd15 Hlong Hm.
  destruct ctxs as [|c ctxs]; [simpl in Hlong; lia|].
  destruct (timer_tick_switches c s Hinv Ha Hp) as ([c' s1] & Htick & Hpost).
  pose proof (switch_inv c s c' s1 Hinv Hpost) as Hinv1.
  pose proof Hpost as (tc & tn & j & _ & Hj & Hn & Hlow & _ & _ & _ & _ & _ & _ & Ha1 & Hp1 & _).
  rewrite Ha in Ha1. rewrite Hp in Hp1.
  assert (j <= d) as Hjd.
  { destruct (Z.le_gt_cases j d); [done|]. exfalso. apply (Hlow d); [lia|]. rewrite <- Hid. by left. }
  destruct (decide (i = CURRENT s1)) as [->|Hne1].
  - exists 1%nat, s1. split; [lia|]. cbn [take ticks]. rewrite Htick. split; [done|]. split; [done|].
    split; [done|]. exact (switch_current_runs c s c' s1 Hinv Hpost).
  - destruct (switch_keeps_runnable c s c' s1 i Hinv Hpost) as [|Hi1]; [by left | done|].
    assert (j <> d) by (intros ->; congruence).
    destruct (IH (Z.to_nat (d - j)) ltac:(lia) s1 ctxs (d - j)) as (n & s' & Hn' & Ht' & Hrest);
      [done | done | done | done | done | lia | | lia | simpl in Hlong; lia | done |].
    { rewrite Hid, Hn, Zplus_mod_idemp_l. f_equal. lia. }
    exists (S n), s'. split; [lia|]. cbn [take ticks]. rewrite Htick. done.
Qed.

(** While the scheduler is inactive or preemption is disabled, a tick counts,
    acknowledges the interrupt and changes nothing else: the interrupted context
    is resumed as it is. *)
Theorem tick_without_preemption ctx s : ACTIVE s = false \/ 0 < PREEMPT_COUNT s ->
  exists s', timer_tick ctx s = Ret (ctx, s') /\ TASKS s' = TASKS s /\ CURRENT s' = CURRENT s /\
    TICK_COUNT s' = TICK_COUNT s ⊞ 1 /\ PREEMPT_COUNT s' = PREEMPT_COUNT s /\
    rsp0 s' = rsp0 s /\ heap s' = heap s /\ dev s' = Pic.eoi 0 (dev s).
Proof.
  intros H0. unfold timer_tick. cbn [ACTIVE PREEMPT_COUNT].
  assert (negb (ACTIVE s) || (0 <? PREEMPT_COUNT s) = true) as ->.
  { destruct H0 as [->|Hp]; [done|]. apply orb_true_iff. right. by apply Z.ltb_lt. }
  by eexists.
Qed.

(** A switching tick resumes the interrupted code in the kernel's code and
    stack segments, whatever segments it was interrupted in: code interrupted in
    user mode is resumed with kernel privilege. *)
Theorem tick_forces_kernel_segments ctx s : inv s -> ACTIVE s = true -> PREEMPT_COUNT s = 0 ->
  exists ctx' s', timer_tick ctx s = Ret (ctx', s') /\ c_cs ctx' = 0x08 /\ c_ss ctx' = 0x10 /\
    ((forall i, runnable s i -> i = CURRENT s) -> in_state s (CURRENT s) Running ->
     CURRENT s' = CURRENT s /\ ctx_regs ctx' = ctx_regs ctx).
Proof.
  intros Hinv Ha Hp. destruct (timer_tick_switches ctx s Hinv Ha Hp) as ([ctx' s'] & -> & Hpost).
  destruct Hpost as (tc & tn & j & Hc & _ & _ & _ & Hr & Hg & _ & _ & -> & _).
  eexists _, s'. split; [done|]. split; [done|]. split; [done|]. intros Honly _.
  assert (CURRENT s' = CURRENT s) as He by (by apply Honly). split; [done|].
  rewrite He, zget_zset_eq in Hg by (by eapply zget_Some). injection Hg as <-.
  change (ctx_regs (load_ctx (park ctx tc) ctx)) with (task_regs (park ctx tc)). apply park_regs.
Qed.

(** ** Creation and exit *)

Lemma slot_free_spec s i : slot_free (TASKS s) i = true <-> in_state s i Empty \/ in_state s i Exited.
Proof.
  unfold slot_free, in_state, task_at. destruct (zget (TASKS s) i) as [t|].
  - rewrite orb_true_iff, !bool_decide_eq_true. split.
    + intros [H0|H0]; [left | right]; by exists t.
    + intros [(t' & [= <-] & H0)|(t' & [= <-] & H0)]; [by left | by right].
  - split; [done|]. intros [(t' & [=] & _)|(t' & [=] & _)].
Qed.

(** Replacing a slot that neither runs nor idles by a ready task. *)
Lemma set_ready_inv s ts i t m f d a p k r : inv s -> 1 <= i < MAX_TASKS -> i <> CURRENT s ->
  state t = Ready -> Buddy.wf (BUDDY m) -> 0 <= p -> ts = zset (TASKS s) i t ->
  inv (mkSched ts (CURRENT s) a k p r m f d).
Proof.
  intros Hinv Hi Hne Ht Hm Hp0 ->. pose proof (inv_len s Hinv) as Hl.
  assert (forall j st, in_state (mkSched (zset (TASKS s) i t) (CURRENT s) a k p r m f d) j st <->
    (j = i /\ st = Ready) \/ (j <> i /\ in_state s j st)) as Hst.
  { intros j st. unfold in_state, task_at. simpl. destruct (decide (j = i)) as [->|Hji].
    - rewrite zget_zset_eq by lia. split.
      + intros (u & [= <-] & <-). by left.
      + intros [[_ ->]|[[] _]]; [by exists t | done].
    - rewrite zget_zset_ne by done. split; [by right|]. intros [[? _]|[_ ?]]; done. }
  split; simpl.
  - by rewrite zlen_zset.
  - apply inv_current, Hinv.
  - rewrite !Hst. destruct (inv_idle s Hinv); [left | right]; right; (split; [lia | done]).
  - rewrite !Hst. destruct (inv_running s Hinv); [left | right]; right; (split; [done | done]).
  - intros j [[_ [=]]|[_ Hj]]%Hst. by apply (inv_only s Hinv).
  - done.
  - done.
Qed.

(** What [init] does to the devices: program the timer, open its line. *)
Lemma init_dev m d s : init (boot m d) = Ret s ->
  exists lo hi, dev s = Pic.clear_mask 0 (outb PIT_CH0_DATA hi (outb PIT_CH0_DATA lo (outb PIT_CMD 0x34 d))).
Proof. intros [= <-]. by eexists _, _. Qed.

(** Creating a task does not touch the devices. *)
Lemma spawn_dev entry api nm s r s' : spawn entry api nm s = Ret (r, s') -> dev s' = dev s.
Proof.
  unfold spawn, update_task. destruct (first_from _ _ _); [|by intros [= _ <-]].
  intros ([r1 m] & _ & He)%bind_ret_inv. destruct r1 as [base|]; [|by injection He as _ <-].
  apply bind_ret_inv in He as (s1 & (t & _ & (ts & _ & [= <-])%bind_ret_inv)%bind_ret_inv & [= _ <-]). done.
Qed.

(** ... and does not depend on them. *)
Lemma spawn_with_dev entry api nm s d :
  spawn entry api nm (with_dev s d) = ('(r, s') ← spawn entry api nm s; Ret (r, with_dev s' d)).
Proof.
  unfold spawn, update_task. cbn [with_dev cli sti TASKS heap]. destruct (first_from _ _ _) as [i|]; [|done].
  destruct (Mem.alloc_pages _ _) as [[[base|] m]|]; [|done..]. rewrite !bind_ret. cbn [TASKS].
  destruct (arr_get _ i); [|done]. rewrite !bind_ret. by destruct (arr_set _ _ _).
Qed.

Lemma inv_with_dev s d : inv s -> inv (with_dev s d).
Proof. by intros []. Qed.

(** [spawn] in full; the property is stated below. *)
Lemma spawn_spec entry api nm s : inv s -> in_state s (CURRENT s) Running ->
  exists r s', spawn entry api nm s = Ret (r, s') /\ inv s' /\ CURRENT s' = CURRENT s /\
    match r with
    | None => TASKS s' = TASKS s
    | Some i => 1 <= i < MAX_TASKS /\ (in_state s i Empty \/ in_state s i Exited) /\
        (forall j, 1 <= j < i -> in_state s j Ready \/ in_state s j Running) /\
        (forall j, j <> i -> zget (TASKS s') j = zget (TASKS s) j) /\
        exists t base, task_at s' i t /\ state t = Ready /\ id t = i /\ stack_base t = base /\
          t_rip t = task_trampoline /\ t_rdi t = entry /\ t_rsi t = api /\ t_rflags t = 0x202 /\
          base <= t_rsp t < base + TASK_STACK_SIZE /\ (Buddy.base (BUDDY (heap s)) mod 16 = 0 -> (t_rsp t + 8) mod 16 = 0) /\
          Buddy.base (BUDDY (heap s)) <= base /\
          base + TASK_STACK_SIZE <=
            Buddy.base (BUDDY (heap s)) + total_pages (BUDDY (heap s)) * PAGE_SIZE
    end.
Proof.
  intros Hinv Hcur. unfold spawn. cbn [cli TASKS heap].
  destruct (first_from _ 1 _) as [i|] eqn:Hslot.
  2: { eexists None, _. split; [reflexivity|]. split; [by destruct Hinv|]. done. }
  apply first_from_Some in Hslot as (Hi & Hfree & Hlow). change (Z.to_nat (MAX_TASKS - 1)) with 15%nat in Hi.
  apply slot_free_spec in Hfree. unfold Mem.alloc_pages.
  destruct (alloc_pages_returns (BUDDY (heap s)) TASK_STACK_ORDER (inv_heap s Hinv))
    as ([[base|] b] & -> & Hb & _ & Hr); [unfold TASK_STACK_ORDER; lia|..]; rewrite !bind_ret.
  2: { eexists None, _. split; [reflexivity|]. split; [|done].
       simpl in Hr. subst b. destruct Hinv. split; done. }
  simpl in Hr. destruct Hr as (page & Hbase & Hp0 & Hp1 & _).
  change (2 ^ TASK_STACK_ORDER) with 4 in Hp1.
  assert (i <> CURRENT s) as Hne.
  { intros ->. destruct Hfree as [Hf|Hf]; by pose proof (in_state_unique _ _ _ _ Hf Hcur). }
  destruct (task_exists s i Hinv) as [told Htold]; [unfold MAX_TASKS; lia|].
  erewrite update_task_eq by exact Htold. rewrite bind_ret.
  rewrite wrap_small by (unfold in_word; lia).
  eexists (Some i), _. split; [done|]. split.
  { apply (set_ready_inv s _ i (spawned_task i base entry api nm));
      done || exact (inv_preempt s Hinv) || (unfold MAX_TASKS; lia). }
  split; [done|]. split; [unfold MAX_TASKS; lia|]. split; [done|]. split.
  { intros j Hj. specialize (Hlow j Hj).
    destruct (task_exists s j Hinv) as [t Ht]; [unfold MAX_TASKS; lia|].
    destruct (state t) eqn:Hst; [|by left; exists t|by right; exists t|];
      (assert (slot_free (TASKS s) j = true) as Hf; [|congruence]); apply slot_free_spec;
      [left | right]; by exists t. }
  split; [intros j Hj; simpl; by apply zget_zset_ne|].
  exists (spawned_task i base entry api nm), base.
  split; [unfold task_at; simpl; rewrite zget_zset_eq by (by eapply zget_Some); done|].
  pose proof (wf_region _ (inv_heap s Hinv)) as Hreg. pose proof (wf_base _ (inv_heap s Hinv)) as Hb0.
  unfold Buddy.PAGE_SIZE, PAGE_SIZE in *. simpl.
  rewrite (wrap_small 16) by (unfold in_word; lia).
  unfold TASK_STACK_SIZE. rewrite wadd_small, wsub_small by (unfold in_word; lia).
  split_and!; try done; try lia. intros Hal.
  replace (base + 0x4000 - 8 + 8) with (base + 1024 * 16) by lia. rewrite Z.mod_add by lia. subst base.
  apply Z.mod_divide in Hal as [q Hq]; [|lia]. rewrite Hq.
  replace (q * 16 + page * 4096) with ((q + page * 256) * 16) by lia. by apply Z.mod_mul.
Qed.

(** The caller goes on running. *)
Lemma spawn_keeps_running entry api nm s r s' : inv s -> in_state s (CURRENT s) Running ->
  spawn entry api nm s = Ret (r, s') -> in_state s' (CURRENT s) Running.
Proof.
  intros Hinv Hrun He. destruct (spawn_spec entry api nm s Hinv Hrun) as (r2 & s2 & He2 & _ & _ & Hres).
  rewrite He in He2. injection He2 as <- <-. destruct Hrun as (t & Ht & Hst). exists t. split; [|exact Hst].
  unfold task_at in *. destruct r as [i|]; [|by rewrite Hres]. destruct Hres as (_ & Hfree & _ & Hkeep & _).
  rewrite Hkeep; [exact Ht|]. intros Heq.
  destruct Hfree as [(u & Hu & Hust)|(u & Hu & Hust)]; unfold task_at in *; rewrite <- Heq, Ht in Hu; congruence.
Qed.

(** [spawn], called by a running task, either fails without changing a task
    (no free slot, or no memory for the stack) or takes the lowest slot that is
    empty or holds an exited task, never slot 0 or a live task; the new task is
    ready, enters the trampoline with the entry point and the interface pointer
    as its first two arguments, interrupts enabled and a stack pointer 8 below a
    16-byte boundary (when the managed region is so aligned) inside its own fresh 16 KiB stack. *)
Theorem spawn_fresh_task entry api nm s : inv s -> in_state s (CURRENT s) Running ->
  exists r s', spawn entry api nm s = Ret (r, s') /\ inv s' /\ CURRENT s' = CURRENT s /\
    match r with
    | None => TASKS s' = TASKS s
    | Some i => 1 <= i < MAX_TASKS /\ (in_state s i Empty \/ in_state s i Exited) /\
        (forall j, 1 <= j < i -> in_state s j Ready \/ in_state s j Running) /\
        (forall j, j <> i -> zget (TASKS s') j = zget (TASKS s) j) /\
        exists t base, task_at s' i t /\ state t = Ready /\ id t = i /\ stack_base t = base /\
          t_rip t = task_trampoline /\ t_rdi t = entry /\ t_rsi t = api /\ t_rflags t = 0x202 /\
          base <= t_rsp t < base + TASK_STACK_SIZE /\
          (Buddy.base (BUDDY (heap s)) mod 16 = 0 -> (t_rsp t + 8) mod 16 = 0) /\
          Buddy.base (BUDDY (heap s)) <= base /\
          base + TASK_STACK_SIZE <=
            Buddy.base (BUDDY (heap s)) + total_pages (BUDDY (heap s)) * PAGE_SIZE
    end.
Proof. apply spawn_spec. Qed.

(** ** Every execution *)

(** One event: a tick while interrupts are enabled, or a call by the running
    task; [task_exit] is reached only from the trampoline of a spawned task. *)
Inductive sched_step : Sched -> Sched -> Prop :=
  | step_tick ctx ctx' s s' : IF s = true -> timer_tick ctx s = Ret (ctx', s') -> sched_step s s'
  | step_spawn entry api nm r s s' : in_state s (CURRENT s) Running ->
      spawn entry api nm s = Ret (r, s') -> sched_step s s'
  | step_exit s s' : in_state s (CURRENT s) Running -> CURRENT s <> 0 ->
      task_exit s = Ret s' -> sched_step s s'
  | step_start s : sched_step s (start s)
  | step_disable s : sched_step s (preempt_disable s)
  | step_enable s : sched_step s (preempt_enable s).

Definition sched_init (s : Sched) : Prop :=
  exists m d, Buddy.wf (BUDDY m) /\ init (boot m d) = Ret s.

Lemma sched_init_inv s : sched_init s -> inv s.
Proof.
  intros (m & d & Hm & [= <-]).
  assert (forall i st, in_state (with_dev (with_tasks (boot m d) (zset (zset (TASKS (boot m d)) 0
    (with_state Running empty_task)) 0 (mkTask 0 0 0 0 0 0 0 0 0 0 0 0 0 0 0 0 0 0 Running 0 0 0
    ([105; 100; 108; 101] ++ drop 4 (name empty_task))))) d) i st -> st = Running -> i = 0) as Honly.
  { intros i st (t & Hi & <-) Ht. destruct (decide (i = 0)) as [|Hne]; [done|].
    unfold task_at in Hi. cbn [with_dev with_tasks TASKS] in Hi. rewrite !zget_zset_ne in Hi by done.
    pose proof (zget_Some _ _ _ Hi) as Hr. change (zlen (TASKS (boot m d))) with 16 in Hr.
    change (TASKS (boot m d)) with (replicate 16 empty_task) in Hi.
    rewrite zget_replicate in Hi by lia. injection Hi as <-. discriminate. }
  split; try done.
  - left. by eexists.
  - left. by eexists.
  - intros i Hi. exact (Honly i Running Hi eq_refl).
Qed.

Lemma timer_tick_inv ctx s : inv s -> returns (timer_tick ctx s) (fun '(_, s') => inv s').
Proof.
  intros Hinv. destruct (ACTIVE s && (PREEMPT_COUNT s =? 0)) eqn:Ha.
  - apply andb_true_iff in Ha as [Ha Hp%Z.eqb_eq].
    eapply returns_mono; [by apply timer_tick_switches|]. intros [ctx' s'] Hp'. by eapply switch_inv.
  - unfold timer_tick. cbn [ACTIVE PREEMPT_COUNT].
    assert (negb (ACTIVE s) || (0 <? PREEMPT_COUNT s) = true) as ->.
    { pose proof (inv_preempt s Hinv). destruct (ACTIVE s); simpl in *; [|done].
      apply Z.eqb_neq in Ha. apply Z.ltb_lt. lia. }
    apply returns_ret. by destruct Hinv.
Qed.

Lemma exit_inv s : inv s -> CURRENT s <> 0 ->
  returns (task_exit s) inv.
Proof.
  intros Hinv H0. unfold task_exit. pose proof (inv_current s Hinv) as Hr.
  pose proof (inv_len s Hinv) as Hl. destruct (task_exists s _ Hinv Hr) as [t Ht].
  rewrite (update_task_eq _ _ (cli s) t) by exact Ht. rewrite bind_ret. apply returns_ret.
  assert (forall j st, in_state (sti (with_tasks (cli s) (zset (TASKS (cli s)) (CURRENT (cli s))
      (with_state Exited t)))) j st <->
    (j = CURRENT s /\ st = Exited) \/ (j <> CURRENT s /\ in_state s j st)) as Hst.
  { intros j st. unfold in_state, task_at. simpl. destruct (decide (j = CURRENT s)) as [->|Hji].
    - rewrite zget_zset_eq by lia. split.
      + intros (u & [= <-] & <-). by left.
      + intros [[_ ->]|[[] _]]; [by eexists | done].
    - rewrite zget_zset_ne by done. split; [by right|]. intros [[? _]|[_ ?]]; done. }
  split.
  - simpl. by rewrite zlen_zset.
  - done.
  - rewrite !Hst. destruct (inv_idle s Hinv); [left | right]; right; (split; [lia | done]).
  - rewrite !Hst. right. by left.
  - intros j [[_ [=]]|[Hj Hj']]%Hst. destruct Hj. by apply (inv_only s Hinv).
  - exact (inv_heap s Hinv).
  - exact (inv_preempt s Hinv).
Qed.

Lemma sched_step_inv s s' : inv s -> sched_step s s' -> inv s'.
Proof.
  intros Hinv Hstep. destruct Hstep as [ctx ctx' s s' _ Ht|en api nm r s s' Hc Hs|s s' Hc H0 He|s|s|s].
  - exact (returns_eq _ _ _ (timer_tick_inv ctx s Hinv) Ht).
  - destruct (spawn_spec en api nm s Hinv Hc) as (r' & s1 & Hs' & Hinv' & _).
    rewrite Hs in Hs'. by injection Hs' as _ <-.
  - exact (returns_eq _ _ _ (exit_inv s Hinv H0) He).
  - by destruct Hinv.
  - destruct Hinv. split; try done. simpl. apply wrap_in_word. lia.
  - unfold preempt_enable. case_ltb; [|done]. destruct Hinv. split; try done. simpl. lia.
Qed.

(** C2: In every state that boot, ticks, task creation, task exit and the
    preemption counter can reach: at most one task is running and it is the
    current one, the idle task is still there, and the next tick does not crash
    (no index panic), whatever it interrupts. *)
Theorem scheduler_safe s : reachable sched_init sched_step s ->
  (forall i j, in_state s i Running -> in_state s j Running -> i = j /\ i = CURRENT s) /\
  runnable s 0 /\ 0 <= CURRENT s < MAX_TASKS /\
  forall ctx, exists ctx' s', timer_tick ctx s = Ret (ctx', s').
Proof.
  intros Hr. assert (inv s) as Hinv.
  { revert s Hr. apply reachable_invariant; [exact sched_init_inv | exact sched_step_inv]. }
  split; [|split; [by apply idle_runnable|split; [by apply inv_current|]]].
  - intros i j Hi%(inv_only s Hinv) Hj%(inv_only s Hinv). by subst.
  - intros ctx. destruct (timer_tick_inv ctx s Hinv) as ([ctx' s'] & -> & _). by exists ctx', s'.
Qed.
End kernel.
Arguments Sched : clear implicits.

(** * Witnesses *)

(** Three tasks: the idle task running, one ready, one exited. *)
Definition demo_task (st : TaskState) (r : Z) : Task :=
  with_state st (save_ctx empty_task (mkCtx r r r r r r r r r r r r r r r 0 0 r 8 0x202 r 16)).

Definition demo_sched (preempt : Z) : Sched Recorder :=
  mkSched ([demo_task Running 1; demo_task Ready 2; demo_task Exited 3] ++ replicate 13 empty_task)
    0 true 41 preempt 0 demo_heap true (mkRecorder [] []).

Definition demo_ctx : IsrContext := mkCtx 5 5 5 5 5 5 5 5 5 5 5 5 5 5 5 32 0 0x7000 0x23 0x246 0x9000 0x1B.

Lemma demo_lookup p i t : task_at (demo_sched p) i t ->
  (i = 0 /\ t = demo_task Running 1) \/ (i = 1 /\ t = demo_task Ready 2) \/
  (i = 2 /\ t = demo_task Exited 3) \/ (3 <= i /\ t = empty_task).
Proof.
  unfold task_at. intros Hi. pose proof (zget_Some _ _ _ Hi) as Hr.
  change (zlen (TASKS (demo_sched p))) with 16 in Hr.
  destruct (decide (i = 0)) as [->|]; [left; by injection Hi as <-|].
  destruct (decide (i = 1)) as [->|]; [right; left; by injection Hi as <-|].
  destruct (decide (i = 2)) as [->|]; [do 2 right; left; by injection Hi as <-|].
  do 3 right. split; [lia|]. unfold zget in Hi. destruct (Z.leb_spec 0 i); [|done].
  cbn [demo_sched TASKS] in Hi. rewrite lookup_app_r in Hi by (simpl; lia).
  by apply lookup_replicate in Hi as [-> _].
Qed.

Lemma demo_inv p : 0 <= p -> inv (demo_sched p).
Proof.
  intros Hp. split.
  - reflexivity.
  - simpl. unfold MAX_TASKS. lia.
  - left. by exists (demo_task Running 1).
  - left. by exists (demo_task Running 1).
  - intros i (t & [[-> ->]|[[-> ->]|[[-> ->]|[_ ->]]]]%demo_lookup & Hst); done.
  - apply demo_wf.
  - exact Hp.
Qed.

Lemma tick_round_robin_witness : exists ctx' s',
  timer_tick demo_ctx (demo_sched 0) = Ret (ctx', s') /\ saved s' 0 (ctx_regs demo_ctx) /\
  CURRENT s' = 1.
Proof.
  destruct (tick_round_robin demo_ctx (demo_sched 0)) as (ctx' & s' & Ht & _ & _ & _ & Hs & _);
    [by apply demo_inv | done | done |].
  exists ctx', s'. split; [done|]. split; [done|].
  assert (match timer_tick demo_ctx (demo_sched 0) with Ret (_, s) => CURRENT s | _ => 0 end = 1) as Hc
    by (vm_compute; reflexivity).
  by rewrite Ht in Hc.
Defined.

Lemma bounded_waiting_witness : exists n s', (1 <= n <= 15)%nat /\
  ticks (take n (replicate 15 demo_ctx)) (demo_sched 0) = Ret s' /\ in_state s' 1 Running.
Proof.
  destruct (bounded_waiting 1 (demo_sched 0) (replicate 15 demo_ctx))
    as (n & s' & Hn & Ht & _ & _ & Hr); [by apply demo_inv | done | done | | done | done |].
  - by exists (demo_task Ready 2).
  - by exists n, s'.
Defined.

Lemma tick_without_preemption_witness : exists s',
  timer_tick demo_ctx (demo_sched 1) = Ret (demo_ctx, s') /\ TASKS s' = TASKS (demo_sched 1).
Proof.
  destruct (tick_without_preemption demo_ctx (demo_sched 1)) as (s' & Ht & Hts & _); [by right|].
  by exists s'.
Defined.

Lemma tick_forces_kernel_segments_witness : exists ctx' s',
  c_cs demo_ctx = 0x23 /\ timer_tick demo_ctx (demo_sched 0) = Ret (ctx', s') /\ c_cs ctx' = 0x08.
Proof.
  destruct (tick_forces_kernel_segments demo_ctx (demo_sched 0)) as (ctx' & s' & Ht & Hcs & _);
    [by apply demo_inv | done | done |].
  by exists ctx', s'.
Defined.

Lemma spawn_fresh_task_witness : exists s' t,
  spawn 0x5000 0x6000 0x7000 [115; 104] (demo_sched 0) = Ret (Some 2, s') /\
  task_at s' 2 t /\ t_rdi t = 0x6000.
Proof.
  destruct (spawn_fresh_task 0x5000 0x6000 0x7000 [115; 104] (demo_sched 0))
    as (r & s' & Hs & _ & _ & Hr); [by apply demo_inv | by exists (demo_task Running 1) |].
  assert (r = Some 2) as ->.
  { assert (observed (spawn 0x5000 0x6000 0x7000 [115; 104] (demo_sched 0)) = Some (Some 2)) as Ho
      by (vm_compute; reflexivity).
    rewrite Hs in Ho. by injection Ho. }
  destruct Hr as (_ & _ & _ & _ & t & b & Ht & _ & _ & _ & _ & Hd & _). by exists s', t.
Defined.

(** Boot, start, one spawned task, one tick. *)
Lemma scheduler_safe_witness : exists s : Sched Recorder,
  reachable sched_init (sched_step 0x5000) s /\ runnable s 0 /\ ACTIVE s = true.
Proof.
  assert (exists s, init (boot demo_heap (mkRecorder [] [])) = Ret s) as [s0 H0] by (eexists; reflexivity).
  assert (reachable sched_init (sched_step 0x5000) (start s0)) as Hr.
  { eapply reach_step; [apply reach_init | apply step_start].
    exists demo_heap, (mkRecorder [] []). split; [apply demo_wf | done]. }
  exists (start s0). split; [done|]. split; [|done]. apply (scheduler_safe 0x5000 _ Hr).
Defined.
