(* ===== verification/Ps2.v ===== *)
(** The keyboard driver, [src/kern/drv/ps2/mod.rs]: controller set-up, the
    decoding of scan codes and the key buffer. *)
From S2P Require Import Prelude Word Fifo Port Pic Idt.

Definition DATA_PORT : Z := 0x60.
Definition STATUS_PORT : Z := 0x64.
Definition CMD_PORT : Z := 0x64.
Definition STATUS_OUTPUT_FULL : Z := 1.
Definition STATUS_INPUT_FULL : Z := 2.
Definition CMD_READ_CONFIG : Z := 0x20.
Definition CMD_WRITE_CONFIG : Z := 0x60.
Definition CMD_DISABLE_PORT1 : Z := 0xAD.
Definition CMD_DISABLE_PORT2 : Z := 0xA7.
Definition CMD_ENABLE_PORT1 : Z := 0xAE.
Definition CMD_SELF_TEST : Z := 0xAA.
Definition KB_CMD_RESET : Z := 0xFF.
Definition KB_RESPONSE_ACK : Z := 0xFA.
Definition KB_RESPONSE_SELF_TEST_OK : Z := 0xAA.
Definition CFG_PORT1_IRQ : Z := 1.
Definition CFG_PORT1_CLOCK : Z := 0x10.
Definition KB_IRQ : Z := 1.
Definition KB_VECTOR : Z := 33.
Definition KB_BUF_SIZE : Z := 256.

Definition SCANCODE_TABLE : list Z := [
  0; 27; 49; 50; 51; 52; 53; 54; 55; 56; 57; 48; 45; 61; 8; 9;
  113; 119; 101; 114; 116; 121; 117; 105; 111; 112; 91; 93; 10; 0; 97; 115;
  100; 102; 103; 104; 106; 107; 108; 59; 39; 96; 0; 92; 122; 120; 99; 118;
  98; 110; 109; 44; 46; 47; 0; 42; 0; 32; 0; 0; 0; 0; 0; 0;
  0; 0; 0; 0; 0; 0; 0; 0; 0; 0; 45; 0; 0; 0; 43; 0;
  0; 0; 0; 0; 0; 0; 0; 0; 0; 0; 0; 0; 0; 0; 0; 0;
  0; 0; 0; 0; 0; 0; 0; 0; 0; 0; 0; 0; 0; 0; 0; 0;
  0; 0; 0; 0; 0; 0; 0; 0; 0; 0; 0; 0; 0; 0; 0; 0].

Definition SCANCODE_TABLE_SHIFT : list Z := [
  0; 27; 33; 64; 35; 36; 37; 94; 38; 42; 40; 41; 95; 43; 8; 9;
  81; 87; 69; 82; 84; 89; 85; 73; 79; 80; 123; 125; 10; 0; 65; 83;
  68; 70; 71; 72; 74; 75; 76; 58; 34; 126; 0; 124; 90; 88; 67; 86;
  66; 78; 77; 60; 62; 63; 0; 42; 0; 32; 0; 0; 0; 0; 0; 0;
  0; 0; 0; 0; 0; 0; 0; 0; 0; 0; 45; 0; 0; 0; 43; 0;
  0; 0; 0; 0; 0; 0; 0; 0; 0; 0; 0; 0; 0; 0; 0; 0;
  0; 0; 0; 0; 0; 0; 0; 0; 0; 0; 0; 0; 0; 0; 0; 0;
  0; 0; 0; 0; 0; 0; 0; 0; 0; 0; 0; 0; 0; 0; 0; 0].

Definition SC_LSHIFT : Z := 0x2A.
Definition SC_RSHIFT : Z := 0x36.
Definition SC_LCTRL : Z := 0x1D.
Definition SC_LALT : Z := 0x38.
Definition SC_CAPSLOCK : Z := 0x3A.

(** * The key buffer *)

Record KbBuf := mkKbBuf { KB_BUF : list Z; KB_HEAD : Z; KB_TAIL : Z }.

Definition buf_push (ch : Z) (q : KbBuf) : outcome KbBuf :=
  let head := KB_HEAD q in
  let next := Z.land (head ⊞ 1) (KB_BUF_SIZE ⊟ 1) in
  if negb (next =? KB_TAIL q) then
    b ← arr_set (KB_BUF q) head ch; Ret (mkKbBuf b next (KB_TAIL q))
  else Ret q.

Definition read_key (q : KbBuf) : outcome (option Z * KbBuf) :=
  let tail := KB_TAIL q in
  if tail =? KB_HEAD q then Ret (None, q)
  else
    ch ← arr_get (KB_BUF q) tail;
    Ret (Some ch, mkKbBuf (KB_BUF q) (KB_HEAD q) (Z.land (tail ⊞ 1) (KB_BUF_SIZE ⊟ 1))).

Definition has_key (q : KbBuf) : bool := negb (KB_TAIL q =? KB_HEAD q).

(** * Modifiers and decoding *)

Record Mods := mkMods { SHIFT_HELD : bool; CTRL_HELD : bool; ALT_HELD : bool; CAPS_LOCK : bool }.

Record Kb := mkKb { mods : Mods; keys : KbBuf }.

Definition boot : Kb :=
  mkKb (mkMods false false false false) (mkKbBuf (replicate (Z.to_nat KB_BUF_SIZE) 0) 0 0).

(** The [match code] block: [Some] when the code is a modifier event. *)
Definition modifier (code : Z) (released : bool) (m : Mods) : option Mods :=
  if (code =? SC_LSHIFT) || (code =? SC_RSHIFT) then
    Some (mkMods (negb released) (CTRL_HELD m) (ALT_HELD m) (CAPS_LOCK m))
  else if code =? SC_LCTRL then
    Some (mkMods (SHIFT_HELD m) (negb released) (ALT_HELD m) (CAPS_LOCK m))
  else if code =? SC_LALT then
    Some (mkMods (SHIFT_HELD m) (CTRL_HELD m) (negb released) (CAPS_LOCK m))
  else if (code =? SC_CAPSLOCK) && negb released then
    Some (mkMods (SHIFT_HELD m) (CTRL_HELD m) (ALT_HELD m) (negb (CAPS_LOCK m)))
  else None.

Definition key_char (code : Z) (m : Mods) : outcome Z :=
  let shift := SHIFT_HELD m in
  let caps := CAPS_LOCK m in
  base ← arr_get SCANCODE_TABLE code;
  if caps && negb shift then
    Ret (if (97 <=? base) && (base <=? 122) then wsub 8 base 32 else base)
  else if caps && shift then
    if (97 <=? base) && (base <=? 122) then Ret base else arr_get SCANCODE_TABLE_SHIFT code
  else if shift then arr_get SCANCODE_TABLE_SHIFT code
  else Ret base.

Definition process_scancode (scancode : Z) (k : Kb) : outcome Kb :=
  if scancode =? 0xE0 then Ret k
  else
    let released := negb (Z.land scancode 0x80 =? 0) in
    let code := Z.land scancode 0x7F in
    match modifier code released (mods k) with
    | Some m => Ret (mkKb m (keys k))
    | None =>
        if released then Ret k
        else
          ch ← key_char code (mods k);
          if negb (ch =? 0) then q ← buf_push ch (keys k); Ret (mkKb (mods k) q)
          else Ret k
    end.

(** * The controller *)

Section driver.
Context {D : Type} `{PortDevice D}.
Implicit Types (d : D).

Definition POLLS : nat := Z.to_nat 100000.

Fixpoint wait_input_loop (n : nat) d : D :=
  match n with
  | O => d
  | S n => let '(v, d) := inb STATUS_PORT d in
           if Z.land v STATUS_INPUT_FULL =? 0 then d else wait_input_loop n d
  end.

Definition wait_input d : D := wait_input_loop POLLS d.

Fixpoint wait_output_loop (n : nat) d : bool * D :=
  match n with
  | O => (false, d)
  | S n => let '(v, d) := inb STATUS_PORT d in
           if negb (Z.land v STATUS_OUTPUT_FULL =? 0) then (true, d) else wait_output_loop n d
  end.

Definition wait_output d : bool * D := wait_output_loop POLLS d.

Definition send_command (cmd : Z) d : D := outb CMD_PORT cmd (wait_input d).

Definition send_data (data : Z) d : D := outb DATA_PORT data (wait_input d).

Definition read_data d : Z * D :=
  let '(ok, d) := wait_output d in if (ok : bool) then inb DATA_PORT d else (0, d).

Fixpoint flush_loop (n : nat) d : D :=
  match n with
  | O => d
  | S n => let '(v, d) := inb STATUS_PORT d in
           if Z.land v STATUS_OUTPUT_FULL =? 0 then d
           else let '(_, d) := inb DATA_PORT d in flush_loop n d
  end.

Definition flush_output d : D := flush_loop 32 d.

(** [init] up to the registration of the handler; the result says whether the controller passed
    its self-test. *)
Definition set_up d : bool * D :=
  let d := send_command CMD_DISABLE_PORT1 d in
  let d := send_command CMD_DISABLE_PORT2 d in
  let d := flush_output d in
  let d := send_command CMD_READ_CONFIG d in
  let '(config, d) := read_data d in
  let config := Z.lor config CFG_PORT1_IRQ in
  let config := Z.land config (wnot 8 CFG_PORT1_CLOCK) in
  let d := send_command CMD_WRITE_CONFIG d in
  let d := send_data config d in
  let d := send_command CMD_SELF_TEST d in
  let '(test_result, d) := read_data d in
  if negb (test_result =? 0x55) then (false, d)
  else
    let d := send_command CMD_WRITE_CONFIG d in
    let d := send_data config d in
    let d := send_command CMD_ENABLE_PORT1 d in
    let d := send_data KB_CMD_RESET d in
    let '(ack, d) := read_data d in
    let d := if ack =? KB_RESPONSE_ACK then (read_data d).2 else d in
    (true, flush_output d).

(** The handlers work on a state [K] of their own; [handler] is [keyboard_irq_handler] on it. *)
Definition init {K} (handler : ctx_handler K) (t : Tables K) d : outcome (Tables K * D) :=
  let '(ok, d) := set_up d in
  if (ok : bool) then
    t ← register_ctx_handler KB_VECTOR handler t;
    Ret (t, Pic.clear_mask KB_IRQ d)
  else Ret (t, d).

Definition poll (k : Kb) d : outcome (Kb * D) :=
  let '(status, d) := inb STATUS_PORT d in
  if negb (Z.land status STATUS_OUTPUT_FULL =? 0) then
    let '(scancode, d) := inb DATA_PORT d in
    k ← process_scancode scancode k; Ret (k, d)
  else Ret (k, d).

Definition keyboard_irq_handler (k : Kb) d : outcome (Kb * D) :=
  let '(scancode, d) := inb DATA_PORT d in
  k ← process_scancode scancode k;
  Ret (k, Pic.eoi KB_IRQ d).
End driver.

(** * The key buffer is a bounded queue *)

Definition kb_wf (q : KbBuf) : Prop := ring_wf KB_BUF_SIZE (KB_BUF q) (KB_HEAD q) (KB_TAIL q).
Definition kb_contents (q : KbBuf) : list Z :=
  ring_contents KB_BUF_SIZE (KB_BUF q) (KB_HEAD q) (KB_TAIL q).

(** [buf_push] does not report success; the queue interface observes it. *)
#[export] Instance kb_ops : FifoOps KbBuf Z := {|
  fifo_push ch q := q' ← buf_push ch q; Ret (negb (KB_HEAD q' =? KB_HEAD q), q');
  fifo_pop := read_key;
|}.

Lemma kb_gt1 : 1 < KB_BUF_SIZE.
Proof. reflexivity. Qed.

Lemma kb_next i : 0 <= i < KB_BUF_SIZE ->
  Z.land (i ⊞ 1) (KB_BUF_SIZE ⊟ 1) = (i + 1) mod KB_BUF_SIZE.
Proof.
  unfold KB_BUF_SIZE. intros Hi. rewrite wadd_small by (unfold in_word; lia).
  change (256 ⊟ 1) with (Z.ones 8). by rewrite Z.land_ones.
Qed.

#[export] Program Instance kb_laws : FifoLaws KbBuf Z :=
  {| fifo_wf := kb_wf; contents := kb_contents; fifo_capacity := KB_BUF_SIZE - 1 |}.
Next Obligation.
  intros x q Hwf. pose proof Hwf as (Hb & Hh & Ht). simpl. unfold buf_push. rewrite kb_next by done.
  pose proof (ring_full_iff KB_BUF_SIZE kb_gt1 (KB_HEAD q) (KB_TAIL q) Hh Ht) as Hfull.
  pose proof (ring_len_range KB_BUF_SIZE kb_gt1 (KB_HEAD q) (KB_TAIL q)) as Hr.
  unfold kb_contents at 1. rewrite (ring_contents_len KB_BUF_SIZE kb_gt1) by done.
  destruct (Z.eqb_spec ((KB_HEAD q + 1) mod KB_BUF_SIZE) (KB_TAIL q)) as [He|He]; simpl.
  - apply returns_ret. split; [done|]. apply Hfull in He. decide_tests. by rewrite ?Z.eqb_refl.
  - rewrite arr_set_ok, bind_ret by lia. apply returns_ret.
    assert (ring_len KB_BUF_SIZE (KB_HEAD q) (KB_TAIL q) < KB_BUF_SIZE - 1) as Hlt.
    { assert (ring_len KB_BUF_SIZE (KB_HEAD q) (KB_TAIL q) <> KB_BUF_SIZE - 1) by tauto. lia. }
    split.
    + repeat split; simpl; [by rewrite zlen_zset | apply Z.mod_pos_bound; done ..| |]; lia.
    + decide_tests. split; [|by apply (ring_push KB_BUF_SIZE kb_gt1)].
      apply negb_true_iff, Z.eqb_neq. simpl. rewrite next_eq by done.
      unfold KB_BUF_SIZE in *. case_ltb; lia.
Qed.
Next Obligation.
  intros q Hwf. pose proof Hwf as (Hb & Hh & Ht). simpl. unfold read_key.
  destruct (Z.eqb_spec (KB_TAIL q) (KB_HEAD q)) as [He|He].
  - apply returns_ret. unfold kb_contents. rewrite He, ring_contents_empty; done.
  - destruct (ring_pop KB_BUF_SIZE kb_gt1 _ _ _ Hwf He) as (x & Hx & Hc).
    unfold arr_get. rewrite Hx, bind_ret, kb_next by done. apply returns_ret. split.
    + repeat split; simpl; [done | lia | lia | apply Z.mod_pos_bound; done ..].
    + unfold kb_contents at 1. rewrite Hc. done.
Qed.

Lemma boot_keys_wf : kb_wf (keys boot) /\ kb_contents (keys boot) = [].
Proof. split; [|reflexivity]. repeat split; reflexivity || discriminate. Qed.

(** * Decoding *)

Definition is_letter (c : Z) : bool := (97 <=? c) && (c <=? 122).

(** What a key types: a letter is upper case when exactly one of shift and caps
    lock is active; any other key follows shift alone. *)
Definition typed (shift caps : bool) (base shifted : Z) : Z :=
  if is_letter base then (if xorb shift caps then base - 32 else base)
  else if shift then shifted else base.

Definition code_typed (code : Z) (m : Mods) : Z :=
  typed (SHIFT_HELD m) (CAPS_LOCK m) (default 0 (zget SCANCODE_TABLE code))
    (default 0 (zget SCANCODE_TABLE_SHIFT code)).

(** Every entry of the two tables, at every setting of shift and caps lock. *)
Definition tables_agree : bool :=
  forallb (fun code =>
    forallb (fun '(s, c) =>
      match key_char code (mkMods s false false c) with
      | Ret ch => ch =? code_typed code (mkMods s false false c)
      | Crash _ => false
      end) [(false, false); (false, true); (true, false); (true, true)]) (zseq 0 128).

Lemma tables_agree_true : tables_agree = true.
Proof. vm_compute. reflexivity. Qed.

Lemma key_char_ext code m : key_char code m =
  key_char code (mkMods (SHIFT_HELD m) false false (CAPS_LOCK m)).
Proof. reflexivity. Qed.

Lemma key_char_layout_all code m : 0 <= code < 128 -> key_char code m = Ret (code_typed code m).
Proof.
  intros Hc. pose proof tables_agree_true as H. unfold tables_agree in H.
  rewrite forallb_forall in H. specialize (H code).
  rewrite key_char_ext. change (code_typed code m) with
    (code_typed code (mkMods (SHIFT_HELD m) false false (CAPS_LOCK m))).
  assert (In code (zseq 0 128)) as Hin by (apply list_elem_of_In, elem_of_zseq; lia).
  specialize (H Hin). rewrite forallb_forall in H.
  assert (In (SHIFT_HELD m, CAPS_LOCK m) [(false, false); (false, true); (true, false); (true, true)])
    as Hsc by (destruct (SHIFT_HELD m), (CAPS_LOCK m); simpl; auto).
  specialize (H _ Hsc). cbv beta iota in H.
  destruct (key_char code _) as [ch|c] in H |- *; [|done]. f_equal. by apply Z.eqb_eq.
Qed.

(** For each of the 128 key codes and every modifier state the decoder does
    not panic and yields the character of the layout: letters are upper case
    exactly when shift and caps lock differ, the other keys follow shift. *)
Theorem key_char_layout code m : 0 <= code < 128 -> key_char code m = Ret (code_typed code m).
Proof. apply key_char_layout_all. Qed.

Lemma key_char_layout_witness :
  key_char 0x1E (mkMods true false false false) = Ret 65 /\
  key_char 0x1E (mkMods true false false true) = Ret 97 /\
  key_char 0x02 (mkMods true false false true) = Ret 33.
Proof.
  split; [|split].
  - exact (key_char_layout 0x1E (mkMods true false false false) ltac:(lia)).
  - exact (key_char_layout 0x1E (mkMods true false false true) ltac:(lia)).
  - exact (key_char_layout 0x02 (mkMods true false false true) ltac:(lia)).
Defined.

(** * The keyboard as a whole *)

Inductive kb_op := Scan (scancode : Z) | ReadKey.

Definition kb_step (op : kb_op) (k : Kb) : outcome (option Z * Kb) :=
  match op with
  | Scan sc => k ← process_scancode sc k; Ret (None, k)
  | ReadKey => '(r, q) ← read_key (keys k); Ret (r, mkKb (mods k) q)
  end.

Fixpoint kb_run (ops : list kb_op) (k : Kb) : outcome (list (option Z) * Kb) :=
  match ops with
  | [] => Ret ([], k)
  | op :: ops => '(r, k) ← kb_step op k; '(rs, k) ← kb_run ops k; Ret (r :: rs, k)
  end.

(** Abstract keyboard: modifiers and at most 255 typed characters.  The prefix
    0xE0 is ignored, bit 7 marks a release, releases of ordinary keys and keys
    without a character type nothing. *)
Definition a_scan (sc : Z) (m : Mods) (q : list Z) : Mods * list Z :=
  if sc =? 0xE0 then (m, q)
  else match modifier (sc mod 128) (128 <=? sc) m with
  | Some m => (m, q)
  | None =>
      let ch := code_typed (sc mod 128) m in
      (m, if (128 <=? sc) || (ch =? 0) || (255 <=? zlen q) then q else q ++ [ch])
  end.

Definition a_kb_step (op : kb_op) (s : Mods * list Z) : option Z * (Mods * list Z) :=
  match op with
  | Scan sc => (None, a_scan sc s.1 s.2)
  | ReadKey => match s.2 with [] => (None, s) | ch :: q => (Some ch, (s.1, q)) end
  end.

Fixpoint a_kb_run (ops : list kb_op) (s : Mods * list Z) : list (option Z) * (Mods * list Z) :=
  match ops with
  | [] => ([], s)
  | op :: ops => let '(r, s) := a_kb_step op s in let '(rs, s) := a_kb_run ops s in (r :: rs, s)
  end.

Definition op_byte (op : kb_op) : Prop :=
  match op with Scan sc => in_word 8 sc | ReadKey => True end.

Lemma scan_bits sc : in_word 8 sc ->
  Z.land sc 0x7F = sc mod 128 /\ negb (Z.land sc 0x80 =? 0) = (128 <=? sc).
Proof.
  unfold in_word. intros Hs. change 0x7F with (Z.ones 7). rewrite Z.land_ones by lia. split; [done|].
  change 0x80 with (2 ^ 7). rewrite land_pow2 by lia.
  assert (Z.testbit sc 7 = (128 <=? sc)) as ->.
  { rewrite Z.testbit_eqb by lia. change (2 ^ 7) with 128.
    assert (sc / 128 = if 128 <=? sc then 1 else 0) as ->.
    { symmetry. case_ltb; [apply (Z.div_unique _ _ _ (sc - 128)) | apply (Z.div_unique _ _ _ sc)]; lia. }
    by destruct (128 <=? sc). }
  change (2 ^ 7) with 128. by destruct (128 <=? sc).
Qed.

(** One operation simulates its abstraction. *)
Lemma kb_step_simulates op k : op_byte op -> kb_wf (keys k) ->
  exists k', kb_step op k = Ret ((a_kb_step op (mods k, kb_contents (keys k))).1, k') /\
    kb_wf (keys k') /\
    (mods k', kb_contents (keys k')) = (a_kb_step op (mods k, kb_contents (keys k))).2.
Proof.
  intros Hop Hwf. destruct op as [sc|]; cbn [kb_step a_kb_step].
  - unfold process_scancode, a_scan. simpl in Hop. destruct (scan_bits sc Hop) as [-> ->]. simpl.
    destruct (sc =? 0xE0); [by exists k|].
    destruct (modifier _ _ _) as [m|]; [by eexists|].
    destruct (128 <=? sc) eqn:Hrel; simpl; [by exists k|].
    rewrite key_char_layout_all by (apply Z.mod_pos_bound; lia). simpl.
    set (ch := code_typed (sc mod 128) (mods k)).
    destruct (ch =? 0); simpl; [by exists k|].
    destruct (@push_law KbBuf Z kb_ops kb_laws ch (keys k) Hwf) as ([ok q] & Hp & Hq & Hc).
    simpl in Hp, Hq, Hc. destruct (buf_push ch (keys k)) as [q'|]; [|done]. simpl in *.
    injection Hp as _ ->. unfold KB_BUF_SIZE in Hc. eexists. split; [done|]. split; [done|]. simpl.
    destruct (Z.ltb_spec (zlen (kb_contents (keys k))) (256 - 1)); decide_tests; destruct Hc as [_ Hc].
    + by rewrite Hc.
    + by subst q.
  - destruct (@pop_law KbBuf Z kb_ops kb_laws (keys k) Hwf) as ([r q] & Hp & Hq & Hc).
    simpl in Hp, Hq, Hc. rewrite Hp. simpl. destruct (kb_contents (keys k)) as [|x rest] eqn:Hk.
    + destruct Hc as [-> ->]. eexists. split; [done|]. split; [done|]. simpl. by rewrite Hk.
    + destruct Hc as [-> Hc]. eexists. split; [done|]. split; [done|]. simpl. by rewrite Hc.
Qed.

(** C37: From boot, any interleaving of scan codes and reads runs without a panic
    and answers as the abstract keyboard: reads deliver, in order, the
    characters the layout gives for the pressed keys under the modifiers at
    that time, and a key pressed while 255 characters wait is dropped. *)
Theorem keyboard_refines ops : Forall op_byte ops ->
  exists k, kb_run ops boot = Ret ((a_kb_run ops (mods boot, [])).1, k) /\ kb_wf (keys k) /\
    (mods k, kb_contents (keys k)) = (a_kb_run ops (mods boot, [])).2.
Proof.
  intros Hops. destruct boot_keys_wf as [Hwf Hnil]. rewrite <- Hnil. clear Hnil. revert Hwf.
  generalize boot as k. induction Hops as [|op ops Hop Hops IH]; intros k Hwf; simpl; [by exists k|].
  destruct (kb_step_simulates op k Hop Hwf) as (k1 & -> & Hwf1 & Hs1). rewrite bind_ret.
  destruct (IH k1 Hwf1) as (k2 & -> & Hwf2 & Hs2). rewrite bind_ret. exists k2.
  rewrite Hs1 in Hs2 |- *. destruct (a_kb_step op _) as [r s]. simpl in *.
  destruct (a_kb_run ops s) as [rs s']. done.
Qed.

(** Shift down, H, shift up, I, caps lock, J, then four reads. *)
Definition demo_keys : list kb_op :=
  [Scan 0x2A; Scan 0x23; Scan 0xA3; Scan 0xAA; Scan 0x17; Scan 0x3A; Scan 0x24;
   ReadKey; ReadKey; ReadKey; ReadKey].

Lemma keyboard_refines_witness : exists k, kb_run demo_keys boot =
  Ret ([None; None; None; None; None; None; None; Some 72; Some 105; Some 74; None], k).
Proof.
  destruct (keyboard_refines demo_keys) as (k & Hk & _).
  - repeat (apply Forall_cons; split; [simpl; unfold in_word; first [lia | exact I]|]). by apply Forall_nil.
  - exists k. exact Hk.
Defined.

(** * Controller set-up *)

(** Documented behaviour of the 8042 controller with a keyboard: the status port
    says whether a byte waits, the data port delivers it; commands 0x20, 0x60
    and 0xAA read the configuration, announce a new one and test the
    controller; other data bytes go to the keyboard, whose replies [kbc_reply]
    queue up.  The controller takes bytes at once. *)
Class I8042 (D : Type) `{PortDevice D} := {
  kbc_out : D -> list Z;
  kbc_config : D -> Z;
  kbc_announced : D -> bool;
  kbc_self_test : Z;
  kbc_reply : Z -> list Z;
  kbc_status d : exists v, port_in STATUS_PORT d = (v, d) /\
    Z.testbit v 0 = negb (bool_decide (kbc_out d = [])) /\ Z.testbit v 1 = false;
  kbc_read b q d : kbc_out d = b :: q -> in_word 8 b -> exists d', port_in DATA_PORT d = (b, d') /\
    kbc_out d' = q /\ kbc_config d' = kbc_config d /\ kbc_announced d' = kbc_announced d;
  kbc_command c d :
    kbc_out (port_out CMD_PORT c d) = kbc_out d ++
      (if c =? CMD_READ_CONFIG then [kbc_config d] else if c =? CMD_SELF_TEST then [kbc_self_test] else []) /\
    kbc_config (port_out CMD_PORT c d) = kbc_config d /\
    kbc_announced (port_out CMD_PORT c d) = (c =? CMD_WRITE_CONFIG);
  kbc_data v d :
    if kbc_announced d
    then kbc_out (port_out DATA_PORT v d) = kbc_out d /\ kbc_config (port_out DATA_PORT v d) = v /\
         kbc_announced (port_out DATA_PORT v d) = false
    else kbc_out (port_out DATA_PORT v d) = kbc_out d ++ kbc_reply v /\
         kbc_config (port_out DATA_PORT v d) = kbc_config d /\
         kbc_announced (port_out DATA_PORT v d) = false;
}.

Section controller.
Context {D : Type} `{I8042 D}.
Implicit Types (d : D).

(** The controller part of a device state. *)
Definition kbc (d : D) : list Z * Z * bool := (kbc_out d, kbc_config d, kbc_announced d).

Lemma kbc_inj d q c a : kbc d = (q, c, a) ->
  kbc_out d = q /\ kbc_config d = c /\ kbc_announced d = a.
Proof. unfold kbc. intros [= <- <- <-]. done. Qed.

Lemma polls_S : exists n, POLLS = S n.
Proof. exists (Nat.pred POLLS). unfold POLLS. lia. Qed.

Lemma status_bits v : Z.testbit (wrap 8 v) 0 = Z.testbit v 0 /\ Z.testbit (wrap 8 v) 1 = Z.testbit v 1.
Proof. unfold wrap. by rewrite !Z.mod_pow2_bits_low by lia. Qed.

Lemma wait_input_id d : wait_input d = d.
Proof.
  unfold wait_input. destruct polls_S as [n ->]. cbn [wait_input_loop]. unfold inb.
  destruct (kbc_status d) as (v & -> & _ & H1). change STATUS_INPUT_FULL with (2 ^ 1).
  rewrite land_pow2 by lia. destruct (status_bits v) as [_ ->]. by rewrite H1.
Qed.

Lemma wait_output_eq d : wait_output d = (negb (bool_decide (kbc_out d = [])), d).
Proof.
  assert (forall n, wait_output_loop n d =
    (match n with O => false | S _ => negb (bool_decide (kbc_out d = [])) end, d)) as Hl.
  { induction n as [|n IH]; [done|]. cbn [wait_output_loop]. unfold inb.
    destruct (kbc_status d) as (v & -> & Hv0 & _). change STATUS_OUTPUT_FULL with (2 ^ 0).
    rewrite land_pow2 by lia. destruct (status_bits v) as [-> _]. rewrite Hv0.
    case_bool_decide as Ho; simpl; [|done]. rewrite IH. destruct n; [done|]. try rewrite bool_decide_true by done. done. }
  unfold wait_output. rewrite Hl. by destruct polls_S as [n ->].
Qed.

Lemma read_data_eq d b q : kbc_out d = b :: q -> in_word 8 b ->
  exists d', read_data d = (b, d') /\ kbc d' = (q, kbc_config d, kbc_announced d).
Proof.
  intros Hq Hb. unfold read_data. rewrite wait_output_eq, Hq. simpl.
  destruct (kbc_read b q d Hq Hb) as (d' & Hi & H1 & H2 & H3). exists d'.
  unfold inb, kbc. rewrite Hi, wrap_small by done. by rewrite H1, H2, H3.
Qed.

Lemma read_data_empty d : kbc_out d = [] -> read_data d = (0, d).
Proof. intros Hq. unfold read_data. by rewrite wait_output_eq, Hq. Qed.

Lemma flush_eq n d : (length (kbc_out d) <= n)%nat -> Forall (in_word 8) (kbc_out d) ->
  kbc (flush_loop n d) = ([], kbc_config d, kbc_announced d).
Proof.
  revert d. induction n as [|n IH]; intros d Hn Hb.
  { destruct (kbc_out d) eqn:Ho; [|simpl in Hn; lia]. unfold kbc. simpl. by rewrite Ho. }
  cbn [flush_loop]. unfold inb. destruct (kbc_status d) as (v & -> & Hv0 & _).
  change STATUS_OUTPUT_FULL with (2 ^ 0). rewrite land_pow2 by lia.
  destruct (status_bits v) as [-> _]. rewrite Hv0.
  destruct (kbc_out d) as [|b q] eqn:Ho; simpl.
  - unfold kbc. by rewrite Ho.
  - apply Forall_cons in Hb as [Hb Hq]. destruct (kbc_read b q d Ho Hb) as (d' & -> & H1 & H2 & H3).
    rewrite IH by (rewrite H1; done || (simpl in Hn; lia)). by rewrite H2, H3.
Qed.

Lemma send_command_eq c d : kbc (send_command c d) =
  (kbc_out d ++ (if c =? CMD_READ_CONFIG then [kbc_config d]
     else if c =? CMD_SELF_TEST then [kbc_self_test] else []),
   kbc_config d, c =? CMD_WRITE_CONFIG).
Proof.
  unfold send_command, outb, kbc. rewrite wait_input_id.
  destruct (kbc_command c d) as (-> & -> & ->). done.
Qed.

Lemma send_data_eq v d : kbc (send_data v d) =
  if kbc_announced d then (kbc_out d, v, false) else (kbc_out d ++ kbc_reply v, kbc_config d, false).
Proof.
  unfold send_data, outb, kbc. rewrite wait_input_id. pose proof (kbc_data v d) as Hd.
  destruct (kbc_announced d); destruct Hd as (-> & -> & ->); done.
Qed.

(** The new configuration byte. *)
Definition new_config (c : Z) : Z := Z.land (Z.lor c CFG_PORT1_IRQ) (wnot 8 CFG_PORT1_CLOCK).

Lemma new_config_bits c i : 0 <= i < 8 ->
  Z.testbit (new_config c) i = if i =? 0 then true else if i =? 4 then false else Z.testbit c i.
Proof.
  intros Hi. unfold new_config. rewrite Z.land_spec, Z.lor_spec, wnot_spec by lia.
  change CFG_PORT1_IRQ with (2 ^ 0). change CFG_PORT1_CLOCK with (2 ^ 4).
  rewrite !Z.pow2_bits_eqb by lia. decide_tests.
  rewrite (Z.eqb_sym 0 i), (Z.eqb_sym 4 i).
  destruct (Z.eqb_spec i 0) as [->|]; [by rewrite orb_true_r|].
  destruct (Z.eqb_spec i 4); by destruct (Z.testbit c i).
Qed.

(** The acknowledgement is read and whatever else the keyboard said is flushed. *)
Lemma reset_tail d cfg q : kbc_out d = q -> kbc_config d = cfg -> Forall (in_word 8) q ->
  (length q <= 32)%nat ->
  exists d', (let '(ack, d) := read_data d in
    let d := if ack =? KB_RESPONSE_ACK then (read_data d).2 else d in
    (true, flush_loop 32 d)) = (true, d') /\
    kbc_out d' = [] /\ kbc_config d' = cfg.
Proof.
  intros Hq Hc Hb Hl.
  assert (exists d1 q1, (let '(ack, d) := read_data d in
      if ack =? KB_RESPONSE_ACK then (read_data d).2 else d) = d1 /\ kbc_out d1 = q1 /\
      Forall (in_word 8) q1 /\ (length q1 <= 32)%nat /\ kbc_config d1 = cfg) as (d1 & q1 & Hd1 & Hq1 & Hb1 & Hl1 & Hc1).
  { destruct q as [|b q]; [rewrite read_data_empty by done; by exists d, []|].
    apply Forall_cons in Hb as [Hb Hbq]. simpl in Hl.
    destruct (read_data_eq d b q Hq Hb) as (d1 & -> & (H1 & H2 & _)%kbc_inj).
    destruct (b =? KB_RESPONSE_ACK); [|exists d1, q; split_and!; done || lia || congruence].
    destruct q as [|b' q]; [rewrite read_data_empty by done; exists d1, []; split_and!; done || (simpl; lia) || congruence|].
    apply Forall_cons in Hbq as [Hb' Hbq]. simpl in Hl.
    destruct (read_data_eq d1 b' q H1 Hb') as (d2 & -> & (H3 & H4 & _)%kbc_inj). simpl.
    exists d2, q. split_and!; done || lia || congruence. }
  destruct (read_data d) as [ack d0]. rewrite Hd1.
  pose proof (flush_eq 32 d1) as H3. rewrite Hq1 in H3. specialize (H3 Hl1 Hb1).
  apply kbc_inj in H3 as (H4 & H5 & _). eexists. split; [done|]. split; [done|]. by rewrite H5.
Qed.

(** A controller that set-up finds: at most 32 stale bytes, and a keyboard that answers a reset with
    at most as many. *)
Definition kbc_found d : Prop :=
  in_word 8 (kbc_config d) /\ in_word 8 kbc_self_test /\
  Forall (in_word 8) (kbc_out d) /\ (length (kbc_out d) <= 32)%nat /\
  Forall (in_word 8) (kbc_reply KB_CMD_RESET) /\ (length (kbc_reply KB_CMD_RESET) <= 32)%nat.

Lemma set_up_configures d : kbc_found d ->
  exists d', set_up d = (kbc_self_test =? 0x55, d') /\
    (kbc_self_test = 0x55 -> kbc_out d' = [] /\ kbc_config d' = new_config (kbc_config d)).
Proof.
  intros (Hc & Ht & Ho & Hol & Hr & Hrl). unfold set_up.
  pose proof (send_command_eq CMD_DISABLE_PORT1 d) as H1.
  set (d1 := send_command CMD_DISABLE_PORT1 d) in *. apply kbc_inj in H1 as (H1o & H1c & _).
  pose proof (send_command_eq CMD_DISABLE_PORT2 d1) as H2.
  set (d2 := send_command CMD_DISABLE_PORT2 d1) in *. apply kbc_inj in H2 as (H2o & H2c & _).
  simpl in H1o, H2o. rewrite app_nil_r in H1o, H2o. rewrite H1o in H2o. rewrite H1c in H2c.
  pose proof (flush_eq 32 d2) as H3. rewrite H2o in H3. specialize (H3 Hol Ho).
  unfold flush_output. set (d3 := flush_loop 32 d2) in *. apply kbc_inj in H3 as (H3o & H3c & _). rewrite H2c in H3c.
  pose proof (send_command_eq CMD_READ_CONFIG d3) as H4.
  set (d4 := send_command CMD_READ_CONFIG d3) in *. apply kbc_inj in H4 as (H4o & H4c & _).
  simpl in H4o. rewrite H3o, H3c in H4o. rewrite H3c in H4c.
  destruct (read_data_eq d4 (kbc_config d) [] H4o Hc) as (d5 & -> & H5). apply kbc_inj in H5 as (H5o & H5c & _).
  fold (new_config (kbc_config d)). set (cfg := new_config (kbc_config d)).
  pose proof (send_command_eq CMD_WRITE_CONFIG d5) as H6.
  set (d6 := send_command CMD_WRITE_CONFIG d5) in *. apply kbc_inj in H6 as (H6o & _ & H6a).
  simpl in H6o, H6a. rewrite H5o in H6o.
  pose proof (send_data_eq cfg d6) as H7. rewrite H6a, H6o in H7.
  set (d7 := send_data cfg d6) in *. apply kbc_inj in H7 as (H7o & H7c & _).
  pose proof (send_command_eq CMD_SELF_TEST d7) as H8.
  set (d8 := send_command CMD_SELF_TEST d7) in *. apply kbc_inj in H8 as (H8o & H8c & _).
  simpl in H8o. rewrite H7o in H8o. rewrite H7c in H8c.
  destruct (read_data_eq d8 kbc_self_test [] H8o Ht) as (d9 & -> & H9). apply kbc_inj in H9 as (H9o & H9c & _).
  destruct (Z.eqb_spec kbc_self_test 0x55) as [Heq|Hne]; simpl; [|by exists d9].
  pose proof (send_command_eq CMD_WRITE_CONFIG d9) as Ha.
  set (da := send_command CMD_WRITE_CONFIG d9) in *. apply kbc_inj in Ha as (Hao & _ & Haa).
  simpl in Hao, Haa. rewrite H9o in Hao.
  pose proof (send_data_eq cfg da) as Hb. rewrite Haa, Hao in Hb.
  set (db := send_data cfg da) in *. apply kbc_inj in Hb as (Hbo & Hbc & _).
  pose proof (send_command_eq CMD_ENABLE_PORT1 db) as Hd.
  set (dc := send_command CMD_ENABLE_PORT1 db) in *. apply kbc_inj in Hd as (Hdo & Hdc & Hda).
  simpl in Hdo, Hda. rewrite Hbo in Hdo. rewrite Hbc in Hdc.
  pose proof (send_data_eq KB_CMD_RESET dc) as He. rewrite Hda, Hdo, Hdc in He.
  set (dd := send_data KB_CMD_RESET dc) in *. apply kbc_inj in He as (Heo & Hec & _). simpl in Heo.
  destruct (reset_tail dd cfg (kbc_reply KB_CMD_RESET)) as (d' & He' & Hd'); [done..|]. by exists d'.
Qed.

(** [init] on such a controller: when the self test succeeds, the handler is registered and, before the
    interrupt line is unmasked, the stale bytes and the keyboard's answers are gone and the
    configuration has the keyboard interrupt enabled, its clock running and all
    other bits as before; when the self test fails no handler is registered. *)
Theorem init_configures {K} (h : ctx_handler K) t d : kbc_found d -> zlen (ISR_CTX_HANDLERS t) = IDT_ENTRIES ->
  exists d', if kbc_self_test =? 0x55
  then exists t', register_ctx_handler KB_VECTOR h t = Ret t' /\ init h t d = Ret (t', Pic.clear_mask KB_IRQ d') /\
    kbc_out d' = [] /\ kbc_config d' = new_config (kbc_config d)
  else init h t d = Ret (t, d').
Proof.
  intros Hd Ht. destruct (set_up_configures d Hd) as (d' & He & Hc). exists d'. unfold init. rewrite He.
  destruct (Z.eqb_spec kbc_self_test 0x55) as [Heq|]; [|done]. specialize (Hc Heq).
  unfold register_ctx_handler. change (KB_VECTOR <? IDT_ENTRIES) with true. cbv iota.
  rewrite arr_set_ok by (rewrite Ht; by vm_compute). rewrite !bind_ret. by eexists.
Qed.
End controller.

(** Set-up touches nothing but the controller's two ports. *)
Section keeps.
Context {D : Type} `{PortDevice D} (I : D -> Prop).
Context (Hin : forall p d, p = DATA_PORT \/ p = STATUS_PORT -> I d -> I (port_in p d).2).
Context (Hout : forall p v d, p = DATA_PORT \/ p = CMD_PORT -> I d -> I (port_out p v d)).

Lemma inb_keeps p d : p = DATA_PORT \/ p = STATUS_PORT -> I d -> I (inb p d).2.
Proof. intros Hp Hd. unfold inb. pose proof (Hin p d Hp Hd). by destruct (port_in p d). Qed.

Lemma wait_input_keeps d : I d -> I (wait_input d).
Proof.
  unfold wait_input. generalize POLLS. intros n. revert d. induction n as [|n IH]; intros d Hd; [done|].
  cbn [wait_input_loop]. pose proof (inb_keeps STATUS_PORT d (or_intror eq_refl) Hd) as H1.
  destruct (inb STATUS_PORT d) as [v d1]. destruct (_ =? 0); [done | by apply IH].
Qed.

Lemma send_keeps p v d : p = DATA_PORT \/ p = CMD_PORT -> I d -> I (outb p v (wait_input d)).
Proof. intros Hp Hd. apply Hout; [exact Hp | by apply wait_input_keeps]. Qed.

Lemma read_data_keeps d : I d -> I (read_data d).2.
Proof.
  intros Hd. unfold read_data. assert (I (wait_output d).2) as Hw.
  { unfold wait_output. generalize POLLS. intros n. revert d Hd. induction n as [|n IH]; intros d Hd; [done|].
    cbn [wait_output_loop]. pose proof (inb_keeps STATUS_PORT d (or_intror eq_refl) Hd) as H1.
    destruct (inb STATUS_PORT d) as [v d1]. destruct (negb _); [done | by apply IH]. }
  destruct (wait_output d) as [[] d1]; [|done]. apply inb_keeps; [by left | done].
Qed.

Lemma flush_keeps d : I d -> I (flush_output d).
Proof.
  unfold flush_output. generalize 32%nat. intros n. revert d. induction n as [|n IH]; intros d Hd; [done|].
  cbn [flush_loop]. pose proof (inb_keeps STATUS_PORT d (or_intror eq_refl) Hd) as H1.
  destruct (inb STATUS_PORT d) as [v d1]. destruct (_ =? 0); [done|].
  pose proof (inb_keeps DATA_PORT d1 (or_introl eq_refl) H1) as H2. destruct (inb DATA_PORT d1) as [x d2]. by apply IH.
Qed.

Lemma set_up_keeps d : I d -> I (set_up d).2.
Proof.
  intros Hd. unfold set_up. unfold send_command, send_data.
  assert (forall v x, I x -> I (outb CMD_PORT v (wait_input x))) as Hcmd by (intros v x; apply send_keeps; by right).
  assert (forall v x, I x -> I (outb DATA_PORT v (wait_input x))) as Hdat by (intros v x; apply send_keeps; by left).
  set (d1 := outb CMD_PORT CMD_READ_CONFIG _).
  pose proof (read_data_keeps d1 (Hcmd _ _ (flush_keeps _ (Hcmd _ _ (Hcmd _ _ Hd))))) as H1.
  destruct (read_data d1) as [config d2]. set (c := Z.land _ _). set (d3 := outb CMD_PORT CMD_SELF_TEST _).
  pose proof (read_data_keeps d3 (Hcmd _ _ (Hdat _ _ (Hcmd _ _ H1)))) as H3.
  destruct (read_data d3) as [res d4]. destruct (negb _); [done|]. set (d5 := outb DATA_PORT KB_CMD_RESET _).
  pose proof (read_data_keeps d5 (Hdat _ _ (Hcmd _ _ (Hdat _ _ (Hcmd _ _ H3))))) as H5.
  destruct (read_data d5) as [ack d6]. simpl. apply flush_keeps. destruct (_ =? _); [by apply read_data_keeps | done].
Qed.
End keeps.

(** A controller with a keyboard that acknowledges a reset and passes its self
    test, for the witness. *)
Record Kbc := mkKbc { o_out : list Z; o_config : Z; o_announced : bool }.

#[export] Instance kbc_device : PortDevice Kbc := {|
  port_in p d :=
    if p =? STATUS_PORT then (if decide (o_out d = []) then 0 else 1, d)
    else if p =? DATA_PORT then (hd 0 (o_out d), mkKbc (tl (o_out d)) (o_config d) (o_announced d))
    else (0, d);
  port_out p v d :=
    if p =? CMD_PORT then
      mkKbc (o_out d ++ (if v =? CMD_READ_CONFIG then [o_config d]
                         else if v =? CMD_SELF_TEST then [0x55] else []))
        (o_config d) (v =? CMD_WRITE_CONFIG)
    else if p =? DATA_PORT then
      if o_announced d then mkKbc (o_out d) v false
      else mkKbc (o_out d ++ (if v =? KB_CMD_RESET then [0xFA; 0xAA] else [0xFA])) (o_config d) false
    else d;
|}.

#[export] Instance kbc_8042 : I8042 Kbc.
Proof.
  refine {| kbc_out := o_out; kbc_config := o_config; kbc_announced := o_announced;
    kbc_self_test := 0x55;
    kbc_reply := fun v => if v =? KB_CMD_RESET then [0xFA; 0xAA] else [0xFA] |}.
  - intros d. eexists. split; [reflexivity|].
    by destruct (decide (o_out d = [])); case_bool_decide.
  - intros b q d Hq _. exists (mkKbc q (o_config d) (o_announced d)). split; [|done].
    destruct d. simpl in *. by subst.
  - intros c d. done.
  - intros v d. simpl. by destruct (o_announced d).
Defined.

Lemma init_configures_witness : exists d' t',
  init (fun c (k : unit) => Ret (c, k)) no_handlers (mkKbc [0x1C] 0x34 false) = Ret (t', Pic.clear_mask KB_IRQ d') /\
  kbc_out d' = [] /\ kbc_config d' = 0x25.
Proof.
  destruct (init_configures (fun c (k : unit) => Ret (c, k)) no_handlers (mkKbc [0x1C] 0x34 false))
    as (d' & t' & _ & H1 & H2 & H3).
  - repeat split; try (simpl; lia); repeat (apply Forall_cons; split; [unfold in_word; lia|]); by apply Forall_nil.
  - reflexivity.
  - exists d', t'. split; [exact H1|]. split; [exact H2 | exact H3].
Defined.
