(* ===== verification/Vfs.v ===== *)
(** The file system interface, [src/kern/fs/vfs.rs], and the byte-string
    operations of [str] that path handling uses.  Strings are lists of bytes. *)
From S2P Require Import Prelude Word.

(** * Strings *)

(** [s.starts_with(p)] *)
Fixpoint starts_with (p s : list Z) : bool :=
  match p, s with
  | [], _ => true
  | a :: p, b :: s => (a =? b) && starts_with p s
  | _ :: _, [] => false
  end.

Definition ends_with (p s : list Z) : bool := starts_with (rev p) (rev s).

(** [s.trim_start_matches(p)] for a non-empty pattern: the prefix is removed as
    long as it occurs; [fuel] is the length of the string. *)
Fixpoint trim_start_fuel (fuel : nat) (p s : list Z) : list Z :=
  match fuel with
  | O => s
  | S fuel' => if starts_with p s then trim_start_fuel fuel' p (drop (length p) s) else s
  end.

Definition trim_start_matches (p s : list Z) : list Z := trim_start_fuel (length s) p s.

Definition trim_end_matches (p s : list Z) : list Z :=
  rev (trim_start_matches (rev p) (rev s)).

Definition cont (b : Z) : bool := (0x80 <=? b) && (b <=? 0xBF).

(** [core::str::from_utf8(s).is_ok()]: the well-formed byte sequences of
    UTF-8. *)
Fixpoint utf8_fuel (fuel : nat) (s : list Z) : bool :=
  match fuel with
  | O => match s with [] => true | _ => false end
  | S fuel' =>
      match s with
      | [] => true
      | a :: s1 =>
          if a <? 0x80 then utf8_fuel fuel' s1
          else match s1 with
          | [] => false
          | b :: s2 =>
              if (0xC2 <=? a) && (a <=? 0xDF) then cont b && utf8_fuel fuel' s2
              else match s2 with
              | [] => false
              | c :: s3 =>
                  if (a =? 0xE0) && (0xA0 <=? b) && (b <=? 0xBF)
                     || (0xE1 <=? a) && (a <=? 0xEC) && cont b
                     || (a =? 0xED) && (0x80 <=? b) && (b <=? 0x9F)
                     || (0xEE <=? a) && (a <=? 0xEF) && cont b
                  then cont c && utf8_fuel fuel' s3
                  else match s3 with
                  | [] => false
                  | d :: s4 =>
                      ((a =? 0xF0) && (0x90 <=? b) && (b <=? 0xBF)
                       || (0xF1 <=? a) && (a <=? 0xF3) && cont b
                       || (a =? 0xF4) && (0x80 <=? b) && (b <=? 0x8F))
                      && cont c && cont d && utf8_fuel fuel' s4
                  end
              end
          end
      end
  end.

Definition utf8 (s : list Z) : bool := utf8_fuel (length s) s.

Definition slash : list Z := [47].

Lemma trim_start_id p s : starts_with p s = false -> trim_start_matches p s = s.
Proof.
  intros H. unfold trim_start_matches. destruct (length s); simpl; [done|]. by rewrite H.
Qed.

Lemma trim_end_id p s : ends_with p s = false -> trim_end_matches p s = s.
Proof.
  intros H. unfold trim_end_matches. rewrite trim_start_id by exact H. apply rev_involutive.
Qed.

Lemma utf8_ascii s : Forall (fun b => 0 <= b < 0x80) s -> utf8 s = true.
Proof.
  unfold utf8. induction 1 as [|b s Hb Hs IH]; [done|]. cbn [length utf8_fuel]. by decide_tests.
Qed.

(** * The interface *)

Inductive FileType := File | Directory.

Record DirEntry := mkDirEntry { name : list Z; file_type : FileType; size : Z }.

Record DirIter := mkDirIter { entries : list DirEntry; pos : Z }.

Definition new (entries : list DirEntry) : DirIter := mkDirIter entries 0.

Definition next (it : DirIter) : outcome (option DirEntry * DirIter) :=
  if pos it <? zlen (entries it) then
    entry ← arr_get (entries it) (pos it);
    Ret (Some entry, mkDirIter (entries it) (pos it ⊞ 1))
  else Ret (None, it).

Class FileSystem (F : Type) := {
  read : F -> list Z -> outcome (option (list Z));
  exists_ : F -> list Z -> outcome bool;
  list_dir : F -> list Z -> outcome (option DirIter);
}.

(** [n] calls of [next]. *)
Fixpoint take_next (n : nat) (it : DirIter) : outcome (list (option DirEntry) * DirIter) :=
  match n with
  | O => Ret ([], it)
  | S n => '(e, it) ← next it; '(es, it) ← take_next n it; Ret (e :: es, it)
  end.

Lemma next_at es i : 0 <= i -> zlen es < 2 ^ 64 ->
  next (mkDirIter es i) = Ret (zget es i, mkDirIter es (if i <? zlen es then i + 1 else i)).
Proof.
  intros Hi Hlen. unfold next. simpl. case_ltb.
  - destruct (zget_is_Some es i) as [e He]; [lia|]. unfold arr_get. rewrite He. simpl.
    rewrite wadd_small by (unfold in_word; lia). done.
  - by rewrite (proj2 (zget_None es i)) by lia.
Qed.

(** The iterator yields the entries in order and [None] from then on. *)
Lemma take_next_spec n es i : 0 <= i <= zlen es -> zlen es < 2 ^ 64 ->
  exists it, take_next n (mkDirIter es i) = Ret ((fun k => zget es k) <$> zseq i n, it).
Proof.
  intros Hi Hlen. revert i Hi. induction n as [|n IH]; intros i Hi; simpl; [by eexists|].
  rewrite next_at by (done || lia). simpl. destruct (Z.ltb_spec i (zlen es)) as [Hlt|Hge].
  - destruct (IH (i + 1)) as [it Ht]; [lia|]. rewrite Ht. by exists it.
  - assert (i = zlen es) as -> by lia.
    assert (forall m k, zlen es <= k -> (fun k => zget es k) <$> zseq k m = replicate m None) as Hnone.
    { induction m as [|m IHm]; intros k Hk; [done|]. cbn [zseq]. rewrite fmap_cons, IHm by lia.
      by rewrite (proj2 (zget_None es k)) by lia. }
    destruct (IH (zlen es)) as [it Ht]; [lia|]. rewrite Ht. exists it. simpl.
    by rewrite !Hnone by lia.
Qed.
