(* ===== verification/Utf8.v ===== *)
(** Strings as bytes and as characters: decoding of UTF-8, which [str::chars]
    does on the bytes a module passes, and its inverse.  [Vfs] has the validity
    check. *)
From Stdlib Require Import String Ascii.
From S2P Require Import Prelude Word Vfs.

(** The bytes of a string literal. *)
Definition text (s : string) : list Z :=
  (fun c => Z.of_N (N_of_ascii c)) <$> list_ascii_of_string s.

(** [(ch << 6) | (byte & CONT_MASK)] *)
Definition acc (ch byte : Z) : Z := Z.lor (wshl 32 ch 6) (Z.land byte 0x3F).

(** The characters of the string; nothing is checked, as [from_utf8_unchecked] leaves it to the
    caller, and a sequence that is cut off is undefined behaviour. *)
Fixpoint chars (s : list Z) : outcome (list Z) :=
  match s with
  | [] => Ret []
  | x :: s =>
      if x <? 128 then cs ← chars s; Ret (x :: cs)
      else
        let init := Z.land x 0x1F in
        match s with
        | [] => Crash UndefinedBehaviour
        | y :: s =>
            if x <? 0xE0 then cs ← chars s; Ret (acc init y :: cs)
            else
              match s with
              | [] => Crash UndefinedBehaviour
              | z :: s =>
                  let y_z := acc (Z.land y 0x3F) z in
                  if x <? 0xF0 then cs ← chars s; Ret (Z.lor (wshl 32 init 12) y_z :: cs)
                  else
                    match s with
                    | [] => Crash UndefinedBehaviour
                    | w :: s =>
                        cs ← chars s; Ret (Z.lor (wshl 32 (Z.land init 7) 18) (acc y_z w) :: cs)
                    end
              end
        end
  end.

(** [char::encode_utf8], by arithmetic. *)
Definition encode_char (c : Z) : list Z :=
  if c <? 0x80 then [c]
  else if c <? 0x800 then [0xC0 + c / 64; 0x80 + c mod 64]
  else if c <? 0x10000 then [0xE0 + c / 4096; 0x80 + c / 64 mod 64; 0x80 + c mod 64]
  else [0xF0 + c / 262144; 0x80 + c / 4096 mod 64; 0x80 + c / 64 mod 64; 0x80 + c mod 64].

Definition encode (cs : list Z) : list Z := mjoin (encode_char <$> cs).

(** A Unicode code point (surrogates included, which are not characters). *)
Definition code_point (c : Z) : Prop := 0 <= c < 0x110000.

Lemma land_mask x k : 0 <= k -> Z.land x (Z.ones k) = x mod 2 ^ k.
Proof. apply Z.land_ones. Qed.

(** A byte with a tag in the high bits. *)
Lemma tagged k t r : 0 <= k -> 0 <= r < 2 ^ k -> Z.land (t * 2 ^ k + r) (Z.ones k) = r.
Proof.
  intros Hk Hr. rewrite land_mask by done. rewrite Z.add_comm, Z.mod_add by lia. by apply Z.mod_small.
Qed.

Lemma cont_bits r : 0 <= r < 64 -> Z.land (0x80 + r) 0x3F = r.
Proof. intros Hr. apply (tagged 6 2 r); lia. Qed.

(** The leading bytes of sequences of two, three and four bytes. *)
Lemma lead_bits r : (0 <= r < 32 -> Z.land (0xC0 + r) 0x1F = r) /\ (0 <= r < 16 -> Z.land (0xE0 + r) 0x1F = r) /\
  (0 <= r < 8 -> Z.land (Z.land (0xF0 + r) 0x1F) 7 = r).
Proof.
  split; [|split]; intros Hr.
  - apply (tagged 5 6 r); lia.
  - apply (tagged 5 7 r); lia.
  - replace (Z.land (0xF0 + r) 0x1F) with (16 + r); [apply (tagged 3 2 r); lia|].
    replace (0xF0 + r) with (7 * 2 ^ 5 + (16 + r)) by lia. symmetry. apply tagged; lia.
Qed.

Lemma join_bits k hi lo : 0 < k < 32 -> 0 <= lo < 2 ^ k -> 0 <= hi -> hi * 2 ^ k < 2 ^ 32 ->
  Z.lor (wshl 32 hi k) lo = hi * 2 ^ k + lo.
Proof.
  intros Hk Hlo Hhi Hr. rewrite wshl_small; [|lia|unfold in_word; lia].
  rewrite Z.lor_comm, lor_shifted; [lia | lia | exact Hlo].
Qed.

Lemma acc_bits ch r : 0 <= r < 64 -> 0 <= ch < 2 ^ 20 -> acc ch (0x80 + r) = ch * 64 + r.
Proof. intros Hr Hch. unfold acc. rewrite cont_bits by done. apply join_bits; lia. Qed.

Lemma chars_char c s : code_point c -> chars (encode_char c ++ s) = (cs ← chars s; Ret (c :: cs)).
Proof.
  intros Hc. unfold code_point, encode_char in *.
  pose proof (Z.div_mod c 64 ltac:(lia)). pose proof (Z.mod_pos_bound c 64 ltac:(lia)).
  pose proof (Z.div_mod (c / 64) 64 ltac:(lia)). pose proof (Z.mod_pos_bound (c / 64) 64 ltac:(lia)).
  pose proof (Z.div_mod (c / 4096) 64 ltac:(lia)). pose proof (Z.mod_pos_bound (c / 4096) 64 ltac:(lia)).
  assert (c / 64 / 64 = c / 4096) as E1 by (by rewrite Z.div_div).
  assert (c / 4096 / 64 = c / 262144) as E2 by (by rewrite Z.div_div).
  rewrite E1 in *. rewrite E2 in *.
  repeat case_ltb; cbn [app chars]; decide_tests; [done|..].
  - rewrite (proj1 (lead_bits (c / 64))) by lia. rewrite acc_bits by lia.
    by replace (c / 64 * 64 + c mod 64) with c by lia.
  - rewrite (proj1 (proj2 (lead_bits (c / 4096)))) by lia. rewrite cont_bits, acc_bits by lia. rewrite join_bits by lia.
    by replace (c / 4096 * 2 ^ 12 + (c / 64 mod 64 * 64 + c mod 64)) with c by lia.
  - rewrite (proj2 (proj2 (lead_bits (c / 262144)))) by lia. rewrite cont_bits, (acc_bits (c / 4096 mod 64)) by lia. rewrite acc_bits by lia. rewrite join_bits by lia.
    by replace (c / 262144 * 2 ^ 18 + ((c / 4096 mod 64 * 64 + c / 64 mod 64) * 64 + c mod 64)) with c by lia.
Qed.

(** Decoding what was encoded. *)
Lemma chars_encode cs : Forall code_point cs -> chars (encode cs) = Ret cs.
Proof.
  induction 1 as [|c cs Hc Hcs IH]; [done|].
  change (encode (c :: cs)) with (encode_char c ++ encode cs). by rewrite chars_char, IH.
Qed.

Lemma encode_ascii cs : Forall (fun c => 0 <= c < 128) cs -> encode cs = cs.
Proof.
  induction 1 as [|c cs Hc Hcs IH]; [done|]. change (encode (c :: cs)) with (encode_char c ++ encode cs).
  rewrite IH. unfold encode_char. by decide_tests.
Qed.
