(* ===== verification/Initrd.v ===== *)
(** The initial RAM disk, [src/kern/fs/initrd.rs]: a tar archive parsed into a
    table of at most 64 entries. *)
From S2P Require Import Prelude Word Vfs.

Definition MAX_ENTRIES : Z := 64.

Record TarEntry := mkTarEntry { name : list Z; data : list Z; is_dir : bool }.

#[export] Instance TarEntry_eq_dec : EqDecision TarEntry.
Proof. solve_decision. Defined.

Record TarFs := mkTarFs { entries : list (option TarEntry); count : Z }.

Fixpoint octal_loop (val : Z) (data : list Z) : Z :=
  match data with
  | [] => val
  | b :: data =>
      if (b =? 0) || (b =? 32) then val else octal_loop (val ⊠ 8 ⊞ wsub 8 b 48) data
  end.

Definition parse_octal (data : list Z) : Z := octal_loop 0 data.

(** [iter().position(|&b| b == 0)] *)
Fixpoint position_nul (l : list Z) (i : Z) : option Z :=
  match l with
  | [] => None
  | b :: l => if b =? 0 then Some i else position_nul l (i + 1)
  end.

(** The [while] loop of [parse]. *)
Fixpoint parse_loop (fuel : nat) (archive : list Z) (es : list (option TarEntry)) (count offset : Z)
    : outcome (option TarFs) :=
  match fuel with
  | O => Crash OutOfFuel
  | S fuel' =>
      if (offset ⊞ 512 <=? zlen archive) && (count <? MAX_ENTRIES) then
        b ← arr_get archive offset;
        if b =? 0 then Ret (Some (mkTarFs es count))
        else
          header ← slice archive offset (offset ⊞ 512);
          name_field ← slice header 0 100;
          let name_end := default 100 (position_nul name_field 0) in
          nm ← slice header 0 name_end;
          if negb (utf8 nm) then Ret None
          else
            let nm := trim_start_matches [46; 47] nm in
            if decide (nm = []) then
              field ← slice header 124 136;
              let size := parse_octal field in
              let blocks := (size ⊞ 511) / 512 in
              parse_loop fuel' archive es count (offset ⊞ (512 ⊞ blocks ⊠ 512))
            else
              typeflag ← arr_get header 156;
              let is_dir := (typeflag =? 53) || ends_with slash nm in
              field ← slice header 124 136;
              let size := if is_dir then 0 else parse_octal field in
              let data_start := offset ⊞ 512 in
              d ← (if is_dir then Ret [] else slice archive data_start (data_start ⊞ size));
              es ← arr_set es count (Some (mkTarEntry nm d is_dir));
              let blocks := (size ⊞ 511) / 512 in
              parse_loop fuel' archive es (count ⊞ 1) (data_start ⊞ blocks ⊠ 512)
      else Ret (Some (mkTarFs es count))
  end.

(** Every round advances by at least one block of the archive. *)
Definition parse_fuel (archive : list Z) : nat := S (length archive / 512).

Definition parse (archive : list Z) : outcome (option TarFs) :=
  parse_loop (parse_fuel archive) archive (replicate (Z.to_nat MAX_ENTRIES) None) 0 0.

(** The loop of [find] over the first [n] slots from [i]. *)
Fixpoint find_loop (n : nat) (i : Z) (path : list Z) (fs : TarFs) : outcome (option TarEntry) :=
  match n with
  | O => Ret None
  | S n =>
      e ← arr_get (entries fs) i;
      match e with
      | Some entry =>
          if decide (trim_end_matches slash (name entry) = path) then Ret (Some entry)
          else find_loop n (i + 1) path fs
      | None => find_loop n (i + 1) path fs
      end
  end.

Definition find (fs : TarFs) (path : list Z) : outcome (option TarEntry) :=
  find_loop (Z.to_nat (count fs)) 0 (trim_start_matches slash path) fs.

Definition fs_read (fs : TarFs) (path : list Z) : outcome (option (list Z)) :=
  e ← find fs path;
  match e with
  | None => Ret None
  | Some entry => Ret (if is_dir entry then None else Some (data entry))
  end.

Definition fs_exists (fs : TarFs) (path : list Z) : outcome bool :=
  e ← find fs path; Ret (match e with Some _ => true | None => false end).

Definition fs_list (fs : TarFs) (path : list Z) : outcome (option DirIter) := Ret None.

#[export] Instance tar_file_system : FileSystem TarFs :=
  {| read := fs_read; exists_ := fs_exists; list_dir := fs_list |}.

(** The callback of [for_each_matching] updates a state of type [S]. *)
Fixpoint each_loop {S} (n : nat) (i : Z) (prefix suffix : list Z) (f : list Z -> list Z -> S -> S)
    (fs : TarFs) (s : S) : outcome S :=
  match n with
  | O => Ret s
  | Datatypes.S n =>
      e ← arr_get (entries fs) i;
      let s := match e with
        | Some entry =>
            if is_dir entry then s
            else
              let nm := trim_end_matches slash (name entry) in
              if starts_with prefix nm && ends_with suffix nm then f nm (data entry) s else s
        | None => s
        end in
      each_loop n (i + 1) prefix suffix f fs s
  end.

Definition for_each_matching {S} (prefix suffix : list Z) (f : list Z -> list Z -> S -> S)
    (fs : TarFs) (s : S) : outcome S :=
  each_loop (Z.to_nat (count fs)) 0 (trim_start_matches slash prefix) suffix f fs s.

(** * Sizes *)

Lemma octal_loop_range val data k : 0 <= val -> 7 * val + 255 <= 256 * 8 ^ k -> 0 <= k -> k + zlen data <= 17 ->
  Forall (in_word 8) data ->
  0 <= octal_loop val data /\ 7 * octal_loop val data + 255 <= 256 * 8 ^ (k + zlen data).
Proof.
  intros H0 Hv Hk Hlen Hd. revert val k H0 Hv Hk Hlen. induction Hd as [|b data Hb Hd IH];
    intros val k H0 Hv Hk Hlen; simpl.
  - by rewrite Z.add_0_r.
  - rewrite zlen_cons in *. pose proof (zlen_nonneg data).
    assert (8 ^ k <= 8 ^ (k + (zlen data + 1))) by (apply Z.pow_le_mono_r; lia).
    assert (8 ^ k <= 8 ^ 16) by (apply Z.pow_le_mono_r; lia).
    destruct ((b =? 0) || (b =? 32)); [lia|].
    assert (in_word 8 (wsub 8 b 48)) as [Hw1 Hw2] by (by apply wrap_in_word).
    rewrite wmul_small, wadd_small by (unfold in_word; lia).
    replace (k + (zlen data + 1)) with (k + 1 + zlen data) by lia.
    apply IH; [lia | | lia | lia]. rewrite Z.pow_add_r by lia. pose proof (Z.pow_pos_nonneg 8 k). lia.
Qed.

Lemma parse_octal_range data : zlen data <= 12 -> Forall (in_word 8) data ->
  0 <= parse_octal data < 2 ^ 46.
Proof.
  intros Hl Hd. unfold parse_octal.
  destruct (octal_loop_range 0 data 0) as [H1 H2]; [lia | lia | lia | lia | done|].
  assert (8 ^ (0 + zlen data) <= 8 ^ 12) by (apply Z.pow_le_mono_r; lia). lia.
Qed.

Lemma position_nul_range l i k : position_nul l i = Some k -> i <= k < i + zlen l.
Proof.
  revert i. induction l as [|b l IH]; intros i; simpl; [done|]. rewrite zlen_cons.
  pose proof (zlen_nonneg l). destruct (b =? 0); [intros [= <-]; lia|]. intros Hk%IH. lia.
Qed.

Lemma name_end_range l : zlen l = 100 -> 0 <= default 100 (position_nul l 0) <= 100.
Proof.
  intros Hl. destruct (position_nul l 0) as [k|] eqn:Hk; simpl; [|lia].
  apply position_nul_range in Hk. lia.
Qed.

(** The next offset does not wrap and advances. *)
Lemma next_offset offset size : 0 <= offset < 2 ^ 62 -> 0 <= size < 2 ^ 46 ->
  let blocks := (size ⊞ 511) / 512 in
  offset ⊞ 512 ⊞ blocks ⊠ 512 = offset + 512 + (size + 511) / 512 * 512 /\
  offset ⊞ (512 ⊞ blocks ⊠ 512) = offset + 512 + (size + 511) / 512 * 512 /\
  0 <= (size + 511) / 512 * 512 < 2 ^ 47.
Proof.
  intros Ho Hs. simpl. rewrite (wadd_small 64 size 511) by (unfold in_word; lia).
  pose proof (Z.div_mod (size + 511) 512). pose proof (Z.mod_pos_bound (size + 511) 512).
  rewrite (wmul_small 64) by (unfold in_word; lia).
  rewrite !(wadd_small 64) by (unfold in_word; rewrite ?(wadd_small 64) by (unfold in_word; lia); lia).
  lia.
Qed.

(** * Totality *)

Definition archive_ok (archive : list Z) : Prop :=
  zlen archive < 2 ^ 62 /\ Forall (in_word 8) archive.

Definition table_ok (es : list (option TarEntry)) (count : Z) : Prop :=
  zlen es = MAX_ENTRIES /\ 0 <= count <= MAX_ENTRIES /\
  forall i, 0 <= i < count -> exists e, zget es i = Some (Some e).

Lemma table_insert es count e : table_ok es count -> count < MAX_ENTRIES ->
  arr_set es count (Some e) = Ret (zset es count (Some e)) /\
  table_ok (zset es count (Some e)) (count + 1).
Proof.
  intros (Hl & Hc & He) Hlt. split; [apply arr_set_ok; lia|]. split; [by rewrite zlen_zset|].
  split; [lia|]. intros i Hi. destruct (decide (i = count)) as [->|Hne].
  - rewrite zget_zset_eq by lia. by eexists.
  - rewrite zget_zset_ne by done. apply He. lia.
Qed.

Definition parse_post (r : outcome (option TarFs)) : Prop :=
  r = Crash IndexPanic \/ r = Ret None \/
  exists fs, r = Ret (Some fs) /\ table_ok (entries fs) (count fs).

Lemma parse_loop_total fuel archive es count offset : archive_ok archive ->
  table_ok es count -> 0 <= offset < 2 ^ 63 -> zlen archive - offset < 512 * Z.of_nat fuel ->
  (0 < fuel)%nat ->
  parse_post (parse_loop fuel archive es count offset).
Proof.
  intros [Hlen Hbytes]. revert es count offset. induction fuel as [|fuel IH];
    intros es count offset Hes Ho Hf Hpos; [lia|]. cbn [parse_loop].
  rewrite (wadd_small 64 offset 512) by (unfold in_word; lia).
  destruct (Z.leb_spec (offset + 512) (zlen archive)) as [Hin|]; cbn [andb].
  2: { right. right. by eexists. }
  destruct (Z.ltb_spec count MAX_ENTRIES) as [Hcnt|].
  2: { right. right. by eexists. }
  destruct (zget_is_Some archive offset) as [b Hb]; [lia|].
  rewrite (proj2 (arr_get_Ret _ _ _) Hb), bind_ret.
  destruct (b =? 0); [right; right; by eexists|].
  rewrite (slice_ok archive offset), bind_ret by lia. replace (offset + 512 - offset) with 512 by lia.
  set (header := sub archive offset 512).
  assert (zlen header = 512) as Hh by (apply sub_len; lia).
  assert (Forall (in_word 8) header) as Hhb by (by apply Forall_sub).
  rewrite (slice_ok header 0 100), bind_ret by lia.
  pose proof (name_end_range (sub header 0 (100 - 0))) as Hne.
  rewrite sub_len in Hne by lia. specialize (Hne eq_refl).
  rewrite (slice_ok header 0), bind_ret by lia.
  destruct (negb (utf8 _)); [right; by left|].
  assert (forall sz, 0 <= sz < 2 ^ 46 -> zlen archive - (offset + 512 + (sz + 511) / 512 * 512) < 512 * Z.of_nat fuel
     /\ 0 <= offset + 512 + (sz + 511) / 512 * 512 < 2 ^ 63) as Hnext.
  { intros sz Hsz. destruct (next_offset offset sz) as (_ & _ & Hr); [lia | done|]. lia. }
  assert (0 <= parse_octal (sub header 124 (136 - 124)) < 2 ^ 46) as Hsz.
  { apply parse_octal_range; [rewrite sub_len by lia; lia | by apply Forall_sub]. }
  assert (fuel <> O) as Hfuel by (intros ->; simpl in Hf; lia).
  set (nm := trim_start_matches [46; 47] (sub header 0 (default 100 (position_nul (sub header 0 (100 - 0)) 0) - 0))).
  case_decide.
  - rewrite (slice_ok header 124 136), bind_ret by lia.
    destruct (next_offset offset (parse_octal (sub header 124 (136 - 124)))) as (_ & -> & _); [lia | done|].
    destruct (Hnext _ Hsz). apply IH; done || lia.
  - destruct (zget_is_Some header 156) as [tf Htf]; [lia|].
    rewrite (proj2 (arr_get_Ret _ _ _) Htf), bind_ret. rewrite (slice_ok header 124 136), bind_ret by lia.
    set (dir := (tf =? 53) || ends_with slash nm).
    set (size := if dir then 0 else parse_octal (sub header 124 (136 - 124))).
    assert (0 <= size < 2 ^ 46) as Hsize by (subst size; destruct dir; lia).
    destruct (if dir then Ret [] else slice archive (offset + 512) ((offset + 512) ⊞ size)) as [d|c] eqn:Hd.
    2: { destruct dir; [done|]. unfold slice in Hd. destruct (_ && _); [done|].
         injection Hd as <-. by left. }
    rewrite bind_ret. destruct (table_insert es count (mkTarEntry nm d dir) Hes Hcnt)
      as [-> Hes'].
    rewrite bind_ret. destruct Hes as (_ & Hc0 & _).
    rewrite (wadd_small 64 count 1) by (unfold in_word, MAX_ENTRIES in *; lia).
    destruct (next_offset offset size) as (Hoff & _ & _); [lia | done|].
    rewrite (wadd_small 64 offset 512) in Hoff by (unfold in_word; lia). simpl in Hoff. rewrite Hoff.
    destruct (Hnext _ Hsize). apply IH; done || lia.
Qed.

(** For every byte string below 2^62 bytes [parse] terminates: it returns
    [None] (a name is not UTF-8), or a file system whose first [count] of 64
    slots are filled, or it panics on a slice index, which happens only when a
    file's declared size runs past the archive; it never overruns the table and
    its offset never wraps around. *)
Theorem parse_total archive : zlen archive < 2 ^ 62 -> Forall (in_word 8) archive ->
  parse archive = Crash IndexPanic \/ parse archive = Ret None \/
  exists fs, parse archive = Ret (Some fs) /\ zlen (entries fs) = MAX_ENTRIES /\
    0 <= count fs <= MAX_ENTRIES /\
    forall i, 0 <= i < count fs -> exists e, zget (entries fs) i = Some (Some e).
Proof.
  intros Hlen Hb.
  destruct (parse_loop_total (parse_fuel archive) archive
    (replicate (Z.to_nat MAX_ENTRIES) None) 0 0) as [H|[H|(fs & H & Ht)]].
  - by split.
  - split; [reflexivity|]. split; [unfold MAX_ENTRIES; lia|]. intros i Hi. lia.
  - lia.
  - unfold parse_fuel, zlen. pose proof (Nat.div_mod_eq (length archive) 512).
    pose proof (Nat.mod_upper_bound (length archive) 512). lia.
  - unfold parse_fuel. lia.
  - by left.
  - right. by left.
  - right. right. by exists fs.
Qed.

(** * Archives *)

(** A member of an archive; the header fields the parser does not read are
    arbitrary. *)
Record Item := mkItem {
  i_name : list Z; i_data : list Z; i_dir : bool;
  i_mode : list Z; i_time : list Z; i_rest : list Z;
}.

(** The size field: eleven octal digits. *)
Fixpoint octal (n : nat) (v : Z) : list Z :=
  match n with
  | O => []
  | S n => octal n (v / 8) ++ [48 + v mod 8]
  end.

Definition zeros (n : Z) : list Z := replicate (Z.to_nat n) 0.

Definition header (it : Item) : list Z :=
  i_name it ++ zeros (100 - zlen (i_name it)) ++ i_mode it ++ (octal 11 (zlen (i_data it)) ++ [0]) ++
  i_time it ++ [if i_dir it then 53 else 48] ++ i_rest it.

Definition padding (n : Z) : Z := (n + 511) / 512 * 512 - n.

Definition encode (it : Item) : list Z :=
  header it ++ i_data it ++ zeros (padding (zlen (i_data it))).

Definition archive_of (items : list Item) : list Z := mjoin (encode <$> items) ++ zeros 1024.

Record item_ok (it : Item) : Prop := {
  ok_name : 0 < zlen (i_name it) <= 100;
  ok_bytes : Forall (fun b => b <> 0) (i_name it);
  ok_utf8 : utf8 (i_name it) = true;
  ok_plain : starts_with [46; 47] (i_name it) = false;
  ok_kind : if i_dir it then i_data it = [] else ends_with slash (i_name it) = false;
  ok_size : zlen (i_data it) < 8 ^ 11;
  ok_mode : zlen (i_mode it) = 24;
  ok_time : zlen (i_time it) = 20;
  ok_rest : zlen (i_rest it) = 355;
}.

Definition entry_of (it : Item) : TarEntry := mkTarEntry (i_name it) (i_data it) (i_dir it).

Lemma octal_len n v : zlen (octal n v) = Z.of_nat n.
Proof.
  revert v. induction n as [|n IH]; intros v; simpl octal; [done|].
  rewrite zlen_app, IH. change (zlen [48 + v mod 8]) with 1. lia.
Qed.

Lemma octal_loop_digits n v val rest : 0 <= val -> 0 <= v < 8 ^ Z.of_nat n ->
  val * 8 ^ Z.of_nat n + v < 2 ^ 64 ->
  octal_loop val (octal n v ++ rest) = octal_loop (val * 8 ^ Z.of_nat n + v) rest.
Proof.
  revert v rest. induction n as [|n IH]; intros v rest Hval Hv Hlt; cbn [octal].
  - simpl in *. f_equal. lia.
  - rewrite Nat2Z.inj_succ, Z.pow_succ_r in * by lia. rewrite <- app_assoc.
    pose proof (Z.div_mod v 8). pose proof (Z.mod_pos_bound v 8).
    pose proof (Z.pow_pos_nonneg 8 (Z.of_nat n)).
    rewrite IH; [|done| |nia].
    + cbn [app octal_loop]. decide_tests. cbn [orb].
      rewrite (wsub_small 8) by (unfold in_word; lia).
      rewrite (wmul_small 64) by (unfold in_word; nia).
      rewrite wadd_small by (unfold in_word; nia). f_equal. lia.
    + split; [apply Z.div_pos; lia | apply Z.div_lt_upper_bound; lia].
Qed.

Lemma parse_octal_field v : 0 <= v < 8 ^ 11 -> parse_octal (octal 11 v ++ [0]) = v.
Proof. intros Hv. unfold parse_octal. rewrite octal_loop_digits; simpl; lia. Qed.

Lemma zlen_zeros n : 0 <= n -> zlen (zeros n) = n.
Proof. intros Hn. unfold zeros. rewrite zlen_replicate. lia. Qed.

Lemma header_len it : item_ok it -> zlen (header it) = 512.
Proof.
  intros Hok. destruct Hok. unfold header.
  rewrite !zlen_app, octal_len, zlen_zeros by lia. change (zlen [0]) with 1.
  change (zlen [if i_dir it then 53 else 48]) with 1. lia.
Qed.

Lemma position_nul_app l n i : Forall (fun b => b <> 0) l ->
  position_nul (l ++ zeros n) i = if 0 <? n then Some (i + zlen l) else None.
Proof.
  intros Hl. revert i. induction Hl as [|b l Hb Hl IH]; intros i.
  - simpl. unfold zeros. case_ltb.
    + destruct (Z.to_nat n) eqn:Hn; [lia|]. simpl. f_equal. unfold zlen. simpl. lia.
    + by replace (Z.to_nat n) with O by lia.
  - cbn [app position_nul]. rewrite (proj2 (Z.eqb_neq b 0) Hb), IH, zlen_cons.
    destruct (0 <? n); [|done]. f_equal. lia.
Qed.

Lemma padding_end n : n + padding n = (n + 511) / 512 * 512.
Proof. unfold padding. lia. Qed.

Lemma padding_nonneg n : 0 <= n -> 0 <= padding n.
Proof.
  intros Hn. unfold padding. pose proof (Z.div_mod (n + 511) 512). pose proof (Z.mod_pos_bound (n + 511) 512).
  lia.
Qed.

Lemma name_head it : item_ok it -> exists b nm, i_name it = b :: nm /\ b <> 0.
Proof.
  intros Hok. pose proof (ok_name it Hok) as Hn. pose proof (ok_bytes it Hok) as Hb.
  revert Hn Hb. destruct (i_name it) as [|b nm]; intros Hn Hb; [unfold zlen in Hn; simpl in Hn; lia|].
  apply Forall_cons in Hb as [Hb _]. by exists b, nm.
Qed.

(** The fields of a header, as the parser slices them. *)
Lemma header_fields it : item_ok it ->
  (exists tl, header it = [] ++ (i_name it ++ zeros (100 - zlen (i_name it))) ++ tl) /\
  (exists tl, header it = [] ++ i_name it ++ tl) /\
  (exists hd tl, header it = hd ++ (octal 11 (zlen (i_data it)) ++ [0]) ++ tl /\ zlen hd = 124) /\
  (exists hd tl, header it = hd ++ (if i_dir it then 53 else 48) :: tl /\ zlen hd = 156).
Proof.
  intros Hok. destruct Hok. unfold header. split_and!.
  - eexists. cbn [app]. rewrite app_assoc. reflexivity.
  - by eexists.
  - exists (i_name it ++ zeros (100 - zlen (i_name it)) ++ i_mode it). eexists.
    split; [by rewrite <- !app_assoc|]. rewrite !zlen_app, zlen_zeros by lia. lia.
  - exists (i_name it ++ zeros (100 - zlen (i_name it)) ++ i_mode it ++
      (octal 11 (zlen (i_data it)) ++ [0]) ++ i_time it). exists (i_rest it).
    split; [by rewrite <- !app_assoc|]. rewrite !zlen_app, octal_len, zlen_zeros by lia.
    change (zlen [0]) with 1. lia.
Qed.

(** What the slices of one header are. *)
Lemma header_slices it : item_ok it ->
  (exists f, slice (header it) 0 100 = Ret f /\ slice (header it) 0 (default 100 (position_nul f 0)) =
     Ret (i_name it)) /\
  (exists f, slice (header it) 124 136 = Ret f /\ parse_octal f = zlen (i_data it)) /\
  arr_get (header it) 156 = Ret (if i_dir it then 53 else 48).
Proof.
  intros Hok. destruct (header_fields it Hok) as ((t1 & H1) & (t2 & H2) & (h3 & t3 & H3 & L3) & (h4 & t4 & H4 & L4)).
  destruct Hok. split_and!.
  - exists (i_name it ++ zeros (100 - zlen (i_name it))). split.
    + eapply slice_mid; [exact H1 | done |]. rewrite zlen_app, zlen_zeros by lia. lia.
    + rewrite position_nul_app by done. eapply slice_mid; [exact H2 | done |].
      case_ltb; simpl; lia.
  - eexists. split.
    + eapply slice_mid; [exact H3 | done |]. rewrite zlen_app, octal_len. change (zlen [0]) with 1. lia.
    + apply parse_octal_field. pose proof (zlen_nonneg (i_data it)). lia.
  - by eapply arr_get_mid.
Qed.

(** One round of the loop reads one member. *)
Lemma parse_loop_item fuel pre it rest es count : item_ok it ->
  zlen (pre ++ encode it ++ rest) < 2 ^ 62 -> table_ok es count -> count < MAX_ENTRIES ->
  parse_loop (S fuel) (pre ++ encode it ++ rest) es count (zlen pre) =
  parse_loop fuel (pre ++ encode it ++ rest) (zset es count (Some (entry_of it))) (count + 1)
    (zlen (pre ++ encode it)).
Proof.
  intros Hok Hlen Htab Hcnt. set (archive := pre ++ encode it ++ rest) in *.
  pose proof (header_len it Hok) as Hh. pose proof Hok as [Hn Hnz Hu Hpl Hk Hsz Hm1 Hm2 Hm3].
  pose proof (zlen_nonneg pre) as Hp0. pose proof (zlen_nonneg rest) as Hr0.
  pose proof (zlen_nonneg (i_data it)) as Hd0. pose proof (padding_nonneg _ Hd0) as Hpad.
  assert (zlen archive = zlen pre + (512 + zlen (i_data it) + padding (zlen (i_data it))) + zlen rest) as Hal.
  { subst archive. unfold encode. rewrite !zlen_app, Hh, zlen_zeros by done. lia. }
  destruct (name_head it Hok) as (b0 & nm0 & Hnm & Hb0).
  cbn [parse_loop]. rewrite (wadd_small 64 (zlen pre) 512) by (unfold in_word; lia).
  decide_tests. cbn [andb].
  rewrite (arr_get_mid archive pre (nm0 ++ drop (length (i_name it)) (header it) ++ i_data it ++
    zeros (padding (zlen (i_data it))) ++ rest) b0), bind_ret; [|subst archive | done].
  2: { unfold encode, header. rewrite drop_app_length, Hnm. by rewrite <- !app_assoc. }
  rewrite (proj2 (Z.eqb_neq b0 0) Hb0).
  rewrite (slice_mid archive pre (header it) (i_data it ++ zeros (padding (zlen (i_data it))) ++ rest)),
    bind_ret; [|subst archive; unfold encode; by rewrite <- !app_assoc | done | by rewrite Hh].
  destruct (header_slices it Hok) as ((f1 & -> & Hs2) & (f3 & Hs3 & Hoct) & Htf).
  rewrite bind_ret, Hs2, bind_ret, Hu. cbn [negb]. rewrite trim_start_id by done.
  rewrite decide_False by (by rewrite Hnm).
  rewrite Htf, bind_ret, Hs3, bind_ret.
  assert (((if i_dir it then 53 else 48) =? 53) || ends_with slash (i_name it) = i_dir it) as ->.
  { destruct (i_dir it); [done | exact Hk]. }
  assert ((if i_dir it then 0 else parse_octal f3) = zlen (i_data it)) as ->.
  { destruct (i_dir it); [by rewrite Hk | done]. }
  rewrite (wadd_small 64 (zlen pre + 512) (zlen (i_data it))) by (unfold in_word; lia).
  assert ((if i_dir it then Ret [] else slice archive (zlen pre + 512) (zlen pre + 512 + zlen (i_data it)))
    = Ret (i_data it)) as ->.
  { destruct (i_dir it); [by rewrite Hk|]. apply (slice_mid _ (pre ++ header it) _
      (zeros (padding (zlen (i_data it))) ++ rest)); [|rewrite zlen_app; lia | done].
    subst archive. unfold encode. by rewrite <- !app_assoc. }
  rewrite bind_ret. fold (entry_of it). destruct (table_insert es count (entry_of it) Htab Hcnt) as [-> _].
  rewrite bind_ret. destruct Htab as (_ & Hc0 & _).
  rewrite (wadd_small 64 count 1) by (unfold in_word, MAX_ENTRIES in *; lia).
  destruct (next_offset (zlen pre) (zlen (i_data it))) as (Hoff & _ & _); [lia | lia|].
  rewrite (wadd_small 64 (zlen pre) 512) in Hoff by (unfold in_word; lia).
  cbv zeta in Hoff. rewrite Hoff. f_equal.
  unfold encode. rewrite !zlen_app, Hh, zlen_zeros by done. pose proof (padding_end (zlen (i_data it))). lia.
Qed.

(** The table while the members [done_] have been read. *)
Definition table_of (items : list Item) : list (option TarEntry) :=
  (Some ∘ entry_of <$> items) ++ replicate (Z.to_nat (MAX_ENTRIES - zlen items)) None.

Lemma table_of_len items : zlen items <= MAX_ENTRIES -> zlen (table_of items) = MAX_ENTRIES.
Proof.
  intros Hn. unfold table_of. rewrite zlen_app, zlen_replicate. unfold zlen in *.
  rewrite length_fmap. lia.
Qed.

Lemma table_of_get items i : 0 <= i < zlen items ->
  zget (table_of items) i = Some <$> (entry_of <$> zget items i).
Proof.
  intros Hi. unfold table_of, zget, zlen in *. decide_tests.
  rewrite lookup_app_l by (rewrite length_fmap; lia). rewrite list_lookup_fmap.
  by destruct (items !! _).
Qed.

Lemma table_of_ok items : zlen items <= MAX_ENTRIES -> table_ok (table_of items) (zlen items).
Proof.
  intros Hn. pose proof (zlen_nonneg items). split; [by apply table_of_len|]. split; [lia|].
  intros i Hi. rewrite table_of_get by done. destruct (zget_is_Some items i Hi) as [it ->].
  by eexists.
Qed.

Lemma table_of_snoc items it : zlen items < MAX_ENTRIES ->
  zset (table_of items) (zlen items) (Some (entry_of it)) = table_of (items ++ [it]).
Proof.
  intros Hn. unfold table_of, zset, zlen in *. decide_tests. rewrite Nat2Z.id.
  rewrite insert_app_r_alt by (by rewrite length_fmap). rewrite length_fmap, Nat.sub_diag.
  rewrite fmap_app, <- app_assoc, length_app. f_equal.
  replace (Z.to_nat (MAX_ENTRIES - Z.of_nat (length items)))
    with (S (Z.to_nat (MAX_ENTRIES - Z.of_nat (length items + length [it])))) by (simpl; lia).
  done.
Qed.

Lemma parse_loop_items items done_ fuel : Forall item_ok items ->
  zlen (done_ ++ items) <= MAX_ENTRIES -> (length items < fuel)%nat ->
  zlen (archive_of (done_ ++ items)) < 2 ^ 62 ->
  parse_loop fuel (archive_of (done_ ++ items)) (table_of done_) (zlen done_)
    (zlen (mjoin (encode <$> done_))) = Ret (Some (mkTarFs (table_of (done_ ++ items)) (zlen (done_ ++ items)))).
Proof.
  intros Hok. revert done_ fuel. induction Hok as [|it items Hit Hok IH]; intros done_ fuel Hn Hf Hlen.
  - rewrite app_nil_r in *. destruct fuel as [|fuel]; [simpl in Hf; lia|]. cbn [parse_loop].
    unfold archive_of in *. rewrite zlen_app, zlen_zeros in Hlen by lia.
    pose proof (zlen_nonneg (mjoin (encode <$> done_))).
    rewrite (wadd_small 64) by (unfold in_word; lia). rewrite zlen_app, zlen_zeros by lia.
    decide_tests. cbn [andb]. destruct (zlen done_ <? MAX_ENTRIES); [|done].
    rewrite (arr_get_mid _ (mjoin (encode <$> done_)) (zeros 1023) 0); done.
  - destruct fuel as [|fuel]; [lia|].
    assert (archive_of (done_ ++ it :: items) = mjoin (encode <$> done_) ++ encode it ++
      (mjoin (encode <$> items) ++ zeros 1024)) as Harch.
    { unfold archive_of. rewrite fmap_app, join_app. csimpl. by rewrite <- !app_assoc. }
    assert (zlen done_ < MAX_ENTRIES) as Hd.
    { rewrite zlen_app, zlen_cons in Hn. pose proof (zlen_nonneg items). lia. }
    rewrite Harch, parse_loop_item; [|done | by rewrite <- Harch | by apply table_of_ok; lia | done].
    rewrite <- Harch, table_of_snoc by done.
    replace (done_ ++ it :: items) with ((done_ ++ [it]) ++ items) in * by (by rewrite <- app_assoc).
    replace (zlen done_ + 1) with (zlen (done_ ++ [it])) by (by rewrite zlen_app).
    replace (mjoin (encode <$> done_) ++ encode it) with (mjoin (encode <$> (done_ ++ [it]))).
    2: { rewrite fmap_app, join_app. csimpl. by rewrite app_nil_r. }
    apply IH; done || (simpl in Hf; lia).
Qed.

Lemma archive_long items : Forall item_ok items ->
  (length items < parse_fuel (archive_of items))%nat.
Proof.
  intros Hok. unfold parse_fuel. apply Nat.lt_succ_r, Nat.div_le_lower_bound; [lia|].
  unfold archive_of. rewrite length_app. enough (512 * length items <= length (mjoin (encode <$> items)))%nat by lia.
  induction Hok as [|it items Hit Hok IH]; csimpl; [lia|]. rewrite length_app.
  pose proof (header_len it Hit) as Hh. unfold zlen in Hh. unfold encode at 1.
  rewrite length_app. lia.
Qed.

(** * Lookups *)

Definition tree_of (items : list Item) : TarFs := mkTarFs (table_of items) (zlen items).

(** The first member with the path, and the calls of [for_each_matching]. *)
Definition spec_find (items : list Item) (path : list Z) : option Item :=
  List.find (fun it => bool_decide (trim_end_matches slash (i_name it) = path)) items.

Definition spec_matches (prefix suffix : list Z) (it : Item) : bool :=
  negb (i_dir it) && starts_with prefix (trim_end_matches slash (i_name it)) &&
  ends_with suffix (trim_end_matches slash (i_name it)).

Lemma tree_slot items done_ it rest : items = done_ ++ it :: rest ->
  arr_get (entries (tree_of items)) (zlen done_) = Ret (Some (entry_of it)).
Proof.
  intros ->. apply arr_get_Ret. simpl. rewrite table_of_get.
  - unfold zget, zlen. decide_tests. rewrite Nat2Z.id.
    change (done_ ++ it :: rest) with (done_ ++ [it] ++ rest).
    rewrite lookup_app_r, Nat.sub_diag by lia. done.
  - rewrite zlen_app, zlen_cons. pose proof (zlen_nonneg rest). pose proof (zlen_nonneg done_). lia.
Qed.

Lemma find_loop_spec items path done_ rest : items = done_ ++ rest ->
  find_loop (length rest) (zlen done_) path (tree_of items) =
  Ret (entry_of <$> spec_find rest path).
Proof.
  revert done_. induction rest as [|it rest IH]; intros done_ ->; [done|].
  cbn [length find_loop]. rewrite (tree_slot _ done_ it rest) by done. rewrite bind_ret.
  cbn [entry_of name spec_find List.find].
  destruct (decide _) as [He|Hne].
  - by rewrite bool_decide_true.
  - rewrite bool_decide_false by done.
    replace (zlen done_ + 1) with (zlen (done_ ++ [it])) by (by rewrite zlen_app).
    rewrite (IH (done_ ++ [it])); [done|]. by rewrite <- app_assoc.
Qed.

Lemma each_loop_spec {S} items prefix suffix (f : list Z -> list Z -> S -> S) done_ rest s :
  items = done_ ++ rest ->
  each_loop (length rest) (zlen done_) prefix suffix f (tree_of items) s =
  Ret (fold_left (fun s it => f (trim_end_matches slash (i_name it)) (i_data it) s)
         (List.filter (spec_matches prefix suffix) rest) s).
Proof.
  revert done_ s. induction rest as [|it rest IH]; intros done_ s ->; [done|].
  cbn [length each_loop]. rewrite (tree_slot _ done_ it rest) by done. rewrite bind_ret.
  replace (zlen done_ + 1) with (zlen (done_ ++ [it])) by (by rewrite zlen_app).
  rewrite (IH (done_ ++ [it])) by (by rewrite <- app_assoc). f_equal.
  cbn [List.filter]. unfold spec_matches at 2. cbn [entry_of is_dir name data].
  destruct (i_dir it); [done|]. simpl. by destruct (_ && _).
Qed.

Lemma archive_parsed items : Forall item_ok items -> zlen items <= MAX_ENTRIES ->
  zlen (archive_of items) < 2 ^ 62 ->
  exists fs, parse (archive_of items) = Ret (Some fs) /\
    (forall path, let it := spec_find items (trim_start_matches slash path) in
       read fs path = Ret (it ← it; if i_dir it then None else Some (i_data it)) /\
       exists_ fs path = Ret (bool_decide (is_Some it))) /\
    (forall S prefix suffix (f : list Z -> list Z -> S -> S) s,
       for_each_matching prefix suffix f fs s =
       Ret (fold_left (fun s it => f (trim_end_matches slash (i_name it)) (i_data it) s)
         (List.filter (spec_matches (trim_start_matches slash prefix) suffix) items) s)).
Proof.
  intros Hok Hn Hlen. exists (tree_of items). split; [|split].
  - unfold parse.
    apply (parse_loop_items items [] (parse_fuel (archive_of items)));
      [done | done | by apply archive_long | done].
  - intros path it. subst it.
    assert (find (tree_of items) path = Ret (entry_of <$> spec_find items (trim_start_matches slash path)))
      as Hf.
    { unfold find. simpl. unfold zlen. rewrite Nat2Z.id. by apply (find_loop_spec items _ [] items). }
    simpl. unfold fs_read, fs_exists. rewrite Hf. simpl.
    destruct (spec_find _ _) as [it|]; simpl; [by destruct (i_dir it) | done].
  - intros S prefix suffix f s. unfold for_each_matching. simpl. unfold zlen. rewrite Nat2Z.id.
    by apply (each_loop_spec items _ _ f [] items).
Qed.


(** A file whose declared size runs past the end of the archive makes
    [parse] panic instead of failing. *)
Theorem truncated_member_panics it k : item_ok it -> i_dir it = false ->
  512 <= k < 512 + zlen (i_data it) -> zlen (i_data it) < 2 ^ 61 ->
  parse (take (Z.to_nat k) (encode it)) = Crash IndexPanic.
Proof.
  intros Hok Hdir Hk Hd. pose proof (header_len it Hok) as Hh.
  set (archive := take (Z.to_nat k) (encode it)).
  assert (archive = header it ++ take (Z.to_nat (k - 512)) (i_data it)) as Harch.
  { subst archive. unfold encode. unfold zlen in *. rewrite take_app_ge by lia. f_equal.
    rewrite take_app_le by lia. f_equal. lia. }
  assert (zlen archive = k) as Hal.
  { rewrite Harch, zlen_app, Hh. unfold zlen in *. rewrite length_take. lia. }
  unfold parse, parse_fuel. cbn [parse_loop]. rewrite (wadd_small 64 0 512) by (unfold in_word; lia).
  decide_tests. cbn [andb Z.ltb Z.compare MAX_ENTRIES].
  destruct (name_head it Hok) as (b0 & nm0 & Hnm & Hb0).
  assert (arr_get archive 0 = Ret b0) as ->.
  { apply (arr_get_mid _ [] (drop 1 archive)); [|done]. rewrite Harch. unfold header. by rewrite Hnm. }
  rewrite bind_ret, (proj2 (Z.eqb_neq b0 0) Hb0).
  rewrite (slice_mid archive [] (header it) (take (Z.to_nat (k - 512)) (i_data it))), bind_ret
    by (done || by rewrite Hh).
  destruct (header_slices it Hok) as ((f1 & -> & Hs2) & (f3 & Hs3 & Hoct) & Htf).
  destruct Hok as [Hn Hnz Hu Hpl Hkind Hsz _ _ _]. rewrite Hdir in *.
  rewrite bind_ret, Hs2, bind_ret, Hu. cbn [negb]. rewrite trim_start_id by done.
  rewrite decide_False by (by rewrite Hnm). rewrite Htf, bind_ret, Hs3, bind_ret, Hkind.
  cbn [Z.eqb Pos.eqb orb]. rewrite Hoct.
  rewrite (wadd_small 64 (0 + 512) (zlen (i_data it))) by (unfold in_word; lia).
  unfold slice. rewrite Hal. decide_tests. done.
Qed.

(** * Witnesses *)

Definition demo_item (nm dat : list Z) (dir : bool) : Item :=
  mkItem nm dat dir (replicate 24 48) (replicate 20 48) (replicate 355 0).

(** [res/], [res/a] with three bytes, [b.ko] with two. *)
Definition demo_items : list Item :=
  [demo_item [114; 101; 115; 47] [] true; demo_item [114; 101; 115; 47; 97] [1; 2; 3] false;
   demo_item [98; 46; 107; 111] [9; 8] false].

Lemma demo_items_ok : Forall item_ok demo_items.
Proof.
  repeat (apply Forall_cons; split; [split; try reflexivity; try done;
    repeat (apply Forall_cons; split; [done|]); by apply Forall_nil|]).
  by apply Forall_nil.
Qed.


Lemma parse_total_witness : zlen (archive_of demo_items) = 3584 /\
  (parse (archive_of demo_items) = Crash IndexPanic \/ parse (archive_of demo_items) = Ret None \/
   exists fs, parse (archive_of demo_items) = Ret (Some fs)).
Proof.
  split; [reflexivity|].
  destruct (parse_total (archive_of demo_items)) as [H|[H|(fs & H & _)]].
  - reflexivity.
  - assert (forallb (fun b => (0 <=? b) && (b <? 256)) (archive_of demo_items) = true) as Hb by reflexivity.
    apply Forall_forall. intros b Hin%list_elem_of_In. rewrite forallb_forall in Hb.
    specialize (Hb b Hin). unfold in_word. apply andb_true_iff in Hb as [H1%Z.leb_le H2%Z.ltb_lt]. lia.
  - by left.
  - right. by left.
  - right. right. by exists fs.
Defined.

Lemma truncated_member_panics_witness :
  parse (take 513 (encode (demo_item [97] [1; 2; 3] false))) = Crash IndexPanic.
Proof.
  apply (truncated_member_panics (demo_item [97] [1; 2; 3] false) 513); try done.
  split; try done. repeat (apply Forall_cons; split; [done|]). by apply Forall_nil.
Defined.
