(* ===== verification/Elf.v ===== *)
(** The module loader, [src/kern/crates/avaria-elf]: validation of the ELF
    header, access to the program headers through a raw slice, and the copying
    of the loadable segments into a buffer. *)
From S2P Require Import Prelude Word.

Definition ELF_MAGIC : list Z := [0x7F; 69; 76; 70].
Definition ELFCLASS64 : Z := 2.
Definition ELFDATA2LSB : Z := 1.
Definition ET_EXEC : Z := 2.
Definition ET_DYN : Z := 3.
Definition EM_X86_64 : Z := 62.
Definition PT_LOAD : Z := 1.

(** [size_of] of the two C structures. *)
Definition HEADER_SIZE : Z := 64.
Definition PHDR_SIZE : Z := 56.

Record Elf64Header := mkHeader {
  e_ident : list Z; e_type : Z; e_machine : Z; e_version : Z; e_entry : Z; e_phoff : Z;
  e_shoff : Z; e_flags : Z; e_ehsize : Z; e_phentsize : Z; e_phnum : Z; e_shentsize : Z;
  e_shnum : Z; e_shstrndx : Z;
}.

Record Elf64Phdr := mkPhdr {
  p_type : Z; p_flags : Z; p_offset : Z; p_vaddr : Z; p_paddr : Z; p_filesz : Z; p_memsz : Z;
  p_align : Z;
}.

Inductive ElfError :=
  | TooSmall | BadMagic | Not64Bit | NotLittleEndian | NotExecutable | NotX86_64 | BadPhdr.

Inductive result (A : Type) := Ok (a : A) | Err (e : ElfError).
Arguments Ok {A} a.
Arguments Err {A} e.

(** The [repr(C)] layouts. *)
Definition header_of_bytes (b : list Z) : Elf64Header :=
  mkHeader (sub b 0 16) (field b 16 2) (field b 18 2) (field b 20 4) (field b 24 8) (field b 32 8)
    (field b 40 8) (field b 48 4) (field b 52 2) (field b 54 2) (field b 56 2) (field b 58 2)
    (field b 60 2) (field b 62 2).

Definition phdr_of_bytes (b : list Z) : Elf64Phdr :=
  mkPhdr (field b 0 4) (field b 4 4) (field b 8 8) (field b 16 8) (field b 24 8) (field b 32 8)
    (field b 40 8) (field b 48 8).

Definition parse_header (data : list Z) : outcome (result Elf64Header) :=
  if zlen data <? HEADER_SIZE then Ret (Err TooSmall)
  else
    let hdr := header_of_bytes (sub data 0 HEADER_SIZE) in
    magic ← slice (e_ident hdr) 0 4;
    if decide (magic <> ELF_MAGIC) then Ret (Err BadMagic)
    else
      class ← arr_get (e_ident hdr) 4;
      if negb (class =? ELFCLASS64) then Ret (Err Not64Bit)
      else
        order ← arr_get (e_ident hdr) 5;
        if negb (order =? ELFDATA2LSB) then Ret (Err NotLittleEndian)
        else if negb (e_type hdr =? ET_EXEC) && negb (e_type hdr =? ET_DYN) then Ret (Err NotExecutable)
        else if negb (e_machine hdr =? EM_X86_64) then Ret (Err NotX86_64)
        else Ret (Ok hdr).

(** The raw slice [from_raw_parts(data + off, count)]. *)
Record Phdrs := mkPhdrs { ph_off : Z; ph_count : Z }.

Definition program_headers (data : list Z) (hdr : Elf64Header) : result Phdrs :=
  let off := e_phoff hdr in
  let count := e_phnum hdr in
  let entry_size := e_phentsize hdr in
  let total := off ⊞ count ⊠ entry_size in
  if (zlen data <? total) || (entry_size <? PHDR_SIZE) then Err BadPhdr
  else Ok (mkPhdrs off count).

(** Reading element [i] of the raw slice: consecutive structures of 56 bytes;
    outside [data] the read is undefined. *)
Definition read_phdr (data : list Z) (s : Phdrs) (i : Z) : outcome Elf64Phdr :=
  let at_ := ph_off s + i * PHDR_SIZE in
  if at_ + PHDR_SIZE <=? zlen data then Ret (phdr_of_bytes (sub data at_ PHDR_SIZE))
  else Crash UndefinedBehaviour.

(** The elements in order. *)
Fixpoint read_phdrs (n : nat) (i : Z) (data : list Z) (s : Phdrs) : outcome (list Elf64Phdr) :=
  match n with
  | O => Ret []
  | S n => p ← read_phdr data s i; ps ← read_phdrs n (i + 1) data s; Ret (p :: ps)
  end.

(** The first loop of [load_at]. *)
Fixpoint span_loop (phdrs : list Elf64Phdr) (vaddr_min vaddr_max : Z) : Z * Z :=
  match phdrs with
  | [] => (vaddr_min, vaddr_max)
  | phdr :: rest =>
      if negb (p_type phdr =? PT_LOAD) then span_loop rest vaddr_min vaddr_max
      else
        let vaddr_min := if p_vaddr phdr <? vaddr_min then p_vaddr phdr else vaddr_min in
        let end_ := p_vaddr phdr ⊞ p_memsz phdr in
        let vaddr_max := if vaddr_max <? end_ then end_ else vaddr_max in
        span_loop rest vaddr_min vaddr_max
  end.

(** [buffer[lo..hi].copy_from_slice(src)] *)
Definition copy_into (buffer : list Z) (lo hi : Z) (src : list Z) : outcome (list Z) :=
  dst ← slice buffer lo hi;
  if zlen dst =? zlen src
  then Ret (take (Z.to_nat lo) buffer ++ src ++ drop (Z.to_nat hi) buffer)
  else Crash IndexPanic.

(** The second loop: the buffer it leaves and whether it finished. *)
Fixpoint copy_loop (phdrs : list Elf64Phdr) (vaddr_min : Z) (data buffer : list Z)
    : outcome (result unit * list Z) :=
  match phdrs with
  | [] => Ret (Ok tt, buffer)
  | phdr :: rest =>
      if negb (p_type phdr =? PT_LOAD) then copy_loop rest vaddr_min data buffer
      else
        let src_off := p_offset phdr in
        let filesz := p_filesz phdr in
        let dst_off := p_vaddr phdr ⊟ vaddr_min in
        if zlen data <? src_off ⊞ filesz then Ret (Err BadPhdr, buffer)
        else
          src ← slice data src_off (src_off ⊞ filesz);
          buffer ← copy_into buffer dst_off (dst_off ⊞ filesz) src;
          copy_loop rest vaddr_min data buffer
  end.

Record LoadedElf := mkLoaded { entry : Z; load_base : Z; load_size : Z }.

(** [base] is the address of [buffer]; the new contents of the buffer are
    returned with the result. *)
Definition load_at (data buffer : list Z) (base : Z) : outcome (result LoadedElf * list Z) :=
  h ← parse_header data;
  match h with
  | Err e => Ret (Err e, buffer)
  | Ok hdr =>
      match program_headers data hdr with
      | Err e => Ret (Err e, buffer)
      | Ok s =>
          phdrs ← read_phdrs (Z.to_nat (ph_count s)) 0 data s;
          let '(vaddr_min, vaddr_max) := span_loop phdrs U64_MAX 0 in
          if vaddr_min =? U64_MAX then Ret (Err BadPhdr, buffer)
          else
            let total_size := vaddr_max ⊟ vaddr_min in
            if zlen buffer <? total_size then Ret (Err BadPhdr, buffer)
            else
              let buffer := replicate (Z.to_nat total_size) 0 ++ drop (Z.to_nat total_size) buffer in
              let reloc_offset := base ⊟ vaddr_min in
              '(r, buffer) ← copy_loop phdrs vaddr_min data buffer;
              match r with
              | Err e => Ret (Err e, buffer)
              | Ok _ => Ret (Ok (mkLoaded (e_entry hdr ⊞ reloc_offset) base total_size), buffer)
              end
      end
  end.

(** * Well-formed images *)

(** Two shapes of failure are excluded by [parse_header] itself. *)
Lemma parse_header_total data : exists r, parse_header data = Ret r /\
  match r with Ok hdr => zlen data >= 64 /\ hdr = header_of_bytes (sub data 0 64) | Err _ => True end.
Proof.
  unfold parse_header. destruct (Z.ltb_spec (zlen data) HEADER_SIZE) as [Hlt|Hge]; [by eexists|].
  unfold HEADER_SIZE in *. set (hdr := header_of_bytes (sub data 0 64)).
  assert (zlen (e_ident hdr) = 16) as Hid.
  { subst hdr. cbn [header_of_bytes e_ident]. unfold sub, zlen in *. repeat rewrite ?length_take, ?length_drop. lia. }
  unfold slice. rewrite Hid. cbn [Z.leb Z.compare Pos.compare Pos.compare_cont andb].
  rewrite bind_ret. case_decide; [by eexists|].
  destruct (zget_is_Some (e_ident hdr) 4) as [c Hc]; [lia|].
  rewrite (proj2 (arr_get_Ret _ _ _) Hc), bind_ret. destruct (negb _); [by eexists|].
  destruct (zget_is_Some (e_ident hdr) 5) as [o Ho]; [lia|].
  rewrite (proj2 (arr_get_Ret _ _ _) Ho), bind_ret. destruct (negb _); [by eexists|].
  destruct (_ && _); [by eexists|]. destruct (negb _); [by eexists|].
  eexists. split; [done|]. split; [lia | done].
Qed.

Lemma hdr_words data : bytes_ok data ->
  let hdr := header_of_bytes (sub data 0 64) in
  in_word 64 (e_phoff hdr) /\ in_word 64 (e_entry hdr) /\ in_word 16 (e_phnum hdr) /\
  in_word 16 (e_phentsize hdr).
Proof.
  intros Hb. assert (bytes_ok (sub data 0 64)) as Hs by (unfold sub; by apply Forall_take, Forall_drop).
  simpl. pose proof (field_range _ 32 8 Hs). pose proof (field_range _ 24 8 Hs).
  pose proof (field_range _ 56 2 Hs). pose proof (field_range _ 54 2 Hs). unfold in_word. lia.
Qed.

(** * Reads of the program headers *)

Lemma read_phdrs_ok data s n i : 0 <= i ->
  ph_off s + (i + Z.of_nat n) * PHDR_SIZE <= zlen data ->
  read_phdrs n i data s =
  Ret ((fun k => phdr_of_bytes (sub data (ph_off s + k * PHDR_SIZE) PHDR_SIZE)) <$> zseq i n).
Proof.
  unfold PHDR_SIZE. revert i. induction n as [|n IH]; intros i Hi Hle; [done|].
  cbn [read_phdrs]. unfold read_phdr, PHDR_SIZE. decide_tests.
  rewrite bind_ret, IH by lia. done.
Qed.

Lemma copy_loop_no_ub phdrs vmin data buffer :
  (exists x, copy_loop phdrs vmin data buffer = Ret x) \/
  copy_loop phdrs vmin data buffer = Crash IndexPanic.
Proof.
  revert buffer. induction phdrs as [|p rest IH]; intros buffer; cbn [copy_loop]; [left; by eexists|].
  destruct (negb _); [apply IH|]. destruct (_ <? _); [left; by eexists|].
  destruct (slice_cases data (p_offset p) (p_offset p ⊞ p_filesz p)) as [[src ->]| ->]; [|by right].
  rewrite bind_ret. unfold copy_into.
  destruct (slice_cases buffer (p_vaddr p ⊟ vmin) (p_vaddr p ⊟ vmin ⊞ p_filesz p))
    as [[dst ->]| ->]; [|by right].
  rewrite bind_ret. destruct (zlen dst =? zlen src); [|by right]. rewrite bind_ret. apply IH.
Qed.

(** The loader reads memory outside the file exactly when the header is
    accepted, announces at least one program header, and the end of the table
    wraps around 2^64 (which hides it from the size check); in every other case
    it returns or panics on a slice index. *)
Theorem load_reads_outside_iff data buffer base : bytes_ok data -> zlen data < 2 ^ 62 ->
  let hdr := header_of_bytes (sub data 0 64) in
  (load_at data buffer base = Crash UndefinedBehaviour <->
   parse_header data = Ret (Ok hdr) /\ 0 < e_phnum hdr /\ PHDR_SIZE <= e_phentsize hdr /\
   2 ^ 64 <= e_phoff hdr + e_phnum hdr * e_phentsize hdr /\
   e_phoff hdr + e_phnum hdr * e_phentsize hdr - 2 ^ 64 <= zlen data).
Proof.
  intros Hb Hlen hdr. destruct (hdr_words data Hb) as (Hoff & _ & Hnum & Hes).
  fold hdr in Hoff, Hnum, Hes. unfold in_word in *. pose proof (zlen_nonneg data).
  unfold load_at. destruct (parse_header_total data) as (r & -> & Hr). rewrite bind_ret.
  destruct r as [h|e]; [|split; [done | by intros [? _]]]. destruct Hr as [_ ->]. fold hdr.
  unfold program_headers. rewrite (wmul_small 64) by (unfold in_word; nia).
  set (t := e_phoff hdr + e_phnum hdr * e_phentsize hdr).
  assert (0 <= e_phnum hdr * e_phentsize hdr < 2 ^ 32) as Hprod by nia.
  destruct (Z.ltb_spec (e_phentsize hdr) PHDR_SIZE) as [Hlt|Hge].
  { rewrite orb_true_r. split; [done|]. intros (_ & _ & H1 & _). lia. }
  rewrite orb_false_r. unfold PHDR_SIZE in *.
  destruct (Z.le_gt_cases (2 ^ 64) t) as [Hwrap|Hno].
  - assert (e_phoff hdr ⊞ e_phnum hdr * e_phentsize hdr = t - 2 ^ 64) as ->.
    { unfold wadd, wrap. fold t. symmetry. apply (Z.mod_unique _ _ 1); lia. }
    case_ltb; [split; [done|]; intros (_ & _ & _ & _ & H1); lia|]. cbn [ph_count].
    split.
    + intros Hu. split; [done|]. split; [|lia]. destruct (decide (e_phnum hdr = 0)) as [Hz|]; lia.
    + intros (_ & Hn & _). destruct (Z.to_nat (e_phnum hdr)) as [|n] eqn:Hnat; [lia|].
      cbn [read_phdrs]. unfold read_phdr, PHDR_SIZE. cbn [ph_off].
      replace (e_phoff hdr + 0 * 56 + 56 <=? zlen data) with false by (symmetry; apply Z.leb_gt; lia).
      done.
  - rewrite wadd_small by (unfold in_word; lia). fold t.
    case_ltb; [split; [done|]; intros (_ & _ & _ & H1 & _); lia|].
    cbn [ph_count]. rewrite read_phdrs_ok, bind_ret; [|lia|].
    2: { unfold PHDR_SIZE. cbn [ph_off]. rewrite Z2Nat.id by lia. nia. }
    split; [|intros (_ & _ & _ & H1 & _); lia]. destruct (span_loop _ _ _) as [vmin vmax].
    destruct (_ =? _); [done|]. destruct (_ <? _); [done|].
    destruct (copy_loop_no_ub ((fun k => phdr_of_bytes (sub data (ph_off (mkPhdrs (e_phoff hdr) (e_phnum hdr)) +
      k * PHDR_SIZE) PHDR_SIZE)) <$> zseq 0 (Z.to_nat (e_phnum hdr))) vmin data
      (replicate (Z.to_nat (vmax ⊟ vmin)) 0 ++ drop (Z.to_nat (vmax ⊟ vmin)) buffer))
      as [[[[u|e] b] ->] | ->]; done.
Qed.

(** * Loading *)

Definition is_load (p : Elf64Phdr) : bool := p_type p =? PT_LOAD.

Definition loads (phdrs : list Elf64Phdr) : list Elf64Phdr := List.filter is_load phdrs.

(** The lowest address and the highest end of the loadable segments. *)
Definition low (phdrs : list Elf64Phdr) : Z := fold_left Z.min (p_vaddr <$> loads phdrs) U64_MAX.
Definition high (phdrs : list Elf64Phdr) : Z :=
  fold_left Z.max ((fun p => p_vaddr p + p_memsz p) <$> loads phdrs) 0.

Definition seg_ok (data : list Z) (p : Elf64Phdr) : Prop :=
  0 <= p_vaddr p /\ 0 <= p_filesz p <= p_memsz p /\ p_vaddr p + p_memsz p < 2 ^ 64 /\
  0 <= p_offset p /\ p_offset p + p_filesz p <= zlen data.

(** Byte [x] of the image: the file byte of the last segment whose file part
    covers it, and zero where none does. *)
Definition image_from (data : list Z) (vmin x : Z) (segs : list Elf64Phdr) (init : Z) : Z :=
  fold_left (fun acc p =>
    let dst := p_vaddr p - vmin in
    if (dst <=? x) && (x <? dst + p_filesz p)
    then default 0 (zget data (p_offset p + (x - dst))) else acc) segs init.

Definition image_byte (data : list Z) (phdrs : list Elf64Phdr) (x : Z) : Z :=
  image_from data (low phdrs) x (loads phdrs) 0.

Lemma span_loop_eq phdrs a b : Forall (fun p => 0 <= p_vaddr p /\ 0 <= p_memsz p /\
    p_vaddr p + p_memsz p < 2 ^ 64) (loads phdrs) ->
  span_loop phdrs a b = (fold_left Z.min (p_vaddr <$> loads phdrs) a,
    fold_left Z.max ((fun p => p_vaddr p + p_memsz p) <$> loads phdrs) b).
Proof.
  revert a b. induction phdrs as [|p ps IH]; intros a b Hok; [done|]. cbn [span_loop].
  unfold loads, is_load in *. cbn [List.filter] in *. destruct (p_type p =? PT_LOAD); simpl.
  - apply Forall_cons in Hok as [Hp Hok]. rewrite IH by done. csimpl.
    rewrite wadd_small by (unfold in_word; lia). f_equal; f_equal; case_ltb; lia.
  - by apply IH.
Qed.

Lemma fold_min_le l a x : (x = a \/ x ∈ l) -> fold_left Z.min l a <= x.
Proof.
  revert a x. induction l as [|y l IH]; intros a x; simpl.
  - intros [->|[]%not_elem_of_nil]. lia.
  - intros [->|[->|Hx]%elem_of_cons].
    + specialize (IH (Z.min a y) _ (or_introl eq_refl)). lia.
    + specialize (IH (Z.min a y) _ (or_introl eq_refl)). lia.
    + apply IH. by right.
Qed.

Lemma fold_max_ge l a x : (x = a \/ x ∈ l) -> x <= fold_left Z.max l a.
Proof.
  revert a x. induction l as [|y l IH]; intros a x; simpl.
  - intros [->|[]%not_elem_of_nil]. lia.
  - intros [->|[->|Hx]%elem_of_cons].
    + specialize (IH (Z.max a y) _ (or_introl eq_refl)). lia.
    + specialize (IH (Z.max a y) _ (or_introl eq_refl)). lia.
    + apply IH. by right.
Qed.

Lemma fold_bounds (P : Z -> Prop) f l a : (forall x y, f x y = x \/ f x y = y) ->
  P a -> Forall P l -> P (fold_left f l a).
Proof.
  intros Hf Ha Hl. revert a Ha. induction Hl as [|y l Hy Hl IH]; intros a Ha; simpl; [done|].
  apply IH. by destruct (Hf a y) as [->| ->].
Qed.

Lemma copy_into_spec buffer lo src : 0 <= lo -> lo + zlen src <= zlen buffer ->
  returns (copy_into buffer lo (lo + zlen src) src) (fun b => zlen b = zlen buffer /\
    forall x, 0 <= x -> zget b x = if (lo <=? x) && (x <? lo + zlen src)
      then zget src (x - lo) else zget buffer x).
Proof.
  intros Hlo Hhi. pose proof (zlen_nonneg src). unfold copy_into, slice. decide_tests.
  cbn [andb]. rewrite bind_ret.
  assert (zlen (take (Z.to_nat (lo + zlen src - lo)) (drop (Z.to_nat lo) buffer)) = zlen src) as ->.
  { rewrite zlen_take; [lia | lia |]. rewrite zlen_drop by lia. lia. }
  rewrite Z.eqb_refl. apply returns_ret. by apply splice_spec.
Qed.

Lemma copy_loop_spec phdrs vmin data buffer total : zlen data < 2 ^ 62 -> 0 <= vmin ->
  total <= zlen buffer ->
  Forall (fun p => seg_ok data p /\ vmin <= p_vaddr p /\ p_vaddr p + p_memsz p - vmin <= total) (loads phdrs) ->
  exists b, copy_loop phdrs vmin data buffer = Ret (Ok tt, b) /\ zlen b = zlen buffer /\
    (forall x, total <= x -> zget b x = zget buffer x) /\
    (forall x v, 0 <= x < total -> zget buffer x = Some v ->
       zget b x = Some (image_from data vmin x (loads phdrs) v)).
Proof.
  intros Hlen Hvm. revert buffer. induction phdrs as [|p ps IH]; intros buffer Htot Hok.
  { exists buffer. done. }
  cbn [copy_loop]. unfold loads, is_load in *. cbn [List.filter] in *.
  destruct (p_type p =? PT_LOAD); simpl; [|by apply IH].
  apply Forall_cons in Hok as [((Hv & Hf & Hend & Ho & Hfit) & Hlow & Hhigh) Hok].
  rewrite (wadd_small 64 (p_offset p)) by (unfold in_word; lia).
  rewrite (wsub_small 64 (p_vaddr p)) by (unfold in_word; lia).
  rewrite (wadd_small 64 (p_vaddr p - vmin)) by (unfold in_word; lia).
  replace (zlen data <? p_offset p + p_filesz p) with false by (symmetry; apply Z.ltb_ge; lia).
  assert (slice data (p_offset p) (p_offset p + p_filesz p) = Ret (sub data (p_offset p) (p_filesz p))) as ->.
  { unfold slice, sub. decide_tests. cbn [andb].
    by replace (p_offset p + p_filesz p - p_offset p) with (p_filesz p) by lia. }
  rewrite bind_ret. set (src := sub data (p_offset p) (p_filesz p)).
  assert (zlen src = p_filesz p) as Hsrc.
  { subst src. unfold sub. rewrite zlen_take; [done | lia |]. rewrite zlen_drop by lia. lia. }
  destruct (copy_into_spec buffer (p_vaddr p - vmin) src) as (b1 & Hb1 & Hl1 & Hg1); [lia | lia|].
  rewrite Hsrc in Hb1, Hg1. rewrite Hb1, bind_ret.
  destruct (IH b1) as (b & -> & Hl & Hout & Hin); [lia | done|].
  exists b. split; [done|]. split; [lia|]. split.
  - intros x Hx. rewrite Hout by done. rewrite Hg1 by lia.
    by replace (x <? p_vaddr p - vmin + p_filesz p) with false by (symmetry; apply Z.ltb_ge; lia);
      rewrite andb_false_r.
  - intros x v Hx Hbx. cbn [fold_left image_from]. apply Hin; [done|].
    rewrite Hg1 by lia. destruct ((_ <=? x) && _) eqn:Hc; [|done].
    apply andb_true_iff in Hc as [H1%Z.leb_le H2%Z.ltb_lt].
    subst src. rewrite zget_sub by lia.
    destruct (zget_is_Some data (p_offset p + (x - (p_vaddr p - vmin)))) as [y Hy]; [lia|].
    by rewrite Hy.
Qed.

(** The program headers a well-formed file announces. *)
Definition phdrs_of (data : list Z) : list Elf64Phdr :=
  let hdr := header_of_bytes (sub data 0 64) in
  (fun k => phdr_of_bytes (sub data (e_phoff hdr + k * PHDR_SIZE) PHDR_SIZE))
    <$> zseq 0 (Z.to_nat (e_phnum hdr)).

Record elf_ok (data : list Z) : Prop := {
  elf_bytes : bytes_ok data;
  elf_len : zlen data < 2 ^ 62;
  elf_header : parse_header data = Ret (Ok (header_of_bytes (sub data 0 64)));
  elf_entsize : e_phentsize (header_of_bytes (sub data 0 64)) = PHDR_SIZE;
  elf_table : e_phoff (header_of_bytes (sub data 0 64)) +
    e_phnum (header_of_bytes (sub data 0 64)) * PHDR_SIZE <= zlen data;
  elf_segs : Forall (seg_ok data) (loads (phdrs_of data));
  elf_some : exists p, p ∈ loads (phdrs_of data) /\ 0 < p_memsz p;
}.

(** The span of the segments lies in the address space and is not empty. *)
Lemma span_bounds data : elf_ok data ->
  0 <= low (phdrs_of data) < U64_MAX /\ low (phdrs_of data) < high (phdrs_of data) < 2 ^ 64 /\
  forall p, p ∈ loads (phdrs_of data) -> low (phdrs_of data) <= p_vaddr p /\
    p_vaddr p + p_memsz p <= high (phdrs_of data).
Proof.
  intros [_ _ _ _ _ Hsegs (p & Hp & Hmem)]. set (phs := phdrs_of data) in *.
  pose proof (proj1 (Forall_forall _ _) Hsegs) as Hseg.
  assert (forall q, q ∈ loads phs -> low phs <= p_vaddr q /\ p_vaddr q + p_memsz q <= high phs) as Hb.
  { intros q Hq. split.
    - apply fold_min_le. right. apply list_elem_of_fmap. by exists q.
    - apply (fold_max_ge _ 0 (p_vaddr q + p_memsz q)). right. apply list_elem_of_fmap. by exists q. }
  assert (0 <= low phs) as Hl.
  { apply (fold_bounds (fun z => 0 <= z)); [lia | unfold U64_MAX; lia|].
    apply Forall_forall. intros z (q & -> & Hq)%list_elem_of_fmap. destruct (Hseg q Hq). lia. }
  assert (high phs < 2 ^ 64) as Hh.
  { apply (fold_bounds (fun z => z < 2 ^ 64)); [lia | lia|].
    apply Forall_forall. intros z (q & -> & Hq)%list_elem_of_fmap.
    destruct (Hseg q Hq) as (_ & _ & H & _). exact H. }
  destruct (Hb p Hp). destruct (Hseg p Hp) as (? & ? & ? & _). unfold U64_MAX. split; [lia|].
  split; [lia | exact Hb].
Qed.

Lemma load_image_all data buffer base : elf_ok data -> zlen buffer < 2 ^ 62 ->
  high (phdrs_of data) - low (phdrs_of data) <= zlen buffer ->
  exists b, load_at data buffer base =
      Ret (Ok (mkLoaded ((e_entry (header_of_bytes (sub data 0 64)) + (base - low (phdrs_of data))) mod 2 ^ 64)
        base (high (phdrs_of data) - low (phdrs_of data))), b) /\
    zlen b = zlen buffer /\
    (forall x, 0 <= x < high (phdrs_of data) - low (phdrs_of data) ->
       zget b x = Some (image_byte data (phdrs_of data) x)) /\
    (forall x, high (phdrs_of data) - low (phdrs_of data) <= x -> zget b x = zget buffer x).
Proof.
  intros Hok Hbl Hfit. destruct (span_bounds data Hok) as (Hlow & Hhigh & Hin).
  destruct Hok as [Hb Hlen Hhdr Hent Htab Hsegs _].
  destruct (hdr_words data Hb) as ((Ho0 & Ho1) & _ & (Hn0 & Hn1) & _). cbv zeta in *.
  pose proof (fun p => proj1 (Forall_forall (seg_ok data) (loads (phdrs_of data))) Hsegs p) as Hseg.
  unfold phdrs_of in *. cbv zeta in *.
  unfold load_at. rewrite Hhdr, bind_ret. set (hdr := header_of_bytes (sub data 0 64)) in *.
  set (phs := (fun k => phdr_of_bytes (sub data (e_phoff hdr + k * PHDR_SIZE) PHDR_SIZE))
    <$> zseq 0 (Z.to_nat (e_phnum hdr))) in *.
  unfold program_headers. rewrite Hent. unfold PHDR_SIZE in *.
  rewrite (wmul_small 64), (wadd_small 64); try (unfold in_word; lia).
  replace (zlen data <? e_phoff hdr + e_phnum hdr * 56) with false by (symmetry; apply Z.ltb_ge; lia).
  cbn [orb Z.ltb Z.compare Pos.compare Pos.compare_cont ph_count].
  rewrite read_phdrs_ok, bind_ret; [|lia|unfold PHDR_SIZE; cbn [ph_off]; lia].
  unfold PHDR_SIZE. cbn [ph_off]. fold phs. rewrite span_loop_eq.
  2: { eapply Forall_impl; [exact Hsegs|]. intros p (? & ? & ? & _). lia. }
  fold (low phs) (high phs). rewrite (proj2 (Z.eqb_neq (low phs) U64_MAX)) by lia.
  rewrite (wsub_small 64 (high phs)) by (unfold in_word; lia).
  replace (zlen buffer <? high phs - low phs) with false by (symmetry; apply Z.ltb_ge; lia).
  set (total := high phs - low phs) in *.
  assert (zlen (replicate (Z.to_nat total) 0) = total) as Hrep by (rewrite zlen_replicate; lia).
  destruct (copy_loop_spec phs (low phs) data (replicate (Z.to_nat total) 0 ++ drop (Z.to_nat total) buffer) total)
    as (b & -> & Hl & Hout & Himg); [done | lia | | |].
  { rewrite zlen_app, Hrep. pose proof (zlen_nonneg (drop (Z.to_nat total) buffer)). lia. }
  { apply Forall_forall. intros p Hp. split; [by apply Hseg|]. destruct (Hin p Hp). lia. }
  rewrite bind_ret. exists b. split; [|split; [|split]].
  - do 4 f_equal. unfold wadd, wsub, wrap. by rewrite Zplus_mod_idemp_r.
  - rewrite Hl, zlen_app, Hrep, zlen_drop by lia. lia.
  - intros x Hx. rewrite (Himg x 0); [done | done|]. rewrite zget_app, Hrep by lia. decide_tests.
    rewrite zget_replicate by lia. done.
  - intros x Hx. rewrite Hout by done. rewrite zget_app, Hrep by lia. decide_tests.
    rewrite zget_drop by lia. f_equal. lia.
Qed.

(** C10: A well-formed file whose span fits the buffer is loaded: the start of
    the buffer becomes the memory image of the segments (file bytes, zero fill
    elsewhere, later segments over earlier ones), the rest of the buffer is
    untouched, and the entry point is relocated by the distance between the
    buffer and the lowest segment address. *)
Theorem load_image data buffer base : elf_ok data -> zlen buffer < 2 ^ 62 ->
  high (phdrs_of data) - low (phdrs_of data) <= zlen buffer ->
  exists b, load_at data buffer base =
      Ret (Ok (mkLoaded ((e_entry (header_of_bytes (sub data 0 64)) + (base - low (phdrs_of data))) mod 2 ^ 64)
        base (high (phdrs_of data) - low (phdrs_of data))), b) /\
    zlen b = zlen buffer /\
    (forall x, 0 <= x < high (phdrs_of data) - low (phdrs_of data) ->
       zget b x = Some (image_byte data (phdrs_of data) x)) /\
    (forall x, high (phdrs_of data) - low (phdrs_of data) <= x -> zget b x = zget buffer x).
Proof. apply load_image_all. Qed.

(** * Witnesses *)

(** A file with one header, one loadable segment of four bytes (eight in
    memory) at 0x1000, and the program header table at [phoff]. *)
Definition demo_elf (phoff : Z) : list Z :=
  [0x7F; 69; 76; 70; 2; 1; 1; 0; 0; 0; 0; 0; 0; 0; 0; 0] ++ to_le 2 3 ++ to_le 2 62 ++ to_le 4 1 ++
  to_le 8 0x1002 ++ to_le 8 phoff ++ to_le 8 0 ++ to_le 4 0 ++ to_le 2 64 ++ to_le 2 56 ++
  to_le 2 1 ++ to_le 2 0 ++ to_le 2 0 ++ to_le 2 0 ++
  to_le 4 1 ++ to_le 4 5 ++ to_le 8 120 ++ to_le 8 0x1000 ++ to_le 8 0 ++ to_le 8 4 ++ to_le 8 8 ++
  to_le 8 16 ++ [11; 22; 33; 44].

Lemma demo_elf_bytes phoff : bytes_ok (demo_elf phoff).
Proof.
  unfold demo_elf, bytes_ok.
  repeat (apply Forall_app; split); try apply to_le_bytes;
    repeat (apply Forall_cons; split; [unfold in_word; lia|]); by apply Forall_nil.
Qed.

Definition demo_phdr : Elf64Phdr := mkPhdr 1 5 120 0x1000 0 4 8 16.

Lemma demo_loads : loads (phdrs_of (demo_elf 64)) = [demo_phdr].
Proof. vm_compute. reflexivity. Qed.

Lemma demo_elf_ok : elf_ok (demo_elf 64).
Proof.
  split.
  - apply demo_elf_bytes.
  - vm_compute. reflexivity.
  - vm_compute. reflexivity.
  - vm_compute. reflexivity.
  - vm_compute. discriminate.
  - rewrite demo_loads. apply Forall_singleton. unfold seg_ok.
    assert (zlen (demo_elf 64) = 124) as -> by (vm_compute; reflexivity). simpl. lia.
  - exists demo_phdr. split; [|reflexivity]. rewrite demo_loads. by left.
Qed.

Lemma load_image_witness : exists b,
  load_at (demo_elf 64) (replicate 16 7) 0x500000 = Ret (Ok (mkLoaded 0x500002 0x500000 8), b) /\
  zget b 1 = Some 22 /\ zget b 5 = Some 0 /\ zget b 9 = Some 7.
Proof.
  destruct (load_image (demo_elf 64) (replicate 16 7) 0x500000 demo_elf_ok) as (b & H1 & _ & H2 & H3);
    [done | vm_compute; discriminate|].
  exists b. split; [exact H1|]. split; [|split].
  - rewrite H2; [vm_compute; reflexivity | vm_compute; done].
  - rewrite H2; [vm_compute; reflexivity | vm_compute; done].
  - rewrite H3; [reflexivity | vm_compute; discriminate].
Defined.

Lemma load_reads_outside_iff_witness :
  load_at (demo_elf (2 ^ 64 - 56)) [] 0 = Crash UndefinedBehaviour.
Proof.
  apply (load_reads_outside_iff (demo_elf (2 ^ 64 - 56)) [] 0);
    [apply demo_elf_bytes | reflexivity|].
  split; [vm_compute; reflexivity|]. vm_compute. repeat split; discriminate.
Defined.
