(* ===== verification/Disk.v ===== *)
(** What the disk file system uses of the rest of the kernel: the heap
    ([src/kern/mem.rs]) and the sector reads of the disk driver
    ([src/kern/drv/disk/ahci.rs]), each as a class of operations with its laws,
    and the state monad in which the file system's code is written. *)
From S2P Require Import Prelude Word PageSource Buddy Slab Mem.

(** * The heap

    A block's bytes are a value of their own: [h_stale] is what a fresh block
    happens to contain, and an access beyond the end of a block is
    [UndefinedBehaviour]. *)

Class HeapOps (H : Type) := {
  h_kmalloc : Z -> H -> outcome (Z * H);
  h_kmalloc_aligned : Z -> Z -> H -> outcome (Z * H);
  h_kfree : Z -> Z -> H -> outcome H;
  h_stale : H -> Z -> Z -> list Z;
}.

(** The kernel's heap over a memory that gives the stale bytes. *)
#[export] Instance kernel_heap : HeapOps (KMem * (Z -> Z)) := {|
  h_kmalloc n h := '(p, m) ← Mem.kmalloc n h.1; Ret (p, (m, h.2));
  h_kmalloc_aligned n a h := '(p, m) ← Mem.kmalloc_aligned n a h.1; Ret (p, (m, h.2));
  h_kfree p n h := m ← Mem.kfree p n h.1; Ret (m, h.2);
  h_stale h p n := h.2 <$> zseq p (Z.to_nat n);
|}.

Section laws.
Context {H : Type} (live : H -> list (Z * Z)) (room : list (Z * Z) -> list Z -> Prop) (wf : H -> Prop).

(** What an allocation of [n] bytes returns: null and nothing changed, or a
    new block; when there is room it is not null. *)
Definition granted (n : Z) (h : H) (r : Z * H) : Prop :=
  let '(p, h') := r in
  wf h' /\ (if p =? 0 then live h' ≡ₚ live h else live h' ≡ₚ (p, n) :: live h) /\
  (forall ns, room (live h) (n :: ns) -> p <> 0 /\ room ((p, n) :: live h) ns).
End laws.

(** Two blocks have no byte in common. *)
Definition apart (b b' : Z * Z) : Prop := b.1 + b.2 <= b'.1 \/ b'.1 + b'.2 <= b.1.

(** A page-aligned block at or above [base], inside the address space and apart from [bs]. *)
Record placed (base : Z) (bs : list (Z * Z)) (p n : Z) : Prop := {
  pl_page : p mod 4096 = 0;
  pl_base : base <= p;
  pl_top : p + n < 2 ^ 64;
  pl_apart : Forall (apart (p, n)) bs;
}.

(** Only the set of the other blocks matters, and only from above. *)
#[global] Instance placed_proper base : Proper ((≡ₚ) ==> (=) ==> (=) ==> iff) (placed base).
Proof. intros bs1 bs2 Hp p _ <- n _ <-. split; intros [? ? ? Ha]; split; try done; [by rewrite <- Hp | by rewrite Hp]. Qed.

Lemma placed_sub base bs bs' p n : bs' ⊆ bs -> placed base bs p n -> placed base bs' p n.
Proof.
  intros Hsub [H1 H2 H3 Ha]. split; try done. rewrite Forall_forall in Ha |- *. intros b Hb. by apply Ha, Hsub.
Qed.

Lemma placed_shrink base bs p n m : m <= n -> placed base bs p n -> placed base bs p m.
Proof.
  intros Hm [H1 H2 H3 Ha]. split; [done.. | lia |]. eapply Forall_impl; [exact Ha|].
  unfold apart. simpl. lia.
Qed.

(** The contract of a heap, over the list of the blocks in use: [h_room live ns]
    says that blocks of the sizes [ns] can be had one after the other, [h_base] is the
    lowest address of the direct map, where all blocks are. *)
Class HeapLaws (H : Type) `{HeapOps H} := {
  h_wf : H -> Prop;
  h_live : H -> list (Z * Z);
  h_room : list (Z * Z) -> list Z -> Prop;
  h_base : Z;
  h_room_perm live live' ns : live ≡ₚ live' -> h_room live ns -> h_room live' ns;
  h_room_tail live n ns : h_room live (n :: ns) -> h_room live ns;
  h_kmalloc_law n h : h_wf h -> 0 < n < 2 ^ 62 ->
    returns (h_kmalloc n h) (granted h_live h_room h_wf n h);
  h_kmalloc_aligned_law n h : h_wf h -> 0 < n < 2 ^ 62 ->
    returns (h_kmalloc_aligned n 4096 h) (fun r => granted h_live h_room h_wf n h r /\
      (r.1 <> 0 -> placed h_base (h_live h) r.1 n));
  h_kfree_law p n h : h_wf h -> (p, n) ∈ h_live h ->
    returns (h_kfree p n h) (fun h' => h_wf h' /\ h_live h ≡ₚ (p, n) :: h_live h');
  h_stale_law h p n : 0 <= n -> zlen (h_stale h p n) = n;
}.

(** When there is room the block is granted. *)
Lemma granted_next {H} `{HeapLaws H} (L : list (Z * Z)) n ns0 (h : H) p h' : h_live h ≡ₚ L -> h_room L (n :: ns0) ->
  granted h_live h_room h_wf n h (p, h') ->
  p <> 0 /\ h_wf h' /\ h_live h' ≡ₚ (p, n) :: L /\ forall ns, h_room L (n :: ns) -> h_room ((p, n) :: L) ns.
Proof.
  intros Hl Hroom (Hw' & Hlive & Hg).
  destruct (Hg ns0) as [Hp _]; [by eapply h_room_perm; [symmetry|]|].
  rewrite (proj2 (Z.eqb_neq p 0) Hp) in Hlive. split; [done|]. split; [done|]. split; [by rewrite Hlive, Hl|].
  intros ns Hns. destruct (Hg ns) as [_ Hroom']; [by eapply h_room_perm; [symmetry|]|].
  eapply h_room_perm; [|exact Hroom']. by rewrite Hl.
Qed.

Lemma aligned_next {H} `{HeapLaws H} (L : list (Z * Z)) n ns0 (h : H) : 0 < n < 2 ^ 62 -> h_wf h -> h_live h ≡ₚ L ->
  h_room L (n :: ns0) ->
  exists p h', h_kmalloc_aligned n 4096 h = Ret (p, h') /\ p <> 0 /\ placed h_base L p n /\
    h_wf h' /\ h_live h' ≡ₚ (p, n) :: L /\ forall ns, h_room L (n :: ns) -> h_room ((p, n) :: L) ns.
Proof.
  intros Hn Hw Hl Hroom. destruct (h_kmalloc_aligned_law n h Hw Hn) as ([p h'] & Hk & Hg & Hpl).
  destruct (granted_next L n ns0 h p h' Hl Hroom Hg) as (Hp & Hrest). specialize (Hpl Hp). rewrite Hl in Hpl.
  by exists p, h'.
Qed.

(** * Disks

    [read_sectors port lba count buf] stands for the call of that name: the
    result is what the transfer put into the buffer, [None] when
    the call reports an error.  A count of 0 means 65536 sectors.  The laws
    cover transfers of at most 4 MiB, the most that the AHCI driver can describe
    ([Ahci.long_transfer_illegal]), into a page-aligned buffer apart from the
    memory the disk uses itself.  After a read beyond the end a [disk_resilient]
    disk still answers, for other disks nothing is promised: the driver is not resilient
    ([Ahci.error_ends_reading]).  [Volume] makes the driver an instance. *)
Class Disk (D : Type) := {
  read_sectors : Z -> Z -> Z -> Z -> D -> outcome (option (list Z) * D);
}.

Class DiskLaws (D : Type) `{Disk D} := {
  disk_ready : D -> Z -> Prop;
  disk_resilient : Prop;
  disk_sectors : D -> Z -> Z;
  disk_byte : D -> Z -> Z -> Z;
  disk_blocks : D -> Z -> list (Z * Z);    (* memory of the port *)
  disk_base : D -> Z;                      (* the lowest address it can transfer to *)
  disk_byte_range d port i : in_word 8 (disk_byte d port i);
  read_sectors_law d port lba n buf : disk_ready d port -> 0 <= lba < 2 ^ 48 -> 0 < n <= 8192 ->
    placed (disk_base d) (disk_blocks d port) buf (n * 512) ->
    exists d', read_sectors port lba (wrap 16 n) buf d = Ret
      (if lba + n <=? disk_sectors d port
       then Some (disk_byte d port <$> zseq (lba * 512) (Z.to_nat (n * 512))) else None, d') /\
      (disk_resilient \/ lba + n <= disk_sectors d port ->
       disk_ready d' port /\ disk_sectors d' port = disk_sectors d port /\
       (forall i, disk_byte d' port i = disk_byte d port i) /\
       disk_blocks d' port = disk_blocks d port /\ disk_base d' = disk_base d);
}.

(** * Raw memory accesses *)

Definition raw_read (b : list Z) (off n : Z) : outcome (list Z) :=
  if off + n <=? zlen b then Ret (sub b off n) else Crash UndefinedBehaviour.

Definition raw_write (b : list Z) (off : Z) (x : list Z) : outcome (list Z) :=
  if off + zlen x <=? zlen b
  then Ret (take (Z.to_nat off) b ++ x ++ drop (Z.to_nat (off + zlen x)) b)
  else Crash UndefinedBehaviour.

Lemma raw_read_mid (l a b c : list Z) off n : l = a ++ b ++ c -> off = zlen a -> n = zlen b ->
  raw_read l off n = Ret b.
Proof.
  intros Hl Ho Hn. unfold raw_read. pose proof (zlen_nonneg c).
  replace (off + n <=? zlen l) with true by (subst; symmetry; apply Z.leb_le; rewrite !zlen_app; lia).
  f_equal. by eapply sub_mid.
Qed.

Lemma raw_write_ok b off x : 0 <= off -> off + zlen x <= zlen b ->
  exists b', raw_write b off x = Ret b' /\ zlen b' = zlen b /\
    forall i, 0 <= i ->
      zget b' i = if (off <=? i) && (i <? off + zlen x) then zget x (i - off) else zget b i.
Proof.
  intros Hoff Hle. unfold raw_write. decide_tests. eexists. split; [done|]. by apply splice_spec.
Qed.

(** * The monad *)

Section monad.
Context {H D : Type}.

Definition M (A : Type) : Type := H * D -> outcome (A * (H * D)).

#[global] Instance m_ret : MRet M := fun A a s => Ret (a, s).
#[global] Instance m_bind : MBind M := fun A B f m s => '(a, s') ← m s; f a s'.

Definition lift {A} (o : outcome A) : M A := fun s => a ← o; Ret (a, s).

Context {HO : HeapOps H} {DO : Disk D}.

Definition m_kmalloc (n : Z) : M (Z * list Z) := fun s =>
  '(p, h) ← h_kmalloc n s.1; Ret ((p, h_stale h p n), (h, s.2)).

Definition m_kmalloc_aligned (n align : Z) : M Z := fun s =>
  '(p, h) ← h_kmalloc_aligned n align s.1; Ret (p, (h, s.2)).

Definition m_kfree (p n : Z) : M unit := fun s =>
  h ← h_kfree p n s.1; Ret (tt, (h, s.2)).

Definition sectors (port lba count buf : Z) : M (option (list Z)) := fun s =>
  '(r, d) ← read_sectors port lba count buf s.2; Ret (r, (s.1, d)).
End monad.
Arguments M : clear implicits.

(** * Reasoning about the file system's code

    The state is described by the blocks in use, apart from those of the disk ([own]), and the
    contents of one disk.
    [triple L m Q]: with the blocks [L] in use, [m] runs without a crash and
    ends with a result and blocks that satisfy [Q]. *)

Section logic.
Context {H D : Type} {HO : HeapOps H} {HL : HeapLaws H} {DO : Disk D} {DL : DiskLaws D}.
Context (port nsec : Z) (img : Z -> Z) (own : list (Z * Z)).

Record St (L : list (Z * Z)) (s : H * D) : Prop := {
  st_wf : h_wf s.1;
  st_live : h_live s.1 ≡ₚ L ++ own;
  st_base : disk_base s.2 <= h_base (H:=H);
  st_blocks : disk_blocks s.2 port = own;
  st_ready : disk_ready s.2 port;
  st_sectors : disk_sectors s.2 port = nsec;
  st_bytes : forall i, disk_byte s.2 port i = img i;
}.

(** Blocks of the sizes [ns] can be had while the blocks [L] are in use. *)
Definition room (L : list (Z * Z)) (ns : list Z) : Prop := h_room (H:=H) (L ++ own) ns.

Lemma room_perm L L' ns : L ≡ₚ L' -> room L ns -> room L' ns.
Proof. intros Hp. apply h_room_perm. by rewrite Hp. Qed.

Definition triple {A} (L : list (Z * Z)) (m : M H D A) (Q : A -> list (Z * Z) -> Prop) : Prop :=
  forall s, St L s -> exists a s' L', m s = Ret (a, s') /\ St L' s' /\ Q a L'.

(** [m] returns [a] and the same blocks are in use. *)
Definition yields {A} (L : list (Z * Z)) (m : M H D A) (a : A) : Prop :=
  triple L m (fun x L' => x = a /\ L' = L).

(** [m] returns a result that satisfies [Q] or crashes with a cause in [C]. *)
Definition exec {A} (L : list (Z * Z)) (m : M H D A) (Q : A -> list (Z * Z) -> Prop)
    (C : crash -> Prop) : Prop :=
  forall s, St L s ->
    match m s with
    | Ret (a, s') => exists L', St L' s' /\ Q a L'
    | Crash c => C c
    end.

Lemma triple_ret {A} L (a : A) (Q : A -> list (Z * Z) -> Prop) : Q a L -> triple L (mret a) Q.
Proof. intros HQ s Hs. by exists a, s, L. Qed.

Lemma triple_bind {A B} L (m : M H D A) (f : A -> M H D B) R Q :
  triple L m R -> (forall a L', R a L' -> triple L' (f a) Q) -> triple L (m ≫= f) Q.
Proof.
  intros Hm Hf s Hs. destruct (Hm s Hs) as (a & s1 & L1 & Hr & H1 & HR).
  destruct (Hf a L1 HR s1 H1) as (b & s2 & L2 & Hr2 & H2 & HQ).
  exists b, s2, L2. split; [|done]. unfold mbind, m_bind. rewrite Hr. exact Hr2.
Qed.

Lemma triple_mono {A} L (m : M H D A) (Q R : A -> list (Z * Z) -> Prop) :
  triple L m Q -> (forall a L', Q a L' -> R a L') -> triple L m R.
Proof.
  intros Hm HQR s Hs. destruct (Hm s Hs) as (a & s1 & L1 & ? & ? & ?).
  exists a, s1, L1. auto.
Qed.

Lemma yields_ret {A} L (a : A) : yields L (mret a) a.
Proof. by apply triple_ret. Qed.

Lemma yields_bind {A B} L (m : M H D A) a (f : A -> M H D B) Q :
  yields L m a -> triple L (f a) Q -> triple L (m ≫= f) Q.
Proof. intros Hm Hf. eapply triple_bind; [exact Hm|]. by intros x L' [-> ->]. Qed.

Lemma triple_lift {A} L (o : outcome A) a (Q : A -> list (Z * Z) -> Prop) :
  o = Ret a -> Q a L -> triple L (lift o) Q.
Proof. intros -> HQ s Hs. by exists a, s, L. Qed.

Lemma yields_lift {A} L (o : outcome A) a : o = Ret a -> yields L (lift o) a.
Proof. intros Ho. by apply (triple_lift L o a). Qed.

(** The order of the blocks in use does not matter. *)
#[global] Instance St_proper : Proper ((≡ₚ) ==> (=) ==> iff) St.
Proof.
  intros L1 L2 Hp s _ <-. split; intros [Hw Hl Hba Hbl Hr Hs Hb]; split; try done; by rewrite Hl, ?Hp.
Qed.

Lemma triple_perm {A} L1 L2 (m : M H D A) Q : L1 ≡ₚ L2 -> triple L1 m Q -> triple L2 m Q.
Proof. intros Hp Hm s Hs. rewrite <- Hp in Hs. by apply Hm. Qed.

Lemma exec_no_crash {A} L (m : M H D A) Q C : exec L m Q C -> (forall c, ~ C c) -> triple L m Q.
Proof.
  intros Hm HC s Hs. specialize (Hm s Hs). destruct (m s) as [[a s']|c]; [|by destruct (HC c)].
  destruct Hm as (L' & ? & ?). by exists a, s', L'.
Qed.

Lemma exec_triple {A} L (m : M H D A) Q C : triple L m Q -> exec L m Q C.
Proof. intros Hm s Hs. destruct (Hm s Hs) as (a & s' & L' & -> & ? & ?). by exists L'. Qed.

Lemma exec_bind {A B} L (m : M H D A) (f : A -> M H D B) R Q C :
  exec L m R C -> (forall a L', R a L' -> exec L' (f a) Q C) -> exec L (m ≫= f) Q C.
Proof.
  intros Hm Hf s Hs. specialize (Hm s Hs). unfold mbind, m_bind. destruct (m s) as [[a s1]|c]; [|done].
  destruct Hm as (L1 & H1 & HR). exact (Hf a L1 HR s1 H1).
Qed.

Lemma exec_step {A B} L (m : M H D A) (f : A -> M H D B) R Q C :
  triple L m R -> (forall a L', R a L' -> exec L' (f a) Q C) -> exec L (m ≫= f) Q C.
Proof. intros Hm. by apply exec_bind, exec_triple. Qed.

Lemma exec_pure {A B} L (m : M H D A) a (f : A -> M H D B) Q C :
  yields L m a -> exec L (f a) Q C -> exec L (m ≫= f) Q C.
Proof. intros Hm Hf. eapply exec_step; [exact Hm|]. by intros x L' [-> ->]. Qed.

Lemma exec_crash {A B} L (o : outcome A) (f : A -> M H D B) Q (C : crash -> Prop) c :
  o = Crash c -> C c -> exec L (lift o ≫= f) Q C.
Proof. by intros -> HC s Hs. Qed.

(** ** The operations *)

(** A granted block becomes one of the file system's. *)
Lemma granted_St L n ns0 h d p h' : St L (h, d) -> room L (n :: ns0) ->
  granted h_live h_room h_wf n h (p, h') ->
  p <> 0 /\ St ((p, n) :: L) (h', d) /\ forall ns, room L (n :: ns) -> room ((p, n) :: L) ns.
Proof.
  intros [Hw Hl Hba Hbl Hr Hsec Hb] Hroom Hg.
  destruct (granted_next _ _ _ _ _ _ Hl Hroom Hg) as (Hp & Hw' & Hl' & Hns). by repeat split.
Qed.

Lemma triple_kmalloc L n ns0 : 0 < n < 2 ^ 62 -> room L (n :: ns0) ->
  triple L (m_kmalloc n) (fun r L' => let '(p, data) := r in
    p <> 0 /\ zlen data = n /\ L' = (p, n) :: L /\ forall ns, room L (n :: ns) -> room L' ns).
Proof.
  intros Hn Hroom [h d] Hs.
  destruct (h_kmalloc_law n h (st_wf _ _ Hs) Hn) as ([p h'] & Hk & Hg).
  destruct (granted_St L n ns0 h d p h' Hs Hroom Hg) as (Hp & Hs' & Hns).
  exists (p, h_stale h' p n), (h', d), ((p, n) :: L).
  split; [unfold m_kmalloc; simpl; by rewrite Hk|]. split; [done|].
  split; [done|]. split; [apply h_stale_law; lia | by split].
Qed.

Lemma triple_kmalloc_aligned L n ns0 : 0 < n < 2 ^ 62 -> room L (n :: ns0) ->
  triple L (m_kmalloc_aligned n 4096) (fun p L' =>
    p <> 0 /\ placed (h_base (H:=H)) own p n /\ L' = (p, n) :: L /\ forall ns, room L (n :: ns) -> room L' ns).
Proof.
  intros Hn Hroom [h d] Hs.
  destruct Hs as [Hw Hl Hba Hbl Hr Hsec Hb].
  destruct (aligned_next _ n ns0 h Hn Hw Hl Hroom) as (p & h' & Hk & Hp & Hpl & Hw' & Hl' & Hns).
  exists p, (h', d), ((p, n) :: L). split; [unfold m_kmalloc_aligned; simpl; by rewrite Hk|].
  split; [done|]. split; [done|]. split; [|by split]. eapply placed_sub; [|exact Hpl]. intros b Hin. apply elem_of_app. by right.
Qed.

Lemma triple_kfree L p n : triple ((p, n) :: L) (m_kfree p n) (fun _ L' => L' = L).
Proof.
  intros [h d] [Hw Hl Hba Hbl Hr Hsec Hb]. simpl in *.
  destruct (h_kfree_law p n h Hw) as (h' & Hk & Hw' & Hlive).
  { rewrite Hl. left. }
  exists tt, (h', d), L. split; [unfold m_kfree; simpl; by rewrite Hk|]. split; [|done].
  split; simpl; try done. apply (Permutation_cons_inv (a := (p, n))). by rewrite <- Hlive.
Qed.

(** The bytes [off .. off + n) of the disk, when their sectors exist. *)
Definition disk_read (off n : Z) : option (list Z) :=
  if off / 512 + (off mod 512 + n + 511) / 512 <=? nsec
  then Some (img <$> zseq off (Z.to_nat n)) else None.

(** A read after which the disk can still be used. *)
Definition served (off n : Z) : Prop := disk_resilient (D:=D) \/ is_Some (disk_read off n).

Lemma yields_sectors L lba n buf : 0 <= lba < 2 ^ 48 -> 0 < n <= 8192 ->
  placed (h_base (H:=H)) own buf (n * 512) -> disk_resilient (D:=D) \/ lba + n <= nsec ->
  yields L (sectors port lba (wrap 16 n) buf)
    (if lba + n <=? nsec then Some (img <$> zseq (lba * 512) (Z.to_nat (n * 512))) else None).
Proof.
  intros Hlba Hn Hpl Hend [h d] [Hw Hl Hba Hbl Hr Hsec Hb]. simpl in *.
  destruct (read_sectors_law d port lba n buf Hr Hlba Hn) as (d' & Hd & Hkeep).
  { rewrite Hbl. destruct Hpl. split; [done | lia | done | done]. }
  rewrite Hsec in *. destruct (Hkeep Hend) as (Hr' & Hs' & Hb' & Hbl' & Hba'). do 2 eexists. exists L.
  split; [unfold sectors; simpl; by rewrite Hd|]. split.
  - split; simpl; try done; [by rewrite Hba' | by rewrite Hbl' | intros i; by rewrite Hb', Hb].
  - split; [|done]. destruct (_ <=? _); [|done]. f_equal. apply list_fmap_ext. intros _ x _. apply Hb.
Qed.
End logic.

(** * An ideal heap and a disk image

    Blocks are placed above all the blocks in use; the laws hold, so they can
    be met.  (The kernel's own heap meets them for small objects, see
    [Mem.kmalloc_small_fresh] and [Mem.kfree_live]; for blocks of mixed orders
    [Buddy.mixed_orders_overlap] shows that it does not.) *)

Definition IdealHeap : Type := list (Z * Z).

Definition ideal_top (L : IdealHeap) : Z := foldr (fun b t => Z.max (b.1 + b.2) t) 4096 L.

Definition ideal_alloc (n : Z) (L : IdealHeap) : outcome (Z * IdealHeap) :=
  let p := (ideal_top L + 4095) / 4096 * 4096 in
  if p + n <? 2 ^ 48 then Ret (p, (p, n) :: L) else Ret (0, L).

Fixpoint remove_block (b : Z * Z) (L : IdealHeap) : option IdealHeap :=
  match L with
  | [] => None
  | b' :: L => if decide (b' = b) then Some L else (b' ::.) <$> remove_block b L
  end.

Lemma remove_block_spec b L : b ∈ L -> exists L', remove_block b L = Some L' /\ L ≡ₚ b :: L'.
Proof.
  induction L as [|b' L IH]; [by intros ?%not_elem_of_nil|]. intros Hin. simpl.
  destruct (decide (b' = b)) as [->|Hne]; [by exists L|].
  apply elem_of_cons in Hin as [->|Hin]; [done|]. destruct (IH Hin) as (L' & -> & HL).
  exists (b' :: L'). split; [done|]. rewrite HL. constructor.
Qed.

#[export] Instance ideal_heap : HeapOps IdealHeap := {|
  h_kmalloc := ideal_alloc;
  h_kmalloc_aligned n _ := ideal_alloc n;
  h_kfree p n L := match remove_block (p, n) L with
                   | Some L' => Ret L'
                   | None => Crash UndefinedBehaviour
                   end;
  h_stale _ _ n := replicate (Z.to_nat n) 0xAA;
|}.

Definition ideal_room (L : IdealHeap) (ns : list Z) : Prop :=
  Forall (fun n => 0 < n) ns /\ ideal_top L + foldr (fun n t => n + 4096 + t) 0 ns < 2 ^ 48.

Lemma ideal_top_perm L L' : L ≡ₚ L' -> ideal_top L = ideal_top L'.
Proof. induction 1; simpl in *; lia. Qed.

Lemma ideal_top_pos L : 4096 <= ideal_top L.
Proof. induction L as [|b L IH]; simpl; lia. Qed.

Lemma ideal_top_above L b : b ∈ L -> b.1 + b.2 <= ideal_top L.
Proof.
  induction L as [|b' L IH]; [by intros ?%not_elem_of_nil|].
  intros [->|Hin]%elem_of_cons; simpl; [lia|]. specialize (IH Hin). lia.
Qed.

Lemma ideal_placed n h : True -> 0 < n < 2 ^ 62 ->
  returns (ideal_alloc n h) (fun r => r.1 <> 0 -> placed 4096 h r.1 n).
Proof.
  intros _ Hn. pose proof (ideal_top_pos h) as Ht. unfold ideal_alloc.
  pose proof (Z.div_mod (ideal_top h + 4095) 4096). pose proof (Z.mod_pos_bound (ideal_top h + 4095) 4096).
  set (p := _ / 4096 * 4096). assert (ideal_top h <= p) as Hp by (subst p; lia).
  case_ltb; apply returns_ret; simpl; [|done]. intros _. split; [| lia.. |].
  - subst p. apply Z.mod_mul. lia.
  - apply Forall_forall. intros b Hb%ideal_top_above. right. simpl. lia.
Qed.

Lemma ideal_granted n h : True -> 0 < n < 2 ^ 62 ->
  returns (ideal_alloc n h) (granted (fun L => L) ideal_room (fun _ => True) n h).
Proof.
  intros _ Hn. pose proof (ideal_top_pos h) as Ht. unfold ideal_alloc.
  pose proof (Z.div_mod (ideal_top h + 4095) 4096). pose proof (Z.mod_pos_bound (ideal_top h + 4095) 4096).
  set (p := _ / 4096 * 4096). assert (ideal_top h <= p < ideal_top h + 4096) as Hp by (subst p; lia).
  clearbody p. case_ltb; apply returns_ret; (split; [done|]); split.
  - by rewrite (proj2 (Z.eqb_neq p 0)) by lia.
  - intros ns [Hpos Hs]. inversion Hpos; subst. simpl in Hs. split; [lia|]. split; [done|]. simpl. lia.
  - apply Permutation_refl.
  - intros ns [Hpos Hs]. inversion Hpos as [|? ? ? Hpos']; subst. simpl in Hs.
    assert (0 <= foldr (fun n t => n + 4096 + t) 0 ns); [|lia].
    clear -Hpos'. induction Hpos'; simpl; lia.
Qed.

#[export] Program Instance ideal_heap_laws : HeapLaws IdealHeap :=
  {| h_wf := fun _ => True; h_live := fun L => L; h_room := ideal_room; h_base := 4096 |}.
Next Obligation. intros L L' ns HL [Hp Hs]. split; [done|]. by rewrite <- (ideal_top_perm L L'). Qed.
Next Obligation. intros L n ns [Hp Hs]. inversion Hp; subst. split; [done|]. simpl in *. lia. Qed.
Next Obligation. intros n h Hw Hn. by apply ideal_granted. Qed.
Next Obligation.
  intros n h Hw Hn. simpl. destruct (ideal_granted n h Hw Hn) as (r & Hr & Hg).
  destruct (ideal_placed n h Hw Hn) as (r' & Hr' & Hp). exists r. split; [done|]. assert (r' = r) as -> by congruence. by split.
Qed.
Next Obligation.
  intros p n L _ Hin. simpl. destruct (remove_block_spec (p, n) L Hin) as (L' & -> & HL).
  by apply returns_ret.
Qed.
Next Obligation. intros h p n Hn. simpl. rewrite zlen_replicate. lia. Qed.

Record Image := mkImage { i_sectors : Z; i_byte : Z -> Z }.

#[export] Instance image_disk : Disk Image := {|
  read_sectors port lba count _ d :=
    let n := if count =? 0 then 65536 else count in
    Ret (if (port =? 0) && (lba + n <=? i_sectors d)
     then Some ((fun i => wrap 8 (i_byte d i)) <$> zseq (lba * 512) (Z.to_nat (n * 512))) else None, d);
|}.

#[export] Program Instance image_laws : DiskLaws Image := {|
  disk_ready := fun _ port => port = 0;
  disk_resilient := True;
  disk_sectors := fun d _ => i_sectors d;
  disk_byte := fun d _ i => wrap 8 (i_byte d i);
  disk_blocks := fun _ _ => [];
  disk_base := fun _ => 0;
|}.
Next Obligation. intros d port i. by apply wrap_in_word. Qed.
Next Obligation.
  intros d port lba n buf Hp Hlba Hn _. simpl in *. subst port. exists d. split; [|done].
  assert ((if wrap 16 n =? 0 then 65536 else wrap 16 n) = n) as ->; [|done].
  unfold wrap. rewrite Z.mod_small by lia. by decide_tests.
Qed.
