(* ===== verification/Ext3.v ===== *)
(** The disk file system, [src/kern/fs/ext3]: byte reads over disk sectors
    ([block.rs]), the superblock ([superblock.rs]), inodes and their block trees
    ([inode.rs]) and file contents.  Directories and paths are in [Ext3Dir]. *)
From S2P Require Import Prelude Word PageSource Buddy Slab Mem Disk.

Definition EXT_MAGIC : Z := 0xEF53.
Definition ROOT_INO : Z := 2.
Definition S_IFMT : Z := 0xF000.
Definition S_IFREG : Z := 0x8000.
Definition S_IFDIR : Z := 0x4000.

(** * Structures on disk *)

Record Superblock := mkSuperblock {
  s_inodes_count : Z; s_blocks_count : Z; s_r_blocks_count : Z; s_free_blocks_count : Z;
  s_free_inodes_count : Z; s_first_data_block : Z; s_log_block_size : Z; s_log_frag_size : Z;
  s_blocks_per_group : Z; s_frags_per_group : Z; s_inodes_per_group : Z; s_mtime : Z;
  s_wtime : Z; s_mnt_count : Z; s_max_mnt_count : Z; s_magic : Z; s_state : Z; s_errors : Z;
  s_minor_rev_level : Z; s_lastcheck : Z; s_checkinterval : Z; s_creator_os : Z;
  s_rev_level : Z; s_def_resuid : Z; s_def_resgid : Z; s_first_ino : Z; s_inode_size : Z;
  s_block_group_nr : Z; s_feature_compat : Z; s_feature_incompat : Z; s_feature_ro_compat : Z;
  s_uuid : list Z; s_volume_name : list Z;
}.

(** The [repr(C)] layouts. *)
Definition superblock_of_bytes (b : list Z) : Superblock :=
  mkSuperblock (field b 0 4) (field b 4 4) (field b 8 4) (field b 12 4) (field b 16 4)
    (field b 20 4) (field b 24 4) (field b 28 4) (field b 32 4) (field b 36 4) (field b 40 4)
    (field b 44 4) (field b 48 4) (field b 52 2) (field b 54 2) (field b 56 2) (field b 58 2)
    (field b 60 2) (field b 62 2) (field b 64 4) (field b 68 4) (field b 72 4) (field b 76 4)
    (field b 80 2) (field b 82 2) (field b 84 4) (field b 88 2) (field b 90 2) (field b 92 4)
    (field b 96 4) (field b 100 4) (sub b 104 16) (sub b 120 16).

Definition block_size (sb : Superblock) : Z := wshl 32 1024 (s_log_block_size sb).

Definition block_group_count (sb : Superblock) : outcome Z :=
  checked_div (wsub 32 (wadd 32 (s_blocks_count sb) (s_blocks_per_group sb)) 1) (s_blocks_per_group sb).

Definition inode_size (sb : Superblock) : Z :=
  if (1 <=? s_rev_level sb) && (0 <? s_inode_size sb) then s_inode_size sb else 128.

Record Inode := mkInode {
  i_mode : Z; i_uid : Z; i_size : Z; i_atime : Z; i_ctime : Z; i_mtime : Z; i_dtime : Z;
  i_gid : Z; i_links_count : Z; i_blocks : Z; i_flags : Z; i_osd1 : Z; i_block : list Z;
  i_generation : Z; i_file_acl : Z; i_size_high : Z; i_faddr : Z; i_osd2 : list Z;
}.

Definition inode_of_bytes (b : list Z) : Inode :=
  mkInode (field b 0 2) (field b 2 2) (field b 4 4) (field b 8 4) (field b 12 4) (field b 16 4)
    (field b 20 4) (field b 24 2) (field b 26 2) (field b 28 4) (field b 32 4) (field b 36 4)
    ((fun k => field b (40 + 4 * k) 4) <$> zseq 0 15)
    (field b 100 4) (field b 104 4) (field b 108 4) (field b 112 4) (sub b 116 12).

Record BlockGroupDesc := mkBgd {
  bg_block_bitmap : Z; bg_inode_bitmap : Z; bg_inode_table : Z; bg_free_blocks_count : Z;
  bg_free_inodes_count : Z; bg_used_dirs_count : Z;
}.

Definition bgd_of_bytes (b : list Z) : BlockGroupDesc :=
  mkBgd (field b 0 4) (field b 4 4) (field b 8 4) (field b 12 2) (field b 14 2) (field b 16 2).

Definition size (i : Inode) : Z :=
  let lo := i_size i in
  if Z.land (i_mode i) S_IFMT =? S_IFREG then Z.lor lo (wshl 64 (i_size_high i) 32) else lo.

Definition is_dir (i : Inode) : bool := Z.land (i_mode i) S_IFMT =? S_IFDIR.

Definition is_file (i : Inode) : bool := Z.land (i_mode i) S_IFMT =? S_IFREG.

(** [size_of::<Inode>()] is 128. *)
Definition INODE_BYTES : Z := 128.

Definition inode_alloc_size (inode_size : Z) : Z :=
  if INODE_BYTES <? inode_size then inode_size else INODE_BYTES.

(** * Reading *)

Section ext3.
Context {H D : Type} {HO : HeapOps H} {DO : Disk D}.

(** The bytes copied to [dst], or [None] for [false]; the caller stores them. *)
Definition read_bytes (port byte_off count : Z) : M H D (option (list Z)) :=
  if count =? 0 then mret (Some [])
  else
    let sector_start := byte_off / 512 in
    let offset_in_sector := byte_off mod 512 in
    let total_bytes := offset_in_sector ⊞ count in
    let sector_count := (total_bytes ⊞ 511) / 512 in
    let buf_size := sector_count ⊠ 512 in
    buf ← m_kmalloc_aligned buf_size 4096;
    if buf =? 0 then mret None
    else
      ok ← sectors port sector_start (wrap 16 sector_count) buf;
      r ← match ok with
          | Some data => d ← lift (raw_read data offset_in_sector count); mret (Some d)
          | None => mret None
          end;
      _ ← m_kfree buf buf_size;
      mret r.

Definition read_block (port block_num block_size : Z) : M H D (option (list Z)) :=
  let byte_off := block_num ⊠ block_size in
  read_bytes port byte_off block_size.

(** A null pointer is [None]. *)
Definition read_superblock (port : Z) : M H D (option (Z * Superblock)) :=
  buf ← m_kmalloc_aligned 4096 4096;
  if buf =? 0 then mret None
  else
    r ← read_bytes port 1024 1024;
    match r with
    | None => _ ← m_kfree buf 4096; mret None
    | Some bytes =>
        let sb := superblock_of_bytes bytes in
        if negb (s_magic sb =? EXT_MAGIC) then _ ← m_kfree buf 4096; mret None
        else mret (Some (buf, sb))
    end.

Definition read_inode (port : Z) (sb : Superblock) (ino : Z) : M H D (option (Z * Inode)) :=
  if ino =? 0 then mret None
  else
    let bs := block_size sb in
    group ← lift (checked_div (wsub 32 ino 1) (s_inodes_per_group sb));
    index ← lift (checked_rem (wsub 32 ino 1) (s_inodes_per_group sb));
    let isz := inode_size sb in
    let bgdt_block := if bs =? 1024 then 2 else 1 in
    let bgd_offset := bgdt_block ⊠ bs ⊞ group ⊠ 32 in
    r ← read_bytes port bgd_offset 32;
    match r with
    | None => mret None
    | Some bgd_bytes =>
        let inode_table_byte := bg_inode_table (bgd_of_bytes bgd_bytes) ⊠ bs in
        let inode_byte_off := inode_table_byte ⊞ index ⊠ isz in
        let alloc := inode_alloc_size isz in
        '(buf, _) ← m_kmalloc alloc;
        if buf =? 0 then mret None
        else
          r ← read_bytes port inode_byte_off isz;
          match r with
          | None => _ ← m_kfree buf alloc; mret None
          | Some bytes =>
              b ← lift (raw_write (replicate (Z.to_nat alloc) 0) 0 bytes);
              mret (Some (buf, inode_of_bytes b))
          end
    end.

Definition read_block_ptr (port block_size block_num index : Z) : M H D Z :=
  let byte_off := block_num ⊠ block_size ⊞ index ⊠ 4 in
  r ← read_bytes port byte_off 4;
  mret (match r with None => 0 | Some bytes => from_le bytes end).

Definition resolve_block (port : Z) (sb : Superblock) (inode : Inode) (logical : Z) : M H D Z :=
  let bs := block_size sb in
  let ptrs_per_block := bs / 4 in
  if logical <? 12 then lift (arr_get (i_block inode) logical)
  else
    let logical := wsub 32 logical 12 in
    if logical <? ptrs_per_block then
      indirect_block ← lift (arr_get (i_block inode) 12);
      if indirect_block =? 0 then mret 0
      else read_block_ptr port bs indirect_block logical
    else
      let logical := wsub 32 logical ptrs_per_block in
      let double_range := wmul 32 ptrs_per_block ptrs_per_block in
      if logical <? double_range then
        dbl_block ← lift (arr_get (i_block inode) 13);
        if dbl_block =? 0 then mret 0
        else
          idx1 ← lift (checked_div logical ptrs_per_block);
          idx2 ← lift (checked_rem logical ptrs_per_block);
          ind_block ← read_block_ptr port bs dbl_block idx1;
          if ind_block =? 0 then mret 0
          else read_block_ptr port bs ind_block idx2
      else
        let logical := wsub 32 logical double_range in
        let triple_range := wmul 32 (wmul 32 ptrs_per_block ptrs_per_block) ptrs_per_block in
        if logical <? triple_range then
          tri_block ← lift (arr_get (i_block inode) 14);
          if tri_block =? 0 then mret 0
          else
            idx1 ← lift (checked_div logical (wmul 32 ptrs_per_block ptrs_per_block));
            rem ← lift (checked_rem logical (wmul 32 ptrs_per_block ptrs_per_block));
            idx2 ← lift (checked_div rem ptrs_per_block);
            idx3 ← lift (checked_rem rem ptrs_per_block);
            dbl ← read_block_ptr port bs tri_block idx1;
            if dbl =? 0 then mret 0
            else
              ind ← read_block_ptr port bs dbl idx2;
              if ind =? 0 then mret 0
              else read_block_ptr port bs ind idx3
        else mret 0.

(** The loop of [read_inode_data] over [n] logical blocks from [logical_block];
    [None] when a block cannot be read. *)
Fixpoint data_loop (n : nat) (port : Z) (sb : Superblock) (inode : Inode)
    (logical_block bytes_left buf_off : Z) (data : list Z) : M H D (option (list Z)) :=
  match n with
  | O => mret (Some data)
  | S n =>
      phys_block ← resolve_block port sb inode (wrap 32 logical_block);
      let chunk := Z.min bytes_left (block_size sb) in
      if phys_block =? 0 then
        data ← lift (raw_write data buf_off (replicate (Z.to_nat chunk) 0));
        data_loop n port sb inode (logical_block + 1) (bytes_left ⊟ chunk) (buf_off ⊞ chunk) data
      else
        r ← read_block port phys_block (block_size sb);
        match r with
        | None => mret None
        | Some d =>
            data ← lift (raw_write data buf_off d);
            data_loop n port sb inode (logical_block + 1) (bytes_left ⊟ chunk) (buf_off ⊞ chunk) data
        end
  end.

(** [(null, 0)] is [None]; otherwise the buffer's address and contents, whose
    length is the returned size. *)
Definition read_inode_data (port : Z) (sb : Superblock) (inode : Inode) : M H D (option (Z * list Z)) :=
  let size := size inode in
  if size =? 0 then mret None
  else
    '(buf, stale) ← m_kmalloc size;
    if buf =? 0 then mret None
    else
      blocks_needed ← lift (checked_div (size ⊞ block_size sb ⊟ 1) (block_size sb));
      r ← data_loop (Z.to_nat blocks_needed) port sb inode 0 size 0 stale;
      match r with
      | None => _ ← m_kfree buf size; mret None
      | Some data => mret (Some (buf, data))
      end.
End ext3.

(** * Reads are exact *)

Section reads.
Context {H D : Type} {HO : HeapOps H} {HL : HeapLaws H} {DO : Disk D} {DL : DiskLaws D}.
Context (port nsec : Z) (img : Z -> Z) (own : list (Z * Z)).
Abbreviation yields := (@yields H D HO HL DO DL port nsec img own).
Abbreviation room := (@room H HO HL own).
Abbreviation resilient := (@disk_resilient D DO DL).
Abbreviation served := (@served D DO DL nsec img).

(** The number of sectors that hold the bytes [off .. off + count). *)
Definition span (off count : Z) : Z := (off mod 512 + count + 511) / 512.

Lemma sub_image off count n : 0 <= count -> off mod 512 + count <= n ->
  sub (img <$> zseq (off / 512 * 512) (Z.to_nat n)) (off mod 512) count =
  img <$> zseq off (Z.to_nat count).
Proof.
  intros Hc Hn. pose proof (Z.div_mod off 512). pose proof (Z.mod_pos_bound off 512).
  apply zget_ext.
  { rewrite sub_len; unfold zlen; rewrite ?length_fmap, ?zseq_length; lia. }
  intros i Hi. rewrite sub_len in Hi by (unfold zlen; rewrite ?length_fmap, ?zseq_length; lia).
  rewrite zget_sub, !zget_fmap_zseq by lia. f_equal. f_equal. lia.
Qed.

Lemma read_bytes_yields L off count ns : 0 <= off < 2 ^ 56 -> 0 < count -> span off count <= 8192 ->
  room L (span off count * 512 :: ns) -> served off count ->
  yields L (read_bytes port off count) (disk_read nsec img off count).
Proof.
  intros Hoff Hc Hspan Hroom Hend. unfold read_bytes. decide_tests.
  assert (off mod 512 + count < 2 ^ 26) as Hlt.
  { unfold span in Hspan. pose proof (Z.div_mod (off mod 512 + count + 511) 512).
    pose proof (Z.mod_pos_bound (off mod 512 + count + 511) 512). lia. }
  pose proof (Z.mod_pos_bound off 512).
  rewrite !(wadd_small 64) by (unfold in_word; rewrite ?(wadd_small 64) by (unfold in_word; lia); lia).
  fold (span off count). set (n := span off count) in *.
  assert (off mod 512 + count <= n * 512 /\ 0 < n) as [Hn Hn0].
  { subst n. unfold span. pose proof (Z.div_mod (off mod 512 + count + 511) 512).
    pose proof (Z.mod_pos_bound (off mod 512 + count + 511) 512). lia. }
  rewrite (wmul_small 64) by (unfold in_word; lia).
  eapply triple_bind; [apply (triple_kmalloc_aligned _ _ _ _ _ _ ns); [lia | exact Hroom]|].
  intros buf L' (Hb & Hpl & -> & _). rewrite (proj2 (Z.eqb_neq buf 0) Hb).
  assert (0 <= off / 512 < 2 ^ 48) as Hlba.
  { split; [apply Z.div_pos; lia|]. apply Z.div_lt_upper_bound; lia. }
  eapply yields_bind; [apply yields_sectors; [done | lia | done |]|].
  { destruct Hend as [Hres|[x Hx]]; [by left | right]. unfold disk_read in Hx. fold (span off count) n in Hx.
    by destruct (Z.leb_spec (off / 512 + n) nsec). }
  unfold disk_read. fold (span off count). fold n. destruct (off / 512 + n <=? nsec).
  - eapply yields_bind.
    + eapply yields_bind; [apply yields_lift; unfold raw_read|apply yields_ret].
      unfold zlen. rewrite length_fmap, zseq_length. decide_tests.
      rewrite sub_image by lia. done.
    + eapply triple_bind; [apply triple_kfree|]. intros _ L' ->. by apply triple_ret.
  - eapply yields_bind; [apply yields_ret|].
    eapply triple_bind; [apply triple_kfree|]. intros _ L' ->. by apply triple_ret.
Qed.

(** * Block trees *)

(** The pointer at index [i] of block [b]; unreadable blocks read as zero. *)
Definition ptr_at (bs b i : Z) : Z :=
  match disk_read nsec img (b * bs + i * 4) 4 with Some l => from_le l | None => 0 end.

(** Leaf [i] of the tree of height [lvl] with root block [b] and [ppb]
    pointers per block; a zero pointer is a hole. *)
Fixpoint tree (bs ppb : Z) (lvl : nat) (b i : Z) : Z :=
  match lvl with
  | O => b
  | S lvl' =>
      if b =? 0 then 0
      else tree bs ppb lvl' (ptr_at bs b (i / ppb ^ Z.of_nat lvl')) (i mod ppb ^ Z.of_nat lvl')
  end.

(** The physical block of logical block [i]: twelve direct blocks, then trees of
    height one, two and three. *)
Definition file_block (bs : Z) (iblock : list Z) (i : Z) : Z :=
  let ppb := bs / 4 in
  let root k := default 0 (zget iblock k) in
  if i <? 12 then root i
  else if i <? 12 + ppb then tree bs ppb 1 (root 12) (i - 12)
  else if i <? 12 + ppb + ppb ^ 2 then tree bs ppb 2 (root 13) (i - 12 - ppb)
  else if i <? 12 + ppb + ppb ^ 2 + ppb ^ 3 then tree bs ppb 3 (root 14) (i - 12 - ppb - ppb ^ 2)
  else 0.

(** The pointer blocks on the way to leaf [i], and to logical block [i], can be read. *)
Fixpoint tree_exists (bs ppb : Z) (lvl : nat) (b i : Z) : bool :=
  match lvl with
  | O => true
  | S lvl' =>
      (b =? 0) ||
      bool_decide (is_Some (disk_read nsec img (b * bs + i / ppb ^ Z.of_nat lvl' * 4) 4)) &&
      tree_exists bs ppb lvl' (ptr_at bs b (i / ppb ^ Z.of_nat lvl')) (i mod ppb ^ Z.of_nat lvl')
  end.

Definition pointers_exist (bs : Z) (iblock : list Z) (i : Z) : bool :=
  let ppb := bs / 4 in
  let root k := default 0 (zget iblock k) in
  if i <? 12 then true
  else if i <? 12 + ppb then tree_exists bs ppb 1 (root 12) (i - 12)
  else if i <? 12 + ppb + ppb ^ 2 then tree_exists bs ppb 2 (root 13) (i - 12 - ppb)
  else if i <? 12 + ppb + ppb ^ 2 + ppb ^ 3 then tree_exists bs ppb 3 (root 14) (i - 12 - ppb - ppb ^ 2)
  else true.

Definition geometry (bs : Z) : Prop := bs = 1024 \/ bs = 2048 \/ bs = 4096.

Definition roots_ok (iblock : list Z) : Prop := zlen iblock = 15 /\ Forall (in_word 32) iblock.

Hypothesis img_bytes : forall i, in_word 8 (img i).

Lemma ptr_at_word bs b i : in_word 32 (ptr_at bs b i).
Proof.
  unfold ptr_at. destruct (disk_read nsec img (b * bs + i * 4) 4) as [l|] eqn:Hl; [|split; lia].
  unfold disk_read in Hl. destruct (_ <=? nsec); [|done]. injection Hl as <-.
  set (off := b * bs + i * 4).
  change (in_word (8 * zlen (img <$> zseq off (Z.to_nat 4))) (from_le (img <$> zseq off (Z.to_nat 4)))).
  apply from_le_range, Forall_fmap, Forall_true. intros x. apply img_bytes.
Qed.

Lemma ppb_range bs : geometry bs -> 256 <= bs / 4 <= 1024.
Proof. by intros [->|[->| ->]]. Qed.

Lemma read_block_ptr_yields L bs b i : geometry bs -> in_word 32 b -> 0 <= i < bs / 4 ->
  room L [512] -> served (b * bs + i * 4) 4 -> yields L (read_block_ptr port bs b i) (ptr_at bs b i).
Proof.
  intros Hg [Hb1 Hb2] Hi Hroom Hend. unfold read_block_ptr.
  assert (0 <= b * bs < 2 ^ 44 /\ 0 <= i < 1024 /\ (b * bs) mod 512 = 0) as (H1 & H2 & H3).
  { pose proof (ppb_range bs Hg). destruct Hg as [->|[->| ->]]; (split; [lia|]; split; [lia|]).
    - replace (b * 1024) with (b * 2 * 512) by lia. apply Z.mod_mul. lia.
    - replace (b * 2048) with (b * 4 * 512) by lia. apply Z.mod_mul. lia.
    - replace (b * 4096) with (b * 8 * 512) by lia. apply Z.mod_mul. lia. }
  rewrite (wmul_small 64 b), (wmul_small 64 i) by (unfold in_word; lia).
  rewrite wadd_small by (unfold in_word; lia).
  assert (span (b * bs + i * 4) 4 = 1) as Hs.
  { unfold span. pose proof (Z.div_mod (b * bs) 512).
    replace (b * bs + i * 4) with (i * 4 + b * bs / 512 * 512) by lia. rewrite Z.mod_add by lia.
    pose proof (Z.div_mod (i * 4) 512). pose proof (Z.mod_pos_bound (i * 4) 512).
    symmetry. apply (Z.div_unique _ _ 1 ((i * 4) mod 512 + 4 + 511 - 512)); lia. }
  eapply yields_bind.
  - apply (read_bytes_yields _ _ _ []); [lia | lia | lia | by rewrite Hs | done].
  - apply yields_ret.
Qed.

(** The inode's roots are read without a panic. *)
Lemma root_get iblock k : roots_ok iblock -> 0 <= k < 15 ->
  arr_get iblock k = Ret (default 0 (zget iblock k)) /\ in_word 32 (default 0 (zget iblock k)).
Proof.
  intros [Hl Hw] Hk. destruct (zget_is_Some iblock k) as [x Hx]; [lia|].
  unfold arr_get. rewrite Hx. split; [done|]. by eapply Forall_zget.
Qed.

Lemma mdiv_yields L a b : b <> 0 -> yields L (lift (checked_div a b)) (a / b).
Proof. intros Hb. apply yields_lift. unfold checked_div. by rewrite (proj2 (Z.eqb_neq b 0) Hb). Qed.

Lemma mrem_yields L a b : b <> 0 -> yields L (lift (checked_rem a b)) (a mod b).
Proof. intros Hb. apply yields_lift. unfold checked_rem. by rewrite (proj2 (Z.eqb_neq b 0) Hb). Qed.

(** Descending one level of a tree: a zero pointer ends the search. *)
Lemma hole_yields {A} L (b : Z) (z : A) (m : M H D A) v :
  (b <> 0 -> yields L m v) -> yields L (if b =? 0 then mret z else m) (if b =? 0 then z else v).
Proof. intros Hm. destruct (Z.eqb_spec b 0); [apply yields_ret | by apply Hm]. Qed.

Lemma tree_zero bs ppb lvl i : tree bs ppb lvl 0 i = 0.
Proof. by destruct lvl. Qed.

(** Descending one level: the pointer can be read, and the rest of the way exists. *)
Lemma tree_served bs ppb lvl b i : b <> 0 -> resilient \/ tree_exists bs ppb (S lvl) b i = true ->
  served (b * bs + i / ppb ^ Z.of_nat lvl * 4) 4 /\
  (resilient \/ tree_exists bs ppb lvl (ptr_at bs b (i / ppb ^ Z.of_nat lvl)) (i mod ppb ^ Z.of_nat lvl) = true).
Proof.
  intros Hb [Hr|He]; [split; by left|]. cbn [tree_exists] in He.
  rewrite (proj2 (Z.eqb_neq b 0) Hb) in He. apply andb_true_iff in He as [Hd He].
  apply bool_decide_eq_true in Hd. split; by right.
Qed.

Ltac mstep := eapply yields_bind; [first [ by apply mdiv_yields; lia | by apply mrem_yields; lia
  | by apply yields_lift | by apply read_block_ptr_yields; auto using ptr_at_word ]|].

Lemma resolve_block_yields L sb inode i : geometry (block_size sb) -> roots_ok (i_block inode) ->
  in_word 32 i -> room L [512] -> resilient \/ pointers_exist (block_size sb) (i_block inode) i = true ->
  yields L (resolve_block port sb inode i) (file_block (block_size sb) (i_block inode) i).
Proof.
  intros Hg Hr [Hi1 Hi2] Hroom. unfold resolve_block, file_block, pointers_exist.
  pose proof (ppb_range _ Hg) as Hp. set (bs := block_size sb) in *. set (ppb := bs / 4) in *.
  assert (ppb ^ 2 = ppb * ppb /\ ppb ^ 3 = ppb * ppb * ppb) as [E2 E3] by lia.
  assert (ppb * ppb <= 1024 * 1024) as H2 by nia. assert (ppb * ppb * ppb <= 1024 * 1024 * 1024) as H3 by nia.
  destruct (Z.ltb_spec i 12) as [Hlt|Hge].
  { intros _. apply yields_lift. apply root_get; [done | lia]. }
  rewrite (wsub_small 32 i 12) by (unfold in_word; lia).
  destruct (root_get _ 12 Hr) as [R12 W12]; [lia|]. destruct (root_get _ 13 Hr) as [R13 W13]; [lia|].
  destruct (root_get _ 14 Hr) as [R14 W14]; [lia|].
  replace (i <? 12 + ppb) with (i - 12 <? ppb) by (destruct (Z.ltb_spec (i - 12) ppb), (Z.ltb_spec i (12 + ppb)); lia).
  destruct (Z.ltb_spec (i - 12) ppb) as [Hlt1|Hge1].
  { intros Hend. mstep. cbn [tree]. rewrite Z.pow_0_r, Z.div_1_r. apply hole_yields. intros Hb.
    destruct (tree_served _ _ _ _ _ Hb Hend) as [S1 _]. rewrite Z.pow_0_r, Z.div_1_r in S1.
    apply read_block_ptr_yields; auto with lia. }
  rewrite (wsub_small 32 (i - 12)) by (unfold in_word; lia).
  rewrite (wmul_small 32 ppb ppb) by (unfold in_word; lia). rewrite (wmul_small 32 (ppb * ppb)) by (unfold in_word; nia).
  set (j := i - 12 - ppb) in *. rewrite E2, E3.
  replace (i <? 12 + ppb + ppb * ppb) with (j <? ppb * ppb)
    by (subst j; destruct (Z.ltb_spec (i - 12 - ppb) (ppb * ppb)), (Z.ltb_spec i (12 + ppb + ppb * ppb)); lia).
  destruct (Z.ltb_spec j (ppb * ppb)) as [Hlt2|Hge2].
  { intros Hend. mstep. cbn [tree]. rewrite Z.pow_0_r, Z.div_1_r. change (Z.of_nat 1) with 1. rewrite Z.pow_1_r.
    apply hole_yields. intros Hb. destruct (tree_served _ _ _ _ _ Hb Hend) as [S1 Hend1].
    change (Z.of_nat 1) with 1 in S1, Hend1. rewrite Z.pow_1_r in S1, Hend1.
    assert (0 <= j / ppb < ppb) by (split; [apply Z.div_pos; lia | apply Z.div_lt_upper_bound; lia]).
    pose proof (Z.mod_pos_bound j ppb).
    do 3 mstep. apply hole_yields. intros Hb1. destruct (tree_served _ _ _ _ _ Hb1 Hend1) as [S2 _].
    rewrite Z.pow_0_r, Z.div_1_r in S2. apply read_block_ptr_yields; auto using ptr_at_word with lia. }
  rewrite (wsub_small 32 j) by (unfold in_word; lia). set (k := j - ppb * ppb) in *.
  replace (i <? 12 + ppb + ppb * ppb + ppb * ppb * ppb) with (k <? ppb * ppb * ppb)
    by (subst k j; destruct (Z.ltb_spec (i - 12 - ppb - ppb * ppb) (ppb * ppb * ppb)),
      (Z.ltb_spec i (12 + ppb + ppb * ppb + ppb * ppb * ppb)); lia).
  destruct (Z.ltb_spec k (ppb * ppb * ppb)) as [Hlt3|Hge3]; [|intros _; apply yields_ret].
  intros Hend. mstep. cbn [tree]. rewrite Z.pow_0_r, Z.div_1_r. change (Z.of_nat 1) with 1. change (Z.of_nat 2) with 2.
  rewrite Z.pow_1_r, E2. apply hole_yields. intros Hb. destruct (tree_served _ _ _ _ _ Hb Hend) as [S1 Hend1].
  change (Z.of_nat 2) with 2 in S1, Hend1. rewrite E2 in S1, Hend1.
  assert (0 <= k / (ppb * ppb) < ppb) by (split; [apply Z.div_pos; nia | apply Z.div_lt_upper_bound; nia]).
  pose proof (Z.mod_pos_bound k (ppb * ppb)) as Hm. set (r := k mod (ppb * ppb)) in *.
  assert (0 <= r / ppb < ppb) by (split; [apply Z.div_pos; nia | apply Z.div_lt_upper_bound; nia]).
  pose proof (Z.mod_pos_bound r ppb).
  do 5 mstep. apply hole_yields. intros Hb1. destruct (tree_served _ _ _ _ _ Hb1 Hend1) as [S2 Hend2].
  change (Z.of_nat 1) with 1 in S2, Hend2. rewrite Z.pow_1_r in S2, Hend2.
  mstep. apply hole_yields. intros Hb2. destruct (tree_served _ _ _ _ _ Hb2 Hend2) as [S3 _].
  rewrite Z.pow_0_r, Z.div_1_r in S3.
  apply read_block_ptr_yields; auto using ptr_at_word with lia.
Qed.

(** * File contents *)

Lemma read_block_yields L bs b : geometry bs -> in_word 32 b -> room L [bs] -> served (b * bs) bs ->
  yields L (read_block port b bs) (disk_read nsec img (b * bs) bs).
Proof.
  intros Hg [Hb1 Hb2] Hroom Hend. unfold read_block.
  assert (0 <= b * bs < 2 ^ 44 /\ span (b * bs) bs * 512 = bs /\ 0 < bs <= 4096) as (H1 & H2 & H3).
  { unfold span. destruct Hg as [->|[->| ->]]; (split; [lia|]; split; [|lia]).
    - replace (b * 1024) with (b * 2 * 512) by lia. by rewrite Z.mod_mul by lia.
    - replace (b * 2048) with (b * 4 * 512) by lia. by rewrite Z.mod_mul by lia.
    - replace (b * 4096) with (b * 8 * 512) by lia. by rewrite Z.mod_mul by lia. }
  rewrite wmul_small by (unfold in_word; lia).
  apply (read_bytes_yields _ _ _ []); [lia | lia | lia | by rewrite H2 | done].
Qed.

Section file.
Context (sb : Superblock) (inode : Inode).
Let bs := block_size sb.

(** Physical block of logical block [k], byte [i] of the file, and whether
    block [k] can be read. *)
Definition phys (k : Z) : Z := file_block bs (i_block inode) k.

Definition file_byte (i : Z) : Z :=
  if phys (i / bs) =? 0 then 0 else img (phys (i / bs) * bs + i mod bs).

Definition readable (k : Z) : bool :=
  (phys k =? 0) || bool_decide (is_Some (disk_read nsec img (phys k * bs) bs)).

(** The copy of the last block passes the end of a buffer of [size] bytes. *)
Definition overflows (size : Z) : bool :=
  negb (size mod bs =? 0) && negb (phys (size / bs) =? 0).

Hypothesis Hg : geometry bs.
Hypothesis Hroots : roots_ok (i_block inode).

Lemma tree_word ppb lvl b i : in_word 32 b -> in_word 32 (tree bs ppb lvl b i).
Proof.
  revert b i. induction lvl as [|lvl IH]; intros b i Hb; [done|]. cbn [tree].
  case_ltb; [by split|]. apply IH, ptr_at_word.
Qed.

Lemma phys_word k : 0 <= k -> in_word 32 (phys k).
Proof.
  intros Hk. unfold phys, file_block.
  repeat case_ltb; try (apply tree_word); try (apply root_get; [done | lia]). by split.
Qed.

Lemma bs_range : 1024 <= bs <= 4096.
Proof. by destruct Hg as [->|[->| ->]]. Qed.

Lemma file_byte_at k i : 0 <= k -> 0 <= i < bs ->
  file_byte (k * bs + i) = if phys k =? 0 then 0 else img (phys k * bs + i).
Proof.
  intros Hk Hi. unfold file_byte.
  assert ((k * bs + i) / bs = k) as ->.
  { rewrite Z.div_add_l by lia. rewrite Z.div_small by lia. lia. }
  assert ((k * bs + i) mod bs = i) as ->; [|done].
  rewrite Z.add_comm, Z.mod_add by lia. by apply Z.mod_small.
Qed.

(** After [k] rounds the first [k] blocks of the buffer are right. *)
Definition filled (size k : Z) (data : list Z) : Prop :=
  zlen data = size /\
  forall i, 0 <= i < Z.min (k * bs) size -> zget data i = Some (file_byte i).

Lemma filled_write size k data x : 0 <= k -> k * bs < size -> filled size k data ->
  k * bs + zlen x <= size -> Z.min (size - k * bs) bs <= zlen x <= bs ->
  (forall i, 0 <= i < zlen x -> zget x i = Some (if phys k =? 0 then 0 else img (phys k * bs + i))) ->
  exists data', raw_write data (k * bs) x = Ret data' /\ filled size (k + 1) data'.
Proof.
  intros Hk Hlt [Hl Hf] Hle Hx Hval. pose proof bs_range.
  destruct (raw_write_ok data (k * bs) x) as (data' & -> & Hl' & Hget); [nia | lia|].
  exists data'. split; [done|]. split; [lia|]. intros i Hi. rewrite Hget by lia.
  destruct (Z.leb_spec (k * bs) i); simpl; [|apply Hf; lia].
  replace (i <? k * bs + zlen x) with true by (symmetry; apply Z.ltb_lt; lia).
  rewrite Hval by lia. replace (file_byte i) with (file_byte (k * bs + (i - k * bs))) by (f_equal; lia).
  by rewrite file_byte_at by lia.
Qed.

Lemma filled_all size k data : 0 <= size <= k * bs -> filled size k data ->
  data = file_byte <$> zseq 0 (Z.to_nat size).
Proof.
  intros Hs [Hl Hf]. apply zget_ext; [by rewrite zlen_fmap_zseq by lia|].
  intros i Hi. rewrite Hf, zget_fmap_zseq by lia. done.
Qed.

(** What the loop over the blocks [k .. k + n) comes to. *)
Definition loop_post (size k : Z) (n : nat) (L : list (Z * Z)) (r : option (list Z)) (L' : list (Z * Z)) : Prop :=
  L' = L /\ if forallb readable (zseq k n)
            then overflows size = false /\ r = Some (file_byte <$> zseq 0 (Z.to_nat size))
            else r = None.

Definition loop_crash (size k : Z) (n : nat) (c : crash) : Prop :=
  c = UndefinedBehaviour /\ forallb readable (zseq k n) = true /\ overflows size = true.

Lemma readable_some k : phys k <> 0 -> readable k = true ->
  disk_read nsec img (phys k * bs) bs = Some (img <$> zseq (phys k * bs) (Z.to_nat bs)).
Proof.
  unfold readable. intros Hk Hr. rewrite (proj2 (Z.eqb_neq _ _) Hk) in Hr. simpl in Hr.
  apply bool_decide_eq_true in Hr as [x Hx]. unfold disk_read in *. by destruct (_ <=? nsec).
Qed.

(** The blocks [k .. k + n) leave the disk usable: pointer blocks and data exist. *)
Definition block_exists (k : Z) : bool := pointers_exist bs (i_block inode) k && readable k.

Definition blocks_served (k : Z) (n : nat) : Prop := resilient \/ forallb block_exists (zseq k n) = true.

Lemma blocks_served_cons k n : blocks_served k (S n) ->
  (resilient \/ pointers_exist bs (i_block inode) k = true) /\
  (phys k <> 0 -> served (phys k * bs) bs) /\ blocks_served (k + 1) n.
Proof.
  intros [Hr|He]; [split_and!; [by left | by left | by left]|]. cbn [zseq forallb] in He.
  apply andb_true_iff in He as [He Hrest]. apply andb_true_iff in He as [Hp Hread].
  split_and!; [by right | intros Hnz; right | by right]. rewrite readable_some by done. done.
Qed.

(** The last block, [k]: a hole fits, data does not. *)
Lemma last_block size k : k * bs < size < (k + 1) * bs -> size / bs = k /\ size mod bs = size - k * bs.
Proof.
  intros Hs. split; symmetry; [apply (Z.div_unique _ _ k (size - k * bs)); lia | apply (Z.mod_unique _ _ k); lia].
Qed.

Lemma fits_hole size k : k * bs < size -> phys k = 0 -> (k + 1) * bs <= size \/ overflows size = false.
Proof.
  intros Hlt Hz. destruct (Z.leb_spec ((k + 1) * bs) size) as [Hle|Hgt]; [by left | right].
  unfold overflows. destruct (last_block size k) as [-> _]; [lia|]. rewrite Hz. apply andb_false_r.
Qed.

Lemma overflows_last size k : k * bs < size -> size < k * bs + bs -> phys k <> 0 -> overflows size = true.
Proof.
  intros Hlt Hgt Hnz. unfold overflows. destruct (last_block size k) as [-> ->]; [lia|].
  by rewrite (proj2 (Z.eqb_neq _ _) Hnz), (proj2 (Z.eqb_neq (size - k * bs) 0)) by lia.
Qed.

Lemma data_loop_exec L size n k data : 0 < size < 2 ^ 42 -> room L [512] -> room L [bs] ->
  0 <= k -> (k + Z.of_nat n - 1) * bs < size <= (k + Z.of_nat n) * bs ->
  (k * bs <= size \/ overflows size = false) -> filled size k data -> blocks_served k n ->
  exec port nsec img own L (data_loop n port sb inode k (size - Z.min (k * bs) size) (Z.min (k * bs) size) data)
    (loop_post size k n L) (loop_crash size k n).
Proof.
  intros Hs Hr1 Hr2. pose proof bs_range as Hbs. revert k data.
  induction n as [|n IH]; intros k data Hk Hn Hov Hfill Hend.
  { cbn [data_loop]. apply exec_triple, triple_ret. split; [done|]. simpl. split.
    - destruct Hov as [Hov|Hov]; [|done]. unfold overflows.
      assert (size = k * bs) as -> by lia. by rewrite Z.mod_mul by lia.
    - f_equal. eapply (filled_all size k); [lia | done]. }
  apply blocks_served_cons in Hend as (Hptr & Hdata & Hend).
  assert (k * bs < size) as Hlt by nia. assert (k < 2 ^ 32) as Hk32 by nia.
  pose proof (fits_hole size k) as Hhole.
  rewrite Z.min_l by lia. cbn [data_loop]. rewrite wrap_small by (split; lia).
  eapply exec_pure; [apply resolve_block_yields; [done | done | split; lia | done | done]|].
  fold bs. change (file_block bs (i_block inode) k) with (phys k).
  assert (forall data', filled size (k + 1) data' ->
    readable k = true -> ((k + 1) * bs <= size \/ overflows size = false) ->
    exec port nsec img own L (data_loop n port sb inode (k + 1) (size - k * bs ⊟ Z.min (size - k * bs) bs)
      (k * bs ⊞ Z.min (size - k * bs) bs) data') (loop_post size k (S n) L) (loop_crash size k (S n))) as Hnext.
  { intros data' Hf' Hread Hov'. rewrite wsub_small, wadd_small by (unfold in_word; lia).
    replace (size - k * bs - Z.min (size - k * bs) bs) with (size - Z.min ((k + 1) * bs) size) by lia.
    replace (k * bs + Z.min (size - k * bs) bs) with (Z.min ((k + 1) * bs) size) by lia.
    unfold loop_post, loop_crash. cbn [zseq forallb]. rewrite Hread. apply IH; [lia | nia | done | done | done]. }
  destruct (Z.eqb_spec (phys k) 0) as [Hz|Hnz].
  - destruct (filled_write size k data (replicate (Z.to_nat (Z.min (size - k * bs) bs)) 0))
      as (data' & Hw & Hf'); try rewrite zlen_replicate; [lia | lia | done | lia | lia | |].
    { intros i Hi. rewrite (proj2 (Z.eqb_eq (phys k) 0) Hz). apply zget_replicate. lia. }
    eapply exec_pure; [by apply yields_lift|]. apply Hnext; [done| |apply Hhole; [lia | done]].
    unfold readable. by rewrite (proj2 (Z.eqb_eq (phys k) 0) Hz).
  - eapply exec_pure; [apply read_block_yields; [done | by apply phys_word | done | by apply Hdata]|].
    destruct (readable k) eqn:Hread.
    2: { assert (disk_read nsec img (phys k * bs) bs = None) as ->.
         { unfold readable in Hread. rewrite (proj2 (Z.eqb_neq _ _) Hnz) in Hread. simpl in Hread.
           apply bool_decide_eq_false, eq_None_not_Some in Hread. done. }
         apply exec_triple, triple_ret. unfold loop_post. cbn [zseq forallb]. by rewrite Hread. }
    rewrite readable_some by done. set (d := img <$> zseq _ _).
    assert (zlen d = bs) as Hd by (apply zlen_fmap_zseq; lia).
    destruct (Z.leb_spec (k * bs + bs) size) as [Hfit|Hover].
    + destruct (filled_write size k data d) as (data' & Hw & Hf'); [lia | lia | done | lia | lia | |].
      { intros i Hi. rewrite (proj2 (Z.eqb_neq _ _) Hnz). apply zget_fmap_zseq. lia. }
      eapply exec_pure; [by apply yields_lift|]. apply Hnext; [done | done | left; lia].
    + apply (exec_crash _ _ _ _ _ _ _ _ _ UndefinedBehaviour).
      { unfold raw_write. destruct Hfill as [Hl _]. rewrite Hl, Hd. by decide_tests. }
      assert (n = O) as -> by nia. unfold loop_crash. cbn [zseq forallb]. rewrite Hread.
      split; [done|]. split; [done|]. by apply (overflows_last size k); [lia | lia |].
Qed.

Lemma read_inode_data_exec L : 0 < size inode < 2 ^ 42 ->
  room L [size inode; 512] -> room L [size inode; bs] ->
  blocks_served 0 (Z.to_nat ((size inode + bs - 1) / bs)) ->
  exec port nsec img own L (read_inode_data port sb inode)
    (fun r L' => if forallb readable (zseq 0 (Z.to_nat ((size inode + bs - 1) / bs)))
      then overflows (size inode) = false /\
        exists p, p <> 0 /\ r = Some (p, file_byte <$> zseq 0 (Z.to_nat (size inode))) /\
          L' = (p, size inode) :: L
      else r = None /\ L' = L)
    (loop_crash (size inode) 0 (Z.to_nat ((size inode + bs - 1) / bs))).
Proof.
  intros Hs Hr1 Hr2 Hend. pose proof bs_range as Hbs. unfold read_inode_data. set (sz := size inode) in *.
  decide_tests. eapply exec_step; [by apply (triple_kmalloc _ _ _ _ _ _ [512]); [lia|]|].
  intros [p stale] L1 (Hp & Hstale & -> & Hroom). rewrite (proj2 (Z.eqb_neq p 0) Hp).
  rewrite wadd_small, wsub_small by (unfold in_word; fold bs; rewrite ?wadd_small by (unfold in_word; fold bs; lia); lia).
  fold bs. eapply exec_pure; [apply mdiv_yields; lia|]. set (N := (sz + bs - 1) / bs).
  assert (0 <= N /\ (N - 1) * bs < sz <= N * bs) as [HN0 HN].
  { subst N. pose proof (Z.div_mod (sz + bs - 1) bs). pose proof (Z.mod_pos_bound (sz + bs - 1) bs).
    split; [apply Z.div_pos; lia | lia]. }
  eapply exec_bind.
  - pose proof (data_loop_exec ((p, sz) :: L) sz (Z.to_nat N) 0 stale Hs (Hroom _ Hr1) (Hroom _ Hr2)) as Hl.
    rewrite Z.mul_0_l, Z.min_l, Z.sub_0_r, Z2Nat.id in Hl by lia.
    apply Hl; [lia | lia | left; lia | | done]. split; [done|]. intros i Hi. lia.
  - intros r L' [-> Hpost]. destruct (forallb readable _).
    + destruct Hpost as [Hov ->]. apply exec_triple, triple_ret. split; [done|]. by exists p.
    + subst r. apply exec_triple. eapply triple_bind; [apply triple_kfree|].
      intros _ L' ->. by apply triple_ret.
Qed.
End file.

(** * Inodes *)

(** Inode [ino] as the disk has it: the group descriptor gives the table, the
    index the place in it. *)
Definition inode_at (sb : Superblock) (ino : Z) : option Inode :=
  let bs := block_size sb in
  let group := (ino - 1) / s_inodes_per_group sb in
  let index := (ino - 1) mod s_inodes_per_group sb in
  bgd ← disk_read nsec img ((if bs =? 1024 then 2 else 1) * bs + group * 32) 32;
  b ← disk_read nsec img (bg_inode_table (bgd_of_bytes bgd) * bs + index * inode_size sb) (inode_size sb);
  Some (inode_of_bytes (b ++ replicate (Z.to_nat (inode_alloc_size (inode_size sb) - inode_size sb)) 0)).

(** The two reads behind an inode. *)
Lemma inode_served sb ino : resilient \/ is_Some (inode_at sb ino) ->
  let bs := block_size sb in
  let off := (if bs =? 1024 then 2 else 1) * bs + (ino - 1) / s_inodes_per_group sb * 32 in
  served off 32 /\ forall bgd, disk_read nsec img off 32 = Some bgd ->
    served (bg_inode_table (bgd_of_bytes bgd) * bs + (ino - 1) mod s_inodes_per_group sb * inode_size sb) (inode_size sb).
Proof.
  intros [Hr|[i Hi]]; [split; intros; by left|]. unfold inode_at in Hi.
  apply bind_Some in Hi as (bgd & Hb & Hi). apply bind_Some in Hi as (b & Hb2 & _). cbv zeta.
  split; [by right; exists bgd|]. intros bgd' Hb'. assert (bgd' = bgd) as -> by congruence. right. by exists b.
Qed.

Record sb_ok (sb : Superblock) : Prop := {
  sb_geometry : geometry (block_size sb);
  sb_ipg : 0 < s_inodes_per_group sb < 2 ^ 32;
  sb_inode_size : in_word 16 (s_inode_size sb);
}.

Lemma inode_size_range sb : sb_ok sb -> 0 < inode_size sb < 2 ^ 16 /\
  0 < inode_alloc_size (inode_size sb) < 2 ^ 16 /\ inode_size sb <= inode_alloc_size (inode_size sb).
Proof.
  intros [_ _ [H1 H2]]. unfold inode_alloc_size, INODE_BYTES, inode_size.
  destruct (1 <=? s_rev_level sb); simpl; repeat case_ltb; lia.
Qed.

Lemma disk_bytes_ok off n b : disk_read nsec img off n = Some b -> bytes_ok b.
Proof.
  unfold disk_read. destruct (_ <=? nsec); [|done]. intros [= <-].
  apply Forall_fmap, Forall_true. intros x. apply img_bytes.
Qed.

Lemma disk_read_len off n b : 0 <= n -> disk_read nsec img off n = Some b -> zlen b = n.
Proof.
  unfold disk_read. intros Hn. destruct (_ <=? nsec); [|done]. intros [= <-]. by apply zlen_fmap_zseq.
Qed.

(** Room for an inode and the buffers of the reads made while it is held. *)
Definition inode_room (sb : Superblock) (L : list (Z * Z)) : Prop :=
  room L [512] /\ room L [1024] /\
  forall off, room L [inode_alloc_size (inode_size sb); span off (inode_size sb) * 512].

Lemma span_small off count : 0 < count < 2 ^ 16 -> 0 < span off count <= 8192.
Proof.
  intros Hc. unfold span. pose proof (Z.mod_pos_bound off 512). split.
  - apply Z.div_str_pos. lia.
  - apply Z.lt_le_incl, Z.div_lt_upper_bound; lia.
Qed.

(** A read of at most a sector's length touches one or two sectors. *)
Lemma span_sector off count : 0 < count <= 512 -> span off count = 1 \/ span off count = 2.
Proof.
  intros Hc. unfold span. pose proof (Z.mod_pos_bound off 512) as Hm. set (r := off mod 512) in *.
  assert (1 <= (r + count + 511) / 512 < 3); [|lia].
  split; [apply Z.div_le_lower_bound; lia | apply Z.div_lt_upper_bound; lia].
Qed.

Lemma read_inode_yields L sb ino : sb_ok sb -> 0 < ino < 2 ^ 32 -> inode_room sb L ->
  resilient \/ is_Some (inode_at sb ino) ->
  triple port nsec img own L (read_inode port sb ino) (fun r L' =>
    match inode_at sb ino with
    | Some i => exists p, p <> 0 /\ r = Some (p, i) /\ L' = (p, inode_alloc_size (inode_size sb)) :: L /\
        forall ns, room L (inode_alloc_size (inode_size sb) :: ns) -> room L' ns
    | None => r = None /\ L' = L
    end).
Proof.
  intros Hok Hino (R1 & R2 & R3) Hend.
  destruct (inode_served sb ino Hend) as [S1 S2]. clear Hend. pose proof (inode_size_range sb Hok) as (Hi1 & Hi2 & Hi3).
  destruct Hok as [Hg Hipg _]. unfold read_inode, inode_at. decide_tests.
  set (bs := block_size sb) in *. set (isz := inode_size sb) in *. set (al := inode_alloc_size isz) in *.
  assert (1024 <= bs <= 4096) as Hbs by (by destruct Hg as [->|[->| ->]]).
  rewrite wsub_small by (unfold in_word; lia).
  eapply yields_bind; [apply mdiv_yields; lia|]. eapply yields_bind; [apply mrem_yields; lia|].
  assert (0 <= (ino - 1) / s_inodes_per_group sb < 2 ^ 32) as Hgr.
  { split; [apply Z.div_pos; lia | apply Z.div_lt_upper_bound; nia]. }
  pose proof (Z.mod_pos_bound (ino - 1) (s_inodes_per_group sb)) as Hix.
  set (g := _ / s_inodes_per_group sb) in *. set (ix := _ mod s_inodes_per_group sb) in *.
  set (bb := if bs =? 1024 then 2 else 1). assert (1 <= bb <= 2) as Hbb by (subst bb; case_ltb; lia).
  rewrite (wmul_small 64 bb), (wmul_small 64 g) by (unfold in_word; nia).
  rewrite wadd_small by (unfold in_word; nia).
  eapply yields_bind.
  { apply (read_bytes_yields _ _ _ []); [nia | lia | | |].
    - destruct (span_sector (bb * bs + g * 32) 32) as [->| ->]; lia.
    - destruct (span_sector (bb * bs + g * 32) 32) as [->| ->]; [lia | done | done].
    - exact S1. }
  destruct (disk_read nsec img (bb * bs + g * 32) 32) as [bgd|] eqn:Hbgd; [|by apply triple_ret].
  pose proof (field_range bgd 8 4 (disk_bytes_ok _ _ _ Hbgd)) as Htab. simpl bg_inode_table.
  set (tab := field bgd 8 4) in *. assert (0 <= tab < 2 ^ 32) as Ht by (apply Htab; lia).
  rewrite (wmul_small 64 tab), (wmul_small 64 ix) by (unfold in_word; nia).
  rewrite wadd_small by (unfold in_word; nia). set (off := tab * bs + ix * isz).
  eapply triple_bind; [apply (triple_kmalloc _ _ _ _ _ _ [span off isz * 512]); [lia | apply R3]|].
  intros [p stale] L1 (Hp & _ & -> & Hroom). rewrite (proj2 (Z.eqb_neq p 0) Hp).
  pose proof (span_small off isz Hi1). eapply yields_bind.
  { apply (read_bytes_yields _ _ _ []); [nia | lia | lia | by apply Hroom | exact (S2 bgd Hbgd)]. }
  cbn [mbind option_bind]. change (field bgd 8 4 * bs + ix * isz) with off. destruct (disk_read nsec img off isz) as [b|] eqn:Hb.
  - pose proof (disk_read_len off isz b ltac:(lia) Hb) as Hlen. eapply yields_bind.
    + apply yields_lift. unfold raw_write. rewrite zlen_replicate. decide_tests. done.
    + apply triple_ret. cbn [mbind option_bind]. exists p. split; [done|]. split; [|done]. f_equal. f_equal. f_equal.
      rewrite drop_replicate. simpl. f_equal. f_equal. lia.
  - eapply triple_bind; [apply triple_kfree|]. intros _ L' ->. by apply triple_ret.
Qed.

Lemma inode_at_roots sb ino i : inode_at sb ino = Some i -> sb_ok sb -> roots_ok (i_block i).
Proof.
  unfold inode_at. intros Hi Hok. pose proof (inode_size_range sb Hok) as (Hi1 & Hi2 & Hi3).
  apply bind_Some in Hi as (bgd & _ & Hi). apply bind_Some in Hi as (b & Hb & [= <-]).
  pose proof (disk_bytes_ok _ _ _ Hb) as Hbytes.
  unfold inode_of_bytes. cbn [i_block]. split; [done|].
  apply Forall_fmap, Forall_forall. intros k _. unfold compose.
  apply field_range; [|lia]. apply Forall_app. split; [done|]. apply Forall_replicate. by split.
Qed.

(** [data] is what the file of [i] holds: its blocks can be read and the last
    block fits into a buffer of the file's size. *)
Record contents (sb : Superblock) (i : Inode) (data : list Z) : Prop := {
  c_size : 0 < size i < 2 ^ 42;
  c_pointers : forallb (pointers_exist (block_size sb) (i_block i))
    (zseq 0 (Z.to_nat ((size i + block_size sb - 1) / block_size sb))) = true;
  c_readable : forallb (readable sb i)
    (zseq 0 (Z.to_nat ((size i + block_size sb - 1) / block_size sb))) = true;
  c_fits : overflows sb i (size i) = false;
  c_data : data = file_byte sb i <$> zseq 0 (Z.to_nat (size i));
}.

Lemma read_contents L sb i data : geometry (block_size sb) -> roots_ok (i_block i) ->
  contents sb i data -> room L [size i; 512] -> room L [size i; block_size sb] ->
  triple port nsec img own L (read_inode_data port sb i) (fun r L' =>
    exists p, p <> 0 /\ r = Some (p, data) /\ L' = (p, size i) :: L).
Proof.
  intros Hg Hr [Hs Hptr Hread Hfit ->] R1 R2. assert (blocks_served sb i 0
    (Z.to_nat ((size i + block_size sb - 1) / block_size sb))) as Hend.
  { right. rewrite forallb_forall in Hptr, Hread |- *. intros k Hk. unfold block_exists. by rewrite Hptr, Hread. }
  pose proof (read_inode_data_exec sb i Hg Hr L Hs R1 R2 Hend) as He. rewrite Hread in He.
  eapply triple_mono; [eapply exec_no_crash; [exact He|]|].
  - intros c (_ & _ & Hov). congruence.
  - intros r L' [_ Hp]. exact Hp.
Qed.
End reads.

(** * A small disk *)

(** Patches [(offset, bytes)] over zeros. *)
Fixpoint patched (ps : list (Z * list Z)) (i : Z) : Z :=
  match ps with
  | [] => 0
  | (off, b) :: ps => if (off <=? i) && (i <? off + zlen b) then default 0 (zget b (i - off)) else patched ps i
  end.

(** 1024-byte blocks: the superblock, one group with its inode table in block 3,
    the root directory (inode 2) with data in block 10, and a file (inode 12) of
    1500 bytes with data in block 11 and a hole; block 20 is an indirect block. *)
Definition demo_patches : list (Z * list Z) := [
  (1024 + 40, to_le 4 16); (1024 + 56, to_le 2 EXT_MAGIC);
  (2048 + 8, to_le 4 3);
  (3072 + 128, to_le 2 0x41ED); (3072 + 128 + 4, to_le 4 1024); (3072 + 128 + 40, to_le 4 10);
  (3072 + 11 * 128, to_le 2 0x81A4); (3072 + 11 * 128 + 4, to_le 4 1500); (3072 + 11 * 128 + 40, to_le 4 11);
  (10240, to_le 4 12 ++ to_le 2 1024 ++ [2; 1; 104; 105]);
  (11264, [104; 101; 108; 108; 111]);
  (20480 + 20, to_le 4 33)
].

Definition demo_byte (i : Z) : Z := wrap 8 (patched demo_patches i).

Definition demo_disk : Image := mkImage 128 (patched demo_patches).

Definition demo_state : IdealHeap * Image := ([], demo_disk).

Lemma demo_St : St 0 128 demo_byte [] [] demo_state.
Proof. by split. Qed.

Lemma demo_byte_word i : in_word 8 (demo_byte i).
Proof. by apply wrap_in_word. Qed.

Definition demo_sb : Superblock := superblock_of_bytes (demo_byte <$> zseq 1024 1024).

Lemma demo_sb_ok : sb_ok demo_sb.
Proof. split; [by left | by vm_compute | by vm_compute]. Qed.

Lemma demo_room ns : Forall (fun n => 0 < n) ns -> foldr (fun n t => n + 4096 + t) 0 ns < 2 ^ 47 ->
  h_room (H:=IdealHeap) [] ns.
Proof. intros Hp Hs. split; [done|]. simpl. lia. Qed.

Definition demo_inode (sz : Z) (blocks : list Z) : Inode :=
  mkInode 0x8180 0 sz 0 0 0 0 0 1 0 0 0 blocks 0 0 0 0 [].

(** * Theorems *)

Section theorems.
Context {H D : Type} {HO : HeapOps H} {HL : HeapLaws H} {DO : Disk D} {DL : DiskLaws D}.

(** [read_bytes] of 1 byte up to 4 MiB delivers exactly the bytes
    [off .. off + count) of the disk, through the sectors that contain them, or
    reports failure when one of these sectors does not exist; its buffer is
    released in both cases.  (A failing read must leave the disk usable: a resilient disk.) *)
Theorem read_bytes_exact port nsec img own L (s : H * D) off count :
  St port nsec img own L s -> 0 <= off < 2 ^ 56 -> 0 < count -> span off count <= 8192 ->
  h_room (H:=H) (L ++ own) [span off count * 512] ->
  served (D:=D) nsec img off count ->
  exists s', read_bytes port off count s = Ret (disk_read nsec img off count, s') /\ St port nsec img own L s'.
Proof.
  intros Hs Hoff Hc Hspan Hroom Hend.
  destruct (read_bytes_yields port nsec img own L off count [] Hoff Hc Hspan Hroom Hend s Hs)
    as (r & s' & L' & Hr & Hs' & -> & ->). by exists s'.
Qed.

(** C16: The block lookup with its direct, indirect, doubly and triply indirect
    branches is the search in a block tree: for a block size of 1, 2 or 4 KiB and
    every 32-bit logical block number it returns the leaf of the tree of height
    0 to 3 responsible for it (0 for a hole or past the end), without a panic,
    a wrap-around or a leaked buffer.  The pointer blocks on the way exist, or the disk is
    one that still answers after a failed read: then a pointer that cannot be read is a hole. *)
Theorem resolve_block_tree port nsec img own L (s : H * D) sb inode i :
  (forall k, in_word 8 (img k)) -> St port nsec img own L s -> geometry (block_size sb) ->
  roots_ok (i_block inode) -> in_word 32 i -> h_room (H:=H) (L ++ own) [512] ->
  disk_resilient (D:=D) \/ pointers_exist nsec img (block_size sb) (i_block inode) i = true ->
  exists s', resolve_block port sb inode i s = Ret (file_block nsec img (block_size sb) (i_block inode) i, s') /\
    St port nsec img own L s'.
Proof.
  intros Himg Hs Hg Hr Hi Hroom Hend.
  destruct (resolve_block_yields port nsec img own Himg L sb inode i Hg Hr Hi Hroom Hend s Hs)
    as (r & s' & L' & Hres & Hs' & -> & ->). by exists s'.
Qed.

(** C17: On a disk that answers after a failed read, or when all blocks of the file exist, [read_inode_data] has exactly three outcomes.  When a block of the file
    cannot be read it fails and releases its buffer.  Otherwise it returns a
    buffer that holds the file's bytes, holes read as zeros; except when the size
    is not a multiple of the block size and the last block is not a hole: then
    the copy of the last block writes past the end of the buffer. *)
Theorem read_inode_data_outcome port nsec img own L (s : H * D) sb inode :
  (forall k, in_word 8 (img k)) -> St port nsec img own L s -> geometry (block_size sb) ->
  roots_ok (i_block inode) -> 0 < size inode < 2 ^ 42 ->
  h_room (H:=H) (L ++ own) [size inode; 512] -> h_room (H:=H) (L ++ own) [size inode; block_size sb] ->
  let blocks := zseq 0 (Z.to_nat ((size inode + block_size sb - 1) / block_size sb)) in
  let all_readable := forallb (readable nsec img sb inode) blocks in
  disk_resilient (D:=D) \/ forallb (block_exists nsec img sb inode) blocks = true ->
  match read_inode_data port sb inode s with
  | Ret (r, s') =>
      if all_readable
      then overflows nsec img sb inode (size inode) = false /\
        exists p, p <> 0 /\ r = Some (p, file_byte nsec img sb inode <$> zseq 0 (Z.to_nat (size inode))) /\
          St port nsec img own ((p, size inode) :: L) s'
      else r = None /\ St port nsec img own L s'
  | Crash c => c = UndefinedBehaviour /\ all_readable = true /\ overflows nsec img sb inode (size inode) = true
  end.
Proof.
  intros Himg Hs Hg Hr Hsz R1 R2. cbv zeta. intros Hend.
  pose proof (read_inode_data_exec port nsec img own Himg sb inode Hg Hr L Hsz R1 R2 Hend s Hs) as He.
  destruct (read_inode_data port sb inode s) as [[r s']|c]; [|exact He].
  destruct He as (L' & Hs' & Hpost). destruct (forallb (readable nsec img sb inode) _).
  - destruct Hpost as (Hov & p & Hp & -> & ->). split; [done|]. by exists p.
  - by destruct Hpost as [-> ->].
Qed.
End theorems.

Lemma read_bytes_exact_witness : exists s', read_bytes 0 1080 2 demo_state = Ret (Some [0x53; 0xEF], s').
Proof.
  destruct (read_bytes_exact 0 128 demo_byte [] [] demo_state 1080 2 demo_St) as (s' & Hr & _).
  - lia.
  - lia.
  - vm_compute. discriminate.
  - apply demo_room; [repeat constructor | vm_compute; reflexivity].
  - by left.
  - exists s'. rewrite Hr. reflexivity.
Defined.

Lemma resolve_block_tree_witness : exists s',
  resolve_block 0 demo_sb (demo_inode 0 (replicate 12 7 ++ [20; 0; 0])) 17 demo_state = Ret (33, s').
Proof.
  destruct (resolve_block_tree 0 128 demo_byte [] [] demo_state demo_sb
    (demo_inode 0 (replicate 12 7 ++ [20; 0; 0])) 17 demo_byte_word demo_St) as (s' & Hr & _).
  - by left.
  - split; [done|]. repeat constructor; vm_compute; done.
  - by split.
  - apply demo_room; [repeat constructor | vm_compute; reflexivity].
  - by left.
  - exists s'. rewrite Hr. vm_compute. reflexivity.
Defined.

Lemma read_inode_data_outcome_witness :
  read_inode_data 0 demo_sb (demo_inode 5 (11 :: replicate 14 0)) demo_state = Crash UndefinedBehaviour.
Proof.
  set (ino := demo_inode 5 (11 :: replicate 14 0)).
  pose proof (read_inode_data_outcome 0 128 demo_byte [] [] demo_state demo_sb ino demo_byte_word demo_St) as Ho.
  destruct (read_inode_data 0 demo_sb ino demo_state) as [[r s']|c].
  - exfalso. destruct Ho as [Hov _].
    + by left.
    + split; [done|]. repeat constructor; vm_compute; done.
    + vm_compute. by split.
    + apply demo_room; [repeat constructor | vm_compute; reflexivity].
    + apply demo_room; [repeat constructor | vm_compute; reflexivity].
    + by left.
    + vm_compute in Hov. discriminate.
  - destruct Ho as [-> _].
    + by left.
    + split; [done|]. repeat constructor; vm_compute; done.
    + vm_compute. by split.
    + apply demo_room; [repeat constructor | vm_compute; reflexivity].
    + apply demo_room; [repeat constructor | vm_compute; reflexivity].
    + by left.
    + done.
Defined.
