(* ===== verification/Ext3Dir.v ===== *)
(** Directories, paths and the mounted file system, [src/kern/fs/ext3/dir.rs] and
    [src/kern/fs/ext3/mod.rs], over the reads of [Ext3]. *)
From S2P Require Import Prelude Word Vfs PageSource Buddy Slab Mem Disk Ext3.

(** * Directory data *)

Record DirEntry := mkDirEntry { inode : Z; rec_len : Z; name_len : Z; file_type : Z }.

Definition dir_entry_of_bytes (b : list Z) : DirEntry :=
  mkDirEntry (field b 0 4) (field b 4 2) (field b 6 1) (field b 7 1).

(** The [while] loop of [find_in_dir_data]; [data] is the whole buffer. *)
Fixpoint find_loop (fuel : nat) (data : list Z) (size off : Z) (name : list Z) : outcome Z :=
  match fuel with
  | O => Crash OutOfFuel
  | S fuel' =>
      if off ⊞ 8 <=? size then
        e ← raw_read data off 8;
        let entry := dir_entry_of_bytes e in
        if rec_len entry =? 0 then Ret 0
        else if negb (inode entry =? 0) && (name_len entry =? zlen name) then
          entry_name ← raw_read data (off ⊞ 8) (name_len entry);
          if decide (entry_name = name) then Ret (inode entry)
          else find_loop fuel' data size (off ⊞ rec_len entry) name
        else find_loop fuel' data size (off ⊞ rec_len entry) name
      else Ret 0
  end.

(** Every round advances by at least one byte. *)
Definition dir_fuel (data : list Z) : nat := S (length data).

Definition find_in_dir_data (data : list Z) (size : Z) (name : list Z) : outcome Z :=
  find_loop (dir_fuel data) data size 0 name.

(** The loop of [for_each_entry]; the callback updates a state. *)
Fixpoint each_loop {S} (fuel : nat) (data : list Z) (size off : Z)
    (f : list Z -> Z -> Z -> S -> S) (s : S) : outcome S :=
  match fuel with
  | O => Crash OutOfFuel
  | Datatypes.S fuel' =>
      if off ⊞ 8 <=? size then
        e ← raw_read data off 8;
        let entry := dir_entry_of_bytes e in
        if rec_len entry =? 0 then Ret s
        else if negb (inode entry =? 0) then
          entry_name ← raw_read data (off ⊞ 8) (name_len entry);
          each_loop fuel' data size (off ⊞ rec_len entry) f (f entry_name (inode entry) (file_type entry) s)
        else each_loop fuel' data size (off ⊞ rec_len entry) f s
      else Ret s
  end.

(** [s.split('/')] *)
Fixpoint split_slash (s : list Z) : list (list Z) :=
  match s with
  | [] => [[]]
  | c :: s =>
      if c =? 47 then [] :: split_slash s
      else match split_slash s with
           | w :: ws => (c :: w) :: ws
           | [] => [[c]]
           end
  end.

(** * The file system *)

Section dir.
Context {H D : Type} {HO : HeapOps H} {DO : Disk D}.

Definition lookup (port : Z) (sb : Superblock) (dir_inode : Inode) (name : list Z) : M H D Z :=
  if negb (Z.land (i_mode dir_inode) S_IFMT =? S_IFDIR) then mret 0
  else
    r ← read_inode_data port sb dir_inode;
    match r with
    | None => mret 0
    | Some (p, data) =>
        let size := zlen data in
        result ← lift (find_in_dir_data data size name);
        _ ← m_kfree p size;
        mret result
    end.

(** The loop of [resolve_path] over the components. *)
Fixpoint resolve_loop (components : list (list Z)) (port : Z) (sb : Superblock) (current_ino : Z)
    : M H D Z :=
  match components with
  | [] => mret current_ino
  | component :: rest =>
      if bool_decide (component = []) || bool_decide (component = [46])
      then resolve_loop rest port sb current_ino
      else
        r ← read_inode port sb current_ino;
        match r with
        | None => mret 0
        | Some (ino_ptr, ino_ref) =>
            found ← lookup port sb ino_ref component;
            let alloc := inode_alloc_size (inode_size sb) in
            _ ← m_kfree ino_ptr alloc;
            if found =? 0 then mret 0 else resolve_loop rest port sb found
        end
  end.

Definition resolve_path (port : Z) (sb : Superblock) (start_ino : Z) (path : list Z) : M H D Z :=
  let path := trim_start_matches slash path in
  if decide (path = []) then mret start_ino
  else resolve_loop (split_slash path) port sb start_ino.

Definition for_each_entry {S} (port : Z) (sb : Superblock) (dir_inode : Inode)
    (f : list Z -> Z -> Z -> S -> S) (s : S) : M H D S :=
  if negb (Z.land (i_mode dir_inode) S_IFMT =? S_IFDIR) then mret s
  else
    r ← read_inode_data port sb dir_inode;
    match r with
    | None => mret s
    | Some (p, data) =>
        let size := zlen data in
        s ← lift (each_loop (dir_fuel data) data size 0 f s);
        _ ← m_kfree p size;
        mret s
    end.

(** The superblock's buffer and contents. *)
Record Ext3 := mkExt3 { port : Z; sb_ptr : Z; sb : Superblock }.

Definition mount (port : Z) : M H D (option Ext3) :=
  r ← read_superblock port;
  match r with
  | None => mret None
  | Some (p, s) => mret (Some (mkExt3 port p s))
  end.

Definition unmount (fs : Ext3) : M H D unit :=
  if negb (sb_ptr fs =? 0) then m_kfree (sb_ptr fs) 4096 else mret tt.

Definition read_file (fs : Ext3) (path : list Z) : M H D (option (Z * list Z)) :=
  ino_num ← resolve_path (port fs) (sb fs) ROOT_INO path;
  if ino_num =? 0 then mret None
  else
    r ← read_inode (port fs) (sb fs) ino_num;
    match r with
    | None => mret None
    | Some (ino_ptr, ino_ref) =>
        let alloc := inode_alloc_size (inode_size (sb fs)) in
        if negb (is_file ino_ref) then _ ← m_kfree ino_ptr alloc; mret None
        else
          result ← read_inode_data (port fs) (sb fs) ino_ref;
          _ ← m_kfree ino_ptr alloc;
          mret result
    end.

Definition exists_ (fs : Ext3) (path : list Z) : M H D bool :=
  n ← resolve_path (port fs) (sb fs) ROOT_INO path; mret (negb (n =? 0)).

Definition list_dir {S} (fs : Ext3) (path : list Z) (f : list Z -> Z -> Z -> S -> S) (s : S) : M H D S :=
  let entries ino_num :=
    r ← read_inode (port fs) (sb fs) ino_num;
    match r with
    | None => mret s
    | Some (ino_ptr, ino_ref) =>
        s ← for_each_entry (port fs) (sb fs) ino_ref f s;
        _ ← m_kfree ino_ptr (inode_alloc_size (inode_size (sb fs)));
        mret s
    end in
  if bool_decide (path = []) || bool_decide (path = slash) then entries ROOT_INO
  else
    n ← resolve_path (port fs) (sb fs) ROOT_INO path;
    if n =? 0 then mret s else entries n.
End dir.

(** * A directory block is read as the entries it was made of *)

Record Item := mkItem { it_ino : Z; it_type : Z; it_name : list Z; it_pad : list Z }.

Definition it_rec (it : Item) : Z := 8 + zlen (it_name it) + zlen (it_pad it).

Definition encode (it : Item) : list Z :=
  (to_le 4 (it_ino it) ++ to_le 2 (it_rec it) ++ [zlen (it_name it); it_type it])
  ++ it_name it ++ it_pad it.

Definition dir_of (items : list Item) : list Z := mjoin (encode <$> items).

Record item_ok (it : Item) : Prop := {
  ok_ino : in_word 32 (it_ino it);
  ok_rec : it_rec it < 2 ^ 16;
  ok_name : zlen (it_name it) < 256;
}.

(** The first entry in use with this name; 0 when there is none. *)
Fixpoint spec_find (items : list Item) (name : list Z) : Z :=
  match items with
  | [] => 0
  | it :: items =>
      if negb (it_ino it =? 0) && bool_decide (it_name it = name) then it_ino it
      else spec_find items name
  end.

Definition spec_each {S} (f : list Z -> Z -> Z -> S -> S) (items : list Item) (s : S) : S :=
  fold_left (fun s it => if it_ino it =? 0 then s else f (it_name it) (it_ino it) (it_type it) s) items s.

Definition entry_of (it : Item) : DirEntry :=
  mkDirEntry (it_ino it) (it_rec it) (zlen (it_name it)) (it_type it).

Lemma encode_len it : zlen (encode it) = it_rec it.
Proof. unfold encode, it_rec, zlen. rewrite !length_app, !to_le_length. simpl. lia. Qed.

Lemma it_rec_pos it : 8 <= it_rec it.
Proof. unfold it_rec. pose proof (zlen_nonneg (it_name it)). pose proof (zlen_nonneg (it_pad it)). lia. Qed.

(** The header and the name of the entry after [pre]. *)
Lemma read_entry data pre it rest off : item_ok it -> data = pre ++ encode it ++ rest -> off = zlen pre ->
  exists e, raw_read data off 8 = Ret e /\ dir_entry_of_bytes e = entry_of it /\
    raw_read data (off + 8) (zlen (it_name it)) = Ret (it_name it) /\
    off + it_rec it <= zlen data.
Proof.
  intros [Hi Hr Hn] Hd Ho. set (e := to_le 4 (it_ino it) ++ to_le 2 (it_rec it) ++ [zlen (it_name it); it_type it]).
  exists e. pose proof (zlen_nonneg rest) as Hrest. split; [|split; [|split]].
  - eapply (raw_read_mid _ pre e (it_name it ++ it_pad it ++ rest)); [|done|done].
    rewrite Hd. unfold encode. fold e. by rewrite <- !app_assoc.
  - change (dir_entry_of_bytes e) with (mkDirEntry (from_le (to_le 4 (it_ino it)))
      (from_le (to_le 2 (it_rec it))) (from_le [zlen (it_name it)]) (from_le [it_type it])).
    pose proof (it_rec_pos it). rewrite !from_le_to_le; [|split; [lia | exact Hr] | exact Hi].
    unfold entry_of. f_equal; simpl; lia.
  - eapply (raw_read_mid _ (pre ++ e) (it_name it) (it_pad it ++ rest)); [| | done].
    + rewrite Hd. unfold encode. fold e. by rewrite <- !app_assoc.
    + rewrite zlen_app. subst off. unfold e, zlen. rewrite !length_app, !to_le_length. simpl. lia.
  - rewrite Hd, !zlen_app, encode_len. lia.
Qed.

Lemma find_entry_spec data pre items fuel name : Forall item_ok items -> data = pre ++ dir_of items ->
  zlen data < 2 ^ 62 -> (length items < fuel)%nat ->
  find_loop fuel data (zlen data) (zlen pre) name = Ret (spec_find items name).
Proof.
  intros Hok. revert pre fuel. induction Hok as [|it items Hit Hok IH]; intros pre fuel Hd Hlen Hfuel;
    (destruct fuel as [|fuel]; [lia|]); cbn [find_loop]; pose proof (zlen_nonneg pre) as Hp.
  - unfold dir_of in Hd. simpl in Hd. rewrite app_nil_r in Hd. subst data.
    rewrite wadd_small by (unfold in_word; lia). by decide_tests.
  - unfold dir_of in Hd. simpl in Hd. fold (dir_of items) in Hd.
    destruct (read_entry data pre it (dir_of items) (zlen pre) Hit Hd eq_refl) as (e & He & Hent & Hnm & Hle).
    pose proof (it_rec_pos it) as Hrec. rewrite !wadd_small by (unfold in_word; lia). decide_tests.
    rewrite He, bind_ret, Hent. cbn [rec_len inode name_len entry_of]. decide_tests.
    rewrite ?(wadd_small 64 (zlen pre) (it_rec it)) by (unfold in_word; lia).
    assert (find_loop fuel data (zlen data) (zlen pre + it_rec it) name = Ret (spec_find items name)) as Hnext.
    { rewrite <- encode_len, <- zlen_app. apply IH; [by rewrite <- app_assoc | done | simpl in Hfuel; lia]. }
    cbn [spec_find]. destruct (it_ino it =? 0); simpl; [done|].
    destruct (Z.eqb_spec (zlen (it_name it)) (zlen name)) as [He'|He'].
    + rewrite Hnm, bind_ret. destruct (decide (it_name it = name)) as [E|E].
      * by rewrite bool_decide_eq_true_2.
      * by rewrite bool_decide_eq_false_2.
    + rewrite bool_decide_eq_false_2 by congruence. done.
Qed.

Lemma each_entry_spec {S} data pre items fuel (f : list Z -> Z -> Z -> S -> S) (s : S) :
  Forall item_ok items -> data = pre ++ dir_of items ->
  zlen data < 2 ^ 62 -> (length items < fuel)%nat ->
  each_loop fuel data (zlen data) (zlen pre) f s = Ret (spec_each f items s).
Proof.
  intros Hok. revert pre fuel s. induction Hok as [|it items Hit Hok IH]; intros pre fuel s Hd Hlen Hfuel;
    (destruct fuel as [|fuel]; [lia|]); cbn [each_loop]; pose proof (zlen_nonneg pre) as Hp.
  - unfold dir_of in Hd. simpl in Hd. rewrite app_nil_r in Hd. subst data.
    rewrite wadd_small by (unfold in_word; lia). by decide_tests.
  - unfold dir_of in Hd. simpl in Hd. fold (dir_of items) in Hd.
    destruct (read_entry data pre it (dir_of items) (zlen pre) Hit Hd eq_refl) as (e & He & Hent & Hnm & Hle).
    pose proof (it_rec_pos it) as Hrec. rewrite !wadd_small by (unfold in_word; lia). decide_tests.
    rewrite He, bind_ret, Hent. cbn [rec_len inode name_len file_type entry_of]. decide_tests.
    rewrite ?(wadd_small 64 (zlen pre) (it_rec it)) by (unfold in_word; lia).
    assert (forall s, each_loop fuel data (zlen data) (zlen pre + it_rec it) f s = Ret (spec_each f items s)) as Hnext.
    { intros s'. rewrite <- encode_len, <- zlen_app. apply IH; [by rewrite <- app_assoc | done | simpl in Hfuel; lia]. }
    unfold spec_each. cbn [fold_left]. destruct (it_ino it =? 0); simpl; [apply Hnext|].
    rewrite Hnm, bind_ret. apply Hnext.
Qed.

Lemma dir_len items : Z.of_nat (length items) <= zlen (dir_of items).
Proof.
  induction items as [|it items IH]; [done|].
  change (dir_of (it :: items)) with (encode it ++ dir_of items).
  rewrite zlen_app, encode_len. pose proof (it_rec_pos it). simpl length. lia.
Qed.

Lemma dir_fuel_enough items : (length items < dir_fuel (dir_of items))%nat.
Proof. pose proof (dir_len items). unfold dir_fuel, zlen in *. lia. Qed.

Lemma find_in_dir_spec items name : Forall item_ok items -> zlen (dir_of items) < 2 ^ 62 ->
  find_in_dir_data (dir_of items) (zlen (dir_of items)) name = Ret (spec_find items name).
Proof.
  intros Hok Hlen. unfold find_in_dir_data. change 0 with (zlen (@nil Z)).
  apply (find_entry_spec _ []); [done | done | done | apply dir_fuel_enough].
Qed.

Lemma spec_find_word items name : Forall item_ok items -> in_word 32 (spec_find items name).
Proof.
  induction 1 as [|it items Hit Hok IH]; [by split|]. cbn [spec_find].
  destruct (_ && _); [apply Hit | done].
Qed.

(** * Paths *)

(** An absolute path from its components. *)
Definition path_of (cs : list (list Z)) : list Z := mjoin ((fun c => 47 :: c) <$> cs).

Record name_ok (c : list Z) : Prop := {
  name_plain : Forall (fun b => b <> 47) c;
  name_nonempty : c <> [];
  name_not_dot : c <> [46];
}.

Lemma split_plain c : Forall (fun b => b <> 47) c -> split_slash c = [c].
Proof.
  induction 1 as [|b c Hb Hc IH]; [done|]. simpl. rewrite (proj2 (Z.eqb_neq b 47) Hb). by rewrite IH.
Qed.

Lemma split_app c s : Forall (fun b => b <> 47) c -> split_slash (c ++ 47 :: s) = c :: split_slash s.
Proof.
  induction 1 as [|b c Hb Hc IH]; [done|]. simpl. rewrite (proj2 (Z.eqb_neq b 47) Hb). by rewrite IH.
Qed.

Lemma split_path c cs : Forall name_ok (c :: cs) ->
  split_slash (c ++ path_of cs) = c :: cs.
Proof.
  revert c. induction cs as [|d cs IH]; intros c Hok; inversion Hok as [|? ? Hc Hcs]; subst.
  - unfold path_of. simpl. rewrite app_nil_r. by apply split_plain, Hc.
  - change (path_of (d :: cs)) with (47 :: d ++ path_of cs). rewrite split_app by apply Hc.
    by rewrite IH.
Qed.

(** The leading slash is removed, and only it. *)
Lemma trim_path c cs : Forall name_ok (c :: cs) ->
  trim_start_matches slash (path_of (c :: cs)) = c ++ path_of cs.
Proof.
  intros Hok. inversion Hok as [|? ? [Hp Hne _] _]; subst.
  change (path_of (c :: cs)) with (47 :: c ++ path_of cs). unfold trim_start_matches.
  cbn [length trim_start_fuel]. unfold slash. cbn [starts_with]. rewrite Z.eqb_refl. simpl.
  destruct c as [|b c]; [done|]. inversion Hp as [|? ? Hb _]; subst. cbn [length app trim_start_fuel].
  assert ((47 =? b) = false) as E by (apply Z.eqb_neq; congruence).
  rewrite drop_0. cbn [starts_with]. by rewrite E.
Qed.

(** On arbitrary data the search ends: every round advances.  The only crash is
    a name that passes the end of the buffer. *)
Lemma find_loop_total data fuel off name : bytes_ok data -> zlen data < 2 ^ 62 ->
  0 <= off < 2 ^ 63 -> Z.max 0 (zlen data - off) < Z.of_nat fuel ->
  (exists v, find_loop fuel data (zlen data) off name = Ret v) \/
  find_loop fuel data (zlen data) off name = Crash UndefinedBehaviour.
Proof.
  intros Hb Hlen. pose proof (zlen_nonneg data) as Hnn. revert off.
  induction fuel as [|fuel IH]; intros off Hoff Hfuel; cbn [find_loop].
  { lia. }
  rewrite wadd_small by (unfold in_word; lia).
  destruct (Z.leb_spec (off + 8) (zlen data)) as [Hle|Hgt]; [|left; by eexists].
  assert (raw_read data off 8 = Ret (sub data off 8)) as -> by (unfold raw_read; by decide_tests).
  rewrite !bind_ret. set (e := dir_entry_of_bytes _).
  assert (0 <= rec_len e < 2 ^ 16) as Hrec by (subst e; apply field_range; [by apply Forall_sub | lia]).
  case_ltb; [left; by eexists|].
  assert ((exists v, find_loop fuel data (zlen data) (off ⊞ rec_len e) name = Ret v) \/
    find_loop fuel data (zlen data) (off ⊞ rec_len e) name = Crash UndefinedBehaviour) as Hnext.
  { rewrite wadd_small by (unfold in_word; lia). apply IH; lia. }
  destruct (_ && _); [|exact Hnext]. unfold raw_read. case_ltb; [|by right].
  rewrite !bind_ret. case_decide; [left; by eexists | exact Hnext].
Qed.

(** * Walking the tree *)

Section walk.
Context {H D : Type} {HO : HeapOps H} {HL : HeapLaws H} {DO : Disk D} {DL : DiskLaws D}.
Context (port nsec : Z) (img : Z -> Z) (own : list (Z * Z)).
Hypothesis img_bytes : forall i, in_word 8 (img i).
Context (sb : Superblock) (Hok : sb_ok sb) (max : Z) (Hmax : 2 ^ 26 <= max).
Abbreviation room := (@room H HO HL own).
Abbreviation resilient := (@disk_resilient D DO DL).
Let al := inode_alloc_size (inode_size sb).
Abbreviation inode_at := (inode_at nsec img sb).
Abbreviation contents := (contents nsec img sb).

(** What the directory with inode number [ino] has under [name]; 0 for nothing. *)
Inductive child (ino : Z) (name : list Z) : Z -> Prop :=
  | child_no_inode : inode_at ino = None -> child ino name 0
  | child_no_dir i : inode_at ino = Some i -> is_dir i = false -> child ino name 0
  | child_entry i items : inode_at ino = Some i -> is_dir i = true ->
      contents i (dir_of items) -> size i <= max -> Forall item_ok items ->
      child ino name (spec_find items name).

(** The inode number at the end of a path; 0 when a component is missing. *)
Inductive walks : Z -> list (list Z) -> Z -> Prop :=
  | walks_here ino : walks ino [] ino
  | walks_missing ino c cs : child ino c 0 -> walks ino (c :: cs) 0
  | walks_down ino c ino' cs r : child ino c ino' -> ino' <> 0 -> walks ino' cs r -> walks ino (c :: cs) r.

(** [k] blocks of up to [max] bytes can be had. *)
Definition ample (k : nat) (L : list (Z * Z)) : Prop :=
  forall ns, (length ns <= k)%nat -> Forall (fun n => 0 < n <= max) ns -> room L ns.

Lemma alloc_size_range : 0 < al < 2 ^ 16.
Proof. by apply inode_size_range. Qed.

Lemma ample_inode L : ample 3 L -> inode_room own sb L.
Proof.
  intros Ha. pose proof alloc_size_range as Hal. fold al.
  pose proof (inode_size_range sb Hok) as (Hi & _).
  split; [|split; [|intros off; pose proof (span_small off (inode_size sb) Hi)]];
    apply Ha; simpl; try lia; repeat constructor; fold al; lia.
Qed.

Lemma contents_len i data : contents i data -> zlen data = size i.
Proof. intros [Hs _ _ _ ->]. apply zlen_fmap_zseq. lia. Qed.

Lemma lookup_yields L i items name : roots_ok (i_block i) -> is_dir i = true ->
  contents i (dir_of items) -> Forall item_ok items ->
  room L [size i; 512] -> room L [size i; block_size sb] ->
  yields port nsec img own L (lookup port sb i name) (spec_find items name).
Proof.
  intros Hroots Hdir Hc Hitems R1 R2. unfold lookup. unfold is_dir in Hdir. rewrite Hdir. simpl.
  pose proof (contents_len _ _ Hc) as Hlen. pose proof (c_size _ _ _ _ _ Hc) as Hs.
  eapply triple_bind; [by apply (read_contents port nsec img own img_bytes L sb i (dir_of items)); [apply Hok| | | |]|].
  intros r L' (p & Hp & -> & ->). eapply yields_bind.
  { apply yields_lift. apply find_in_dir_spec; [done | lia]. }
  eapply triple_bind; [rewrite Hlen; apply triple_kfree|]. intros _ L' ->. by apply triple_ret.
Qed.

Lemma lookup_no_dir L i name : is_dir i = false -> yields port nsec img own L (lookup port sb i name) 0.
Proof. unfold is_dir, lookup. intros ->. simpl. apply yields_ret. Qed.

(** While an inode is held there is room to read its data. *)
Lemma room_for_data L p n : ample 3 L -> 0 < n <= max ->
  (forall ns, room L (al :: ns) -> room ((p, al) :: L) ns) ->
  room ((p, al) :: L) [n; 512] /\ room ((p, al) :: L) [n; block_size sb].
Proof.
  intros Ha Hn Hns. pose proof alloc_size_range.
  assert (0 < block_size sb <= 4096) by (by destruct (sb_geometry sb Hok) as [->|[->| ->]]).
  split; apply Hns, Ha; simpl; try lia; repeat constructor; lia.
Qed.

(** An inode that is missing ends the search with 0. *)
Lemma child_served ino c r : child ino c r -> resilient \/ r <> 0 -> resilient \/ is_Some (inode_at ino).
Proof. by intros [Hi|i Hi Hd|i items Hi Hd Hc Hs Hit] [Hr|Hr]; eauto. Qed.

(** One round of the loop of [resolve_path]. *)
Lemma resolve_step L ino c ino' rest (Q : Z -> list (Z * Z) -> Prop) : ample 3 L ->
  0 < ino < 2 ^ 32 -> name_ok c -> child ino c ino' -> resilient \/ ino' <> 0 ->
  (if ino' =? 0 then Q 0 L else triple port nsec img own L (resolve_loop rest port sb ino') Q) ->
  triple port nsec img own L (resolve_loop (c :: rest) port sb ino) Q.
Proof.
  intros Ha Hino [_ Hne Hnd] Hchild Hend HQ. cbn [resolve_loop].
  rewrite !bool_decide_eq_false_2 by done. cbn [orb].
  eapply triple_bind; [by apply (read_inode_yields port nsec img own img_bytes); [..|apply ample_inode|by eapply child_served]|].
  intros r L' Hr. destruct Hchild as [Hi|i Hi Hd|i items Hi Hd Hc Hsize Hitems]; rewrite Hi in Hr.
  - destruct Hr as [-> ->]. by apply triple_ret.
  - destruct Hr as (p & Hp & -> & -> & Hns). eapply yields_bind; [by apply lookup_no_dir|].
    eapply triple_bind; [apply triple_kfree|]. intros _ L' ->. by apply triple_ret.
  - destruct Hr as (p & Hp & -> & -> & Hns). fold al in Hns |- *.
    pose proof (c_size _ _ _ _ _ Hc) as Hs.
    destruct (room_for_data L p (size i) Ha ltac:(lia) Hns) as [R1 R2].
    eapply yields_bind; [apply (lookup_yields _ i items); try done; by eapply inode_at_roots|].
    eapply triple_bind; [apply triple_kfree|]. intros _ L' ->.
    destruct (spec_find items c =? 0); [by apply triple_ret | done].
Qed.

Lemma child_word ino c r : child ino c r -> in_word 32 r.
Proof. intros [Hi|i Hi Hd|i items Hi Hd Hc Hs Hitems]; [by split.. | by apply spec_find_word]. Qed.

Lemma resolve_loop_yields L ino cs r : ample 3 L -> walks ino cs r -> 0 < ino < 2 ^ 32 ->
  Forall name_ok cs -> resilient \/ r <> 0 -> yields port nsec img own L (resolve_loop cs port sb ino) r.
Proof.
  intros Ha Hw. induction Hw as [ino|ino c cs Hc|ino c ino' cs r Hc Hne Hw IH]; intros Hino Hcs Hend.
  - apply yields_ret.
  - inversion Hcs; subst. eapply resolve_step; [done..|]. by simpl.
  - inversion Hcs; subst. eapply resolve_step; [done.. | by right |]. rewrite (proj2 (Z.eqb_neq ino' 0) Hne).
    apply IH; [|done..]. pose proof (child_word _ _ _ Hc) as [W1 W2]. lia.
Qed.

Lemma resolve_path_yields L ino cs r : ample 3 L -> walks ino cs r -> 0 < ino < 2 ^ 32 ->
  Forall name_ok cs -> resilient \/ r <> 0 -> yields port nsec img own L (resolve_path port sb ino (path_of cs)) r.
Proof.
  intros Ha Hw Hino Hcs Hend. unfold resolve_path. destruct cs as [|c cs].
  - inversion Hw; subst. apply yields_ret.
  - rewrite trim_path by done. rewrite decide_False.
    + rewrite split_path by done. by apply resolve_loop_yields.
    + inversion Hcs as [|? ? [_ Hne _] _]; subst. by destruct c.
Qed.

(** ** Reading a file *)

Lemma read_file_yields L sbp cs ino i data : ample 3 L -> walks ROOT_INO cs ino ->
  0 < ino < 2 ^ 32 -> Forall name_ok cs ->
  inode_at ino = Some i -> is_file i = true -> contents i data -> size i <= max ->
  triple port nsec img own L (read_file (mkExt3 port sbp sb) (path_of cs)) (fun r L' =>
    exists p, p <> 0 /\ r = Some (p, data) /\ L' = (p, size i) :: L).
Proof.
  intros Ha Hw Hino Hcs Hi Hfile Hc Hsize. unfold read_file. cbn [Ext3Dir.port Ext3Dir.sb].
  eapply yields_bind; [apply resolve_path_yields; try done; right; lia|]. rewrite (proj2 (Z.eqb_neq ino 0)) by lia.
  eapply triple_bind; [by apply (read_inode_yields port nsec img own img_bytes); [..|apply ample_inode|right; exists i]|].
  intros r L' Hr. rewrite Hi in Hr. destruct Hr as (p & Hp & -> & -> & Hns).
  rewrite Hfile. cbn [negb]. fold al in Hns |- *. pose proof (c_size _ _ _ _ _ Hc) as Hs.
  destruct (room_for_data L p (size i) Ha ltac:(lia) Hns) as [R1 R2].
  eapply triple_bind.
  { apply (read_contents port nsec img own img_bytes); [apply Hok | by eapply inode_at_roots | done..]. }
  intros r L' (q & Hq & -> & ->). eapply triple_bind.
  { eapply triple_perm; [apply perm_swap | apply triple_kfree]. }
  intros _ L' ->. apply triple_ret. by exists q.
Qed.

(** ** Mounting *)

(** The superblock, when it can be read and has the magic number. *)
Definition superblock_at : option Superblock :=
  b ← disk_read nsec img 1024 1024;
  if s_magic (superblock_of_bytes b) =? EXT_MAGIC then Some (superblock_of_bytes b) else None.

Lemma mount_yields L : room L [4096; 1024] -> resilient \/ is_Some superblock_at ->
  triple port nsec img own L (mount port) (fun r L' =>
    match superblock_at with
    | Some s => exists p, p <> 0 /\ r = Some (mkExt3 port p s) /\ L' = (p, 4096) :: L /\
        forall ns, room L (4096 :: ns) -> room L' ns
    | None => r = None /\ L' = L
    end).
Proof.
  intros R Hend. assert (served (D:=D) nsec img 1024 1024) as Hserved.
  { destruct Hend as [Hr|[x Hx]]; [by left|]. right. unfold superblock_at in Hx.
    apply bind_Some in Hx as (b & Hb & _). by exists b. }
  clear Hend. unfold mount, read_superblock, superblock_at. eapply triple_bind.
  { eapply triple_bind; [by apply (triple_kmalloc_aligned _ _ _ _ _ _ [1024])|].
    intros p L' (Hp & _ & -> & R'). rewrite (proj2 (Z.eqb_neq p 0) Hp).
    eapply yields_bind; [by apply (read_bytes_yields _ _ _ _ _ _ _ []); [..|apply R' |]|].
    instantiate (1 := fun r L' => match superblock_at with
      | Some s => exists p, p <> 0 /\ r = Some (p, s) /\ L' = (p, 4096) :: L /\
          forall ns, room L (4096 :: ns) -> room L' ns
      | None => r = None /\ L' = L end). unfold superblock_at.
    destruct (disk_read nsec img 1024 1024) as [b|]; cbn [mbind option_bind].
    - destruct (s_magic _ =? EXT_MAGIC); cbn [negb].
      + apply triple_ret. by exists p.
      + eapply triple_bind; [apply triple_kfree|]. intros _ L' ->. by apply triple_ret.
    - eapply triple_bind; [apply triple_kfree|]. intros _ L' ->. by apply triple_ret. }
  intros r L' Hr. unfold superblock_at in Hr. destruct (_ ≫= _).
  - destruct Hr as (p & Hp & -> & -> & Hns). apply triple_ret. by exists p.
  - destruct Hr as [-> ->]. by apply triple_ret.
Qed.
End walk.

(** * Theorems *)

(** C18: A directory block made of entries with inode, type, name and padding is
    read back as these entries: the search returns the inode of the first used
    entry with the given name, 0 when there is none, and the iteration calls back
    for each used entry in order; neither reads outside the block. *)
Theorem directory_roundtrip {S} items name (f : list Z -> Z -> Z -> S -> S) (s : S) :
  Forall item_ok items -> zlen (dir_of items) < 2 ^ 62 ->
  find_in_dir_data (dir_of items) (zlen (dir_of items)) name = Ret (spec_find items name) /\
  each_loop (dir_fuel (dir_of items)) (dir_of items) (zlen (dir_of items)) 0 f s = Ret (spec_each f items s).
Proof.
  intros Hok Hlen. split; [by apply find_in_dir_spec|]. change 0 with (zlen (@nil Z)).
  apply (each_entry_spec _ []); [done | done | done | apply dir_fuel_enough].
Qed.

Definition demo_items : list Item := [
  mkItem 12 1 [104; 105] (replicate 6 0); mkItem 0 0 [120] (replicate 7 0); mkItem 13 2 [120] (replicate 7 0)].

Lemma demo_entries_ok : Forall item_ok demo_items.
Proof. repeat constructor; by vm_compute. Qed.

Lemma directory_roundtrip_witness :
  find_in_dir_data (dir_of demo_items) 48 [120] = Ret 13 /\
  each_loop (dir_fuel (dir_of demo_items)) (dir_of demo_items) 48 0 (fun _ ino _ l => ino :: l) [] = Ret [13; 12].
Proof. apply (directory_roundtrip demo_items [120] (fun _ ino _ l => ino :: l) [] demo_entries_ok). reflexivity. Defined.

Section theorems.
Context {H D : Type} {HO : HeapOps H} {HL : HeapLaws H} {DO : Disk D} {DL : DiskLaws D}.

(** Mounting, then reading. *)
Lemma mount_then_read port nsec img own L (s : H * D) sb max cs ino i data :
  (forall k, in_word 8 (img k)) -> St port nsec img own L s ->
  superblock_at nsec img = Some sb -> sb_ok sb -> 2 ^ 26 <= max ->
  ample (H:=H) own max 4 L ->
  walks nsec img sb max ROOT_INO cs ino -> ino <> 0 -> in_word 32 ino -> Forall name_ok cs ->
  inode_at nsec img sb ino = Some i -> is_file i = true -> contents nsec img sb i data -> size i <= max ->
  exists fs s1 p s2, mount port s = Ret (Some fs, s1) /\
    read_file fs (path_of cs) s1 = Ret (Some (p, data), s2) /\
    St port nsec img own ((p, size i) :: (sb_ptr fs, 4096) :: L) s2.
Proof.
  intros Himg Hs Hsb Hok Hmax Ha Hw Hne [Hi1 Hi2] Hcs Hi Hf Hc Hsz.
  assert (forall ns, (length ns <= 3)%nat -> Forall (fun n => 0 < n <= max) ns -> room (H:=H) own L (4096 :: ns)) as Hroom.
  { intros ns Hlen Hns. apply Ha; [simpl; lia|]. constructor; [lia | done]. }
  destruct (mount_yields port nsec img own L) with (s := s) as (r & s1 & L1 & Hr & Hs1 & Hpost);
    [apply Hroom; [simpl; lia | repeat constructor; lia] | right; by exists sb | done |].
  rewrite Hsb in Hpost. destruct Hpost as (q & Hq & -> & -> & Hns).
  destruct (read_file_yields port nsec img own Himg sb Hok max Hmax ((q, 4096) :: L) q cs ino i data)
    with (s := s1) as (r2 & s2 & L2 & Hr2 & Hs2 & p & Hp & -> & ->); try done; [| lia |].
  - intros ns Hlen Hall. by apply Hns, Hroom.
  - by exists (mkExt3 port q sb), s1, p, s2.
Qed.
End theorems.

Definition demo_root : Inode := default (demo_inode 0 []) (inode_at 128 demo_byte demo_sb 2).
Definition demo_file : Inode := default (demo_inode 0 []) (inode_at 128 demo_byte demo_sb 12).
Definition demo_dir : list Item := [mkItem 12 1 [104; 105] (replicate (Z.to_nat 1014) 0)].

Lemma demo_dir_contents : contents 128 demo_byte demo_sb demo_root (dir_of demo_dir).
Proof. split; by vm_compute. Qed.

Lemma demo_walks : walks 128 demo_byte demo_sb (2 ^ 26) ROOT_INO [[104; 105]] 12.
Proof.
  apply (walks_down _ _ _ _ ROOT_INO [104; 105] 12 [] 12); [|done|apply walks_here].
  apply (child_entry 128 demo_byte demo_sb (2 ^ 26) ROOT_INO [104; 105] demo_root demo_dir).
  - by vm_compute.
  - by vm_compute.
  - apply demo_dir_contents.
  - by vm_compute.
  - repeat constructor; by vm_compute.
Qed.

Lemma demo_sum ns : Forall (fun n => 0 < n <= 2 ^ 26) ns ->
  foldr (fun n t => n + 4096 + t) 0 ns <= Z.of_nat (length ns) * (2 ^ 26 + 4096).
Proof. induction 1 as [|n ns Hn Hall IH]; simpl; lia. Qed.

Lemma demo_ample k : (k <= 7)%nat -> ample (H:=IdealHeap) [] (2 ^ 26) k [].
Proof.
  intros Hk ns Hlen Hall. apply demo_room; [eapply Forall_impl; [exact Hall|]; simpl; lia|].
  pose proof (demo_sum ns Hall). lia.
Qed.

