(* ===== verification/Paging.v ===== *)
(** Page tables: [make_executable] of [src/kern/mem.rs] and
    [make_user_accessible] of [src/kern/drv/ring3/mod.rs], against the
    processor's four-level walk. *)
From stdpp Require Import gmap.
From S2P Require Import Prelude Word.

Definition PTE_PRESENT : Z := 1.
Definition PTE_WRITABLE : Z := 2.
Definition PTE_USER : Z := 4.
Definition PTE_NX : Z := 2 ^ 63.

(** The 64-bit words of memory by their address in the direct map. *)
Abbreviation Words := (gmap Z Z).

Definition word (m : Words) (a : Z) : Z := default 0 (m !! a).

Definition phys_to_virt (hhdm_offset phys : Z) : Z := hhdm_offset ⊞ phys.

(** [p.add(i)] for a pointer to words. *)
Definition slot (p i : Z) : Z := p ⊞ i ⊠ 8.

Definition index (addr shift : Z) : Z := Z.land (wshr 64 addr shift) 0x1FF.

Definition frame (entry : Z) : Z := Z.land entry 0x000FFFFFFFFFF000.

Definition absent (entry : Z) : bool := Z.land entry PTE_PRESENT =? 0.

Definition large (entry : Z) : bool := negb (Z.land entry (2 ^ 7) =? 0).

(** * [make_executable] *)

Definition executable (entry : Z) : Z := Z.lor (Z.land entry (wnot 64 PTE_NX)) PTE_WRITABLE.

(** The body of the loop: one page. *)
Definition exec_page (hhdm_offset cr3 addr : Z) (m : Words) : Words :=
  let pml4_phys := Z.land cr3 (wnot 64 0xFFF) in
  let pml4 := phys_to_virt hhdm_offset pml4_phys in
  let pml4e := word m (slot pml4 (index addr 39)) in
  if absent pml4e then m
  else
    let pdpt := phys_to_virt hhdm_offset (frame pml4e) in
    let pdpte := word m (slot pdpt (index addr 30)) in
    if absent pdpte then m
    else if large pdpte then <[slot pdpt (index addr 30) := executable pdpte]> m
    else
      let pd := phys_to_virt hhdm_offset (frame pdpte) in
      let pde := word m (slot pd (index addr 21)) in
      if absent pde then m
      else if large pde then <[slot pd (index addr 21) := executable pde]> m
      else
        let pt := phys_to_virt hhdm_offset (frame pde) in
        let pte := word m (slot pt (index addr 12)) in
        if absent pte then m
        else <[slot pt (index addr 12) := executable pte]> m.

(** [while addr < end { page; addr += PAGE_SIZE }], shared by both functions. *)
Fixpoint page_loop (fuel : nat) (page : Z -> Words -> Words) (addr end_ : Z) (m : Words) : outcome Words :=
  match fuel with
  | O => Crash OutOfFuel
  | S fuel' => if addr <? end_ then page_loop fuel' page (addr ⊞ 0x1000) end_ (page addr m) else Ret m
  end.

(** One round per page of the range and the final test. *)
Definition pages_fuel (size : Z) : nat := Z.to_nat (size / 0x1000 + 4).

Definition page_range (vaddr size : Z) : Z * Z :=
  (Z.land vaddr (wnot 64 0xFFF), Z.land (vaddr ⊞ size ⊞ 0xFFF) (wnot 64 0xFFF)).

Definition make_executable (hhdm_offset cr3 vaddr size : Z) (m : Words) : outcome Words :=
  let '(addr, end_) := page_range vaddr size in
  page_loop (pages_fuel size) (exec_page hhdm_offset cr3) addr end_ m.

(** * [make_user_accessible] *)

Definition user (entry : Z) : Z := Z.lor entry PTE_USER.

Definition user_leaf (entry : Z) : Z :=
  Z.land (Z.lor (Z.lor entry PTE_USER) PTE_WRITABLE) (wnot 64 PTE_NX).

Definition user_page (hhdm_offset cr3 addr : Z) (m : Words) : Words :=
  let pml4_phys := Z.land cr3 (wnot 64 0xFFF) in
  let pml4 := phys_to_virt hhdm_offset pml4_phys in
  let pml4e := word m (slot pml4 (index addr 39)) in
  if absent pml4e then m
  else
    let m := <[slot pml4 (index addr 39) := user pml4e]> m in
    let pdpt := phys_to_virt hhdm_offset (frame pml4e) in
    let pdpte := word m (slot pdpt (index addr 30)) in
    if absent pdpte then m
    else
      let m := <[slot pdpt (index addr 30) := user pdpte]> m in
      if large pdpte then <[slot pdpt (index addr 30) := user_leaf pdpte]> m
      else
        let pd := phys_to_virt hhdm_offset (frame pdpte) in
        let pde := word m (slot pd (index addr 21)) in
        if absent pde then m
        else
          let m := <[slot pd (index addr 21) := user pde]> m in
          if large pde then <[slot pd (index addr 21) := user_leaf pde]> m
          else
            let pt := phys_to_virt hhdm_offset (frame pde) in
            let pte := word m (slot pt (index addr 12)) in
            if absent pte then m
            else <[slot pt (index addr 12) := user_leaf pte]> m.

Definition make_user_accessible (hhdm_offset cr3 vaddr size : Z) (m : Words) : outcome Words :=
  let '(addr, end_) := page_range vaddr size in
  page_loop (pages_fuel size) (user_page hhdm_offset cr3) addr end_ m.

(** * The processor's walk *)

(** The entries on the way to the page of [v], from the root, and the number of
    offset bits of the page; [None] when [v] is not mapped. *)
Definition walk (hhdm cr3 : Z) (m : Words) (v : Z) : option (list Z * Z) :=
  let s4 := slot (phys_to_virt hhdm (Z.land cr3 (wnot 64 0xFFF))) (index v 39) in
  if absent (word m s4) then None
  else
    let s3 := slot (phys_to_virt hhdm (frame (word m s4))) (index v 30) in
    if absent (word m s3) then None
    else if large (word m s3) then Some ([s4; s3], 30)
    else
      let s2 := slot (phys_to_virt hhdm (frame (word m s3))) (index v 21) in
      if absent (word m s2) then None
      else if large (word m s2) then Some ([s4; s3; s2], 21)
      else
        let s1 := slot (phys_to_virt hhdm (frame (word m s2))) (index v 12) in
        if absent (word m s1) then None else Some ([s4; s3; s2; s1], 12).

(** The physical address of [v]. *)
Definition translate (hhdm cr3 : Z) (m : Words) (v : Z) : option Z :=
  '(path, shift) ← walk hhdm cr3 m v;
  leaf ← last path;
  Some (frame (word m leaf) / 2 ^ shift * 2 ^ shift + v mod 2 ^ shift).

(** * Changes that keep the tables' structure *)

(** Bits that decide where a walk goes: present, large, the frame. *)
Definition structural (i : Z) : Prop := i = 0 \/ i = 7 \/ 12 <= i < 52.

(** [e'] maps as [e] does and grants no less: writable and user bits are kept,
    no-execute is not introduced. *)
Record grants_entry (e e' : Z) : Prop := {
  g_struct i : structural i -> Z.testbit e' i = Z.testbit e i;
  g_write : Z.testbit e 1 = true -> Z.testbit e' 1 = true;
  g_user : Z.testbit e 2 = true -> Z.testbit e' 2 = true;
  g_exec : Z.testbit e 63 = false -> Z.testbit e' 63 = false;
}.

Definition grants (m m' : Words) : Prop := forall a, grants_entry (word m a) (word m' a).

#[export] Instance grants_entry_preorder : PreOrder grants_entry.
Proof.
  split; [done|]. intros e1 e2 e3 [] []. split; [|auto..].
  intros i Hi. by rewrite g_struct1, g_struct0.
Qed.

#[export] Instance grants_preorder : PreOrder grants.
Proof. split; [by intros m a|]. intros m1 m2 m3 H1 H2 a. by transitivity (word m2 a). Qed.

Lemma word_insert m a x b : word (<[a := x]> m) b = if decide (a = b) then x else word m b.
Proof.
  unfold word. rewrite lookup_insert. by case_decide.
Qed.

Lemma grants_insert m a x : grants_entry (word m a) x -> grants m (<[a := x]> m).
Proof. intros Hx b. rewrite word_insert. case_decide; [by subst | done]. Qed.

Lemma flag_bit n i : 0 <= n -> Z.testbit (2 ^ n) i = (i =? n).
Proof. intros Hn. by rewrite Z.pow2_bits_eqb, Z.eqb_sym. Qed.

Lemma executable_bits e i : 0 <= i ->
  Z.testbit (executable e) i = Z.testbit e i && negb (i =? 63) && (i <? 64) || (i =? 1).
Proof.
  intros Hi. unfold executable, PTE_NX. change PTE_WRITABLE with (2 ^ 1).
  rewrite Z.lor_spec, Z.land_spec, wnot_spec, !flag_bit by lia. by rewrite andb_assoc.
Qed.

Lemma user_bits e i : 0 <= i -> Z.testbit (user e) i = Z.testbit e i || (i =? 2).
Proof.
  intros Hi. unfold user. change PTE_USER with (2 ^ 2). by rewrite Z.lor_spec, flag_bit by lia.
Qed.

Lemma user_leaf_bits e i : 0 <= i ->
  Z.testbit (user_leaf e) i = (Z.testbit e i || (i =? 2) || (i =? 1)) && negb (i =? 63) && (i <? 64).
Proof.
  intros Hi. unfold user_leaf, PTE_NX. change PTE_WRITABLE with (2 ^ 1). change PTE_USER with (2 ^ 2).
  rewrite Z.land_spec, !Z.lor_spec, wnot_spec, !flag_bit by lia. by rewrite andb_assoc.
Qed.

(** Evaluate the tests on a bit number that [lia] can decide. *)
Ltac bit_tests := decide_tests; cbn [negb andb orb]; rewrite ?andb_false_r, ?orb_false_r, ?andb_true_r, ?orb_true_r.

Lemma grants_executable e : grants_entry e (executable e).
Proof.
  split; [intros i Hi; assert (0 <= i < 64) by (unfold structural in Hi; lia)|..];
    rewrite executable_bits by lia; [unfold structural in Hi|..]; bit_tests; auto.
Qed.

Lemma grants_user e : grants_entry e (user e).
Proof.
  split; [intros i Hi; assert (0 <= i < 64) by (unfold structural in Hi; lia)|..];
    rewrite user_bits by lia; [unfold structural in Hi|..]; bit_tests; auto.
Qed.

Lemma grants_user_leaf e : grants_entry e (user_leaf e).
Proof.
  split; [intros i Hi; assert (0 <= i < 64) by (unfold structural in Hi; lia)|..];
    rewrite user_leaf_bits by lia; [unfold structural in Hi|..]; bit_tests; auto.
Qed.

(** ** Walks do not change *)

Lemma absent_bit e : absent e = negb (Z.testbit e 0).
Proof. unfold absent, PTE_PRESENT. change 1 with (2 ^ 0). rewrite land_pow2 by lia. by destruct (Z.testbit e 0). Qed.

Lemma large_bit e : large e = Z.testbit e 7.
Proof. unfold large. rewrite land_pow2 by lia. by destruct (Z.testbit e 7). Qed.

Lemma frame_bits e i : 0 <= i -> Z.testbit (frame e) i = Z.testbit e i && (12 <=? i) && (i <? 52).
Proof.
  intros Hi. unfold frame. rewrite Z.land_spec. rewrite <- andb_assoc. f_equal.
  change 0x000FFFFFFFFFF000 with (Z.shiftl (Z.ones 40) 12). rewrite Z.shiftl_spec by done.
  destruct (Z.leb_spec 12 i); simpl.
  - destruct (Z.ltb_spec i 52); [apply Z.ones_spec_low; lia | apply Z.ones_spec_high; lia].
  - apply Z.testbit_neg_r. lia.
Qed.

Lemma grants_absent e e' : grants_entry e e' -> absent e' = absent e.
Proof. intros Hg. rewrite !absent_bit. rewrite (g_struct _ _ Hg); [done | by left]. Qed.

Lemma grants_large e e' : grants_entry e e' -> large e' = large e.
Proof. intros Hg. rewrite !large_bit. apply (g_struct _ _ Hg). by right; left. Qed.

Lemma grants_frame e e' : grants_entry e e' -> frame e' = frame e.
Proof.
  intros Hg. apply Z.bits_inj'. intros i Hi. rewrite !frame_bits by done.
  destruct (Z.leb_spec 12 i), (Z.ltb_spec i 52); rewrite ?andb_false_r; try done.
  rewrite (g_struct _ _ Hg); [done | unfold structural; lia].
Qed.

Lemma grants_walk hhdm cr3 m m' v : grants m m' -> walk hhdm cr3 m' v = walk hhdm cr3 m v.
Proof.
  intros Hg. unfold walk.
  repeat (rewrite ?(grants_absent _ _ (Hg _)), ?(grants_frame _ _ (Hg _)), ?(grants_large _ _ (Hg _));
    match goal with |- context [if ?b then _ else _] => destruct b; [done|] end).
  done.
Qed.

Lemma grants_translate hhdm cr3 m m' v : grants m m' -> translate hhdm cr3 m' v = translate hhdm cr3 m v.
Proof.
  intros Hg. unfold translate. rewrite (grants_walk _ _ _ _ _ Hg).
  destruct (walk hhdm cr3 m v) as [[path s]|]; [|done]. simpl.
  destruct (last path) as [leaf|]; [|done]. simpl. by rewrite (grants_frame _ _ (Hg leaf)).
Qed.

(** Addresses of one page share the walk. *)
Lemma index_same v w s k : 0 <= v -> 0 <= w -> 0 <= s <= k -> k < 64 -> v / 2 ^ s = w / 2 ^ s ->
  index v k = index w k.
Proof.
  intros Hv Hw Hs Hk He. unfold index. f_equal. rewrite !wshr_div by lia.
  replace k with (s + (k - s)) by lia. rewrite Z.pow_add_r by lia.
  rewrite <- !Z.div_div by (apply Z.pow_nonzero || apply Z.pow_pos_nonneg; lia). by rewrite He.
Qed.

Lemma walk_same_page hhdm cr3 m v w path s : 0 <= v -> 0 <= w ->
  walk hhdm cr3 m v = Some (path, s) -> v / 2 ^ s = w / 2 ^ s -> walk hhdm cr3 m w = Some (path, s).
Proof.
  intros Hv Hw Hwalk He. assert (12 <= s <= 30) as Hs.
  { unfold walk in Hwalk. repeat case_match; simplify_eq; lia. }
  assert (forall k, s <= k < 64 -> index w k = index v k) as Hi.
  { intros k Hk. symmetry. apply (index_same v w s); lia. }
  unfold walk in *. rewrite (Hi 39), (Hi 30) by lia.
  destruct (absent _); [done|]. destruct (absent _); [done|]. destruct (large _); [done|].
  destruct (decide (s = 30)) as [->|]; [repeat case_match; simplify_eq; lia|].
  assert (s <= 21) by (repeat case_match; simplify_eq; lia). rewrite (Hi 21) by lia.
  destruct (absent _); [done|]. destruct (large _); [done|].
  destruct (decide (s = 21)) as [->|]; [repeat case_match; simplify_eq; lia|].
  assert (s = 12) as -> by (repeat case_match; simplify_eq; lia). by rewrite (Hi 12) by lia.
Qed.

Lemma walk_shift hhdm cr3 m v path s : walk hhdm cr3 m v = Some (path, s) -> 12 <= s <= 30.
Proof. unfold walk. intros Hw. repeat case_match; simplify_eq; lia. Qed.

(** The first address of the 4 KiB page has the same walk. *)
Lemma walk_page_start hhdm cr3 m v path s : 0 <= v -> walk hhdm cr3 m v = Some (path, s) ->
  walk hhdm cr3 m (v / 4096 * 4096) = Some (path, s).
Proof.
  intros Hv Hw. pose proof (walk_shift _ _ _ _ _ _ Hw) as Hs. pose proof (Z.div_pos v 4096).
  apply (walk_same_page hhdm cr3 m v); [done | lia | exact Hw|].
  replace s with (12 + (s - 12)) by lia. rewrite Z.pow_add_r by lia. change (2 ^ 12) with 4096.
  rewrite <- !Z.div_div by (lia || apply Z.pow_pos_nonneg; lia). by rewrite Z.div_mul by lia.
Qed.

(** ** One page *)

(** The page of [a], when mapped, is writable and executable at its last level. *)
Definition leaf_open (m : Words) (leaf : Z) : Prop :=
  Z.testbit (word m leaf) 1 = true /\ Z.testbit (word m leaf) 63 = false.

Definition exec_good (hhdm cr3 a : Z) (m : Words) : Prop :=
  forall path s leaf, walk hhdm cr3 m a = Some (path, s) -> last path = Some leaf -> leaf_open m leaf.

(** ... and every level of the walk grants user access. *)
Definition user_good (hhdm cr3 a : Z) (m : Words) : Prop :=
  exec_good hhdm cr3 a m /\
  forall path s e, walk hhdm cr3 m a = Some (path, s) -> e ∈ path -> Z.testbit (word m e) 2 = true.

Lemma leaf_open_grants m m' leaf : grants m m' -> leaf_open m leaf -> leaf_open m' leaf.
Proof.
  intros Hg [H1 H2]. split; [by apply (g_write _ _ (Hg leaf)) | by apply (g_exec _ _ (Hg leaf))].
Qed.

Lemma exec_good_grants hhdm cr3 a m m' : grants m m' -> exec_good hhdm cr3 a m -> exec_good hhdm cr3 a m'.
Proof.
  intros Hg H path s leaf Hw Hl. rewrite (grants_walk _ _ _ _ _ Hg) in Hw.
  eapply leaf_open_grants; [done | by eapply H].
Qed.

Lemma user_good_grants hhdm cr3 a m m' : grants m m' -> user_good hhdm cr3 a m -> user_good hhdm cr3 a m'.
Proof.
  intros Hg [H1 H2]. split; [by eapply exec_good_grants|]. intros path s e Hw He.
  rewrite (grants_walk _ _ _ _ _ Hg) in Hw. apply (g_user _ _ (Hg e)). by eapply H2.
Qed.

Lemma executable_open m leaf e : leaf_open (<[leaf := executable e]> m) leaf.
Proof. split; rewrite word_insert, decide_True by done; rewrite executable_bits by lia; by bit_tests. Qed.

Lemma user_leaf_open m leaf e : leaf_open (<[leaf := user_leaf e]> m) leaf.
Proof. split; rewrite word_insert, decide_True by done; rewrite user_leaf_bits by lia; by bit_tests. Qed.

Lemma exec_page_grants hhdm cr3 a m : grants m (exec_page hhdm cr3 a m).
Proof. unfold exec_page. repeat case_match; try done; apply grants_insert, grants_executable. Qed.

Lemma exec_page_good hhdm cr3 a m : exec_good hhdm cr3 a (exec_page hhdm cr3 a m).
Proof.
  intros path s leaf Hw Hl. rewrite (grants_walk _ _ _ _ _ (exec_page_grants hhdm cr3 a m)) in Hw.
  unfold walk in Hw. unfold exec_page.
  repeat (match type of Hw with context [if ?b then _ else _] => destruct b; [simplify_eq|] end);
    try done; simplify_eq; simpl in Hl; simplify_eq; apply executable_open.
Qed.

Definition user_bit (m : Words) (e : Z) : Prop := Z.testbit (word m e) 2 = true.

Lemma user_set m s : grants m (<[s := user (word m s)]> m) /\ user_bit (<[s := user (word m s)]> m) s.
Proof.
  split; [apply grants_insert, grants_user|]. unfold user_bit. rewrite word_insert, decide_True by done.
  rewrite user_bits by lia. apply orb_true_r.
Qed.

Lemma user_leaf_set m s : let m' := <[s := user_leaf (word m s)]> (<[s := user (word m s)]> m) in
  grants m m' /\ user_bit m' s /\ leaf_open m' s.
Proof.
  simpl. split_and!.
  - etransitivity; [apply user_set|]. apply grants_insert. rewrite word_insert, decide_True by done.
    split; [intros i Hi; assert (0 <= i < 64) by (unfold structural in Hi; lia)|..];
      rewrite user_bits, user_leaf_bits by lia; [unfold structural in Hi|..]; bit_tests; auto.
  - unfold user_bit. rewrite word_insert, decide_True by done. rewrite user_leaf_bits by lia. by bit_tests.
  - apply user_leaf_open.
Qed.

Lemma user_last_set m s : let m' := <[s := user_leaf (word m s)]> m in
  grants m m' /\ user_bit m' s /\ leaf_open m' s.
Proof.
  simpl. split; [apply grants_insert, grants_user_leaf|]. split; [|apply user_leaf_open].
  unfold user_bit. rewrite word_insert, decide_True by done. rewrite user_leaf_bits by lia. by bit_tests.
Qed.

Lemma user_bit_grants m m' e : grants m m' -> user_bit m e -> user_bit m' e.
Proof. intros Hg. apply (g_user _ _ (Hg e)). Qed.

Lemma user_page_spec hhdm cr3 a m : let m' := user_page hhdm cr3 a m in
  grants m m' /\
  forall path s, walk hhdm cr3 m a = Some (path, s) ->
    Forall (user_bit m') path /\ forall leaf, last path = Some leaf -> leaf_open m' leaf.
Proof.
  simpl. unfold user_page, walk. set (s4 := slot _ (index a 39)).
  destruct (absent (word m s4)); [by split|].
  destruct (user_set m s4) as [G4 U4]. set (m4 := <[s4 := _]> m) in *.
  set (s3 := slot _ (index a 30)).
  rewrite (grants_absent _ _ (G4 s3)), (grants_large _ _ (G4 s3)), (grants_frame _ _ (G4 s3)).
  destruct (absent (word m s3)); [by split|]. destruct (large (word m s3)).
  { destruct (user_leaf_set m4 s3) as (G & U & Lf). split; [by transitivity m4|].
    intros path s [= <- <-]. split; [|by intros leaf [= <-]].
    repeat constructor; [by eapply user_bit_grants | done]. }
  destruct (user_set m4 s3) as [G3 U3]. set (m3 := <[s3 := _]> m4) in *.
  assert (grants m m3) as G3' by (by transitivity m4).
  set (s2 := slot _ (index a 21)).
  rewrite (grants_absent _ _ (G3' s2)), (grants_large _ _ (G3' s2)), (grants_frame _ _ (G3' s2)).
  destruct (absent (word m s2)); [by split|]. destruct (large (word m s2)).
  { destruct (user_leaf_set m3 s2) as (G & U & Lf). split; [by transitivity m3|].
    intros path s [= <- <-]. split; [|by intros leaf [= <-]].
    repeat constructor; [|by eapply user_bit_grants | done].
    eapply user_bit_grants; [|exact U4]. by transitivity m3. }
  destruct (user_set m3 s2) as [G2 U2]. set (m2 := <[s2 := _]> m3) in *.
  assert (grants m m2) as G2' by (by transitivity m3).
  set (s1 := slot _ (index a 12)). rewrite (grants_absent _ _ (G2' s1)).
  destruct (absent (word m s1)); [by split|].
  destruct (user_last_set m2 s1) as (G & U & Lf). split; [by transitivity m2|].
  intros path s [= <- <-]. split; [|by intros leaf [= <-]].
  repeat constructor; [| |by eapply user_bit_grants | done].
  - eapply user_bit_grants; [|exact U4]. by transitivity m3; [|transitivity m2].
  - eapply user_bit_grants; [|exact U3]. by transitivity m2.
Qed.

Lemma user_page_grants hhdm cr3 a m : grants m (user_page hhdm cr3 a m).
Proof. apply user_page_spec. Qed.

Lemma user_page_good hhdm cr3 a m : user_good hhdm cr3 a (user_page hhdm cr3 a m).
Proof.
  destruct (user_page_spec hhdm cr3 a m) as [Hg Hp]. split.
  - intros path s leaf Hw. rewrite (grants_walk _ _ _ _ _ Hg) in Hw.
    destruct (Hp _ _ Hw) as [_ Hl]. apply Hl.
  - intros path s e Hw He. rewrite (grants_walk _ _ _ _ _ Hg) in Hw. destruct (Hp _ _ Hw) as [Hu _].
    rewrite Forall_forall in Hu. by apply Hu.
Qed.

(** ** The range *)

Lemma page_floor x : in_word 64 x -> Z.land x (wnot 64 0xFFF) = x / 4096 * 4096.
Proof.
  intros Hx. change 4096 with (2 ^ 12) at 2. rewrite <- Z.shiftl_mul_pow2 by lia.
  change 4096 with (2 ^ 12). rewrite <- Z.shiftr_div_pow2 by lia.
  apply Z.bits_inj'. intros i Hi. rewrite Z.land_spec, wnot_spec, Z.shiftl_spec by lia.
  change 0xFFF with (Z.ones 12). destruct (Z.ltb_spec i 12).
  - rewrite Z.ones_spec_low, (Z.testbit_neg_r _ (i - 12)) by lia. simpl. apply andb_false_r.
  - rewrite Z.ones_spec_high, Z.shiftr_spec by lia. replace (i - 12 + 12) with i by lia. simpl.
    destruct (Z.ltb_spec i 64); [apply andb_true_r|]. rewrite (testbit_high 64) by (done || lia). done.
Qed.

Section loop.
Context (page : Z -> Words -> Words) (good : Z -> Words -> Prop).
Context (page_grants : forall a m, grants m (page a m)) (page_good : forall a m, good a (page a m)).
Context (good_grants : forall a m m', grants m m' -> good a m -> good a m').

Lemma page_loop_spec fuel k e m : 0 <= k -> e * 4096 < 2 ^ 64 -> e - k < Z.of_nat fuel -> (0 < fuel)%nat ->
  exists m', page_loop fuel page (k * 4096) (e * 4096) m = Ret m' /\ grants m m' /\
    forall j, k <= j < e -> good (j * 4096) m'.
Proof.
  revert k m. induction fuel as [|fuel IH]; intros k m Hk He Hf Hpos; [lia|]. cbn [page_loop].
  case_ltb; [|exists m; split; [done|]; split; [done | lia]].
  rewrite wadd_small by (unfold in_word; lia). replace (k * 4096 + 4096) with ((k + 1) * 4096) by lia.
  destruct (IH (k + 1) (page (k * 4096) m)) as (m' & Hl & Hg & Hgood); [lia..|].
  exists m'. split; [done|]. split; [by transitivity (page (k * 4096) m)|].
  intros j Hj. destruct (decide (j = k)) as [->|]; [by eapply good_grants | apply Hgood; lia].
Qed.

(** Every page that meets the range is treated. *)
Lemma range_spec vaddr size m : 0 <= vaddr -> 0 <= size -> vaddr + size + 0xFFF < 2 ^ 64 ->
  exists m', (let '(addr, end_) := page_range vaddr size in
    page_loop (pages_fuel size) page addr end_ m) = Ret m' /\ grants m m' /\
    forall v, vaddr <= v < vaddr + size -> good (v / 4096 * 4096) m'.
Proof.
  intros Hv Hs Hr. unfold page_range. rewrite !wadd_small by (unfold in_word; rewrite ?wadd_small by (unfold in_word; lia); lia).
  rewrite !page_floor by (unfold in_word; lia).
  pose proof (Z.div_mod vaddr 4096). pose proof (Z.mod_pos_bound vaddr 4096).
  pose proof (Z.div_mod (vaddr + size + 4095) 4096). pose proof (Z.mod_pos_bound (vaddr + size + 4095) 4096).
  pose proof (Z.div_mod size 4096). pose proof (Z.mod_pos_bound size 4096).
  destruct (page_loop_spec (pages_fuel size) (vaddr / 4096) ((vaddr + size + 4095) / 4096) m)
    as (m' & Hl & Hg & Hgood); [lia | lia | unfold pages_fuel; lia | unfold pages_fuel; lia |].
  exists m'. split; [done|]. split; [done|]. intros v Hv'. apply Hgood.
  pose proof (Z.div_mod v 4096). pose proof (Z.mod_pos_bound v 4096). lia.
Qed.
End loop.

(** * Theorems *)

Lemma make_executable_all hhdm cr3 vaddr size m :
  0 <= vaddr -> 0 <= size -> vaddr + size + 0xFFF < 2 ^ 64 ->
  exists m', make_executable hhdm cr3 vaddr size m = Ret m' /\ grants m m' /\
    (forall v, translate hhdm cr3 m' v = translate hhdm cr3 m v) /\
    (forall v w path shift leaf, vaddr <= v < vaddr + size -> 0 <= w ->
      walk hhdm cr3 m v = Some (path, shift) -> v / 2 ^ shift = w / 2 ^ shift ->
      walk hhdm cr3 m' w = Some (path, shift) /\ (last path = Some leaf -> leaf_open m' leaf)).
Proof.
  intros Hv Hs Hr.
  destruct (range_spec (exec_page hhdm cr3) (exec_good hhdm cr3) (exec_page_grants hhdm cr3)
    (exec_page_good hhdm cr3) (exec_good_grants hhdm cr3) vaddr size m Hv Hs Hr) as (m' & Hm & Hg & Hgood).
  exists m'. split; [exact Hm|]. split; [done|]. split; [intros v; by apply grants_translate|].
  intros v w path shift leaf Hin Hw Hwalk He. split.
  - rewrite (grants_walk _ _ _ _ _ Hg). apply (walk_same_page hhdm cr3 m v w); [lia | done | exact Hwalk | done].
  - intros Hl. apply (Hgood v Hin path shift leaf); [|done].
    rewrite (grants_walk _ _ _ _ _ Hg). eapply walk_page_start; [lia | exact Hwalk].
Qed.


(** C20: [make_user_accessible] keeps all translations and rights in the same way;
    afterwards every level of the walk to each mapped page of the range grants
    user access and the page is writable and executable.  The unit is the page
    of the tables: when the range lies in a 2 MiB or 1 GiB page, all of
    that page becomes accessible to user code. *)
Theorem make_user_accessible_grants hhdm cr3 vaddr size m :
  0 <= vaddr -> 0 <= size -> vaddr + size + 0xFFF < 2 ^ 64 ->
  exists m', make_user_accessible hhdm cr3 vaddr size m = Ret m' /\ grants m m' /\
    (forall v, translate hhdm cr3 m' v = translate hhdm cr3 m v) /\
    (forall v w path shift leaf, vaddr <= v < vaddr + size -> 0 <= w ->
      walk hhdm cr3 m v = Some (path, shift) -> v / 2 ^ shift = w / 2 ^ shift ->
      walk hhdm cr3 m' w = Some (path, shift) /\ Forall (user_bit m') path /\
      (last path = Some leaf -> leaf_open m' leaf)).
Proof.
  intros Hv Hs Hr.
  destruct (range_spec (user_page hhdm cr3) (user_good hhdm cr3) (user_page_grants hhdm cr3)
    (user_page_good hhdm cr3) (user_good_grants hhdm cr3) vaddr size m Hv Hs Hr) as (m' & Hm & Hg & Hgood).
  exists m'. split; [exact Hm|]. split; [done|]. split; [intros v; by apply grants_translate|].
  intros v w path shift leaf Hin Hw Hwalk He. destruct (Hgood v Hin) as [Ho Hu].
  assert (walk hhdm cr3 m' (v / 4096 * 4096) = Some (path, shift)) as Hstart.
  { rewrite (grants_walk _ _ _ _ _ Hg). eapply walk_page_start; [lia | exact Hwalk]. }
  split; [|split].
  - rewrite (grants_walk _ _ _ _ _ Hg). apply (walk_same_page hhdm cr3 m v w); [lia | done | exact Hwalk | done].
  - apply Forall_forall. intros e He'. by eapply Hu.
  - intros Hl. by eapply Ho.
Qed.

(** A root table at 0x1000, one 2 MiB page and a table with one 4 KiB page. *)
Definition demo_tables : Words := {[
  0x1000 := 0x2003; 0x2000 := 0x3003; 0x3000 := 0x4003; 0x3008 := 0x400083 + 2 ^ 63; 0x4008 := 0x9001 + 2 ^ 63 ]}.


(** One byte of a 2 MiB page: an address a megabyte away becomes user-accessible. *)
Lemma make_user_accessible_grants_witness : exists m',
  make_user_accessible 0 0x1000 0x200000 1 demo_tables = Ret m' /\
  walk 0 0x1000 m' 0x300000 = Some ([0x1000; 0x2000; 0x3008], 21) /\
  Forall (user_bit m') [0x1000; 0x2000; 0x3008].
Proof.
  destruct (make_user_accessible_grants 0 0x1000 0x200000 1 demo_tables) as (m' & Hm & _ & _ & Hw).
  - lia.
  - lia.
  - lia.
  - exists m'. split; [exact Hm|].
    destruct (Hw 0x200000 0x300000 [0x1000; 0x2000; 0x3008] 21 0x3008) as (H1 & H2 & _).
    + lia.
    + lia.
    + vm_compute. reflexivity.
    + reflexivity.
    + by split.
Defined.
