(* ===== verification/Gdt.v ===== *)
(** Segment descriptors and the task state segment,
    [src/kern/arch/x86_64/gdt.rs] and [src/kern/arch/x86_64/tss.rs]. *)
From S2P Require Import Prelude Word.

(** * Descriptors *)

Record GdtEntry := mkGdtEntry {
  limit_low : Z; base_low : Z; base_mid : Z; access : Z; granularity : Z; base_high : Z;
}.

Definition new (base limit access flags : Z) : GdtEntry :=
  mkGdtEntry (Z.land limit 0xFFFF) (Z.land base 0xFFFF) (Z.land (wshr 32 base 16) 0xFF) access
    (Z.lor (Z.land (wshr 32 limit 16) 0x0F) (wshl 8 flags 4)) (Z.land (wshr 32 base 24) 0xFF).

Definition null : GdtEntry := new 0 0 0 0.

Definition KERNEL_CS : Z := 0x08.
Definition KERNEL_DS : Z := 0x10.
Definition USER_DS : Z := Z.lor 0x18 3.
Definition USER_CS : Z := Z.lor 0x20 3.
Definition TSS_SEL : Z := 0x28.

Definition GDT : list GdtEntry := [
  null;
  new 0 0xFFFFF 0x9A 0xA;
  new 0 0xFFFFF 0x92 0xC;
  new 0 0xFFFFF 0xF2 0xC;
  new 0 0xFFFFF 0xFA 0xA;
  null;
  null
].

Definition install_tss (base limit : Z) (gdt : list GdtEntry) : outcome (list GdtEntry) :=
  let limit_val := limit in
  let base_lo := wrap 32 base in
  let base_hi := wrap 32 (wshr 64 base 32) in
  let entry_low := mkGdtEntry (Z.land limit_val 0xFFFF) (Z.land base_lo 0xFFFF)
    (Z.land (wshr 32 base_lo 16) 0xFF) 0x89 (Z.land (wshr 32 limit_val 16) 0x0F)
    (Z.land (wshr 32 base_lo 24) 0xFF) in
  let entry_high := mkGdtEntry (Z.land base_hi 0xFFFF) (Z.land (wshr 32 base_hi 16) 0xFFFF) 0 0 0 0 in
  gdt ← arr_set gdt 5 entry_low;
  arr_set gdt 6 entry_high.

(** * The task state segment *)

Record Tss := mkTss {
  rsp0 : Z; rsp1 : Z; rsp2 : Z; ist1 : Z; ist2 : Z; ist3 : Z; ist4 : Z; ist5 : Z; ist6 : Z; ist7 : Z;
  iomap_base : Z;
}.

(** [size_of::<Tss>()], a packed structure. *)
Definition TSS_BYTES : Z := 104.

Definition tss_new : Tss := mkTss 0 0 0 0 0 0 0 0 0 0 TSS_BYTES.

(** [kernel_stack] is the link address of [KERNEL_STACK]. *)
Definition set_kernel_stack (rsp0 : Z) (t : Tss) : Tss :=
  mkTss rsp0 (rsp1 t) (rsp2 t) (ist1 t) (ist2 t) (ist3 t) (ist4 t) (ist5 t) (ist6 t) (ist7 t) (iomap_base t).

Definition tss_init (kernel_stack : Z) (t : Tss) : Tss := set_kernel_stack (kernel_stack ⊞ 0x4000) t.

Definition tss_size : Z := TSS_BYTES - 1.

(** The bytes of the structure; the reserved fields are zero. *)
Definition tss_bytes (t : Tss) : list Z :=
  to_le 4 0 ++ to_le 8 (rsp0 t) ++ to_le 8 (rsp1 t) ++ to_le 8 (rsp2 t) ++ to_le 8 0 ++
  to_le 8 (ist1 t) ++ to_le 8 (ist2 t) ++ to_le 8 (ist3 t) ++ to_le 8 (ist4 t) ++ to_le 8 (ist5 t) ++
  to_le 8 (ist6 t) ++ to_le 8 (ist7 t) ++ to_le 8 0 ++ to_le 2 0 ++ to_le 2 (iomap_base t).

(** * The processor's view *)

(** The eight bytes of a descriptor, and its fields by the architecture's layout. *)
Definition entry_bytes (e : GdtEntry) : list Z :=
  to_le 2 (limit_low e) ++ to_le 2 (base_low e) ++ [base_mid e; access e; granularity e; base_high e].

Definition desc_base (b : list Z) : Z := field b 2 2 + 2 ^ 16 * field b 4 1 + 2 ^ 24 * field b 7 1.
Definition desc_limit (b : list Z) : Z := field b 0 2 + 2 ^ 16 * (field b 6 1 mod 16).
Definition desc_access (b : list Z) : Z := field b 5 1.
Definition desc_flags (b : list Z) : Z := field b 6 1 / 16.

(** A system descriptor takes two entries; the second holds the upper base. *)
Definition system_base (lo hi : list Z) : Z := desc_base lo + 2 ^ 32 * field hi 0 4.

Definition entry_wf (e : GdtEntry) : Prop := in_word 16 (limit_low e) /\ in_word 16 (base_low e).

Lemma byte_fields e : entry_wf e ->
  desc_base (entry_bytes e) = base_low e + 2 ^ 16 * base_mid e + 2 ^ 24 * base_high e /\
  desc_limit (entry_bytes e) = limit_low e + 2 ^ 16 * (granularity e mod 16) /\
  desc_access (entry_bytes e) = access e /\ desc_flags (entry_bytes e) = granularity e / 16 /\
  field (entry_bytes e) 0 4 = limit_low e + 2 ^ 16 * base_low e.
Proof.
  intros [H1 H2]. unfold desc_base, desc_limit, desc_access, desc_flags.
  change (field (entry_bytes e) 2 2) with (from_le (to_le 2 (base_low e))).
  change (field (entry_bytes e) 0 2) with (from_le (to_le 2 (limit_low e))).
  change (field (entry_bytes e) 4 1) with (base_mid e + 256 * 0).
  change (field (entry_bytes e) 5 1) with (access e + 256 * 0).
  change (field (entry_bytes e) 6 1) with (granularity e + 256 * 0).
  change (field (entry_bytes e) 7 1) with (base_high e + 256 * 0).
  rewrite !Z.add_0_r. rewrite !from_le_to_le by done.
  do 4 (split; [done|]).
  change (field (entry_bytes e) 0 4) with (from_le (to_le 2 (limit_low e) ++ to_le 2 (base_low e))).
  cbn [to_le app from_le].
  pose proof (from_le_to_le 2 (limit_low e) H1) as E1. pose proof (from_le_to_le 2 (base_low e) H2) as E2.
  cbn [to_le from_le] in E1, E2. lia.
Qed.

Lemma land_ones_mod x n : 0 <= n -> Z.land x (Z.ones n) = x mod 2 ^ n.
Proof. apply Z.land_ones. Qed.

(** A 32-bit value from its 16, 8 and 8-bit parts. *)
Lemma parts_32 x : in_word 32 x ->
  Z.land x 0xFFFF + 2 ^ 16 * Z.land (wshr 32 x 16) 0xFF + 2 ^ 24 * Z.land (wshr 32 x 24) 0xFF = x.
Proof.
  intros Hx. rewrite !wshr_div by lia. change 0xFFFF with (Z.ones 16). change 0xFF with (Z.ones 8).
  rewrite !land_ones_mod by lia. unfold in_word in Hx.
  assert (x / 2 ^ 24 = x / 2 ^ 16 / 2 ^ 8) as -> by (by rewrite Z.div_div by lia).
  pose proof (Z.div_mod x (2 ^ 16)). pose proof (Z.div_mod (x / 2 ^ 16) (2 ^ 8)).
  assert (0 <= x / 2 ^ 16 / 2 ^ 8 < 2 ^ 8).
  { rewrite Z.div_div by lia. split; [apply Z.div_pos; lia | apply Z.div_lt_upper_bound; lia]. }
  rewrite (Z.mod_small (x / 2 ^ 16 / 2 ^ 8)) by lia. lia.
Qed.

Lemma parts_16 x : in_word 32 x -> Z.land x 0xFFFF + 2 ^ 16 * Z.land (wshr 32 x 16) 0xFFFF = x.
Proof.
  intros Hx. rewrite !wshr_div by lia. change 0xFFFF with (Z.ones 16).
  rewrite !land_ones_mod by lia. unfold in_word in Hx. pose proof (Z.div_mod x (2 ^ 16)).
  rewrite (Z.mod_small (x / 2 ^ 16)); [lia|]. split; [apply Z.div_pos; lia | apply Z.div_lt_upper_bound; lia].
Qed.

Lemma nibbles a f : 0 <= a < 16 -> 0 <= f < 16 -> Z.lor a (wshl 8 f 4) = a + 16 * f.
Proof.
  intros Ha Hf. unfold wshl. change (4 mod 8) with 4. rewrite Z.shiftl_mul_pow2 by lia.
  rewrite wrap_small by (unfold in_word; lia).
  rewrite lor_shifted by (unfold in_word; lia). lia.
Qed.

(** * Theorems *)

(** A descriptor made by [GdtEntry::new] and read by the processor has
    exactly the base, the 20-bit limit, the access byte and the flags it was made
    from. *)
Theorem descriptor_roundtrip base limit access flags :
  in_word 32 base -> 0 <= limit < 2 ^ 20 -> in_word 8 access -> 0 <= flags < 16 ->
  let b := entry_bytes (new base limit access flags) in
  desc_base b = base /\ desc_limit b = limit /\ desc_access b = access /\ desc_flags b = flags.
Proof.
  intros Hb Hl Ha Hf. cbv zeta.
  assert (0 <= Z.land (wshr 32 limit 16) 0x0F < 16 /\ Z.land (wshr 32 limit 16) 0x0F = limit / 2 ^ 16) as [Hn Hn'].
  { rewrite wshr_div by lia. change 0x0F with (Z.ones 4). rewrite land_ones_mod by lia.
    assert (0 <= limit / 2 ^ 16 < 16) by (split; [apply Z.div_pos; lia | apply Z.div_lt_upper_bound; lia]).
    rewrite Z.mod_small by lia. lia. }
  assert (entry_wf (new base limit access flags)) as Hwf.
  { split; simpl; change 0xFFFF with (Z.ones 16); rewrite land_ones_mod by lia;
      apply Z.mod_pos_bound; lia. }
  destruct (byte_fields _ Hwf) as (-> & -> & -> & -> & _).
  cbn [new base_low base_mid base_high limit_low granularity Gdt.access].
  rewrite nibbles by lia. split; [by apply parts_32|]. rewrite Hn' in Hn |- *.
  assert ((limit / 2 ^ 16 + 16 * flags) mod 16 = limit / 2 ^ 16 /\ (limit / 2 ^ 16 + 16 * flags) / 16 = flags)
    as [-> ->].
  { rewrite (Z.mul_comm 16), Z.mod_add, Z.div_add, Z.mod_small, (Z.div_small (limit / 2 ^ 16)) by lia. lia. }
  split; [|done]. change 0xFFFF with (Z.ones 16). rewrite land_ones_mod by lia.
  pose proof (Z.div_mod limit (2 ^ 16)). lia.
Qed.

Lemma descriptor_roundtrip_witness :
  let b := entry_bytes (new 0x12345678 0xABCDE 0x9A 0xA) in
  desc_base b = 0x12345678 /\ desc_limit b = 0xABCDE /\ desc_access b = 0x9A /\ desc_flags b = 0xA.
Proof. apply descriptor_roundtrip; unfold in_word; lia. Defined.

(** The descriptor a selector names, its privilege level (bits 5-6 of the access
    byte), and whether it is a 64-bit code segment or a data segment. *)
Definition selected (gdt : list GdtEntry) (sel : Z) : option (list Z) := entry_bytes <$> zget gdt (sel / 8).
Definition desc_dpl (b : list Z) : Z := desc_access b / 32 mod 4.
Definition is_code64 (b : list Z) : bool :=
  (desc_access b / 8 mod 4 =? 3) && (desc_access b / 128 =? 1) && (desc_flags b / 2 mod 2 =? 1).
Definition is_data (b : list Z) : bool :=
  (desc_access b / 8 mod 4 =? 2) && (desc_access b / 128 =? 1) && (desc_access b / 2 mod 2 =? 1).

(** What [install_tss] writes. *)
Lemma tss_installed base limit : in_word 64 base -> in_word 16 limit ->
  exists gdt lo hi, install_tss base limit GDT = Ret gdt /\
    (gdt = take 5 GDT ++ drop 5 gdt /\ zlen gdt = 7) /\
    selected gdt TSS_SEL = Some lo /\ selected gdt (TSS_SEL + 8) = Some hi /\
    system_base lo hi = base /\ desc_limit lo = limit /\ desc_access lo = 0x89.
Proof.
  intros Hb Hl. unfold install_tss.
  set (lo := mkGdtEntry (Z.land limit 0xFFFF) _ _ _ _ _). set (hi := mkGdtEntry _ _ 0 0 0 0).
  assert (in_word 32 (wrap 32 base) /\ in_word 32 (wrap 32 (wshr 64 base 32))) as [W1 W2]
    by (by split; apply wrap_in_word).
  assert (forall x, in_word 16 (Z.land x 0xFFFF)) as Hw16.
  { intros x. change 0xFFFF with (Z.ones 16). rewrite land_ones_mod by lia. apply Z.mod_pos_bound. lia. }
  exists (take 5 GDT ++ [lo; hi]), (entry_bytes lo), (entry_bytes hi).
  split; [reflexivity|]. split; [by split|]. split; [reflexivity|]. split; [reflexivity|].
  assert (entry_wf lo /\ entry_wf hi) as [Wlo Whi] by (by split; split; apply Hw16).
  unfold system_base. destruct (byte_fields lo Wlo) as (-> & -> & -> & _ & _).
  destruct (byte_fields hi Whi) as (_ & _ & _ & _ & ->). cbn [lo hi base_low base_mid base_high limit_low
    granularity Gdt.access]. rewrite parts_32 by done.
  replace (Z.land (wrap 32 (wshr 64 base 32)) 65535 + 2 ^ 16 * Z.land (wshr 32 (wrap 32 (wshr 64 base 32)) 16) 65535)
    with (wrap 32 (wshr 64 base 32)) by (symmetry; by apply parts_16).
  unfold in_word in Hb, Hl. split; [|split; [|done]].
  - rewrite wshr_div by lia. unfold wrap. pose proof (Z.div_mod base (2 ^ 32)).
    rewrite (Z.mod_small (base / 2 ^ 32)); [lia|]. split; [apply Z.div_pos; lia | apply Z.div_lt_upper_bound; lia].
  - rewrite wshr_div by lia. rewrite (Z.div_small limit) by lia. change (Z.land 0 15 mod 16) with 0.
    change 0xFFFF with (Z.ones 16). rewrite land_ones_mod, Z.mod_small by lia. lia.
Qed.

(** The task state segment's descriptor, written over entries 5 and 6 by
    [install_tss], gives the processor the full 64-bit base and the limit, is present
    and has the type of an available 64-bit TSS; the four segment selectors keep naming
    present code and data segments of their own privilege level. *)
Theorem tss_descriptor base limit : in_word 64 base -> in_word 16 limit ->
  exists gdt lo hi, install_tss base limit GDT = Ret gdt /\
    selected gdt TSS_SEL = Some lo /\ selected gdt (TSS_SEL + 8) = Some hi /\
    system_base lo hi = base /\ desc_limit lo = limit /\ desc_access lo = 0x89 /\
    Forall (fun '(sel, code) => exists b, selected gdt sel = Some b /\ desc_dpl b = sel mod 8 /\
        (if (code : bool) then is_code64 b else is_data b) = true)
      [(KERNEL_CS, true); (KERNEL_DS, false); (USER_CS, true); (USER_DS, false)].
Proof.
  intros Hb Hl. destruct (tss_installed base limit Hb Hl) as (gdt & lo & hi & Hg & [Hgdt _] & H1 & H2 & H3 & H4 & H5).
  exists gdt, lo, hi. do 6 (split; [done|]). rewrite Hgdt.
  repeat constructor; eexists; (split; [reflexivity|]); by vm_compute.
Qed.

Lemma tss_descriptor_witness : exists gdt lo hi,
  install_tss 0xFFFFFFFF80201000 tss_size GDT = Ret gdt /\
  selected gdt TSS_SEL = Some lo /\ selected gdt (TSS_SEL + 8) = Some hi /\
  system_base lo hi = 0xFFFFFFFF80201000 /\ desc_limit lo = 103.
Proof.
  destruct (tss_descriptor 0xFFFFFFFF80201000 tss_size) as (gdt & lo & hi & H1 & H2 & H3 & H4 & H5 & _).
  - unfold in_word. lia.
  - unfold in_word, tss_size, TSS_BYTES. lia.
  - by exists gdt, lo, hi.
Defined.

(** The size the code takes for the packed structure is that of its bytes, and
    [rsp0] lies at offset 4. *)
Lemma tss_layout t : zlen (tss_bytes t) = TSS_BYTES /\ sub (tss_bytes t) 4 8 = to_le 8 (rsp0 t).
Proof. split; reflexivity. Qed.

(** * Loading the registers *)

(** The segment registers; [gdtr] is limit and base. *)
Record SegRegs := mkSegs {
  gdtr : Z * Z;
  s_cs : Z; s_ds : Z; s_es : Z; s_fs : Z; s_gs : Z; s_ss : Z;
  task_reg : Z;
}.

(** [GdtPtr]: [size_of::<Gdt>() - 1] and the table's address. *)
Definition gdt_ptr (gdt_addr : Z) : Z * Z := (8 * zlen GDT - 1, gdt_addr).

(** [init]: [lgdt], the far return that loads [cs], and the data segments. *)
Definition gdt_init (gdt_addr : Z) (s : SegRegs) : SegRegs :=
  let s := mkSegs (gdt_ptr gdt_addr) (s_cs s) (s_ds s) (s_es s) (s_fs s) (s_gs s) (s_ss s) (task_reg s) in
  let s := mkSegs (gdtr s) 0x08 (s_ds s) (s_es s) (s_fs s) (s_gs s) (s_ss s) (task_reg s) in
  mkSegs (gdtr s) (s_cs s) 0x10 0x10 0x10 0x10 0x10 (task_reg s).

(** [ltr] *)
Definition tss_load (selector : Z) (s : SegRegs) : SegRegs :=
  mkSegs (gdtr s) (s_cs s) (s_ds s) (s_es s) (s_fs s) (s_gs s) (s_ss s) selector.

(** [main.rs]: table, task state segment and its descriptor. *)
Definition load_segments (gdt_addr tss_addr : Z) (s : SegRegs) : outcome (list GdtEntry * SegRegs) :=
  let s := gdt_init gdt_addr s in
  gdt ← install_tss tss_addr tss_size GDT;
  Ret (gdt, tss_load TSS_SEL s).

(** The table covers [n] bytes of the descriptor that the selector names. *)
Definition covers (s : SegRegs) (sel n : Z) : Prop := sel / 8 * 8 + n - 1 <= (gdtr s).1.

(** The registers after start-up: every segment
    register names a descriptor inside the table's limit: the code segment is 64-bit code
    and the data segments are data, all of privilege level 0; the task register names
    the sixteen bytes of an available 64-bit TSS with the address and size of [TSS]. *)
Record segments_ok (gdt_addr tss_addr : Z) (gdt : list GdtEntry) (s : SegRegs) : Prop := {
  so_table : gdtr s = (8 * zlen gdt - 1, gdt_addr);
  so_code : exists b, selected gdt (s_cs s) = Some b /\ is_code64 b = true /\ desc_dpl b = 0 /\ covers s (s_cs s) 8;
  so_data sel : sel ∈ [s_ds s; s_es s; s_fs s; s_gs s; s_ss s] ->
    exists b, selected gdt sel = Some b /\ is_data b = true /\ desc_dpl b = 0 /\ covers s sel 8;
  so_task : exists lo hi, selected gdt (task_reg s) = Some lo /\ selected gdt (task_reg s + 8) = Some hi /\
    system_base lo hi = tss_addr /\ desc_limit lo = TSS_BYTES - 1 /\ desc_access lo = 0x89 /\
    covers s (task_reg s) 16;
}.

Theorem segments_loaded gdt_addr tss_addr s0 : in_word 64 tss_addr ->
  exists gdt s, load_segments gdt_addr tss_addr s0 = Ret (gdt, s) /\ segments_ok gdt_addr tss_addr gdt s.
Proof.
  intros Ht. destruct (tss_installed tss_addr tss_size Ht) as (gdt & lo & hi & Hg & [Hgdt Hlen] & H1 & H2 & H3 & H4 & H5);
    [unfold in_word, tss_size, TSS_BYTES; lia|].
  unfold load_segments. rewrite Hg, bind_ret. do 2 eexists. split; [reflexivity|].
  assert (selected gdt 0x08 = Some (entry_bytes (new 0 0xFFFFF 0x9A 0xA)) /\
          selected gdt 0x10 = Some (entry_bytes (new 0 0xFFFFF 0x92 0xC))) as [Hcs Hds] by (rewrite Hgdt; by split).
  split; [by rewrite Hlen | | |].
  - eexists. split; [exact Hcs|]. split; [reflexivity|]. split; [reflexivity|]. by vm_compute.
  - intros sel Hsel. assert (sel = 0x10) as ->.
    { cbn in Hsel. rewrite !elem_of_cons in Hsel. destruct Hsel as [|[|[|[|[|[]%not_elem_of_nil]]]]]; done. }
    eexists. split; [exact Hds|]. split; [reflexivity|]. split; [reflexivity|]. by vm_compute.
  - exists lo, hi. do 5 (split; [done|]). by vm_compute.
Qed.

Lemma segments_loaded_witness : exists gdt s,
  load_segments 0xFFFFFFFF80200000 0xFFFFFFFF80201000 (mkSegs (0, 0) 0 0 0 0 0 0 0) = Ret (gdt, s) /\ s_cs s = 0x08.
Proof.
  destruct (segments_loaded 0xFFFFFFFF80200000 0xFFFFFFFF80201000 (mkSegs (0, 0) 0 0 0 0 0 0 0)) as (gdt & s & H & _).
  - unfold in_word. lia.
  - exists gdt, s. split; [exact H|]. unfold load_segments in H. inv_bind H. by injection H as _ <-.
Defined.
