(* ===== verification/Ring3.v ===== *)
(** The switch to user mode, [enter_ring3] of [src/kern/drv/ring3/mod.rs], over
    the heap, the page tables and the segment selectors. *)
From S2P Require Import Prelude Word PageSource Buddy Slab Mem Paging Idt Gdt.

Definition USER_STACK_SIZE : Z := 0x4000.

(** The result is the processor that [iretq] leaves, [None] when the stack could
    not be allocated; [r] is what the general registers happen to hold. *)
Definition enter_ring3 (entry hhdm_offset cr3 : Z) (r : regs) (m : KMem) (w : Words)
    : outcome (option Cpu * KMem * Words) :=
  '(user_stack_ptr, m) ← Mem.kmalloc USER_STACK_SIZE m;
  if user_stack_ptr =? 0 then Ret (None, m, w)
  else
    let user_stack_top := user_stack_ptr ⊞ USER_STACK_SIZE in
    w ← make_user_accessible hhdm_offset cr3 user_stack_ptr USER_STACK_SIZE w;
    Ret (Some (mkCpu r entry USER_CS 0x202 user_stack_top USER_DS), m, w).

(** The range lemma of [make_user_accessible] for the stack. *)
Lemma stack_accessible hhdm cr3 p w : 0 <= p -> p + 0x4000 + 0xFFF < 2 ^ 64 ->
  exists w', make_user_accessible hhdm cr3 p USER_STACK_SIZE w = Ret w' /\ grants w w' /\
    forall v path shift, p <= v < p + USER_STACK_SIZE -> walk hhdm cr3 w' v = Some (path, shift) ->
      Forall (user_bit w') path /\ forall leaf, last path = Some leaf -> leaf_open w' leaf.
Proof.
  intros Hp Hr.
  destruct (range_spec (user_page hhdm cr3) (user_good hhdm cr3) (user_page_grants hhdm cr3)
    (user_page_good hhdm cr3) (user_good_grants hhdm cr3) p USER_STACK_SIZE w Hp ltac:(done) ltac:(unfold USER_STACK_SIZE; lia))
    as (w' & Hm & Hg & Hgood).
  exists w'. split; [exact Hm|]. split; [done|]. intros v path shift Hin Hwalk.
  destruct (Hgood v Hin) as [Ho Hu].
  assert (walk hhdm cr3 w' (v / 4096 * 4096) = Some (path, shift)) as Hstart
    by (eapply walk_page_start; [lia | exact Hwalk]).
  split; [apply Forall_forall; intros e He; by eapply Hu|]. intros leaf Hl. by eapply Ho.
Qed.


