(* ===== verification/Syscall.v ===== *)
(** System calls, [src/kern/kxvm/syscall.rs], over the interrupt path of [Idt] and
    the console of [Serial]. *)
From Stdlib Require Import String Ascii.
From S2P Require Import Prelude Word Port Serial Idt Utf8.

Definition SYS_EXIT : Z := 0.
Definition SYS_SERIAL_WRITE : Z := 1.

Definition newline : list Z := [10].

Section syscall.
Context {D : Type} `{PortDevice D}.
Implicit Types (d : D).

(** [ram] is the memory the kernel sees ([None]: not mapped); [trampoline] and
    [return_stack] are the link addresses of [hlt_trampoline] and of
    [RETURN_STACK]; [fuel] bounds the polls of the UART. *)
Context (fuel : nat) (ram : Z -> option Z) (trampoline return_stack : Z).

(** [from_raw_parts(ptr, n)] *)
Fixpoint read_user (n : nat) (ptr : Z) : outcome (list Z) :=
  match n with
  | O => Ret []
  | S n =>
      match ram ptr with
      | Some b => bs ← read_user n (ptr ⊞ 1); Ret (b :: bs)
      | None => Crash UndefinedBehaviour
      end
  end.

Definition with_rax (v : Z) (c : IsrContext) : IsrContext :=
  mkCtx (c_r15 c) (c_r14 c) (c_r13 c) (c_r12 c) (c_r11 c) (c_r10 c) (c_r9 c) (c_r8 c) (c_rbp c)
    (c_rdi c) (c_rsi c) (c_rdx c) (c_rcx c) (c_rbx c) v (c_vector c) (c_error_code c)
    (c_rip c) (c_cs c) (c_rflags c) (c_rsp c) (c_ss c).

Definition with_frame (rip cs rflags rsp ss : Z) (c : IsrContext) : IsrContext :=
  mkCtx (c_r15 c) (c_r14 c) (c_r13 c) (c_r12 c) (c_r11 c) (c_r10 c) (c_r9 c) (c_r8 c) (c_rbp c)
    (c_rdi c) (c_rsi c) (c_rdx c) (c_rcx c) (c_rbx c) (c_rax c) (c_vector c) (c_error_code c)
    rip cs rflags rsp ss.

Definition syscall_dispatch : ctx_handler D := fun ctx d =>
  let nr := c_rax ctx in
  if nr =? SYS_EXIT then
    let code := c_rdi ctx in
    d ← puts fuel (text "syscall: exit(") d;
    d ← dec fuel code d;
    d ← puts fuel (text ")" ++ newline) d;
    let stack_top := return_stack ⊞ 0x2000 in
    Ret (with_frame trampoline 0x08 0x202 stack_top 0x10 ctx, d)
  else if nr =? SYS_SERIAL_WRITE then
    let ptr := c_rdi ctx in
    let len := c_rsi ctx in
    d ← (if negb (ptr =? 0) && (len <? 4096)
         then s ← read_user (Z.to_nat len) ptr; puts fuel s d else Ret d);
    Ret (with_rax 0 ctx, d)
  else
    d ← puts fuel (text "syscall: unknown nr=") d;
    d ← dec fuel nr d;
    d ← puts fuel newline d;
    Ret (with_rax U64_MAX ctx, d).

(** [init]: the handler and the gate of vector 0x80. *)
Definition init (t : Tables D) (gates : Idt) : outcome (Tables D * Idt) :=
  t ← register_ctx_handler 0x80 syscall_dispatch t;
  gates ← set_gate_dpl 0x80 3 gates;
  Ret (t, gates).
End syscall.

(** * What a system call does *)

Section spec.
Context {D : Type} `{Uart D}.
Context (fuel : nat) (Hfuel : (uart_polls < fuel)%nat).
Context (ram : Z -> option Z) (trampoline return_stack : Z).

(** The result of a handler: the console received [s]. *)
Definition handled (m : outcome (IsrContext * D)) (c : IsrContext) (s : list Z) (d : D) : Prop :=
  returns m (fun '(c', d') => c' = c /\ ready d' /\ uart_sent d' = uart_sent d ++ s).

Lemma handled_transmits (m : outcome D) c s d : transmits m s d -> handled (d ← m; Ret (c, d)) c s d.
Proof. intros (d' & -> & Hr). apply returns_ret. by split. Qed.

Lemma handled_bind (m : outcome D) (k : D -> outcome (IsrContext * D)) c s t d : transmits m s d ->
  (forall d', ready d' -> handled (k d') c t d') -> handled (m ≫= k) c (s ++ t) d.
Proof.
  intros (d1 & -> & Hr & Hs) Hk. rewrite bind_ret. eapply returns_mono; [by apply Hk|].
  intros [c' d2] (-> & Hr2 & Hs2). split; [done|]. split; [done|]. by rewrite Hs2, Hs, app_assoc.
Qed.

(** The bytes at [ptr], when they are mapped. *)
Definition mapped_bytes (ptr : Z) (bs : list Z) : Prop :=
  0 <= ptr /\ ptr + zlen bs <= 2 ^ 64 /\
  forall i, 0 <= i < zlen bs -> ram (ptr + i) = zget bs i.

Lemma read_user_spec ptr bs : mapped_bytes ptr bs -> read_user ram (length bs) ptr = Ret bs.
Proof.
  revert ptr. induction bs as [|b bs IH]; intros ptr (Hp & Hle & Hb); [done|].
  rewrite zlen_cons in *. pose proof (zlen_nonneg bs). simpl length. cbn [read_user].
  specialize (Hb 0 ltac:(lia)) as Hb0. rewrite Z.add_0_r in Hb0. rewrite Hb0. cbn.
  destruct (decide (bs = [])) as [->|Hne]; [done|].
  assert (0 < zlen bs) by (unfold zlen in *; destruct bs; [done | simpl; lia]).
  rewrite wadd_small by (unfold in_word; lia). rewrite IH; [done|].
  split; [lia|]. split; [lia|]. intros i Hi. replace (ptr + 1 + i) with (ptr + (i + 1)) by lia.
  rewrite Hb by lia. unfold zget. decide_tests. replace (Z.to_nat (i + 1)) with (S (Z.to_nat i)) by lia. done.
Qed.

Abbreviation dispatch := (syscall_dispatch fuel ram trampoline return_stack).

(** A text, a number in decimal, a text. *)
Lemma report_spec (s1 s2 : list Z) v d : in_word 64 v -> ready d ->
  exists num, is_decimal v num /\
    transmits (d ← puts fuel s1 d; d ← dec fuel v d; puts fuel s2 d) (s1 ++ num ++ s2) d.
Proof.
  intros Hv Hd. destruct (puts_spec fuel Hfuel s1 d Hd) as (d1 & Hr1 & Hd1 & Hs1).
  destruct (printers_spec fuel Hfuel v d1 Hv Hd1) as (_ & num & (d2 & Hr2 & Hd2 & Hs2) & Hnum).
  destruct (puts_spec fuel Hfuel s2 d2 Hd2) as (d3 & Hr3 & Hd3 & Hs3).
  exists num. split; [done|]. exists d3. rewrite Hr1, bind_ret, Hr2, bind_ret, Hr3.
  split; [done|]. split; [done|]. by rewrite Hs3, Hs2, Hs1, !app_assoc.
Qed.

Lemma exit_spec c d : c_rax c = SYS_EXIT -> in_word 64 (c_rdi c) -> ready d ->
  exists num, is_decimal (c_rdi c) num /\
    handled (dispatch c d) (with_frame trampoline 0x08 0x202 (return_stack ⊞ 0x2000) 0x10 c)
      (text "syscall: exit(" ++ num ++ text ")" ++ newline) d.
Proof.
  intros Hnr Hrdi Hd. destruct (report_spec (text "syscall: exit(") (text ")" ++ newline) _ d Hrdi Hd)
    as (num & Hnum & d3 & Hr & Hok).
  exists num. split; [done|]. unfold syscall_dispatch. rewrite Hnr. cbn [SYS_EXIT Z.eqb].
  inv_bind Hr. inv_bind Hr. rewrite Hv, bind_ret, Hv0, bind_ret, Hr. by apply returns_ret.
Qed.

Lemma unknown_spec c d : c_rax c <> SYS_EXIT -> c_rax c <> SYS_SERIAL_WRITE -> in_word 64 (c_rax c) -> ready d ->
  exists num, is_decimal (c_rax c) num /\
    handled (dispatch c d) (with_rax U64_MAX c) (text "syscall: unknown nr=" ++ num ++ newline) d.
Proof.
  intros Hn0 Hn1 Hrax Hd. destruct (report_spec (text "syscall: unknown nr=") newline _ d Hrax Hd)
    as (num & Hnum & d3 & Hr & Hok).
  exists num. split; [done|]. unfold syscall_dispatch.
  rewrite (proj2 (Z.eqb_neq _ _) Hn0), (proj2 (Z.eqb_neq _ _) Hn1).
  inv_bind Hr. inv_bind Hr. rewrite Hv, bind_ret, Hv0, bind_ret, Hr. by apply returns_ret.
Qed.

Lemma write_spec c d bs : c_rax c = SYS_SERIAL_WRITE -> 0 < c_rdi c -> c_rsi c = zlen bs -> zlen bs < 4096 ->
  mapped_bytes (c_rdi c) bs -> ready d -> handled (dispatch c d) (with_rax 0 c) bs d.
Proof.
  intros Hnr Hp Hl Hlen Hm Hd. unfold syscall_dispatch. rewrite Hnr. cbn [SYS_EXIT SYS_SERIAL_WRITE Z.eqb].
  rewrite Hl. decide_tests. cbn [negb andb]. unfold zlen at 1. rewrite Nat2Z.id, read_user_spec, bind_ret by done.
  apply handled_transmits. by apply puts_spec.
Qed.

Lemma write_refused c d : c_rax c = SYS_SERIAL_WRITE -> c_rdi c = 0 \/ 4096 <= c_rsi c -> ready d ->
  handled (dispatch c d) (with_rax 0 c) [] d.
Proof.
  intros Hnr Hbad Hd. unfold syscall_dispatch. rewrite Hnr. cbn [SYS_EXIT SYS_SERIAL_WRITE Z.eqb].
  assert (negb (c_rdi c =? 0) && (c_rsi c <? 4096) = false) as ->.
  { destruct Hbad as [->|Hb]; [done|]. decide_tests. apply andb_false_r. }
  apply handled_transmits. apply returns_ret. by rewrite app_nil_r.
Qed.

(** ** Through the interrupt path *)

(** A table in which [init] has installed the handler. *)
Definition installed (t : Tables D) : Prop :=
  exists t0, zlen (ISR_CTX_HANDLERS t0) = IDT_ENTRIES /\ zlen (ISR_HANDLERS t0) = IDT_ENTRIES /\
    register_ctx_handler 0x80 dispatch t0 = Ret t.

Lemma int80 t clobbered cpu d c' s : installed t ->
  handled (dispatch (ctx_of_cpu 0x80 0 cpu) d) c' s d ->
  exists cpu' d', interrupt t 0x80 None clobbered cpu d = Ret (cpu', d') /\ resumes c' cpu' /\
    ready d' /\ uart_sent d' = uart_sent d ++ s.
Proof.
  intros (t0 & Hl1 & Hl2 & Hreg) ([c d'] & Hh & -> & Hr & Hs).
  pose proof (interrupt_context t 0x80 None clobbered cpu d eq_refl) as Hi.
  pose proof (dispatch_to t0 0x80 dispatch (ctx_of_cpu 0x80 0 cpu) d Hl1 Hl2) as Hd.
  destruct Hd as (t1 & Ht1 & Hd); [unfold IDT_ENTRIES; lia | simpl; lia |].
  assert (t1 = t) as -> by congruence. cbn [default] in Hi.
  change (c_vector (ctx_of_cpu 0x80 0 cpu)) with 0x80 in Hd. rewrite Z.eqb_refl in Hd.
  rewrite Hd, Hh in Hi. destruct Hi as (cpu' & Hi & Hres). by exists cpu', d'.
Qed.
End spec.

(** * Theorems *)

(** Execution continues where it was interrupted, with [v] in rax. *)
Definition continues (cpu : Cpu) (v : Z) (cpu' : Cpu) : Prop :=
  (forall r, gpr cpu' r = if decide (r = RAX) then v else gpr cpu r) /\
  rip cpu' = rip cpu /\ cs cpu' = cs cpu /\ rflags cpu' = rflags cpu /\ rsp cpu' = rsp cpu /\ ss cpu' = ss cpu.

Lemma with_rax_continues cpu v cpu' : resumes (with_rax v (ctx_of_cpu 0x80 0 cpu)) cpu' -> continues cpu v cpu'.
Proof.
  intros (Hr & H1 & H2 & H3 & H4 & H5). split; [|by rewrite H1, H2, H3, H4, H5].
  intros r. rewrite Hr. by destruct r.
Qed.

(** Execution continues in the kernel at [entry] on the stack [top]; the
    general registers are kept. *)
Definition leaves_for (entry top : Z) (cpu cpu' : Cpu) : Prop :=
  (forall r, gpr cpu' r = gpr cpu r) /\ rip cpu' = entry /\ cs cpu' = 0x08 /\ rflags cpu' = 0x202 /\
  rsp cpu' = top /\ ss cpu' = 0x10.

(** What the interface promises: the processor after the call and the console
    output. *)
Inductive sys_effect (ram : Z -> option Z) (trampoline top : Z) (cpu : Cpu) : Cpu -> list Z -> Prop :=
  | effect_exit cpu' num : gpr cpu RAX = SYS_EXIT -> leaves_for trampoline top cpu cpu' ->
      is_decimal (gpr cpu RDI) num ->
      sys_effect ram trampoline top cpu cpu' (text "syscall: exit(" ++ num ++ text ")" ++ newline)
  | effect_write cpu' bs : gpr cpu RAX = SYS_SERIAL_WRITE -> gpr cpu RDI <> 0 -> gpr cpu RSI = zlen bs ->
      zlen bs < 4096 -> mapped_bytes ram (gpr cpu RDI) bs -> continues cpu 0 cpu' ->
      sys_effect ram trampoline top cpu cpu' bs
  | effect_refused cpu' : gpr cpu RAX = SYS_SERIAL_WRITE -> gpr cpu RDI = 0 \/ 4096 <= gpr cpu RSI ->
      continues cpu 0 cpu' -> sys_effect ram trampoline top cpu cpu' []
  | effect_unknown cpu' num : gpr cpu RAX <> SYS_EXIT -> gpr cpu RAX <> SYS_SERIAL_WRITE ->
      continues cpu U64_MAX cpu' -> is_decimal (gpr cpu RAX) num ->
      sys_effect ram trampoline top cpu cpu' (text "syscall: unknown nr=" ++ num ++ newline).

(** C21: [int 0x80] end to end, through stub, dispatcher, handler and return,
    has the effect the interface promises: SYS_SERIAL_WRITE transmits exactly the bytes
    at the caller's pointer and continues with rax = 0 (nothing is transmitted for a null
    pointer or a length of 4096 and more); SYS_EXIT reports the code and continues at the kernel's
    trampoline in ring 0; an unknown number is reported and answered with all ones.  The
    pointer is not checked further: the bytes may lie anywhere in mapped memory, the kernel's
    included. *)
Theorem syscalls {D} `{Uart D} fuel ram trampoline return_stack t clobbered (cpu : Cpu) (d : D) :
  (uart_polls < fuel)%nat -> installed fuel ram trampoline return_stack t -> ready d ->
  (forall r, in_word 64 (gpr cpu r)) ->
  (gpr cpu RAX = SYS_SERIAL_WRITE -> gpr cpu RDI <> 0 -> gpr cpu RSI < 4096 ->
    exists bs, zlen bs = gpr cpu RSI /\ mapped_bytes ram (gpr cpu RDI) bs) ->
  exists cpu' d' s, interrupt t 0x80 None clobbered cpu d = Ret (cpu', d') /\
    ready d' /\ uart_sent d' = uart_sent d ++ s /\
    sys_effect ram trampoline (return_stack ⊞ 0x2000) cpu cpu' s.
Proof.
  intros Hfuel Hinst Hd Hw Hm. set (c := ctx_of_cpu 0x80 0 cpu).
  destruct (decide (gpr cpu RAX = SYS_EXIT)) as [Hx|Hx];
    [|destruct (decide (gpr cpu RAX = SYS_SERIAL_WRITE)) as [Hs|Hs];
      [destruct (decide (gpr cpu RDI = 0 \/ 4096 <= gpr cpu RSI)) as [Hbad|Hgood]|]].
  - destruct (exit_spec fuel Hfuel ram trampoline return_stack c d Hx (Hw RDI) Hd) as (num & Hnum & Hh).
    destruct (int80 fuel Hfuel ram trampoline return_stack t clobbered cpu d _ _ Hinst Hh)
      as (cpu' & d' & Hi & (Hr & H1 & H2 & H3 & H4 & H5) & Hr' & Hs').
    do 3 eexists. split; [exact Hi|]. split; [done|]. split; [exact Hs'|].
    apply effect_exit; [done | | done]. split; [|done]. intros r. rewrite Hr. by destruct r.
  - destruct (int80 fuel Hfuel ram trampoline return_stack t clobbered cpu d _ _ Hinst
      (write_refused fuel Hfuel ram trampoline return_stack c d Hs Hbad Hd)) as (cpu' & d' & Hi & Hr & Hr' & Hs').
    do 3 eexists. split; [exact Hi|]. split; [done|]. split; [exact Hs'|].
    apply effect_refused; [done | done | by apply with_rax_continues].
  - destruct Hm as (bs & Hl & Hm); [done | lia | lia|]. pose proof (Hw RDI) as [Hp _].
    destruct (int80 fuel Hfuel ram trampoline return_stack t clobbered cpu d _ _ Hinst
      (write_spec fuel Hfuel ram trampoline return_stack c d bs Hs ltac:(simpl; lia) (eq_sym Hl) ltac:(lia) Hm Hd))
      as (cpu' & d' & Hi & Hr & Hr' & Hs').
    do 3 eexists. split; [exact Hi|]. split; [done|]. split; [exact Hs'|].
    apply effect_write; [done | lia | done | lia | done | by apply with_rax_continues].
  - destruct (unknown_spec fuel Hfuel ram trampoline return_stack c d Hx Hs (Hw RAX) Hd) as (num & Hnum & Hh).
    destruct (int80 fuel Hfuel ram trampoline return_stack t clobbered cpu d _ _ Hinst Hh)
      as (cpu' & d' & Hi & Hr & Hr' & Hs').
    do 3 eexists. split; [exact Hi|]. split; [done|]. split; [exact Hs'|].
    apply effect_unknown; [done | done | by apply with_rax_continues | done].
Qed.

(** Memory with two bytes at a kernel address. *)
Definition demo_ram (a : Z) : option Z :=
  if a =? 0xFFFF800000001000 then Some 104 else if a =? 0xFFFF800000001001 then Some 105 else None.

Definition demo_cpu : Cpu :=
  mkCpu (fun r => match r with RAX => 1 | RDI => 0xFFFF800000001000 | RSI => 2 | _ => 7 end)
    0x400000 0x23 0x202 0x7000 0x1B.

Lemma demo_table ram : exists t, installed (D:=Uart16550) 3 ram 0x1000 0x2000 t.
Proof.
  destruct (dispatch_to no_handlers 0x80 (syscall_dispatch (D:=Uart16550) 3 ram 0x1000 0x2000)
    (ctx_of_cpu 0x80 0 demo_cpu) (mkUart [] 0 false)) as (t & Ht & _).
  - reflexivity.
  - reflexivity.
  - unfold IDT_ENTRIES. lia.
  - simpl. lia.
  - exists t, no_handlers. split; [reflexivity|]. split; [reflexivity | exact Ht].
Qed.

(** User code prints kernel memory. *)
Lemma syscalls_witness : exists (t : Tables Uart16550) cpu' d',
  interrupt t 0x80 None (fun _ => 0) demo_cpu (mkUart [] 0 false) = Ret (cpu', d') /\
  u_sent d' = [104; 105] /\ gpr cpu' RAX = 0 /\ cs cpu' = 0x23.
Proof.
  destruct (demo_table demo_ram) as [t Ht]. exists t.
  destruct (@syscalls _ _ uart_laws 3 demo_ram 0x1000 0x2000 t (fun _ => 0) demo_cpu (mkUart [] 0 false))
    as (cpu' & d' & s & Hi & _ & Hs & Heff).
  - simpl. lia.
  - exact Ht.
  - split; [done | simpl; lia].
  - intros []; unfold in_word; simpl; lia.
  - intros _ _ _. exists [104; 105]. split; [done|]. split; [simpl; lia|]. split; [unfold zlen; simpl; lia|].
    intros i Hi. unfold zlen in Hi. simpl in Hi. assert (i = 0 \/ i = 1) as [-> | ->] by lia; reflexivity.
  - exists cpu', d'. split; [exact Hi|]. assert (u_sent d' = s) as -> by exact Hs. clear Hs Hi.
    assert (forall i, 0 <= i < 2 -> demo_ram (0xFFFF800000001000 + i) = zget [104; 105] i) as Hram.
    { intros i Hi. assert (i = 0 \/ i = 1) as [-> | ->] by lia; reflexivity. }
    inversion Heff as [c num Hx|c bs Hx Hp Hl Hlen Hm (Hr & _ & Hcs & _) |c Hx Hbad|c num Hx Hx' Hc Hn]; subst.
    + discriminate Hx.
    + split; [|split; [by rewrite Hr | exact Hcs]]. simpl.
      destruct Hm as (_ & _ & Hm). simpl in Hl. apply zget_ext; [done|].
      intros i Hi. rewrite <- Hm by lia. apply Hram. lia.
    + simpl in Hbad. lia.
    + by destruct Hx'.
Defined.
