(* ===== verification/Gfx.v ===== *)
(** The frame buffer and the text font, [src/kern/gfx].  Module [Vesa] is
    [vesa.rs]: pixels in a linear frame buffer, whose memory is a list of bytes;
    a store outside it is [UndefinedBehaviour].  Module [Psf] is [psf.rs]:
    the PSF1 font parser and the text drawing routines.  A [&str] is the list
    of its characters. *)
From S2P Require Import Prelude Word.

Module Vesa.
(** [ptr] is not kept: the memory it points to is passed along. *)
Record Framebuffer := mkFramebuffer {
  width : Z;
  height : Z;
  pitch : Z;
  bpp : Z;
}.

(** [*self.ptr.add(off) = v] *)
Definition store (mem : list Z) (off v : Z) : outcome (list Z) :=
  if (0 <=? off) && (off <? zlen mem) then Ret (zset mem off v) else Crash UndefinedBehaviour.

Definition put_pixel (self : Framebuffer) (x y r g b : Z) (mem : list Z) : outcome (list Z) :=
  if (width self <=? x) || (height self <=? y) then Ret mem
  else
    let off := (y ⊠ pitch self) ⊞ (x ⊠ bpp self) in
    mem ← store mem off b;
    mem ← store mem (off ⊞ 1) g;
    mem ← store mem (off ⊞ 2) r;
    if 4 <=? bpp self then store mem (off ⊞ 3) 0xFF else Ret mem.

Definition fill_rect (self : Framebuffer) (x0 y0 w h r g b : Z) (mem : list Z) : outcome (list Z) :=
  for_range (fun y => for_range (fun x => put_pixel self x y r g b) x0 (x0 ⊞ w)) y0 (y0 ⊞ h) mem.

Definition clear (self : Framebuffer) (r g b : Z) (mem : list Z) : outcome (list Z) :=
  fill_rect self 0 0 (width self) (height self) r g b mem.

(** ** Pictures *)

(** A frame buffer as the boot loader describes it: lines do not overlap, a
    pixel has room for three bytes. *)
Record wf (fb : Framebuffer) (mem : list Z) : Prop := {
  wf_width : 0 <= width fb;
  wf_height : 0 <= height fb;
  wf_bpp : 3 <= bpp fb;
  wf_line : width fb * bpp fb <= pitch fb;
  wf_mem : height fb * pitch fb <= zlen mem;
  wf_small : zlen mem < 2 ^ 63;
}.

Definition offset (fb : Framebuffer) (x y : Z) : Z := y * pitch fb + x * bpp fb.

Definition on_screen (fb : Framebuffer) (x y : Z) : Prop :=
  0 <= x < width fb /\ 0 <= y < height fb.

(** The bytes of a pixel: blue, green, red. *)
Definition pixel (fb : Framebuffer) (mem : list Z) (x y : Z) : list Z := sub mem (offset fb x y) 3.

(** [mem'] is [mem] with the pixels given by [u] set; bytes that belong to no
    pixel are as before. *)
Record paints (fb : Framebuffer) (mem : list Z) (u : Z -> Z -> option (list Z)) (mem' : list Z) : Prop := {
  paints_len : zlen mem' = zlen mem;
  paints_pixel x y : on_screen fb x y ->
    pixel fb mem' x y = default (pixel fb mem x y) (u x y);
  paints_rest i : 0 <= i ->
    (forall x y, on_screen fb x y -> ~ offset fb x y <= i < offset fb x y + bpp fb) ->
    zget mem' i = zget mem i;
}.

(** Painting [u2] after [u1]. *)
Definition over (u2 u1 : Z -> Z -> option (list Z)) (x y : Z) : option (list Z) :=
  match u2 x y with Some c => Some c | None => u1 x y end.

Lemma paints_refl fb mem u : (forall x y, on_screen fb x y -> u x y = None) -> paints fb mem u mem.
Proof. intros Hu. split; [done | | done]. intros x y Hxy. by rewrite Hu. Qed.

Lemma paints_trans fb m1 m2 m3 u1 u2 :
  paints fb m1 u1 m2 -> paints fb m2 u2 m3 -> paints fb m1 (over u2 u1) m3.
Proof.
  intros [L1 P1 R1] [L2 P2 R2]. split.
  - congruence.
  - intros x y Hxy. rewrite P2, P1 by done. unfold over. by destruct (u2 x y).
  - intros i Hi Hout. by rewrite R2, R1.
Qed.

Lemma paints_ext fb m m' u u' :
  (forall x y, on_screen fb x y -> u x y = u' x y) -> paints fb m u m' -> paints fb m u' m'.
Proof. intros Hu [L P R]. split; [done | | done]. intros x y Hxy. by rewrite <- Hu, P. Qed.

Lemma paints_wf fb m u m' : paints fb m u m' -> wf fb m -> wf fb m'.
Proof. intros [L _ _] [? ? ? ? ? ?]. split; try done; by rewrite L. Qed.

(** A pixel lies in the memory. *)
Lemma offset_range fb mem x y : wf fb mem -> on_screen fb x y ->
  0 <= y * pitch fb < 2 ^ 63 /\ 0 <= x * bpp fb < 2 ^ 63 /\
  0 <= offset fb x y /\ offset fb x y + bpp fb <= zlen mem.
Proof. intros [] [Hx Hy]. unfold offset. nia. Qed.

(** Different pixels share no byte. *)
Lemma offset_disjoint fb mem x y x' y' : wf fb mem -> on_screen fb x y -> on_screen fb x' y' ->
  x <> x' \/ y <> y' ->
  offset fb x y + bpp fb <= offset fb x' y' \/ offset fb x' y' + bpp fb <= offset fb x y.
Proof.
  intros [] [Hx Hy] [Hx' Hy'] Hne. unfold offset.
  destruct (Z.lt_total y y') as [?|[->|?]]; [left; nia | | right; nia].
  destruct (Z.lt_total x x') as [?|[->|?]]; [left; nia | lia | right; nia].
Qed.

Lemma store_ok mem off v : 0 <= off < zlen mem -> store mem off v = Ret (zset mem off v).
Proof. intros Hoff. unfold store. by decide_tests. Qed.

(** The only bytes that change are the pixel's own. *)
Lemma put_pixel_bytes fb x y r g b mem : wf fb mem -> on_screen fb x y ->
  returns (put_pixel fb x y r g b mem) (fun mem' => zlen mem' = zlen mem /\
    pixel fb mem' x y = [b; g; r] /\
    forall i, ~ offset fb x y <= i < offset fb x y + bpp fb -> zget mem' i = zget mem i).
Proof.
  intros Hwf Hs. destruct (offset_range fb mem x y Hwf Hs) as (Hy & Hx & Hlo & Hhi).
  destruct Hs as [[Hx1 Hx2] [Hy1 Hy2]]. destruct Hwf as [_ _ Hbpp _ _ Hsm].
  unfold put_pixel. decide_tests. cbn [orb].
  assert ((y ⊠ pitch fb) ⊞ (x ⊠ bpp fb) = offset fb x y) as ->.
  { rewrite !wmul_small by (unfold in_word; lia). apply wadd_small. unfold in_word, offset in *. lia. }
  set (o := offset fb x y) in *. rewrite !(wadd_small 64 o) by (unfold in_word; lia).
  rewrite store_ok, bind_ret by lia. rewrite store_ok, bind_ret by (rewrite zlen_zset; lia).
  rewrite store_ok, bind_ret by (rewrite !zlen_zset; lia).
  set (m := zset (zset (zset mem o b) (o + 1) g) (o + 2) r).
  assert (zlen m = zlen mem) as Hm by (unfold m; by rewrite !zlen_zset).
  assert (forall m', zlen m' = zlen mem ->
    (forall i, ~ o + 3 <= i < o + bpp fb -> zget m' i = zget m i) ->
    zlen m' = zlen mem /\ pixel fb m' x y = [b; g; r] /\
    forall i, ~ o <= i < o + bpp fb -> zget m' i = zget mem i) as Hfin.
  { intros m' Hl He. split; [done|]. split.
    - unfold pixel. fold o. apply zget_ext; [rewrite sub_len by lia; done|].
      rewrite sub_len by lia. intros i Hi. rewrite zget_sub, He by lia. unfold m.
      assert (i = 0 \/ i = 1 \/ i = 2) as [->|[->| ->]] by lia.
      + rewrite Z.add_0_r, !(zget_zset_ne _ _ o) by lia. rewrite zget_zset_eq by lia. done.
      + rewrite (zget_zset_ne _ (o + 2)) by lia.
        rewrite zget_zset_eq by (rewrite zlen_zset; lia). done.
      + rewrite zget_zset_eq by (rewrite !zlen_zset; lia). done.
    - intros i Hi. rewrite He by lia. unfold m. by rewrite !zget_zset_ne by lia. }
  case_ltb.
  - rewrite store_ok by lia. apply returns_ret, Hfin; [by rewrite zlen_zset|].
    intros i Hi. apply zget_zset_ne. lia.
  - by apply returns_ret, Hfin.
Qed.

Definition dot (x y : Z) (c : list Z) (x' y' : Z) : option (list Z) :=
  if (x' =? x) && (y' =? y) then Some c else None.

Lemma put_pixel_spec fb x y r g b mem : wf fb mem -> 0 <= x -> 0 <= y ->
  returns (put_pixel fb x y r g b mem) (paints fb mem (dot x y [b; g; r])).
Proof.
  intros Hwf Hx Hy.
  destruct (decide (x < width fb /\ y < height fb)) as [[Hxw Hyh]|Hout].
  - assert (on_screen fb x y) as Hs by done.
    eapply returns_mono; [by apply put_pixel_bytes|]. intros mem' (Hl & Hp & Hr).
    destruct (offset_range fb mem x y Hwf Hs) as (_ & _ & Hlo & Hhi). pose proof (wf_bpp _ _ Hwf).
    split; [done | |].
    + intros x' y' Hs'. unfold dot.
      destruct (decide (x' = x /\ y' = y)) as [[-> ->]|Hne]; [by rewrite !Z.eqb_refl|].
      assert (x <> x' \/ y <> y') as Hd by lia.
      destruct (offset_range fb mem x' y' Hwf Hs') as (_ & _ & Hlo' & Hhi').
      pose proof (offset_disjoint fb mem x y x' y' Hwf Hs Hs' Hd) as Hdis.
      replace ((x' =? x) && (y' =? y)) with false by (symmetry; apply andb_false_iff; rewrite !Z.eqb_neq; lia).
      simpl. unfold pixel. apply zget_ext; [rewrite !sub_len by lia; done|].
      rewrite sub_len by lia. intros i Hi. rewrite !zget_sub by lia. apply Hr. lia.
    + intros i Hi Hno. apply Hr. by apply Hno.
  - unfold put_pixel.
    replace ((width fb <=? x) || (height fb <=? y)) with true
      by (symmetry; apply orb_true_iff; rewrite !Z.leb_le; lia).
    apply returns_ret, paints_refl. intros x' y' [Hx' Hy']. unfold dot.
    by replace ((x' =? x) && (y' =? y)) with false by (symmetry; apply andb_false_iff; rewrite !Z.eqb_neq; lia).
Qed.

(** A loop whose rounds paint paints what its rounds paint, later rounds over
    earlier ones. *)
Lemma for_range_paints fb (body : Z -> list Z -> outcome (list Z)) (u : Z -> Z -> Z -> option (list Z))
    (U : Z -> Z -> Z -> option (list Z)) lo hi mem :
  lo <= hi -> wf fb mem ->
  (forall i m, lo <= i < hi -> wf fb m -> returns (body i m) (paints fb m (u i))) ->
  (forall x y, on_screen fb x y -> U lo x y = None) ->
  (forall i x y, lo <= i < hi -> on_screen fb x y -> U (i + 1) x y = over (u i) (U i) x y) ->
  returns (for_range body lo hi mem) (paints fb mem (U hi)).
Proof.
  intros Hle Hwf Hbody H0 Hstep.
  apply (for_range_inv body (fun i m => paints fb mem (U i) m)); [done | by apply paints_refl |].
  intros i m Hi Hm. eapply returns_mono; [apply Hbody; [done | by eapply paints_wf]|].
  intros m' Hm'. eapply paints_ext; [|by eapply paints_trans].
  intros x y Hxy. symmetry. by apply Hstep.
Qed.

(** The rectangle [x0 .. x0 + w) × [y0 .. y0 + h) in one colour. *)
Definition rect (x0 y0 w h : Z) (c : list Z) (x y : Z) : option (list Z) :=
  if (x0 <=? x) && (x <? x0 + w) && (y0 <=? y) && (y <? y0 + h) then Some c else None.

Lemma fill_rect_paints fb x0 y0 w h r g b mem : wf fb mem ->
  0 <= x0 -> 0 <= w -> x0 + w < 2 ^ 64 -> 0 <= y0 -> 0 <= h -> y0 + h < 2 ^ 64 ->
  returns (fill_rect fb x0 y0 w h r g b mem) (paints fb mem (rect x0 y0 w h [b; g; r])).
Proof.
  intros Hwf Hx0 Hw Hxw Hy0 Hh Hyh. unfold fill_rect.
  rewrite (wadd_small 64 x0), (wadd_small 64 y0) by (unfold in_word; lia).
  eapply returns_mono; [apply (for_range_paints fb _ (fun y => rect x0 y w 1 [b; g; r])
    (fun y => rect x0 y0 w (y - y0) [b; g; r])); [lia | done | | |]|].
  - intros y m Hy Hm.
    eapply returns_mono; [apply (for_range_paints fb _ (fun x => dot x y [b; g; r])
      (fun x => rect x0 y (x - x0) 1 [b; g; r])); [lia | done | | |]|].
    + intros x m' Hx Hm'. apply put_pixel_spec; [done | lia..].
    + intros x' y' _. unfold rect. case_match; [lia | done].
    + intros i x' y' Hi _. unfold over, rect, dot. repeat case_match; try done; lia.
    + intros m' Hp. by replace (x0 + w - x0) with w in Hp by lia.
  - intros x' y' _. unfold rect. case_match; [lia | done].
  - intros i x' y' Hi _. unfold over, rect. repeat case_match; try done; lia.
  - intros m' Hp. by replace (y0 + h - y0) with h in Hp by lia.
Qed.

(** C39: filling a rectangle sets exactly the pixels of the rectangle that are on the
    screen to the colour, touches no other pixel and no byte outside the pixels, and
    never stores outside the frame buffer, wherever the rectangle lies. *)
Theorem fill_rect_spec fb x0 y0 w h r g b mem : wf fb mem ->
  0 <= x0 -> 0 <= w -> x0 + w < 2 ^ 64 -> 0 <= y0 -> 0 <= h -> y0 + h < 2 ^ 64 ->
  exists mem', fill_rect fb x0 y0 w h r g b mem = Ret mem' /\
    paints fb mem (rect x0 y0 w h [b; g; r]) mem'.
Proof. apply fill_rect_paints. Qed.

(** [clear] gives every pixel of the screen the colour and leaves the bytes between
    the lines alone. *)
Theorem clear_spec fb r g b mem : wf fb mem -> width fb < 2 ^ 64 -> height fb < 2 ^ 64 ->
  exists mem', clear fb r g b mem = Ret mem' /\ zlen mem' = zlen mem /\
    (forall x y, on_screen fb x y -> pixel fb mem' x y = [b; g; r]) /\
    (forall y i, 0 <= y < height fb -> width fb * bpp fb <= i < pitch fb ->
       zget mem' (y * pitch fb + i) = zget mem (y * pitch fb + i)).
Proof.
  intros Hwf Hw Hh. pose proof Hwf as [? ? ? ? ? ?].
  destruct (fill_rect_paints fb 0 0 (width fb) (height fb) r g b mem) as (mem' & He & [Hl Hp Hr]);
    [done | lia..|].
  exists mem'. split; [exact He|]. split; [done|]. split.
  - intros x y [Hx Hy]. rewrite Hp by done. unfold rect. by decide_tests.
  - intros y i Hy Hi. apply Hr; [nia|]. intros x' y' [Hx' Hy'] Hin. unfold offset in Hin.
    destruct (Z.lt_total y y') as [?|[->|?]]; nia.
Qed.
End Vesa.

Module Psf.
Import Vesa.

Definition PSF1_MAGIC : list Z := [0x36; 0x04].
Definition MAX_UNICODE_MAPPINGS : Z := 512.

(** * The character map *)

Record UnicodeMap := mkUnicodeMap {
  entries : list (Z * Z);
  len : Z;
}.

Definition map_new : UnicodeMap :=
  mkUnicodeMap (replicate (Z.to_nat MAX_UNICODE_MAPPINGS) (0, 0)) 0.

Definition insert (self : UnicodeMap) (codepoint glyph : Z) : outcome UnicodeMap :=
  if len self <? MAX_UNICODE_MAPPINGS then
    entries' ← arr_set (entries self) (len self) (codepoint, glyph);
    Ret (mkUnicodeMap entries' (len self ⊞ 1))
  else Ret self.

(** [for i in 0..self.len] with the early return; [n] rounds are left. *)
Fixpoint lookup_from (self : UnicodeMap) (codepoint i : Z) (n : nat) : outcome (option Z) :=
  match n with
  | O => Ret None
  | S n' =>
      e ← arr_get (entries self) i;
      if e.1 =? codepoint then e ← arr_get (entries self) i; Ret (Some e.2)
      else lookup_from self codepoint (i + 1) n'
  end.

Definition lookup (self : UnicodeMap) (codepoint : Z) : outcome (option Z) :=
  lookup_from self codepoint 0 (Z.to_nat (len self)).

(** * The font *)

Record PsfFont := mkPsfFont {
  glyphs : list Z;
  charsize : Z;
  f_width : Z;
  f_height : Z;
  num_glyphs : Z;
  unicode_map : UnicodeMap;
}.

(** The loop over the table; [fuel] bounds its rounds. *)
Fixpoint read_table (fuel : nat) (table : list Z) (num_glyphs off glyph_idx : Z) (um : UnicodeMap) :
    outcome UnicodeMap :=
  match fuel with
  | O => Crash OutOfFuel
  | S fuel' =>
      if (off ⊞ 1 <? zlen table) && (glyph_idx <? num_glyphs) then
        lo ← arr_get table off;
        hi ← arr_get table (off ⊞ 1);
        let v := Z.lor lo (wshl 16 hi 8) in
        let off := off ⊞ 2 in
        if v =? 0xFFFF then read_table fuel' table num_glyphs off (wadd 16 glyph_idx 1) um
        else if v =? 0xFFFE then read_table fuel' table num_glyphs off glyph_idx um
        else um ← insert um v glyph_idx; read_table fuel' table num_glyphs off glyph_idx um
      else Ret um
  end.

Definition parse (data : list Z) : outcome (option PsfFont) :=
  if zlen data <? 4 then Ret None else
  d0 ← arr_get data 0; m0 ← arr_get PSF1_MAGIC 0;
  if negb (d0 =? m0) then Ret None else
  d1 ← arr_get data 1; m1 ← arr_get PSF1_MAGIC 1;
  if negb (d1 =? m1) then Ret None else
  mode ← arr_get data 2;
  charsize ← arr_get data 3;
  let num_glyphs := if negb (Z.land mode 0x01 =? 0) then 512 else 256 in
  let glyph_data_len := num_glyphs ⊠ charsize in
  if zlen data <? 4 ⊞ glyph_data_len then Ret None else
  um ← (if negb (Z.land mode 0x02 =? 0) then
          table ← slice data (4 ⊞ glyph_data_len) (zlen data);
          read_table (S (length table)) table num_glyphs 0 0 map_new
        else Ret map_new);
  glyphs ← slice data 4 (4 ⊞ glyph_data_len);
  Ret (Some (mkPsfFont glyphs charsize 8 charsize num_glyphs um)).

Definition glyph_index (self : PsfFont) (codepoint : Z) : outcome Z :=
  if (codepoint <? 0x80) && (codepoint <? num_glyphs self) then Ret codepoint
  else
    r ← lookup (unicode_map self) (wrap 16 codepoint);
    match r with
    | Some idx => Ret idx
    | None => Ret 63
    end.

Definition draw_char (self : PsfFont) (fb : Framebuffer) (x y codepoint fg bg : Z) (mem : list Z) :
    outcome (list Z) :=
  idx ← glyph_index self codepoint;
  if num_glyphs self <=? idx then Ret mem else
  glyph ← slice (glyphs self) (idx ⊠ charsize self) ((idx ⊞ 1) ⊠ charsize self);
  let fg_r := wrap 8 (Z.land (wshr 32 fg 16) 0xFF) in
  let fg_g := wrap 8 (Z.land (wshr 32 fg 8) 0xFF) in
  let fg_b := wrap 8 (Z.land fg 0xFF) in
  let bg_r := wrap 8 (Z.land (wshr 32 bg 16) 0xFF) in
  let bg_g := wrap 8 (Z.land (wshr 32 bg 8) 0xFF) in
  let bg_b := wrap 8 (Z.land bg 0xFF) in
  for_range (fun row mem =>
    bits ← arr_get glyph row;
    for_range (fun col mem =>
      if negb (Z.land bits (wshr 8 0x80 col) =? 0)
      then put_pixel fb (x ⊞ col) (y ⊞ row) fg_r fg_g fg_b mem
      else put_pixel fb (x ⊞ col) (y ⊞ row) bg_r bg_g bg_b mem) 0 (f_width self) mem)
    0 (f_height self) mem.

Fixpoint draw_chars (self : PsfFont) (fb : Framebuffer) (x cx cy : Z) (s : list Z) (fg bg : Z)
    (mem : list Z) : outcome (list Z) :=
  match s with
  | [] => Ret mem
  | ch :: s =>
      if ch =? 10 then draw_chars self fb x x (cy ⊞ f_height self) s fg bg mem
      else
        let '(cx, cy) := if width fb <? cx ⊞ f_width self then (x, cy ⊞ f_height self) else (cx, cy) in
        if height fb <? cy ⊞ f_height self then Ret mem
        else
          mem ← draw_char self fb cx cy ch fg bg mem;
          draw_chars self fb x (cx ⊞ f_width self) cy s fg bg mem
  end.

Definition draw_str (self : PsfFont) (fb : Framebuffer) (x y : Z) (s : list Z) (fg bg : Z)
    (mem : list Z) : outcome (list Z) :=
  draw_chars self fb x x y s fg bg mem.

(** * The map as a list of pairs *)

Record map_wf (m : UnicodeMap) : Prop := {
  mw_entries : zlen (entries m) = MAX_UNICODE_MAPPINGS;
  mw_len : 0 <= len m <= MAX_UNICODE_MAPPINGS;
}.

(** The pairs inserted so far. *)
Definition mappings (m : UnicodeMap) : list (Z * Z) := take (Z.to_nat (len m)) (entries m).

(** The first pair for a character. *)
Fixpoint assoc (l : list (Z * Z)) (c : Z) : option Z :=
  match l with
  | [] => None
  | (k, g) :: l => if k =? c then Some g else assoc l c
  end.

Lemma map_new_wf : map_wf map_new /\ mappings map_new = [].
Proof. split; [by split|]. done. Qed.

Lemma insert_mappings m c g : map_wf m ->
  returns (insert m c g) (fun m' => map_wf m' /\
    mappings m' = take (Z.to_nat MAX_UNICODE_MAPPINGS) (mappings m ++ [(c, g)])).
Proof.
  intros [He Hl]. unfold insert, MAX_UNICODE_MAPPINGS in *.
  assert (length (entries m) = 512)%nat as Hen by (unfold zlen in He; lia).
  assert (length (mappings m) = Z.to_nat (len m)) as Hml by (unfold mappings; rewrite length_take; lia).
  case_ltb.
  - rewrite arr_set_ok, bind_ret by lia. rewrite (wadd_small 64 (len m)) by (unfold in_word; lia).
    apply returns_ret. split; [split; cbn [entries len]; [by rewrite zlen_zset | unfold MAX_UNICODE_MAPPINGS; lia]|].
    rewrite (take_ge (mappings m ++ _)) by (rewrite length_app; simpl; lia).
    unfold mappings, zset. cbn [entries len]. decide_tests.
    replace (Z.to_nat (len m + 1)) with (S (Z.to_nat (len m))) by lia.
    erewrite take_S_r by (apply list_lookup_insert_eq; lia).
    by rewrite take_insert_ge by lia.
  - apply returns_ret. split; [by split|].
    rewrite take_app_le, take_ge by lia. done.
Qed.

Lemma lookup_from_assoc m c i n : map_wf m -> 0 <= i -> i + Z.of_nat n = len m ->
  lookup_from m c i n = Ret (assoc (drop (Z.to_nat i) (mappings m)) c).
Proof.
  intros Hm. pose proof Hm as [He Hl]. unfold MAX_UNICODE_MAPPINGS in *. unfold zlen in He.
  revert i. induction n as [|n IH]; intros i Hi Hn; cbn [lookup_from].
  - rewrite drop_ge; [done|]. unfold mappings. rewrite length_take. lia.
  - destruct (zget_is_Some (entries m) i) as [[k g] Hk]; [unfold zlen; lia|].
    assert (mappings m !! Z.to_nat i = Some (k, g)) as Hm'.
    { unfold mappings. rewrite lookup_take_lt by lia. unfold zget in Hk.
      destruct (0 <=? i); [done | discriminate]. }
    rewrite (proj2 (arr_get_Ret _ _ _) Hk), bind_ret. simpl.
    rewrite (drop_S _ _ _ Hm'). simpl. destruct (k =? c); [done|].
    rewrite IH by lia. by replace (Z.to_nat (i + 1)) with (S (Z.to_nat i)) by lia.
Qed.

Lemma lookup_assoc m c : map_wf m -> lookup m c = Ret (assoc (mappings m) c).
Proof.
  intros Hm. unfold lookup. pose proof (mw_len m Hm).
  rewrite lookup_from_assoc by (done || lia). done.
Qed.

(** * The font file *)

(** The 16-bit words of the table; a last odd byte is dropped. *)
Fixpoint words (l : list Z) : list Z :=
  match l with
  | lo :: hi :: l => lo + 256 * hi :: words l
  | _ => []
  end.

(** The characters of glyph [g] and the following ones: 0xFFFF ends a glyph's
    list, 0xFFFE starts a sequence, whose members are taken one by one. *)
Fixpoint table_chars (n g : Z) (ws : list Z) : list (Z * Z) :=
  match ws with
  | [] => []
  | w :: ws =>
      if g <? n then
        if w =? 0xFFFF then table_chars n (g + 1) ws
        else if w =? 0xFFFE then table_chars n g ws
        else (w, g) :: table_chars n g ws
      else []
  end.

Lemma take_app_take {A} n (l1 l2 : list A) : take n (take n l1 ++ l2) = take n (l1 ++ l2).
Proof.
  destruct (decide (length l1 <= n)%nat); [by rewrite (take_ge l1) by lia|].
  rewrite !take_app_le by (rewrite ?length_take; lia). by rewrite take_take, Nat.min_id.
Qed.

Lemma table_chars_done n g ws : n <= g -> table_chars n g ws = [].
Proof. intros Hg. destruct ws; simpl; [done|]. by decide_tests. Qed.

Lemma read_table_spec fuel table n off g um : bytes_ok table -> zlen table < 2 ^ 62 ->
  0 <= off <= zlen table -> 0 <= g -> n <= 512 -> map_wf um ->
  zlen table - off < Z.of_nat fuel ->
  returns (read_table fuel table n off g um) (fun um' => map_wf um' /\
    mappings um' = take (Z.to_nat MAX_UNICODE_MAPPINGS)
      (mappings um ++ table_chars n g (words (drop (Z.to_nat off) table)))).
Proof.
  intros Hb Hlen. revert off g um.
  induction fuel as [|fuel IH]; intros off g um Hoff Hg Hn Hum Hfuel; [lia|]. cbn [read_table].
  assert (mappings um = take (Z.to_nat MAX_UNICODE_MAPPINGS) (mappings um)) as Hcap.
  { rewrite take_ge; [done|]. unfold mappings. rewrite length_take. pose proof (mw_len um Hum). lia. }
  rewrite (wadd_small 64 off 1), (wadd_small 64 off 2) by (unfold in_word; lia).
  destruct (Z.ltb_spec (off + 1) (zlen table)) as [Hin|Hend].
  2:{ apply returns_ret. split; [done|].
      assert (words (drop (Z.to_nat off) table) = []) as ->; [|by rewrite app_nil_r].
      assert (length (drop (Z.to_nat off) table) <= 1)%nat
        by (rewrite length_drop; unfold zlen in *; lia).
      by destruct (drop (Z.to_nat off) table) as [|? [|? ?]]; simpl in *; [.. | lia]. }
  destruct (Z.ltb_spec g n) as [Hgn|Hge]; cbn [andb].
  2:{ apply returns_ret. by rewrite table_chars_done, app_nil_r. }
  destruct (zget_is_Some table off) as [lo Hlo]; [lia|].
  destruct (zget_is_Some table (off + 1)) as [hi Hhi]; [lia|].
  rewrite (proj2 (arr_get_Ret _ _ _) Hlo), bind_ret, (proj2 (arr_get_Ret _ _ _) Hhi), bind_ret.
  pose proof (Forall_zget _ _ _ _ Hb Hlo) as Blo. pose proof (Forall_zget _ _ _ _ Hb Hhi) as Bhi.
  assert (drop (Z.to_nat off) table = lo :: hi :: drop (Z.to_nat (off + 2)) table) as Hd.
  { unfold zget in Hlo, Hhi. rewrite (drop_S table lo) by (destruct (0 <=? off); done).
    replace (Z.to_nat (off + 2)) with (S (S (Z.to_nat off))) by lia. f_equal.
    apply drop_S. replace (S (Z.to_nat off)) with (Z.to_nat (off + 1)) by lia.
    destruct (0 <=? off + 1); done. }
  rewrite Hd. cbn [words table_chars]. decide_tests.
  assert (Z.lor lo (wshl 16 hi 8) = lo + 256 * hi) as ->.
  { unfold in_word in Blo, Bhi. change (2 ^ 8) with 256 in *.
    rewrite wshl_small by (unfold in_word; lia). rewrite lor_shifted by (done || lia). lia. }
  case_ltb; [|case_ltb].
  - rewrite (wadd_small 16 g) by (unfold in_word; lia). apply IH; try done; lia.
  - apply IH; try done; lia.
  - eapply returns_bind; [by apply insert_mappings|]. intros um' [Hum' Hm'].
    eapply returns_mono; [apply IH; try done; lia|]. intros um2 [Hum2 Hm2]. split; [done|].
    rewrite Hm2, Hm', take_app_take. by rewrite <- app_assoc.
Qed.

(** What drawing relies on. *)
Record font_wf (f : PsfFont) : Prop := {
  fw_charsize : 0 <= charsize f < 256;
  fw_height : f_height f = charsize f;
  fw_width : f_width f = 8;
  fw_num : num_glyphs f = 256 \/ num_glyphs f = 512;
  fw_glyphs : zlen (glyphs f) = num_glyphs f * charsize f;
  fw_bytes : bytes_ok (glyphs f);
  fw_map : map_wf (unicode_map f);
  fw_range : Forall (fun e => 0 <= e.2 < num_glyphs f) (mappings (unicode_map f));
}.

Lemma table_chars_range n g ws : 0 <= g -> Forall (fun e => 0 <= e.2 < n) (table_chars n g ws).
Proof.
  revert g. induction ws as [|w ws IH]; intros g Hg; simpl; [constructor|].
  repeat case_ltb; try (apply IH; lia); [|constructor].
  constructor; [simpl; lia | by apply IH].
Qed.

(** The parts of a PSF1 file. *)
Definition psf_num (mode : Z) : Z := if Z.testbit mode 0 then 512 else 256.

Definition psf_file (mode charsize : Z) (bitmaps table : list Z) : list Z :=
  PSF1_MAGIC ++ [mode; charsize] ++ bitmaps ++ table.

Lemma land_mode mode :
  negb (Z.land mode 0x01 =? 0) = Z.testbit mode 0 /\ negb (Z.land mode 0x02 =? 0) = Z.testbit mode 1.
Proof. split; [apply (land_bit mode 0) | apply (land_bit mode 1)]; lia. Qed.

Lemma psf_num_cases mode : psf_num mode = 256 \/ psf_num mode = 512.
Proof. unfold psf_num. destruct (Z.testbit mode 0); auto. Qed.

Lemma parse_file mode charsize bitmaps table :
  0 <= charsize < 256 -> bytes_ok bitmaps -> bytes_ok table ->
  zlen bitmaps = psf_num mode * charsize -> zlen table < 2 ^ 62 ->
  returns (parse (psf_file mode charsize bitmaps table)) (fun r => exists f, r = Some f /\
    font_wf f /\ glyphs f = bitmaps /\ num_glyphs f = psf_num mode /\
    mappings (unicode_map f) =
      if Z.testbit mode 1
      then take (Z.to_nat MAX_UNICODE_MAPPINGS) (table_chars (psf_num mode) 0 (words table)) else []).
Proof.
  intros Hcs Hbb Hbt Hlb Hlt. unfold parse. pose proof (psf_num_cases mode) as Hnum.
  set (data := psf_file _ _ _ _).
  assert (zlen data = 4 + psf_num mode * charsize + zlen table) as Hlen.
  { unfold data, psf_file, PSF1_MAGIC. rewrite !zlen_app, Hlb. change (zlen [54; 4]) with 2.
    change (zlen [mode; charsize]) with 2. lia. }
  pose proof (zlen_nonneg table).
  replace (zlen data <? 4) with false by (symmetry; apply Z.ltb_ge; nia).
  assert (arr_get data 0 = Ret 0x36 /\ arr_get data 1 = Ret 0x04 /\ arr_get data 2 = Ret mode /\
    arr_get data 3 = Ret charsize) as (-> & -> & -> & ->) by done.
  change (arr_get PSF1_MAGIC 0) with (Ret 0x36). change (arr_get PSF1_MAGIC 1) with (Ret 0x04).
  rewrite !bind_ret. change (negb (54 =? 54)) with false. change (negb (4 =? 4)) with false. cbv iota.
  destruct (land_mode mode) as [-> ->]. fold (psf_num mode).
  rewrite (wmul_small 64 (psf_num mode)) by (unfold in_word; nia).
  rewrite (wadd_small 64 4) by (unfold in_word; nia). rewrite Hlen. decide_tests.
  assert (slice data 4 (4 + psf_num mode * charsize) = Ret bitmaps) as ->.
  { apply (slice_mid data (PSF1_MAGIC ++ [mode; charsize]) bitmaps table); [done | done | by rewrite Hlb]. }
  assert (slice data (4 + psf_num mode * charsize) (4 + psf_num mode * charsize + zlen table) = Ret table) as ->.
  { apply (slice_mid data (PSF1_MAGIC ++ [mode; charsize] ++ bitmaps) table []);
      [unfold data, psf_file; by rewrite app_nil_r | | done].
    rewrite !zlen_app, Hlb. change (zlen PSF1_MAGIC) with 2. change (zlen [mode; charsize]) with 2. lia. }
  eapply returns_bind.
  { instantiate (1 := fun um => map_wf um /\ mappings um = if Z.testbit mode 1
      then take (Z.to_nat MAX_UNICODE_MAPPINGS) (table_chars (psf_num mode) 0 (words table)) else []).
    destruct map_new_wf as [Hw0 Hm0]. destruct (Z.testbit mode 1); [|by apply returns_ret].
    rewrite bind_ret. eapply returns_mono; [apply read_table_spec; try done; unfold zlen in *; lia|].
    intros um [Hw Hm]. by rewrite Hm0 in Hm. }
  intros um [Hw Hm]. rewrite bind_ret. apply returns_ret. eexists. split; [done|].
  split; [|done]. split; try done. cbn [unicode_map num_glyphs]. rewrite Hm.
  destruct (Z.testbit mode 1); [|constructor]. apply Forall_take. by apply table_chars_range.
Qed.

(** Every accepted file has that shape. *)
Lemma parse_shape data : bytes_ok data -> zlen data < 2 ^ 62 ->
  parse data = Ret None \/
  exists mode charsize bitmaps table, data = psf_file mode charsize bitmaps table /\
    0 <= charsize < 256 /\ bytes_ok bitmaps /\ bytes_ok table /\
    zlen bitmaps = psf_num mode * charsize.
Proof.
  intros Hb Hlen. destruct data as [|d0 [|d1 [|mode [|cs rest]]]]; [by left..|].
  pose proof (zlen_nonneg rest).
  assert (zlen (d0 :: d1 :: mode :: cs :: rest) = 4 + zlen rest) as Hl by (rewrite !zlen_cons; lia).
  unfold parse. rewrite Hl in *. decide_tests. cbn [arr_get zget Z.leb].
  change (arr_get (d0 :: d1 :: mode :: cs :: rest) 0) with (Ret d0).
  change (arr_get PSF1_MAGIC 0) with (Ret 0x36). rewrite !bind_ret.
  destruct (Z.eqb_spec d0 0x36) as [->|]; [|by left]. cbn [negb].
  change (arr_get (54 :: d1 :: mode :: cs :: rest) 1) with (Ret d1).
  change (arr_get PSF1_MAGIC 1) with (Ret 0x04). rewrite !bind_ret.
  destruct (Z.eqb_spec d1 0x04) as [->|]; [|by left]. cbn [negb].
  change (arr_get (54 :: 4 :: mode :: cs :: rest) 2) with (Ret mode).
  change (arr_get (54 :: 4 :: mode :: cs :: rest) 3) with (Ret cs). rewrite !bind_ret.
  destruct (land_mode mode) as [-> ->]. fold (psf_num mode).
  pose proof (psf_num_cases mode).
  do 4 (apply Forall_cons in Hb as [? Hb]). unfold in_word in *. change (2 ^ 8) with 256 in *.
  rewrite (wmul_small 64 (psf_num mode)) by (unfold in_word; nia).
  rewrite (wadd_small 64 4) by (unfold in_word; nia).
  case_ltb; [by left|]. right.
  exists mode, cs, (take (Z.to_nat (psf_num mode * cs)) rest), (drop (Z.to_nat (psf_num mode * cs)) rest).
  split; [unfold psf_file; simpl; by rewrite take_drop|]. split; [done|].
  split; [by apply Forall_take|]. split; [by apply Forall_drop|]. apply zlen_take; nia.
Qed.

(** * What a character looks like *)

(** Blue, green, red of a colour 0xRRGGBB. *)
Definition rgb (c : Z) : list Z := [c mod 256; c / 2 ^ 8 mod 256; c / 2 ^ 16 mod 256].

(** The glyph of a character: ASCII by position, others by the map, the
    question mark when the map has none. *)
Definition glyph_of (f : PsfFont) (c : Z) : Z :=
  if c <? 0x80 then c else default 63 (assoc (mappings (unicode_map f)) (c mod 2 ^ 16)).

(** The bit of glyph [g] in line [row], column [col]; bit 7 is the left one. *)
Definition glyph_bit (f : PsfFont) (g row col : Z) : bool :=
  Z.testbit (default 0 (zget (glyphs f) (g * charsize f + row))) (7 - col).

Definition char_pic (f : PsfFont) (x y c fg bg : Z) (x' y' : Z) : option (list Z) :=
  if (x <=? x') && (x' <? x + 8) && (y <=? y') && (y' <? y + f_height f)
  then Some (if glyph_bit f (glyph_of f c) (y' - y) (x' - x) then rgb fg else rgb bg) else None.

Lemma assoc_elem l c g : assoc l c = Some g -> (c, g) ∈ l.
Proof.
  induction l as [|[k v] l IH]; simpl; [done|]. case_ltb; [intros [= ->]; subst; left|].
  intros Hl. right. by apply IH.
Qed.

Lemma glyph_index_spec f c : font_wf f -> 0 <= c ->
  glyph_index f c = Ret (glyph_of f c) /\ 0 <= glyph_of f c < num_glyphs f.
Proof.
  intros Hf Hc. unfold glyph_index, glyph_of. pose proof (fw_num f Hf) as Hn.
  destruct (Z.ltb_spec c 128) as [Hlt|Hge].
  - decide_tests. simpl. split; [done | lia].
  - simpl. rewrite lookup_assoc by apply Hf. rewrite bind_ret. unfold wrap.
    destruct (assoc _ _) as [g|] eqn:Hg; simpl; [|split; [done | lia]].
    apply assoc_elem in Hg. pose proof (fw_range f Hf) as Hr. rewrite Forall_forall in Hr.
    split; [done|]. exact (Hr _ Hg).
Qed.

Lemma rgb_parts c : 0 <= c -> in_word 32 c ->
  [wrap 8 (Z.land c 0xFF); wrap 8 (Z.land (wshr 32 c 8) 0xFF); wrap 8 (Z.land (wshr 32 c 16) 0xFF)] = rgb c.
Proof.
  intros Hc Hw. unfold rgb. rewrite !wshr_div by lia. change 0xFF with (Z.ones 8).
  rewrite !Z.land_ones by lia. unfold wrap. by rewrite !Z.mod_mod by lia.
Qed.

(** The mask test of column [col]. *)
Lemma column_test b col : 0 <= col < 8 ->
  negb (Z.land b (wshr 8 0x80 col) =? 0) = Z.testbit b (7 - col).
Proof.
  intros Hcol. rewrite wshr_div by lia.
  assert (128 / 2 ^ col = 2 ^ (7 - col)) as ->; [|apply land_bit; lia].
  change 128 with (2 ^ 7). by rewrite <- Z.pow_sub_r by lia.
Qed.

(** One line of a character. *)
Lemma draw_row_paints f fb x y c fg bg row mem :
  let bits := default 0 (zget (glyphs f) (glyph_of f c * charsize f + row)) in
  wf fb mem -> 0 <= x -> x + 8 < 2 ^ 64 -> 0 <= y -> 0 <= row < f_height f -> y + row < 2 ^ 64 ->
  in_word 32 fg -> in_word 32 bg ->
  returns (for_range (fun col mem =>
      if negb (Z.land bits (wshr 8 0x80 col) =? 0)
      then put_pixel fb (x ⊞ col) (y ⊞ row) (wrap 8 (Z.land (wshr 32 fg 16) 0xFF))
        (wrap 8 (Z.land (wshr 32 fg 8) 0xFF)) (wrap 8 (Z.land fg 0xFF)) mem
      else put_pixel fb (x ⊞ col) (y ⊞ row) (wrap 8 (Z.land (wshr 32 bg 16) 0xFF))
        (wrap 8 (Z.land (wshr 32 bg 8) 0xFF)) (wrap 8 (Z.land bg 0xFF)) mem) 0 8 mem)
    (paints fb mem (fun x' y' => if y' =? y + row then char_pic f x y c fg bg x' y' else None)).
Proof.
  intros bits Hwf Hx Hx8 Hy Hr Hyr Hfg Hbg.
  pose (part col x' y' := if (x' =? x + col) && (y' =? y + row) then char_pic f x y c fg bg x' y' else None).
  eapply returns_mono; [apply (for_range_paints fb _ part
    (fun col x' y' => if (x' <? x + col) && (y' =? y + row) then char_pic f x y c fg bg x' y' else None));
    [lia | done | | |]|].
  - intros col m Hc Hm. rewrite column_test by lia.
    rewrite (wadd_small 64 x), (wadd_small 64 y) by (unfold in_word; lia).
    assert (forall x' y', part col x' y' =
      dot (x + col) (y + row) (if Z.testbit bits (7 - col) then rgb fg else rgb bg) x' y') as Hdot.
    { intros x' y'. unfold dot, part. destruct ((x' =? x + col) && (y' =? y + row)) eqn:He; [|done].
      apply andb_true_iff in He as [->%Z.eqb_eq ->%Z.eqb_eq]. unfold char_pic. decide_tests. simpl.
      unfold glyph_bit. replace (y + row - y) with row by lia. by replace (x + col - x) with col by lia. }
    pose proof (rgb_parts fg (proj1 Hfg) Hfg) as Cf. pose proof (rgb_parts bg (proj1 Hbg) Hbg) as Cb.
    destruct (Z.testbit bits (7 - col)); [rewrite <- Cf in Hdot | rewrite <- Cb in Hdot].
    all: eapply returns_mono; [apply put_pixel_spec; [done | lia..]|].
    all: intros m2; apply paints_ext; intros; by rewrite Hdot.
  - intros x' y' _. unfold char_pic. repeat case_match; try done; lia.
  - intros col x' y' Hc _. unfold over, part, char_pic. repeat case_match; try done; lia.
  - intros m2. apply paints_ext. intros x' y' _. unfold char_pic. repeat case_match; try done; lia.
Qed.

Lemma draw_char_paints f fb x y c fg bg mem : font_wf f -> wf fb mem ->
  0 <= x -> x + 8 < 2 ^ 64 -> 0 <= y -> y + f_height f < 2 ^ 64 -> 0 <= c ->
  in_word 32 fg -> in_word 32 bg ->
  returns (draw_char f fb x y c fg bg mem) (paints fb mem (char_pic f x y c fg bg)).
Proof.
  intros Hf Hwf Hx Hx8 Hy Hyh Hc Hfg Hbg. unfold draw_char.
  destruct (glyph_index_spec f c Hf Hc) as [-> Hg]. rewrite bind_ret.
  pose proof Hf as [Hcs Hh Hw Hn Hlen _ _ _]. decide_tests.
  assert (0 <= glyph_of f c * charsize f /\ (glyph_of f c + 1) * charsize f <= num_glyphs f * charsize f /\
    num_glyphs f * charsize f <= 512 * 255) as (Hg1 & Hg2 & Hg3) by nia.
  rewrite (wadd_small 64 (glyph_of f c) 1) by (unfold in_word; lia).
  rewrite (wmul_small 64 (glyph_of f c)), (wmul_small 64 (glyph_of f c + 1)) by (unfold in_word; lia).
  rewrite slice_ok, bind_ret, Hw by lia.
  eapply returns_mono; [apply (for_range_paints fb _
    (fun row x' y' => if y' =? y + row then char_pic f x y c fg bg x' y' else None)
    (fun row x' y' => if y' <? y + row then char_pic f x y c fg bg x' y' else None));
    [lia | done | | |]|].
  - intros row m Hr Hm.
    destruct (zget_is_Some (glyphs f) (glyph_of f c * charsize f + row)) as [b Hb]; [lia|].
    pose proof (draw_row_paints f fb x y c fg bg row m) as Hrow. cbv zeta in Hrow.
    rewrite Hb in Hrow. simpl in Hrow.
    rewrite (proj2 (arr_get_Ret _ row b)), bind_ret by (by rewrite zget_sub by lia).
    apply Hrow; try done; lia.
  - intros x' y' _. unfold char_pic. repeat case_match; try done; lia.
  - intros row x' y' Hr _. unfold over, char_pic. repeat case_match; try done; lia.
  - intros m2. apply paints_ext. intros x' y' _. unfold char_pic. repeat case_match; try done; lia.
Qed.

(** * Text *)

(** The cells of a text: position and character.  [W] and [H] are the screen's size,
    [h] the height of a line. *)
Fixpoint layout (W H h x cx cy : Z) (s : list Z) : list (Z * Z * Z) :=
  match s with
  | [] => []
  | ch :: s =>
      if ch =? 10 then layout W H h x x (cy + h) s
      else
        let '(cx, cy) := if W <? cx + 8 then (x, cy + h) else (cx, cy) in
        if H <? cy + h then [] else (cx, cy, ch) :: layout W H h x (cx + 8) cy s
  end.

Fixpoint text_pic (f : PsfFont) (cells : list (Z * Z * Z)) (fg bg : Z) : Z -> Z -> option (list Z) :=
  match cells with
  | [] => fun _ _ => None
  | (cx, cy, ch) :: cells => over (text_pic f cells fg bg) (char_pic f cx cy ch fg bg)
  end.

(** Every cell is on the screen and to the right of or below the cells before it. *)
Lemma layout_cell W H h x cx cy s cx' cy' ch : 0 <= h -> (cx', cy', ch) ∈ layout W H h x cx cy s ->
  (cy' = cy /\ cx <= cx' \/ cy + h <= cy') /\ cy' + h <= H /\ ch ∈ s /\
  (x + 8 <= W -> cx' + 8 <= W).
Proof.
  intros Hh. revert cx cy. induction s as [|c s IH]; intros cx cy; simpl; [by intros ?%not_elem_of_nil|].
  rewrite elem_of_cons. destruct (c =? 10).
  { intros Hin. destruct (IH _ _ Hin) as (? & ? & ? & ?). repeat split; [lia | lia | by right | done]. }
  case_ltb; (case_ltb; [by intros ?%not_elem_of_nil|]).
  all: intros [[= -> -> ->]|Hin]%elem_of_cons; [repeat split; [lia | lia | by left | lia]|].
  all: destruct (IH _ _ Hin) as (? & ? & ? & ?); repeat split; [lia | lia | by right | done].
Qed.

(** In the final picture every cell shows its character: later characters do not cover it. *)
Lemma text_pic_cell f W H x cx cy s fg bg cx' cy' ch row col : 0 <= f_height f ->
  (cx', cy', ch) ∈ layout W H (f_height f) x cx cy s -> 0 <= row < f_height f -> 0 <= col < 8 ->
  text_pic f (layout W H (f_height f) x cx cy s) fg bg (cx' + col) (cy' + row) =
  Some (if glyph_bit f (glyph_of f ch) row col then rgb fg else rgb bg).
Proof.
  intros Hh Hin Hr Hc. revert cx cy Hin. induction s as [|c s IH]; intros cx cy; simpl; [by intros ?%not_elem_of_nil|].
  destruct (c =? 10); [apply IH|].
  set (p := if W <? cx + 8 then (x, cy + f_height f) else (cx, cy)). destruct p as [cx0 cy0].
  case_ltb; [by intros ?%not_elem_of_nil|]. simpl. unfold over.
  intros [[= -> -> ->]|Hin]%elem_of_cons; [|by rewrite IH].
  destruct (text_pic _ _ _ _ _ _) as [pc|] eqn:Ht.
  - exfalso. clear IH. revert Ht.
    assert (forall cells, (forall a b k, (a, b, k) ∈ cells -> b = cy0 /\ cx0 + 8 <= a \/ cy0 + f_height f <= b) ->
      text_pic f cells fg bg (cx0 + col) (cy0 + row) = None) as Hnone.
    { induction cells as [|[[a b] k] cells IHc]; intros Hcells; [done|]. simpl. unfold over.
      rewrite IHc by (intros ? ? ? ?; eapply Hcells; by right).
      destruct (Hcells a b k) as [Hab|Hab]; [left | |]; unfold char_pic; case_match; try done; lia. }
    rewrite Hnone; [done|]. intros a b k Hk. by apply layout_cell in Hk as [? _].
  - unfold char_pic. decide_tests. simpl. replace (cy0 + row - cy0) with row by lia.
    by replace (cx0 + col - cx0) with col by lia.
Qed.

Lemma draw_chars_paints f fb x cx cy s fg bg mem : font_wf f -> wf fb mem ->
  in_word 32 fg -> in_word 32 bg -> Forall (in_word 32) s -> zlen s < 2 ^ 32 ->
  0 <= x < 2 ^ 62 -> width fb < 2 ^ 62 -> height fb < 2 ^ 62 ->
  0 <= cx < 2 ^ 62 + 8 -> 0 <= cy -> cy + zlen s * 256 < 2 ^ 63 ->
  returns (draw_chars f fb x cx cy s fg bg mem)
    (paints fb mem (text_pic f (layout (width fb) (height fb) (f_height f) x cx cy s) fg bg)).
Proof.
  intros Hf Hwf Hfg Hbg Hs Hlen Hx HW HH. pose proof Hf as [Hcs Hh Hfw _ _ _ _ _].
  revert cx cy mem Hwf Hlen. induction s as [|ch s IH]; intros cx cy mem Hwf Hlen Hcx Hcy Hcy'; simpl.
  - by apply returns_ret, paints_refl.
  - rewrite zlen_cons in *. pose proof (zlen_nonneg s). apply Forall_cons in Hs as [Hch Hs].
    rewrite !Hfw. rewrite (wadd_small 64 cx 8), !(wadd_small 64 cy) by (unfold in_word; lia).
    destruct (ch =? 10); [apply IH; try done; lia|].
    set (p := if width fb <? cx + 8 then (x, cy + f_height f) else (cx, cy)).
    assert (0 <= p.1 /\ p.1 + 8 < 2 ^ 62 + 8 /\ 0 <= p.2 <= cy + f_height f) as Hp.
    { unfold p. case_ltb; simpl; lia. }
    destruct p as [cx0 cy0]. simpl in Hp. rewrite (wadd_small 64 cy0) by (unfold in_word; lia).
    case_ltb; [by apply returns_ret, paints_refl|].
    rewrite (wadd_small 64 cx0) by (unfold in_word; lia).
    eapply returns_bind; [apply draw_char_paints; try done; first [lia | apply Hch]|].
    intros m Hm. eapply returns_mono; [apply IH; try done; [by eapply paints_wf | lia..]|].
    intros m2 Hm2. simpl. by eapply paints_trans.
Qed.

(** * Theorems *)

Lemma parse_cases data : bytes_ok data -> zlen data < 2 ^ 62 ->
  parse data = Ret None \/ exists f, parse data = Ret (Some f) /\ font_wf f.
Proof.
  intros Hb Hlen. destruct (parse_shape data Hb Hlen) as [|(mode & cs & bm & table & -> & Hcs & Hbm & Ht & Hl)];
    [by left|]. right.
  destruct (parse_file mode cs bm table) as (r & He & f & -> & Hf & _); [done..| |by exists f].
  unfold psf_file in Hlen. rewrite !zlen_app in Hlen. pose proof (zlen_nonneg bm).
  pose proof (zlen_nonneg PSF1_MAGIC). pose proof (zlen_nonneg [mode; cs]). lia.
Qed.

(** C40: whatever bytes it is given, the font parser terminates without a panic, and a font it
    accepts is well-formed: the bitmaps are all there and every glyph number of the
    character map is in range, so drawing never indexes out of bounds. *)
Theorem font_parse_total data : bytes_ok data -> zlen data < 2 ^ 62 ->
  parse data = Ret None \/ exists f, parse data = Ret (Some f) /\ font_wf f.
Proof. apply parse_cases. Qed.

(** a font file is read back as what it was made of: the bitmaps, and the first 512
    pairs of character and glyph of the table in order, each found by [lookup]. *)
Theorem parse_roundtrip mode charsize bitmaps table :
  0 <= charsize < 256 -> bytes_ok bitmaps -> bytes_ok table ->
  zlen bitmaps = psf_num mode * charsize -> zlen table < 2 ^ 62 ->
  exists f, parse (psf_file mode charsize bitmaps table) = Ret (Some f) /\
    glyphs f = bitmaps /\ num_glyphs f = psf_num mode /\
    forall c, lookup (unicode_map f) c = Ret (assoc
      (if Z.testbit mode 1
       then take (Z.to_nat MAX_UNICODE_MAPPINGS) (table_chars (psf_num mode) 0 (words table)) else []) c).
Proof.
  intros H1 H2 H3 H4 H5. destruct (parse_file mode charsize bitmaps table) as (r & He & f & -> & Hf & Hg & Hn & Hm);
    [done..|]. exists f. split; [done|]. split; [done|]. split; [done|].
  intros c. rewrite lookup_assoc by apply Hf. by rewrite Hm.
Qed.

(** drawing a text.  It stays inside the frame buffer; every character of the layout is
    on the screen (its cell never crosses the lower edge, nor the right one when the
    text starts at least one character left of it) and, when the text is done, shows its glyph bit
    by bit in the two colours; pixels outside the cells are as before. *)
Theorem draw_str_spec f fb x y s fg bg mem : font_wf f -> wf fb mem ->
  in_word 32 fg -> in_word 32 bg -> Forall (in_word 32) s -> zlen s < 2 ^ 32 ->
  0 <= x < 2 ^ 62 -> 0 <= y < 2 ^ 62 -> width fb < 2 ^ 62 -> height fb < 2 ^ 62 ->
  let cells := layout (width fb) (height fb) (f_height f) x x y s in
  exists mem', draw_str f fb x y s fg bg mem = Ret mem' /\ zlen mem' = zlen mem /\
    (forall cx cy ch, (cx, cy, ch) ∈ cells -> ch ∈ s /\ cy + f_height f <= height fb /\
       (x + 8 <= width fb -> cx + 8 <= width fb) /\
       forall row col, 0 <= row < f_height f -> 0 <= col < 8 -> on_screen fb (cx + col) (cy + row) ->
         pixel fb mem' (cx + col) (cy + row) =
           if glyph_bit f (glyph_of f ch) row col then rgb fg else rgb bg) /\
    (forall px py, on_screen fb px py ->
       (forall cx cy ch, (cx, cy, ch) ∈ cells -> ~ (cx <= px < cx + 8 /\ cy <= py < cy + f_height f)) ->
       pixel fb mem' px py = pixel fb mem px py).
Proof.
  intros Hf Hwf Hfg Hbg Hs Hlen Hx Hy HW HH cells. pose proof (fw_charsize f Hf). pose proof (fw_height f Hf).
  destruct (draw_chars_paints f fb x x y s fg bg mem) as (mem' & He & [Hl Hp _]); try done; [lia..|].
  exists mem'. split; [done|]. split; [done|]. split.
  - intros cx cy ch Hin. unfold cells in Hin.
    assert (0 <= f_height f) as Hh by lia.
    pose proof (layout_cell _ _ _ _ _ _ _ _ _ _ Hh Hin) as (_ & Hcy & Hch & Hcx).
    split; [done|]. split; [done|]. split; [done|]. intros row col Hr Hc Hon.
    rewrite Hp by done. erewrite text_pic_cell; [done | lia | exact Hin | done..].
  - intros px py Hon Hout. rewrite Hp by done. fold cells. clearbody cells. clear Hp.
    assert (text_pic f cells fg bg px py = None) as ->; [|done].
    induction cells as [|[[a b] k] cells IH]; [done|]. simpl. unfold over.
    rewrite IH by (intros; apply (Hout cx cy ch); by right).
    unfold char_pic. case_match; [|done]. exfalso. apply (Hout a b k); [left | lia].
Qed.

(** A font of one-line glyphs, glyph [g] being the byte [g]; the table gives the first four
    glyphs a name each, the third one also as a member of a sequence. *)
Definition demo_font : list Z :=
  psf_file 2 1 (zseq 0 256)
    [0x41; 0; 0xFF; 0xFF; 0xE9; 0; 0xFF; 0xFF; 0x35; 1; 0xFE; 0xFF; 0x42; 1; 0xFF; 0xFF; 0xAC; 0x20; 0xFF; 0xFF].

(** Facts of the parsed font by evaluation. *)
Lemma demo_fact (P : PsfFont -> Prop) :
  match parse demo_font with Ret (Some g) => P g | _ => False end ->
  forall f, parse demo_font = Ret (Some f) -> P f.
Proof. intros Hp f He. by rewrite He in Hp. Qed.

Lemma demo_parse : exists f, parse demo_font = Ret (Some f) /\ font_wf f /\ f_height f = 1.
Proof.
  assert (bytes_ok demo_font) as Hb by (apply bytes_ok_check; by vm_compute).
  destruct (parse_cases demo_font) as [He|(f & He & Hf)]; [done | by vm_compute | by vm_compute in He |].
  exists f. split; [done|]. split; [done|]. rewrite (fw_height f Hf).
  apply (demo_fact (fun g => charsize g = 1)); [by vm_compute | done].
Qed.

(** characters beyond the Basic Multilingual Plane are cut to 16 bits: such a character is drawn
    with the glyph of an unrelated character whenever the font has one for its low
    half. *)
Theorem astral_alias f c : font_wf f -> in_word 32 c -> 0x80 <= c mod 2 ^ 16 -> 2 ^ 16 <= c ->
  glyph_index f c = glyph_index f (c mod 2 ^ 16).
Proof.
  intros Hf Hc Hlow Hhigh. unfold in_word in *. pose proof (Z.mod_pos_bound c (2 ^ 16)).
  destruct (glyph_index_spec f c Hf) as [-> _]; [lia|].
  destruct (glyph_index_spec f (c mod 2 ^ 16) Hf) as [-> _]; [lia|].
  unfold glyph_of. decide_tests. by rewrite Z.mod_mod.
Qed.
End Psf.

(** * Witnesses *)

Definition demo_fb : Vesa.Framebuffer := Vesa.mkFramebuffer 20 4 64 3.
Definition demo_mem : list Z := replicate 256 0.

Lemma demo_fb_wf : Vesa.wf demo_fb demo_mem.
Proof. by split; vm_compute. Qed.

Lemma fill_rect_spec_witness : exists mem',
  Vesa.fill_rect demo_fb 18 2 5 5 1 2 3 demo_mem = Ret mem' /\ Vesa.pixel demo_fb mem' 19 3 = [3; 2; 1].
Proof.
  destruct (Vesa.fill_rect_spec demo_fb 18 2 5 5 1 2 3 demo_mem demo_fb_wf) as (m & He & [_ Hp _]); [by vm_compute..|].
  exists m. split; [exact He|]. clear He. rewrite Hp; [reflexivity | by split; vm_compute].
Defined.

Lemma clear_spec_witness : exists mem',
  Vesa.clear demo_fb 9 8 7 demo_mem = Ret mem' /\ zget mem' 63 = Some 0.
Proof.
  destruct (Vesa.clear_spec demo_fb 9 8 7 demo_mem demo_fb_wf) as (m & He & _ & _ & Hr); [by vm_compute..|].
  exists m. split; [exact He|].
  pose proof (Hr 0 63) as Hpad. change (0 * Vesa.pitch demo_fb + 63) with 63 in Hpad.
  clear He Hr. rewrite Hpad; [reflexivity | simpl; lia | simpl; lia].
Defined.

Lemma font_parse_total_witness : Psf.parse Psf.demo_font <> Ret None /\
  (Psf.parse Psf.demo_font = Ret None \/ exists f, Psf.parse Psf.demo_font = Ret (Some f) /\ Psf.font_wf f).
Proof.
  split; [by vm_compute|]. apply (Psf.font_parse_total Psf.demo_font); [|by vm_compute].
  apply bytes_ok_check. by vm_compute.
Defined.

Lemma parse_roundtrip_witness : exists f, Psf.parse Psf.demo_font = Ret (Some f) /\
  Psf.lookup (Psf.unicode_map f) 0x20AC = Ret (Some 3) /\ Psf.lookup (Psf.unicode_map f) 0x142 = Ret (Some 2).
Proof.
  destruct (Psf.parse_roundtrip 2 1 (zseq 0 256)
    [0x41; 0; 0xFF; 0xFF; 0xE9; 0; 0xFF; 0xFF; 0x35; 1; 0xFE; 0xFF; 0x42; 1; 0xFF; 0xFF; 0xAC; 0x20; 0xFF; 0xFF])
    as (f & He & _ & _ & Hl);
    [lia | apply bytes_ok_check; by vm_compute | apply bytes_ok_check; by vm_compute
    | by vm_compute | by vm_compute |].
  exists f. split; [exact He|]. rewrite !Hl. split; by vm_compute.
Defined.

Lemma draw_str_spec_witness : exists f mem', Psf.parse Psf.demo_font = Ret (Some f) /\
  Psf.draw_str f demo_fb 1 1 [0x41; 10; 0x42] 0xFFFFFF 0 demo_mem = Ret mem' /\
  Vesa.pixel demo_fb mem' 2 2 = [255; 255; 255].
Proof.
  destruct Psf.demo_parse as (f & Hp & Hf & Hh). exists f.
  destruct (Psf.draw_str_spec f demo_fb 1 1 [0x41; 10; 0x42] 0xFFFFFF 0 demo_mem Hf demo_fb_wf)
    as (m & He & _ & Hcells & _); try (unfold in_word, zlen; simpl; lia).
  { repeat constructor; unfold in_word; lia. }
  exists m. split; [exact Hp|]. split; [exact He|]. clear He. rewrite Hh in Hcells.
  destruct (Hcells 1 2 0x42) as (_ & _ & _ & Hpix); [by right; left|]. clear Hcells.
  specialize (Hpix 0 1). change (1 + 1) with 2 in Hpix. change (2 + 0) with 2 in Hpix.
  rewrite Hpix; [|lia | lia | split; simpl; lia]. clear Hpix.
  assert (Psf.glyph_bit f (Psf.glyph_of f 0x42) 0 1 = true) as ->; [|reflexivity].
  apply (Psf.demo_fact (fun f => Psf.glyph_bit f (Psf.glyph_of f 0x42) 0 1 = true)); [by vm_compute | exact Hp].
Defined.

Lemma astral_alias_witness : exists f, Psf.parse Psf.demo_font = Ret (Some f) /\
  Psf.glyph_index f 0x10135 = Psf.glyph_index f 0x135 /\ Psf.glyph_index f 0x135 = Ret 2.
Proof.
  destruct Psf.demo_parse as (f & Hp & Hf & _). exists f. split; [done|]. split.
  - apply (Psf.astral_alias f 0x10135 Hf); [unfold in_word; lia | vm_compute; discriminate | lia].
  - apply (Psf.demo_fact (fun f => Psf.glyph_index f 0x135 = Ret 2)); [by vm_compute | done].
Defined.
