(* ===== verification/Pci.v ===== *)
(** PCI configuration space, [src/kern/drv/pci.rs]: register access by
    configuration mechanism 1, base address registers, enumeration of the
    functions and search by class.  The listing of [dump] is in [Listing]; the
    log line of the scan is left out. *)
From S2P Require Import Prelude Word Port.

Definition PCI_CONFIG_ADDR : Z := 0xCF8.
Definition PCI_CONFIG_DATA : Z := 0xCFC.
Definition MAX_PCI_DEVICES : Z := 64.

Record PciAddr := mkPciAddr { bus : Z; dev : Z; func : Z }.

Record PciDevice := mkPciDevice {
  addr : PciAddr;
  dev_vendor_id : Z;
  dev_device_id : Z;
  dev_class : Z;
  dev_subclass : Z;
  dev_prog_if : Z;
}.

(** The statics [PCI_DEVICES] and [PCI_COUNT]. *)
Record PciTable := mkPciTable { devices : list (option PciDevice); count : Z }.

Definition table_init : PciTable := mkPciTable (replicate (Z.to_nat MAX_PCI_DEVICES) None) 0.

(** The value for the address port, in both accessors. *)
Definition config_address (self : PciAddr) (offset : Z) : Z :=
  Z.lor (Z.lor (Z.lor (Z.lor 0x80000000 (wshl 32 (bus self) 16)) (wshl 32 (dev self) 11))
    (wshl 32 (func self) 8)) (Z.land offset 0xFC).

Section driver.
Context {D : Type} {WP : WidePorts D}.
Implicit Types (d : D) (self : PciAddr).

Definition config_read32 self (offset : Z) d : Z * D :=
  inl PCI_CONFIG_DATA (outl PCI_CONFIG_ADDR (config_address self offset) d).

Definition config_write32 self (offset val : Z) d : D :=
  outl PCI_CONFIG_DATA val (outl PCI_CONFIG_ADDR (config_address self offset) d).

Definition config_read16 self (offset : Z) d : Z * D :=
  let '(val, d) := config_read32 self (Z.land offset 0xFC) d in
  (wrap 16 (wshr 32 val (wmul 32 (Z.land offset 2) 8)), d).

Definition config_read8 self (offset : Z) d : Z * D :=
  let '(val, d) := config_read32 self (Z.land offset 0xFC) d in
  (wrap 8 (wshr 32 val (wmul 32 (Z.land offset 3) 8)), d).

Definition vendor_id self := config_read16 self 0x00.
Definition device_id self := config_read16 self 0x02.
Definition class_code self := config_read8 self 0x0B.
Definition subclass self := config_read8 self 0x0A.
Definition prog_if self := config_read8 self 0x09.
Definition header_type self := config_read8 self 0x0E.
Definition interrupt_line self := config_read8 self 0x3C.
Definition interrupt_pin self := config_read8 self 0x3D.
Definition bar self (index : Z) := config_read32 self (wadd 8 0x10 (wmul 8 index 4)).

Definition bar_mem_base self (index : Z) d : Z * D :=
  let '(bar0, d) := bar self index d in
  if negb (Z.land bar0 1 =? 0) then (Z.land bar0 (wnot 32 0x3), d)
  else
    let bar_type := Z.land (wshr 32 bar0 1) 0x3 in
    let base_lo := Z.land bar0 (wnot 32 0xF) in
    if bar_type =? 2 then
      let '(bar1, d) := bar self (wadd 8 index 1) d in
      (Z.lor base_lo (wshl 64 bar1 32), d)
    else (base_lo, d).

Definition enable_bus_master self d : D :=
  let '(cmd, d) := config_read16 self 0x04 d in
  let new_cmd := Z.lor cmd 0x06 in
  let '(full, d) := config_read32 self 0x04 d in
  config_write32 self 0x04 (Z.lor (Z.land full 0xFFFF0000) new_cmd) d.

(** The state of [scan]: the machine, the two statics and the local [count]. *)
Definition ScanState : Type := D * PciTable * Z.

(** The body of the loop over the functions of a device. *)
Definition scan_func (b dv fn : Z) (s : ScanState) : outcome ScanState :=
  let '(d, t, cnt) := s in
  let faddr := mkPciAddr (wrap 8 b) dv fn in
  let '(vid, d) := vendor_id faddr d in
  if vid =? 0xFFFF then Ret (d, t, cnt) else
  let '(did, d) := device_id faddr d in
  let '(class, d) := class_code faddr d in
  let '(subcl, d) := subclass faddr d in
  let '(pif, d) := prog_if faddr d in
  t ← (if cnt <? MAX_PCI_DEVICES then
         devs ← arr_set (devices t) cnt (Some (mkPciDevice faddr vid did class subcl pif));
         Ret (mkPciTable devs (cnt ⊞ 1))
       else Ret t);
  Ret (d, t, cnt ⊞ 1).

Definition scan_dev (b dv : Z) (s : ScanState) : outcome ScanState :=
  let '(d, t, cnt) := s in
  let a := mkPciAddr (wrap 8 b) dv 0 in
  let '(vendor, d) := vendor_id a d in
  if vendor =? 0xFFFF then Ret (d, t, cnt) else
  let '(header, d) := header_type a d in
  let max_func := if negb (Z.land header 0x80 =? 0) then 8 else 1 in
  for_range (scan_func b dv) 0 max_func (d, t, cnt).

Definition scan (d : D) (t : PciTable) : outcome ScanState :=
  for_range (fun b => for_range (scan_dev b) 0 32) 0 256 (d, t, 0).
End driver.

(** [for i in 0..cnt] with the early return. *)
Fixpoint find_from (t : PciTable) (class subclass prog_if i : Z) (n : nat) : outcome (option PciAddr) :=
  match n with
  | O => Ret None
  | S n' =>
      e ← arr_get (devices t) i;
      match e with
      | Some dv =>
          if (dev_class dv =? class) && (dev_subclass dv =? subclass) && (dev_prog_if dv =? prog_if)
          then Ret (Some (addr dv)) else find_from t class subclass prog_if (i + 1) n'
      | None => find_from t class subclass prog_if (i + 1) n'
      end
  end.

Definition find_by_class (class subclass prog_if : Z) (t : PciTable) : outcome (option PciAddr) :=
  find_from t class subclass prog_if 0 (Z.to_nat (count t)).

(** * The host bridge

    Configuration mechanism 1: the address register selects a function and one of
    its 64 registers; the data port reads it, or stores into it what the register makes
    of the value.  Only the command register is described further: its low
    half takes the bits that the function implements, and in its high half, the
    status, a one clears the bit. *)
Class PciHost (D : Type) `{WidePorts D} := {
  host_addr : D -> Z;
  host_reg : D -> PciAddr -> Z -> Z;
  host_store : PciAddr -> Z -> Z -> Z -> Z;     (* register, old value, written value *)
  host_bits : PciAddr -> Z;                     (* implemented command bits *)
  host_reg_word d a r : in_word 32 (host_reg d a r);
  host_select v d :
    host_addr (outl PCI_CONFIG_ADDR v d) = v /\
    forall a r, host_reg (outl PCI_CONFIG_ADDR v d) a r = host_reg d a r;
  host_read d : Z.testbit (host_addr d) 31 = true ->
    let s := host_addr d in
    let a := mkPciAddr (s / 2 ^ 16 mod 2 ^ 8) (s / 2 ^ 11 mod 2 ^ 5) (s / 2 ^ 8 mod 2 ^ 3) in
    (inl PCI_CONFIG_DATA d).1 = host_reg d a (s / 4 mod 64) /\
    (forall a r, host_reg (inl PCI_CONFIG_DATA d).2 a r = host_reg d a r);
  host_write v d : Z.testbit (host_addr d) 31 = true ->
    let s := host_addr d in
    let a := mkPciAddr (s / 2 ^ 16 mod 2 ^ 8) (s / 2 ^ 11 mod 2 ^ 5) (s / 2 ^ 8 mod 2 ^ 3) in
    let r := s / 4 mod 64 in
    host_reg (outl PCI_CONFIG_DATA v d) a r = host_store a r (host_reg d a r) v /\
    (forall a' r', (a', r') <> (a, r) -> host_reg (outl PCI_CONFIG_DATA v d) a' r' = host_reg d a' r');
  host_command a old v :
    host_store a 1 old v =
      Z.lor (Z.land v (Z.land (host_bits a) 0xFFFF)) (Z.land old (wnot 32 (Z.lor v 0xFFFF)));
}.

#[export] Instance PciAddr_eq_dec : EqDecision PciAddr.
Proof. solve_decision. Defined.

(** An address the bus can carry. *)
Definition addr_ok (a : PciAddr) : Prop :=
  0 <= bus a < 256 /\ 0 <= dev a < 32 /\ 0 <= func a < 8.

Lemma land_fc offset : 0 <= offset < 256 -> Z.land offset 0xFC = 4 * (offset / 4).
Proof.
  intros Ho. apply Z.bits_inj'. intros i Hi. rewrite Z.land_spec.
  change (4 * (offset / 4)) with (2 ^ 2 * (offset / 2 ^ 2)). rewrite Z.mul_comm.
  destruct (Z.ltb_spec i 2).
  - rewrite Z.mul_pow2_bits_low by lia.
    assert (i = 0 \/ i = 1) as [-> | ->] by lia; by rewrite andb_false_r.
  - rewrite Z.mul_pow2_bits, Z.div_pow2_bits by lia. replace (i - 2 + 2) with i by lia.
    destruct (Z.ltb_spec i 8).
    + assert (i = 2 \/ i = 3 \/ i = 4 \/ i = 5 \/ i = 6 \/ i = 7) as Hc by lia.
      by repeat destruct Hc as [-> | Hc]; subst; rewrite andb_true_r.
    + by rewrite (testbit_high 8 offset) by (done || lia).
Qed.

(** The address value is read back as the function and the register number. *)
Lemma config_address_decode a offset : addr_ok a -> 0 <= offset < 256 ->
  let s := config_address a offset in
  Z.testbit s 31 = true /\ s / 2 ^ 16 mod 2 ^ 8 = bus a /\ s / 2 ^ 11 mod 2 ^ 5 = dev a /\
  s / 2 ^ 8 mod 2 ^ 3 = func a /\ s / 4 mod 64 = offset / 4.
Proof.
  intros (Hb & Hd & Hf) Ho. unfold config_address.
  rewrite !wshl_small by (unfold in_word; lia). rewrite land_fc by done.
  assert (0 <= offset / 4 < 64) as Hr by (split; [apply Z.div_pos | apply Z.div_lt_upper_bound]; lia).
  set (r := offset / 4) in *. clearbody r.
  assert (forall w hi lo, 0 <= w -> in_word w lo -> Z.lor (hi * 2 ^ w) lo = hi * 2 ^ w + lo) as Hlor.
  { intros w hi lo Hw Hlo. rewrite Z.lor_comm, lor_shifted by done. lia. }
  assert (Z.lor (Z.lor (Z.lor (Z.lor 2147483648 (bus a * 2 ^ 16)) (dev a * 2 ^ 11)) (func a * 2 ^ 8)) (4 * r)
    = 2 ^ 31 + bus a * 2 ^ 16 + dev a * 2 ^ 11 + func a * 2 ^ 8 + 4 * r) as ->.
  { change 2147483648 with (1 * 2 ^ 31). rewrite Hlor by (unfold in_word; lia).
    replace (1 * 2 ^ 31 + bus a * 2 ^ 16) with ((2 ^ 15 + bus a) * 2 ^ 16) by lia.
    rewrite Hlor by (unfold in_word; lia).
    replace ((2 ^ 15 + bus a) * 2 ^ 16 + dev a * 2 ^ 11) with ((2 ^ 20 + bus a * 2 ^ 5 + dev a) * 2 ^ 11) by lia.
    rewrite Hlor by (unfold in_word; lia).
    replace ((2 ^ 20 + bus a * 2 ^ 5 + dev a) * 2 ^ 11 + func a * 2 ^ 8)
      with ((2 ^ 23 + bus a * 2 ^ 8 + dev a * 2 ^ 3 + func a) * 2 ^ 8) by lia.
    rewrite Hlor by (unfold in_word; lia). lia. }
  cbv zeta. set (s := _ + 4 * r).
  assert (s = 2147483648 + bus a * 65536 + dev a * 2048 + func a * 256 + 4 * r) as Hs by (unfold s; lia).
  clearbody s. rewrite Z.testbit_true by lia.
  change (2 ^ 31) with 2147483648. change (2 ^ 16) with 65536. change (2 ^ 11) with 2048.
  change (2 ^ 8) with 256. change (2 ^ 5) with 32. change (2 ^ 3) with 8.
  split_and!; Z.to_euclidean_division_equations; lia.
Qed.

Section host.
Context {D : Type} {WP : WidePorts D} {PH : PciHost D}.
Implicit Types (d : D) (a : PciAddr).

(** The same configuration space. *)
Definition same d d' : Prop := forall a r, host_reg d' a r = host_reg d a r.

#[global] Instance same_preorder : PreOrder same.
Proof. split; [done|]. intros d1 d2 d3 H12 H23 a r. by rewrite H23. Qed.

(** [m] returns [v] and leaves the configuration space alone. *)
Definition gets (m : D -> Z * D) (v : Z) d : Prop := (m d).1 = v /\ same d (m d).2.

Lemma gets_elim (m : D -> Z * D) v d : gets m v d -> exists d', m d = (v, d') /\ same d d'.
Proof. unfold gets. destruct (m d) as [x d']. simpl. intros [-> Hs]. by exists d'. Qed.

(** Fields of a function's configuration space. *)
Definition cfg16 d a (offset : Z) : Z := host_reg d a (offset / 4) / 2 ^ (8 * (offset mod 4)) mod 2 ^ 16.
Definition cfg8 d a (offset : Z) : Z := host_reg d a (offset / 4) / 2 ^ (8 * (offset mod 4)) mod 2 ^ 8.

Lemma cfg_same d d' a o : same d d' -> cfg16 d' a o = cfg16 d a o /\ cfg8 d' a o = cfg8 d a o.
Proof. intros Hs. unfold cfg16, cfg8. by rewrite Hs. Qed.

Lemma select_spec a offset d : addr_ok a -> 0 <= offset < 256 ->
  let d' := outl PCI_CONFIG_ADDR (config_address a offset) d in
  same d d' /\ Z.testbit (host_addr d') 31 = true /\
  (let s := host_addr d' in
   mkPciAddr (s / 2 ^ 16 mod 2 ^ 8) (s / 2 ^ 11 mod 2 ^ 5) (s / 2 ^ 8 mod 2 ^ 3) = a /\
   s / 4 mod 64 = offset / 4).
Proof.
  intros Ha Ho d'. destruct (host_select (config_address a offset) d) as [Hs Hr].
  destruct (config_address_decode a offset Ha Ho) as (Hb & H1 & H2 & H3 & H4).
  unfold d'. rewrite Hs, H1, H2, H3. split; [exact Hr|]. split; [done|]. by destruct a.
Qed.

Lemma config_read32_gets a offset d : addr_ok a -> 0 <= offset < 256 ->
  gets (config_read32 a offset) (host_reg d a (offset / 4)) d.
Proof.
  intros Ha Ho. destruct (select_spec a offset d Ha Ho) as (Hs & Hb & He & Hr).
  unfold gets, config_read32. set (d' := outl _ _ d) in *.
  destruct (host_read d' Hb) as [Hv Hk]. cbv zeta in Hv. rewrite He, Hr in Hv.
  split; [by rewrite Hv, Hs|]. etransitivity; [exact Hs | exact Hk].
Qed.

Lemma config_write32_spec a offset v d : addr_ok a -> 0 <= offset < 256 ->
  let r := offset / 4 in let d' := config_write32 a offset v d in
  host_reg d' a r = host_store a r (host_reg d a r) v /\
  forall a' r', (a', r') <> (a, r) -> host_reg d' a' r' = host_reg d a' r'.
Proof.
  intros Ha Ho. destruct (select_spec a offset d Ha Ho) as (Hs & Hb & He & Hr).
  unfold config_write32. set (d' := outl PCI_CONFIG_ADDR _ d) in *.
  destruct (host_write v d' Hb) as [Hw Hk]. cbv zeta in Hw, Hk. rewrite He, Hr in Hw, Hk.
  cbv zeta. split; [by rewrite Hw, Hs|]. intros a' r' Hne. by rewrite Hk, Hs.
Qed.

Lemma config_read8_gets a offset d : addr_ok a -> 0 <= offset < 256 ->
  gets (config_read8 a offset) (cfg8 d a offset) d.
Proof.
  intros Ha Ho. unfold gets, config_read8. rewrite land_fc by done.
  destruct (gets_elim _ _ _ (config_read32_gets a (4 * (offset / 4)) d Ha
    ltac:(Z.to_euclidean_division_equations; lia))) as (d' & -> & Hs).
  split; [|done]. simpl. unfold cfg8. change 3 with (Z.ones 2). rewrite Z.land_ones by lia.
  change (2 ^ 2) with 4. pose proof (Z.mod_pos_bound offset 4).
  rewrite (Z.mul_comm 4 (offset / 4)), Z.div_mul by lia.
  rewrite (wmul_small 32) by (unfold in_word; lia). rewrite wshr_div by lia.
  unfold wrap. by rewrite (Z.mul_comm 8).
Qed.

Lemma config_read16_gets a offset d : addr_ok a -> 0 <= offset < 256 -> offset mod 2 = 0 ->
  gets (config_read16 a offset) (cfg16 d a offset) d.
Proof.
  intros Ha Ho He. unfold gets, config_read16. rewrite land_fc by done.
  destruct (gets_elim _ _ _ (config_read32_gets a (4 * (offset / 4)) d Ha
    ltac:(Z.to_euclidean_division_equations; lia))) as (d' & -> & Hs).
  split; [|done]. simpl. unfold cfg16.
  rewrite (Z.mul_comm 4 (offset / 4)), Z.div_mul by lia.
  assert (Z.land offset 2 = offset mod 4) as ->.
  { change 2 with (2 ^ 1) at 1. rewrite land_pow2 by lia.
    destruct (Z.testbit offset 1) eqn:Hb;
      [apply Z.testbit_true in Hb; [|lia] | apply Z.testbit_false in Hb; [|lia]].
    all: change (2 ^ 1) with 2 in *; Z.to_euclidean_division_equations; lia. }
  pose proof (Z.mod_pos_bound offset 4).
  rewrite (wmul_small 32) by (unfold in_word; lia). rewrite wshr_div by lia.
  unfold wrap. by rewrite (Z.mul_comm 8).
Qed.

(** * Enumeration *)

Definition present d a : bool := negb (cfg16 d a 0x00 =? 0xFFFF).

Definition device_at d a : PciDevice :=
  mkPciDevice a (cfg16 d a 0x00) (cfg16 d a 0x02) (cfg8 d a 0x0B) (cfg8 d a 0x0A) (cfg8 d a 0x09).

(** The functions of a device: none when function 0 does not answer, the
    first one only when its header does not say multi-function. *)
Definition device_functions d (b dv : Z) : list PciDevice :=
  let a0 := mkPciAddr b dv 0 in
  if present d a0 then
    zseq 0 (if Z.testbit (cfg8 d a0 0x0E) 7 then 8%nat else 1%nat) ≫= fun fn =>
      let a := mkPciAddr b dv fn in if present d a then [device_at d a] else []
  else [].

(** All functions of the machine, by bus, device and function. *)
Definition all_functions d : list PciDevice :=
  zseq 0 256 ≫= fun b => zseq 0 32 ≫= device_functions d b.

(** The table after the functions [l] were found. *)
Definition table_of (t0 : PciTable) (l : list PciDevice) : PciTable :=
  let k := take (Z.to_nat MAX_PCI_DEVICES) l in
  mkPciTable ((Some <$> k) ++ drop (length k) (devices t0))
    (if decide (l = []) then count t0 else zlen k).

Definition scanned d t0 (l : list PciDevice) (s : ScanState) : Prop :=
  let '(d', t, cnt) := s in same d d' /\ t = table_of t0 l /\ cnt = zlen l.

Lemma table_of_found t0 l x : zlen (devices t0) = MAX_PCI_DEVICES ->
  (if zlen l <? MAX_PCI_DEVICES then
     devs ← arr_set (devices (table_of t0 l)) (zlen l) (Some x); Ret (mkPciTable devs (zlen l + 1))
   else Ret (table_of t0 l)) = Ret (table_of t0 (l ++ [x])).
Proof.
  unfold MAX_PCI_DEVICES. intros Ht. pose proof (zlen_nonneg l). unfold table_of, MAX_PCI_DEVICES.
  rewrite (decide_False (P := l ++ [x] = [])) by (by destruct l). case_ltb.
  - assert (length l < 64 /\ length (devices t0) = 64)%nat as [Hl Hd] by (unfold zlen in *; lia).
    rewrite !take_ge by (rewrite ?length_app; simpl; lia).
    cbn [devices count]. rewrite arr_set_ok.
    2:{ rewrite zlen_app. unfold zlen in *. rewrite length_fmap, length_drop. lia. }
    rewrite bind_ret. f_equal. f_equal; [|rewrite zlen_app; done].
    unfold zset, zlen. decide_tests. rewrite Nat2Z.id, fmap_app, length_app, <- app_assoc. simpl.
    rewrite <- (length_fmap Some l) at 1. rewrite <- (Nat.add_0_r (length (Some <$> l))).
    rewrite insert_app_r. f_equal.
    destruct (drop (length l) (devices t0)) as [|y rest] eqn:Hdr.
    + apply (f_equal length) in Hdr. rewrite length_drop in Hdr. simpl in Hdr. lia.
    + simpl. f_equal. by rewrite <- drop_drop, Hdr.
  - assert (64 <= length l)%nat as Hl by (unfold zlen in *; lia).
    rewrite take_app_le by lia. rewrite decide_False; [done|]. intros ->. simpl in Hl. lia.
Qed.

Lemma scan_func_spec d t0 l b dv fn s : zlen (devices t0) = MAX_PCI_DEVICES -> zlen l < 2 ^ 63 ->
  addr_ok (mkPciAddr b dv fn) -> scanned d t0 l s ->
  returns (scan_func b dv fn s) (scanned d t0
    (l ++ let a := mkPciAddr b dv fn in if present d a then [device_at d a] else [])).
Proof.
  intros Ht Hl Ha. destruct s as [[d1 t] cnt]. intros (Hs & -> & ->). cbv zeta.
  unfold scan_func. rewrite (wrap_small 8) by (unfold in_word; destruct Ha as [? _]; simpl in *; lia).
  set (a := mkPciAddr b dv fn) in *. unfold vendor_id, device_id, class_code, subclass, prog_if.
  destruct (gets_elim _ _ _ (config_read16_gets a 0x00 d1 Ha ltac:(lia) eq_refl)) as (d2 & -> & H2).
  rewrite (proj1 (cfg_same d d1 a 0 Hs)). unfold present.
  destruct (Z.eqb_spec (cfg16 d a 0) 65535) as [Hff|Hff]; cbn [negb].
  - apply returns_ret. rewrite app_nil_r. split; [by etransitivity|]. done.
  - assert (same d d2) as Hs2 by (by etransitivity).
    destruct (gets_elim _ _ _ (config_read16_gets a 0x02 d2 Ha ltac:(lia) eq_refl)) as (d3 & -> & H3).
    assert (same d d3) as Hs3 by (by etransitivity).
    destruct (gets_elim _ _ _ (config_read8_gets a 0x0B d3 Ha ltac:(lia))) as (d4 & -> & H4).
    assert (same d d4) as Hs4 by (by etransitivity).
    destruct (gets_elim _ _ _ (config_read8_gets a 0x0A d4 Ha ltac:(lia))) as (d5 & -> & H5).
    assert (same d d5) as Hs5 by (by etransitivity).
    destruct (gets_elim _ _ _ (config_read8_gets a 0x09 d5 Ha ltac:(lia))) as (d6 & -> & H6).
    assert (same d d6) as Hs6 by (by etransitivity).
    rewrite (proj1 (cfg_same d d2 a 2 Hs2)), (proj2 (cfg_same d d3 a 11 Hs3)),
      (proj2 (cfg_same d d4 a 10 Hs4)), (proj2 (cfg_same d d5 a 9 Hs5)).
    pose proof (zlen_nonneg l). rewrite (wadd_small 64 (zlen l)) by (unfold in_word; lia).
    change (mkPciDevice a _ _ _ _ _) with (device_at d a). rewrite (table_of_found t0 l (device_at d a) Ht), bind_ret.
    apply returns_ret. split; [done|]. split; [done|]. rewrite zlen_app. done.
Qed.

(** A loop over rounds that find [f i]. *)
Lemma scan_loop d t0 (body : Z -> ScanState -> outcome ScanState) (f : Z -> list PciDevice) lo n l s :
  (forall i l s, lo <= i < lo + Z.of_nat n -> zlen (l ++ f i) < 2 ^ 63 -> scanned d t0 l s ->
     returns (body i s) (scanned d t0 (l ++ f i))) ->
  zlen (l ++ (zseq lo n ≫= f)) < 2 ^ 63 -> scanned d t0 l s ->
  returns (for_range body lo (lo + Z.of_nat n) s) (scanned d t0 (l ++ (zseq lo n ≫= f))).
Proof.
  unfold for_range. replace (Z.to_nat (lo + Z.of_nat n - lo)) with n by lia.
  revert lo l s. induction n as [|n IH]; intros lo l s Hb Hl Hs.
  - simpl in *. rewrite app_nil_r in *. by apply returns_ret.
  - cbn [for_from zseq] in *. rewrite bind_cons, app_assoc in *.
    pose proof (zlen_nonneg (zseq (lo + 1) n ≫= f)). rewrite zlen_app in Hl.
    eapply returns_bind; [apply (Hb lo l s); [lia | lia | exact Hs]|].
    intros s1 Hs1. apply IH; [|by rewrite zlen_app | done].
    intros i l2 s2 Hi. apply Hb. lia.
Qed.

Lemma scan_dev_spec d t0 l b dv s : zlen (devices t0) = MAX_PCI_DEVICES ->
  0 <= b < 256 -> 0 <= dv < 32 -> zlen (l ++ device_functions d b dv) < 2 ^ 63 -> scanned d t0 l s ->
  returns (scan_dev b dv s) (scanned d t0 (l ++ device_functions d b dv)).
Proof.
  intros Ht Hb Hdv. destruct s as [[d1 t] cnt]. intros Hl (Hs & -> & ->).
  unfold scan_dev, device_functions in *. rewrite (wrap_small 8) by (unfold in_word; lia).
  assert (addr_ok (mkPciAddr b dv 0)) as Ha by (unfold addr_ok; simpl; lia).
  set (a := mkPciAddr b dv 0) in *. unfold vendor_id, header_type.
  destruct (gets_elim _ _ _ (config_read16_gets a 0x00 d1 Ha ltac:(lia) eq_refl)) as (d2 & -> & H2).
  rewrite (proj1 (cfg_same d d1 a 0 Hs)). unfold present in *.
  destruct (Z.eqb_spec (cfg16 d a 0) 65535) as [Hff|Hff]; cbn [negb] in *.
  - apply returns_ret. rewrite app_nil_r. split; [by etransitivity|]. done.
  - assert (same d d2) as Hs2 by (by etransitivity).
    destruct (gets_elim _ _ _ (config_read8_gets a 0x0E d2 Ha ltac:(lia))) as (d3 & -> & H3).
    rewrite (proj2 (cfg_same d d2 a 0x0E Hs2)).
    assert (negb (Z.land (cfg8 d a 14) 128 =? 0) = Z.testbit (cfg8 d a 14) 7) as ->.
    { change 128 with (2 ^ 7). rewrite land_pow2 by lia. by destruct (Z.testbit _ 7). }
    set (n := if Z.testbit (cfg8 d a 14) 7 then 8%nat else 1%nat) in *.
    assert ((if Z.testbit (cfg8 d a 14) 7 then 8 else 1) = 0 + Z.of_nat n) as ->
      by (unfold n; by destruct (Z.testbit _ 7)).
    assert (n <= 8)%nat as Hn by (unfold n; destruct (Z.testbit _ 7); lia).
    apply scan_loop; [|exact Hl | split; [by etransitivity | done]].
    intros i l2 s2 Hi Hl2 Hs'. apply scan_func_spec; [done | | unfold addr_ok; simpl; lia | done].
    rewrite zlen_app in Hl2. pose proof (zlen_nonneg (if present d (mkPciAddr b dv i)
      then [device_at d (mkPciAddr b dv i)] else [])). unfold present in *. lia.
Qed.

(** A number of rounds finds at most as many functions as each round allows. *)
Lemma bind_length {A B} (f : A -> list B) l k : (forall x, zlen (f x) <= k) -> zlen (l ≫= f) <= zlen l * k.
Proof.
  intros Hf. induction l as [|x l IH]; [done|].
  rewrite bind_cons, zlen_app, zlen_cons. specialize (Hf x). lia.
Qed.

Lemma device_functions_length d b dv : zlen (device_functions d b dv) <= 8.
Proof.
  unfold device_functions. destruct (present _ _); [|done].
  etransitivity; [apply (bind_length _ _ 1); intros fn; by destruct (present _ _)|].
  unfold zlen. rewrite zseq_length. destruct (Z.testbit _ 7); lia.
Qed.

Lemma all_functions_length d : zlen (all_functions d) <= 65536.
Proof.
  unfold all_functions. etransitivity; [apply (bind_length _ _ 256)|].
  - intros b. etransitivity; [apply (bind_length _ _ 8), device_functions_length|].
    unfold zlen. rewrite zseq_length. lia.
  - unfold zlen. rewrite zseq_length. lia.
Qed.

Lemma scan_finds d t0 : zlen (devices t0) = MAX_PCI_DEVICES ->
  returns (scan d t0) (scanned d t0 (all_functions d)).
Proof.
  intros Ht. unfold scan, all_functions. pose proof (all_functions_length d) as Hall.
  apply (scan_loop d t0 _ (fun b => zseq 0 32 ≫= device_functions d b) 0 256 []).
  - intros b l s Hb Hl Hs.
    apply (scan_loop d t0 _ (device_functions d b) 0 32 l); [|done | done].
    intros dv l2 s2 Hdv Hl2 Hs2. by apply scan_dev_spec.
  - change (zlen (all_functions d) < 2 ^ 63). lia.
  - split; [done|]. unfold table_of. simpl. destruct t0. split; done.
Qed.

(** enumeration.  The scan finds exactly the functions that answer, in the order of
    bus, device and function (functions 1 to 7 only of a device that is
    multi-function); the table holds the first 64 of them and the scan changes no
    register. *)
Theorem scan_enumerates d : exists d',
  scan d table_init = Ret (d', table_of table_init (all_functions d), zlen (all_functions d)) /\
  same d d'.
Proof.
  destruct (scan_finds d table_init) as ([[d' t] cnt] & He & Hs & -> & ->); [done|]. by exists d'.
Qed.

(** ** Search *)

Definition matches (class subclass prog_if : Z) (dv : PciDevice) : bool :=
  (dev_class dv =? class) && (dev_subclass dv =? subclass) && (dev_prog_if dv =? prog_if).

Lemma find_from_spec t l class subcl pif i n :
  (forall j, 0 <= j < zlen l -> zget (devices t) j = Some <$> zget l j) ->
  0 <= i -> i + Z.of_nat n = zlen l ->
  find_from t class subcl pif i n =
    Ret (addr <$> List.find (matches class subcl pif) (drop (Z.to_nat i) l)).
Proof.
  intros Ht. revert i. induction n as [|n IH]; intros i Hi Hn; cbn [find_from].
  - rewrite drop_ge by (unfold zlen in Hn; lia). done.
  - destruct (zget_is_Some l i) as [x Hx]; [lia|].
    rewrite (proj2 (arr_get_Ret _ i (Some x))), bind_ret by (rewrite Ht, Hx by lia; done).
    unfold zget in Hx. destruct (0 <=? i); [|done]. rewrite (drop_S l x) by done. simpl.
    fold (matches class subcl pif x). destruct (matches _ _ _ x); [done|].
    rewrite IH by lia. by replace (Z.to_nat (i + 1)) with (S (Z.to_nat i)) by lia.
Qed.

Lemma table_of_entries l j : let k := take (Z.to_nat MAX_PCI_DEVICES) l in
  0 <= j < zlen k -> zget (devices (table_of table_init l)) j = Some <$> zget k j.
Proof.
  intros k Hj. unfold table_of. fold k. cbn [devices]. rewrite zget_app by lia.
  unfold zlen in *. rewrite length_fmap. decide_tests. unfold zget. decide_tests. apply list_lookup_fmap.
Qed.

Lemma find_by_class_table class subclass prog_if l :
  find_by_class class subclass prog_if (table_of table_init l) =
    Ret (addr <$> List.find (matches class subclass prog_if) (take (Z.to_nat MAX_PCI_DEVICES) l)).
Proof.
  set (k := take _ l). unfold find_by_class.
  assert (count (table_of table_init l) = zlen k) as ->.
  { unfold table_of. cbn [count]. destruct (decide (l = [])) as [Hl|]; [|done]. unfold k. by rewrite Hl. }
  rewrite (find_from_spec _ k).
  - done.
  - apply table_of_entries.
  - done.
  - pose proof (zlen_nonneg k). lia.
Qed.

(** after a scan, looking for a class finds the first function of the machine, in enumeration order
    and among the first 64, that has it; nothing is found when none of them has. *)
Theorem find_by_class_first class subclass prog_if d : exists d' t cnt,
  scan d table_init = Ret (d', t, cnt) /\
  find_by_class class subclass prog_if t =
    Ret (addr <$> List.find (matches class subclass prog_if)
           (take (Z.to_nat MAX_PCI_DEVICES) (all_functions d))).
Proof.
  destruct (scan_finds d table_init) as ([[d' t] cnt] & He & Hs & -> & ->); [done|].
  do 3 eexists. split; [exact He|]. apply find_by_class_table.
Qed.

(** ** Base address registers *)

(** What the bits of a base address register mean: port space when bit 0 is
    set, a 64-bit memory address over two registers when bits 2:1 are 2, else a 32-bit one. *)
Definition bar_base (lo hi : Z) : Z :=
  if Z.testbit lo 0 then lo / 4 * 4
  else if lo / 2 mod 4 =? 2 then lo / 16 * 16 + hi * 2 ^ 32
  else lo / 16 * 16.

Lemma land_mask32 x k : 0 <= k <= 32 -> in_word 32 x -> Z.land x (wnot 32 (Z.ones k)) = x / 2 ^ k * 2 ^ k.
Proof.
  intros Hk Hx. apply Z.bits_inj'. intros i Hi. rewrite Z.land_spec, wnot_spec by lia.
  destruct (Z.ltb_spec i k).
  - rewrite Z.ones_spec_low, Z.mul_pow2_bits_low by lia. by rewrite andb_false_r.
  - rewrite Z.ones_spec_high, Z.mul_pow2_bits, Z.div_pow2_bits by lia.
    replace (i - k + k) with i by lia. simpl. destruct (Z.ltb_spec i 32); [by rewrite andb_true_r|].
    by rewrite (testbit_high 32 x) by done.
Qed.

Lemma bar_gets a i d : addr_ok a -> 0 <= i < 60 -> gets (bar a i) (host_reg d a (4 + i)) d.
Proof.
  intros Ha Hi. unfold bar. rewrite (wmul_small 8), (wadd_small 8) by (unfold in_word; lia).
  replace (4 + i) with ((16 + i * 4) / 4) by (Z.to_euclidean_division_equations; lia).
  apply config_read32_gets; [done | lia].
Qed.

(** [bar_mem_base] decodes the base address register of either width and kind, and only
    reads. *)
Theorem bar_mem_base_decodes a i d : addr_ok a -> 0 <= i < 6 ->
  (bar_mem_base a i d).1 = bar_base (host_reg d a (4 + i)) (host_reg d a (5 + i)) /\
  same d (bar_mem_base a i d).2.
Proof.
  intros Ha Hi. unfold bar_mem_base.
  destruct (gets_elim _ _ _ (bar_gets a i d Ha ltac:(lia))) as (d1 & -> & H1).
  pose proof (host_reg_word d a (4 + i)) as Hw. pose proof (host_reg_word d a (5 + i)) as Hw2.
  set (lo := host_reg d a (4 + i)) in *. unfold bar_base.
  assert (negb (Z.land lo 1 =? 0) = Z.testbit lo 0) as ->.
  { change 1 with (2 ^ 0). rewrite land_pow2 by lia. by destruct (Z.testbit lo 0). }
  change 0xF with (Z.ones 4). change 0x3 with (Z.ones 2). rewrite !land_mask32 by (done || lia).
  change (2 ^ 4) with 16. change (2 ^ 2) with 4. destruct (Z.testbit lo 0); [done|].
  rewrite wshr_div, Z.land_ones by lia. change (2 ^ 1) with 2. change (2 ^ 2) with 4.
  case_ltb; [|done]. rewrite (wadd_small 8 i) by (unfold in_word; lia).
  destruct (gets_elim _ _ _ (bar_gets a (i + 1) d1 Ha ltac:(lia))) as (d2 & -> & H2).
  split; [|by etransitivity]. simpl. rewrite H1. replace (4 + (i + 1)) with (5 + i) by lia.
  unfold in_word in *. rewrite wshl_small by (unfold in_word; lia). apply lor_shifted; [done|].
  unfold in_word. Z.to_euclidean_division_equations. lia.
Qed.

(** ** Bus mastering *)

Lemma land_high x : in_word 32 x -> Z.land x 0xFFFF0000 = x / 2 ^ 16 * 2 ^ 16.
Proof. intros Hx. change 0xFFFF0000 with (wnot 32 (Z.ones 16)). by apply land_mask32. Qed.

Lemma bus_master_value old : in_word 32 old ->
  Z.lor (Z.land old 0xFFFF0000) (Z.lor (old mod 2 ^ 16) 6) = Z.lor old 6.
Proof.
  intros Ho. rewrite land_high by done. rewrite Z.lor_assoc. f_equal.
  rewrite Z.lor_comm, lor_shifted; [|lia|apply Z.mod_pos_bound; lia].
  rewrite Z.add_comm, Z.mul_comm. symmetry. apply Z.div_mod. lia.
Qed.

(** [enable_bus_master] turns on memory decoding and bus mastering in every function that
    implements them, keeps the other command bits and touches no other register; but it
    writes the status half back as it read it, and since a one clears a status bit,
    every error latched there is lost. *)
Theorem enable_bus_master_command a d : addr_ok a ->
  let d' := enable_bus_master a d in
  let old := host_reg d a 1 in let new := host_reg d' a 1 in
  (forall i, 0 <= i < 16 -> Z.testbit new i =
     Z.testbit (host_bits a) i && (Z.testbit old i || (i =? 1) || (i =? 2))) /\
  (forall i, 16 <= i < 32 -> Z.testbit new i = false) /\
  (forall a' r, (a', r) <> (a, 1) -> host_reg d' a' r = host_reg d a' r).
Proof.
  intros Ha. cbv zeta. unfold enable_bus_master.
  destruct (gets_elim _ _ _ (config_read16_gets a 4 d Ha ltac:(lia) eq_refl)) as (d1 & -> & H1).
  destruct (gets_elim _ _ _ (config_read32_gets a 4 d1 Ha ltac:(lia))) as (d2 & -> & H2).
  assert (same d d2) as Hs by (by etransitivity).
  pose proof (host_reg_word d a 1) as Hw. set (old := host_reg d a 1) in *.
  assert (host_reg d1 a (4 / 4) = old) as -> by apply H1.
  assert (cfg16 d a 4 = old mod 2 ^ 16) as ->.
  { unfold cfg16. change (4 / 4) with 1. fold old. change (8 * (4 mod 4)) with 0. by rewrite Z.div_1_r. }
  rewrite bus_master_value by done.
  match goal with |- context [config_write32 a 4 ?v d2] => set (w := v) end.
  destruct (config_write32_spec a 4 w d2 Ha ltac:(lia)) as [Hn Hk]. change (4 / 4) with 1 in *.
  rewrite Hn, host_command, (Hs a 1). fold old. unfold w.
  assert (forall i, 0 <= i < 32 -> Z.testbit 0xFFFF i = (i <? 16)) as Hff.
  { intros i Hi. change 0xFFFF with (Z.ones 16). destruct (Z.ltb_spec i 16);
      [apply Z.ones_spec_low; lia | apply Z.ones_spec_high; lia]. }
  assert (forall i, 0 <= i < 32 -> Z.testbit 6 i = (i =? 1) || (i =? 2)) as H6.
  { intros i Hi. change 6 with (Z.lor (2 ^ 1) (2 ^ 2)).
    rewrite Z.lor_spec, !Z.pow2_bits_eqb, (Z.eqb_sym 1), (Z.eqb_sym 2) by lia. done. }
  split; [|split].
  - intros i Hi. rewrite Z.lor_spec, !Z.land_spec, wnot_spec, !Z.lor_spec, Hff, H6 by lia.
    replace (i <? 16) with true by lia. rewrite orb_true_r. simpl.
    rewrite andb_false_r, orb_false_r, andb_true_r. by rewrite andb_comm, orb_assoc.
  - intros i Hi. rewrite Z.lor_spec, !Z.land_spec, wnot_spec, !Z.lor_spec, Hff, H6 by lia.
    replace (i <? 16) with false by lia. rewrite !andb_false_r. simpl. destruct (Z.testbit old i); [|done].
    simpl. done.
  - intros a' r Hne. by rewrite Hk, Hs.
Qed.
End host.

(** * A host bridge for the witnesses *)

Record PciSim := mkPciSim { s_addr : Z; s_reg : PciAddr -> Z -> Z }.

Definition sim_fields (s : Z) : PciAddr * Z :=
  (mkPciAddr (s / 2 ^ 16 mod 2 ^ 8) (s / 2 ^ 11 mod 2 ^ 5) (s / 2 ^ 8 mod 2 ^ 3), s / 4 mod 64).

(** Every function implements the command bits 0 to 2. *)
Definition sim_store (r old v : Z) : Z :=
  if r =? 1 then Z.lor (Z.land v (Z.land 7 0xFFFF)) (Z.land old (wnot 32 (Z.lor v 0xFFFF))) else v.

#[export] Instance sim_ports : WidePorts PciSim := {|
  port_in16 _ d := (0xFFFF, d);
  port_out16 _ _ d := d;
  port_in32 p d :=
    if (p =? PCI_CONFIG_DATA) && Z.testbit (s_addr d) 31
    then (s_reg d (sim_fields (s_addr d)).1 (sim_fields (s_addr d)).2, d) else (0xFFFFFFFF, d);
  port_out32 p v d :=
    if p =? PCI_CONFIG_ADDR then mkPciSim v (s_reg d)
    else if (p =? PCI_CONFIG_DATA) && Z.testbit (s_addr d) 31 then
      let f := sim_fields (s_addr d) in
      mkPciSim (s_addr d) (fun a r => if decide ((a, r) = f) then sim_store r (wrap 32 (s_reg d a r)) v else s_reg d a r)
    else d;
|}.

Lemma sim_store_word old v : wrap 32 (sim_store 1 old v) = sim_store 1 old v.
Proof.
  apply wrap_small. unfold sim_store. rewrite Z.eqb_refl. apply in_word_lor.
  - rewrite Z.land_comm. by apply in_word_land.
  - rewrite Z.land_comm. apply in_word_land, wnot_in_word. lia.
Qed.

#[export] Program Instance sim_host : PciHost PciSim := {|
  host_addr := s_addr;
  host_reg := fun d a r => wrap 32 (s_reg d a r);
  host_store := fun _ r old v => wrap 32 (sim_store r old v);
  host_bits := fun _ => 7;
|}.
Next Obligation. intros. by apply wrap_in_word. Qed.
Next Obligation. done. Qed.
Next Obligation. intros d Hb. unfold inl. simpl in *. by rewrite Hb. Qed.
Next Obligation.
  intros v d Hb. unfold outl. simpl in *. rewrite Hb. simpl. split.
  - by rewrite decide_True.
  - intros a' r' Hne. by rewrite decide_False.
Qed.
Next Obligation. intros a old v. simpl. rewrite sim_store_word. done. Qed.

(** A machine with a single-function bridge at 0:0.0 and a disk controller at 0:31.2 behind a
    multi-function bridge at 0:31.0. *)
Definition demo_reg (a : PciAddr) (r : Z) : Z :=
  if decide (a = mkPciAddr 0 0 0) then
    match r with 0 => 0x12378086 | 2 => 0x06000002 | _ => 0 end
  else if decide (a = mkPciAddr 0 31 0) then
    match r with 0 => 0x29188086 | 2 => 0x06010002 | 3 => 0x00800000 | _ => 0 end
  else if decide (a = mkPciAddr 0 31 2) then
    match r with 0 => 0x29228086 | 1 => 0x02100001 | 2 => 0x01060102 | 9 => 0xFEBF1000 | _ => 0 end
  else 0xFFFFFFFF.

Definition demo_machine : PciSim := mkPciSim 0 demo_reg.

Lemma bar_mem_base_decodes_witness :
  addr_ok (mkPciAddr 0 31 2) /\ (bar_mem_base (mkPciAddr 0 31 2) 5 demo_machine).1 = 0xFEBF1000.
Proof.
  assert (addr_ok (mkPciAddr 0 31 2)) as Ha by (unfold addr_ok; simpl; lia).
  split; [exact Ha|].
  destruct (bar_mem_base_decodes (mkPciAddr 0 31 2) 5 demo_machine Ha) as [-> _]; [lia|]. by vm_compute.
Defined.

Lemma enable_bus_master_command_witness :
  let d' := enable_bus_master (mkPciAddr 0 31 2) demo_machine in
  Z.testbit (host_reg demo_machine (mkPciAddr 0 31 2) 1) 20 = true /\
  Z.testbit (host_reg d' (mkPciAddr 0 31 2) 1) 2 = true /\
  Z.testbit (host_reg d' (mkPciAddr 0 31 2) 1) 20 = false.
Proof.
  destruct (enable_bus_master_command (mkPciAddr 0 31 2) demo_machine) as (Hc & Hs & _);
    [unfold addr_ok; simpl; lia|].
  split; [by vm_compute|]. split; [by rewrite Hc by lia | by apply Hs].
Defined.

(** The enumeration of that machine. *)
Example demo_scan : addr <$> all_functions demo_machine = [mkPciAddr 0 0 0; mkPciAddr 0 31 0; mkPciAddr 0 31 2].
Proof. by vm_compute. Qed.
