(* ===== verification/Listing.v ===== *)
(** The listings printed at start-up: [dump] of [src/kern/drv/pci.rs] and
    [dump_root] of [src/kern/fs/ext3/mod.rs], over the console of [Serial]. *)
From Stdlib Require Import String Ascii.
From S2P Require Import Prelude Word Port Serial Utf8 Vfs Disk Ext3 Ext3Dir Pci.

Definition FT_REG_FILE : Z := 1.
Definition FT_DIR : Z := 2.
Definition FT_SYMLINK : Z := 7.

(** The statements for one device. *)
Definition device_line (dv : PciDevice) : list piece :=
  [Lit (text "  "); Hexa (bus (addr dv)); Lit (text ":"); Hexa (dev (addr dv)); Lit (text "."); Hexa (func (addr dv));
   Lit (text " "); Hexa (dev_vendor_id dv); Lit (text ":"); Hexa (dev_device_id dv);
   Lit (text " class="); Hexa (dev_class dv); Lit (text ":"); Hexa (dev_subclass dv); Lit (text ":");
   Hexa (dev_prog_if dv); Lit [10]].

(** The statements for one directory entry. *)
Definition entry_line (name : list Z) (ino ft : Z) : list piece :=
  [Lit (text "  ");
   Lit (if ft =? FT_DIR then text "[DIR] " else if ft =? FT_REG_FILE then text "[FIL] "
        else if ft =? FT_SYMLINK then text "[LNK] " else text "[???] ");
   Lit name; Lit (text " (ino="); Deca ino; Lit (text ")" ++ [10])].

Section code.
Context {C : Type} `{PortDevice C}.
Context (fuel : nat).

(** [for i in 0..cnt] *)
Definition dump (t : PciTable) (d : C) : outcome C :=
  for_range (fun i d =>
    e ← arr_get (devices t) i;
    match e with
    | Some dv => log fuel (device_line dv) d
    | None => Ret d
    end) 0 (count t) d.

(** The closure passed to [list_dir]; the console is its state. *)
Definition dump_entry (name : list Z) (ino ft : Z) (r : outcome C) : outcome C :=
  d ← r; log fuel (entry_line name ino ft) d.

Definition dump_root {H D} `{HeapOps H, Disk D} (fs : Ext3) (d : C) : M H D (outcome C) :=
  list_dir fs slash dump_entry (log fuel [Lit (text "ext3: / listing:" ++ [10])] d).
End code.

(** * What they print *)

(** A device whose fields have the width of their types. *)
Definition device_ok (dv : PciDevice) : Prop :=
  in_word 8 (bus (addr dv)) /\ in_word 8 (dev (addr dv)) /\ in_word 8 (func (addr dv)) /\
  in_word 16 (dev_vendor_id dv) /\ in_word 16 (dev_device_id dv) /\ in_word 8 (dev_class dv) /\
  in_word 8 (dev_subclass dv) /\ in_word 8 (dev_prog_if dv).

Lemma device_line_ok dv : device_ok dv -> Forall piece_ok (device_line dv).
Proof.
  intros (H1 & H2 & H3 & H4 & H5 & H6 & H7 & H8). unfold in_word in *.
  repeat constructor; simpl; unfold in_word; lia.
Qed.

Lemma lines_ok dvs : Forall device_ok dvs -> Forall piece_ok (mjoin (device_line <$> dvs)).
Proof.
  intros Hok. apply Forall_join, Forall_fmap. eapply Forall_impl; [exact Hok|]. exact device_line_ok.
Qed.

Section proof.
Context {C : Type} `{Uart C}.
Context (fuel : nat) (Hfuel : (uart_polls < fuel)%nat).

(** The table holds [dvs]. *)
Definition lists (t : PciTable) (dvs : list PciDevice) : Prop :=
  exists rest, devices t = (Some <$> dvs) ++ rest /\ count t = zlen dvs.

Lemma for_from_dump (t : PciTable) dvs done_ rest (d : C) : devices t = done_ ++ (Some <$> dvs) ++ rest ->
  for_from (fun i d => e ← arr_get (devices t) i;
    match e with Some dv => log fuel (device_line dv) d | None => Ret d end) (zlen done_) (length dvs) d =
  log fuel (mjoin (device_line <$> dvs)) d.
Proof.
  revert done_ d. induction dvs as [|dv dvs IH]; intros done_ d Ht; [done|].
  cbn [length for_from]. rewrite fmap_cons. cbn [mjoin list_join]. rewrite log_app.
  rewrite (arr_get_mid _ done_ ((Some <$> dvs) ++ rest) (Some dv)) by done. rewrite bind_ret.
  destruct (log fuel (device_line dv) d) as [d'|]; [|done]. rewrite !bind_ret.
  replace (zlen done_ + 1) with (zlen (done_ ++ [Some dv])) by (by rewrite zlen_app).
  apply IH. by rewrite Ht, fmap_cons, <- app_assoc.
Qed.

Lemma dump_log t dvs (d : C) : lists t dvs -> dump fuel t d = log fuel (mjoin (device_line <$> dvs)) d.
Proof.
  intros (rest & Ht & Hn). unfold dump, for_range. rewrite Hn. unfold zlen. rewrite Z.sub_0_r, Nat2Z.id.
  by apply (for_from_dump t dvs [] rest).
Qed.

(** [dump] prints one line per enumerated device, in the order of the table:
    bus, device and function, the two identifiers and the class triple, in hexadecimal. *)
Theorem dump_lists t dvs (d : C) : lists t dvs -> Forall device_ok dvs -> ready d ->
  logs (dump fuel t d) (mjoin (device_line <$> dvs)) d.
Proof. intros Ht Hok Hd. rewrite (dump_log t dvs) by done. apply log_logs; [done..|]. by apply lines_ok. Qed.

(** Directory entries in use. *)
Definition listed (items : list Item) : list Item := List.filter (fun it => negb (it_ino it =? 0)) items.

Definition item_line (it : Item) : list piece := entry_line (it_name it) (it_ino it) (it_type it).

Lemma spec_each_dump items (r : outcome C) l (d : C) : Forall item_ok items -> logs r l d ->
  logs (spec_each (dump_entry fuel) items r) (l ++ mjoin (item_line <$> listed items)) d.
Proof.
  intros Hok. unfold spec_each. revert r l. induction Hok as [|it items Hit Hok IH]; intros r l Hr.
  { simpl. by rewrite app_nil_r. }
  cbn [fold_left listed List.filter]. destruct (it_ino it =? 0); [by apply IH|]. cbn [negb].
  rewrite fmap_cons. cbn [mjoin list_join]. rewrite app_assoc. apply IH.
  apply logs_bind; [done|]. intros d' Hd'. apply log_logs; [done..|].
  pose proof (ok_ino it Hit). unfold in_word in *. repeat constructor; simpl; lia.
Qed.
End proof.

Section disk.
Context {H D : Type} {HO : HeapOps H} {HL : HeapLaws H} {DO : Disk D} {DL : DiskLaws D}.
Context (port nsec : Z) (img : Z -> Z) (own : list (Z * Z)).
Hypothesis img_bytes : forall i, in_word 8 (img i).
Context (sb : Superblock) (Hok : sb_ok sb) (max : Z) (Hmax : 2 ^ 26 <= max).

(** Listing the root: the callback sees the used entries in order, and every
    buffer is given back. *)
Lemma list_root_yields {S} L sbp i items (f : list Z -> Z -> Z -> S -> S) (s : S) :
  ample (H:=H) own max 3 L -> inode_at nsec img sb ROOT_INO = Some i -> is_dir i = true ->
  contents nsec img sb i (dir_of items) -> size i <= max -> Forall item_ok items ->
  yields (H:=H) (D:=D) port nsec img own L (list_dir (mkExt3 port sbp sb) slash f s) (spec_each f items s).
Proof.
  intros Ha Hi Hdir Hc Hsize Hitems. unfold list_dir. change (bool_decide (slash = []) || bool_decide (slash = slash)) with true. cbv iota.
  cbn [Ext3Dir.port Ext3Dir.sb].
  eapply triple_bind; [by apply (read_inode_yields port nsec img own img_bytes); [..|eapply ample_inode|right; exists i]|].
  intros r L' Hr. rewrite Hi in Hr. destruct Hr as (p & Hp & -> & -> & Hns).
  pose proof (c_size _ _ _ _ _ Hc) as Hs. pose proof (contents_len nsec img sb _ _ Hc) as Hlen.
  destruct (room_for_data own sb Hok max Hmax L p (size i) Ha ltac:(lia) Hns) as [R1 R2].
  eapply yields_bind.
  { unfold for_each_entry. unfold is_dir in Hdir. rewrite Hdir. cbn [negb].
    eapply triple_bind.
    { apply (read_contents port nsec img own img_bytes); [apply Hok | by eapply inode_at_roots | done..]. }
    intros r L' (q & Hq & -> & ->). eapply yields_bind.
    { apply yields_lift. change 0 with (zlen (@nil Z)).
      apply (each_entry_spec _ []); [done | done | lia | apply dir_fuel_enough]. }
    eapply triple_bind; [rewrite Hlen; apply triple_kfree|]. intros _ L' ->. by apply triple_ret. }
  eapply triple_bind; [apply triple_kfree|]. intros _ L' ->. by apply triple_ret.
Qed.

(** [dump_root] of a mounted disk prints the heading and one line for
    each entry in use of the root directory, in the directory's order: kind, name, inode number
    in decimal.  It never crashes and every buffer is given back. *)
Theorem dump_root_lists {C} `{Uart C} fuel L sbp i items (d : C) (s : H * D) : (uart_polls < fuel)%nat -> ready d ->
  St port nsec img own L s -> ample (H:=H) own max 3 L ->
  inode_at nsec img sb ROOT_INO = Some i -> is_dir i = true ->
  contents nsec img sb i (dir_of items) -> size i <= max -> Forall item_ok items ->
  exists d' s' o, dump_root fuel (mkExt3 port sbp sb) d s = Ret (Ret d', s') /\ St port nsec img own L s' /\
    ready d' /\ uart_sent d' = uart_sent d ++ o /\
    reads (Lit (text "ext3: / listing:" ++ [10]) :: mjoin (item_line <$> listed items)) o.
Proof.
  intros Hfuel Hd Hs Ha Hi Hdir Hc Hsize Hitems. unfold dump_root.
  set (r := log fuel _ d). assert (logs r [Lit (text "ext3: / listing:" ++ [10])] d) as Hr
    by (apply log_logs; [done.. | repeat constructor]).
  destruct (list_root_yields L sbp i items (dump_entry fuel) r Ha Hi Hdir Hc Hsize Hitems s Hs)
    as (x & s' & L' & Heq & Hs' & -> & ->).
  destruct (logs_returns _ _ _ (spec_each_dump fuel Hfuel items r _ d Hitems Hr)) as (d' & o & Hret & Hd' & Ho & Hout).
  exists d', s', o. rewrite Heq, Hret. done.
Qed.
End disk.

(** * Witnesses *)

Definition demo_device : PciDevice := mkPciDevice (mkPciAddr 0 31 2) 0x8086 0x2922 1 6 1.

Lemma dump_lists_witness : exists d',
  dump 3 (mkPciTable (Some demo_device :: replicate 63 None) 1) (mkUart [] 0 false) = Ret d' /\
  reads (device_line demo_device) (u_sent d').
Proof.
  destruct (@dump_lists Uart16550 _ uart_laws 3 (le_n 3) (mkPciTable (Some demo_device :: replicate 63 None) 1)
    [demo_device] (mkUart [] 0 false)) as (s & Hs & d' & Hd & _ & E).
  - by exists (replicate 63 None).
  - repeat constructor; unfold in_word; simpl; lia.
  - split; [done | simpl; lia].
  - exists d'. split; [exact Hd|]. simpl in E. rewrite E. rewrite <- (app_nil_r (device_line demo_device)). exact Hs.
Defined.

Lemma dump_root_lists_witness : exists d' s',
  dump_root 3 (mkExt3 0 0 demo_sb) (mkUart [] 0 false) demo_state = Ret (Ret d', s') /\
  reads (Lit (text "ext3: / listing:" ++ [10]) :: mjoin (item_line <$> listed demo_dir)) (u_sent d').
Proof.
  destruct (dump_root_lists 0 128 demo_byte [] demo_byte_word demo_sb demo_sb_ok (2 ^ 26) (Z.le_refl _) (C:=Uart16550)
    3 [] 0 demo_root demo_dir (mkUart [] 0 false) demo_state)
    as (d' & s' & o & Heq & _ & _ & Ho & Hr).
  - exact (le_n 3).
  - split; [done | simpl; lia].
  - exact demo_St.
  - apply demo_ample. lia.
  - by vm_compute.
  - by vm_compute.
  - apply demo_dir_contents.
  - by vm_compute.
  - repeat constructor; by vm_compute.
  - exists d', s'. split; [exact Heq|]. simpl in Ho. by rewrite Ho.
Defined.
