(* ===== verification/Ahci.v ===== *)
(** The AHCI disk driver, [src/kern/drv/disk/ahci.rs]: starting and stopping
    ports, building a command in memory, issuing it and waiting for it, sector
    reads, set-up of ports and of the controller.  The controller and the
    memory it reads and writes are the machine [D]; log lines are left out, what
    [identify_device] prints about the disk is its result. *)
From S2P Require Import Prelude Word Port PageSource Buddy Slab Mem Disk Pci.

Definition GHC_AE : Z := 2 ^ 31.
Definition PORT_CMD_ST : Z := 1.
Definition PORT_CMD_FRE : Z := 2 ^ 4.
Definition PORT_CMD_FR : Z := 2 ^ 14.
Definition PORT_CMD_CR : Z := 2 ^ 15.
Definition PORT_TFD_BSY : Z := 2 ^ 7.
Definition PORT_TFD_DRQ : Z := 2 ^ 3.
Definition PORT_TFD_ERR : Z := 1.
Definition SATA_SIG_ATA : Z := 0x00000101.
Definition FIS_TYPE_REG_H2D : Z := 0x27.
Definition ATA_CMD_IDENTIFY : Z := 0xEC.
Definition ATA_CMD_READ_DMA_EXT : Z := 0x25.
Definition MAX_PORTS : Z := 32.

(** Offsets of the fields of [HbaMemory]. *)
Definition hba_ghc : Z := 0x04.
Definition hba_pi : Z := 0x0C.
Definition hba_vs : Z := 0x10.
Definition hba_ports : Z := 0x100.
Definition size_of_HbaPort : Z := 0x80.

(** Offsets of the fields of [HbaPort]. *)
Definition port_clb : Z := 0x00.
Definition port_clbu : Z := 0x04.
Definition port_fb : Z := 0x08.
Definition port_fbu : Z := 0x0C.
Definition port_is : Z := 0x10.
Definition port_cmd : Z := 0x18.
Definition port_tfd : Z := 0x20.
Definition port_sig : Z := 0x24.
Definition port_ssts : Z := 0x28.
Definition port_serr : Z := 0x30.
Definition port_ci : Z := 0x38.

(** Offsets in [HbaCmdHeader], [HbaCmdTable], [HbaPrdtEntry] and [FisRegH2D]. *)
Definition hdr_flags : Z := 0.
Definition hdr_prdtl : Z := 2.
Definition hdr_prdbc : Z := 4.
Definition hdr_ctba : Z := 8.
Definition hdr_ctbau : Z := 12.
Definition table_prdt : Z := 0x80.
Definition size_of_HbaCmdTable : Z := 0x90.
Definition prdt_dba : Z := 0.
Definition prdt_dbau : Z := 4.
Definition prdt_reserved : Z := 8.
Definition prdt_dbc : Z := 12.
Definition fis_type : Z := 0.
Definition fis_flags : Z := 1.
Definition fis_command : Z := 2.
Definition fis_feature_lo : Z := 3.
Definition fis_lba0 : Z := 4.
Definition fis_lba1 : Z := 5.
Definition fis_lba2 : Z := 6.
Definition fis_device : Z := 7.
Definition fis_lba3 : Z := 8.
Definition fis_lba4 : Z := 9.
Definition fis_lba5 : Z := 10.
Definition fis_feature_hi : Z := 11.
Definition fis_count_lo : Z := 12.
Definition fis_count_hi : Z := 13.
Definition fis_icc : Z := 14.
Definition fis_control : Z := 15.

(** The bounds of the polling loops. *)
Definition READY_POLLS : nat := Z.to_nat 1000000.
Definition ISSUE_POLLS : nat := Z.to_nat 10000000.

Lemma polls_values : READY_POLLS = Z.to_nat 1000000 /\ ISSUE_POLLS = Z.to_nat 10000000.
Proof. split; reflexivity. Qed.
#[global] Opaque READY_POLLS ISSUE_POLLS.

(** The statics. *)
Record Ahci := mkAhci {
  ABAR : Z;
  ACTIVE_PORTS : Z;
  PORT_CLB : list Z;
  PORT_FB : list Z;
  PORT_CTBA : list Z;
  IDENTIFY_BUF : Z;
}.

Definition ahci_boot : Ahci :=
  mkAhci 0 0 (replicate (Z.to_nat MAX_PORTS) 0) (replicate (Z.to_nat MAX_PORTS) 0)
    (replicate (Z.to_nat MAX_PORTS) 0) 0.

(** The machine: 32-bit device registers by virtual address, memory by
    physical address. *)
Class HbaOps (D : Type) := {
  mmio_read : Z -> D -> Z * D;
  mmio_write : Z -> Z -> D -> D;
  ram : D -> Z -> Z;
  ram_write : Z -> list Z -> D -> D;
}.

Section driver.
Context {D : Type} {HO : HbaOps D}.
(** The offset of the direct map of physical memory. *)
Context (hhdm : Z).
Implicit Types (d : D) (s : Ahci).

Definition virt_to_phys (v : Z) : Z := v ⊟ hhdm.

(** A store through a pointer into the direct map. *)
Definition poke (v : Z) (bytes : list Z) d : D := ram_write (virt_to_phys v) bytes d.

(** [&raw mut ( *ABAR).ports[port]] *)
Definition port_ptr s (port : Z) : outcome Z :=
  if (0 <=? port) && (port <? 32) then Ret (ABAR s ⊞ hba_ports ⊞ port ⊠ size_of_HbaPort)
  else Crash IndexPanic.

(** The loop of [stop_port]. *)
Fixpoint poll_stopped (n : nat) (p : Z) d : D :=
  match n with
  | O => d
  | S n =>
      let '(c, d) := mmio_read (p ⊞ port_cmd) d in
      if (Z.land c PORT_CMD_CR =? 0) && (Z.land c PORT_CMD_FR =? 0) then d else poll_stopped n p d
  end.

Definition stop_port s (port : Z) d : outcome D :=
  p ← port_ptr s port;
  let '(cmd, d) := mmio_read (p ⊞ port_cmd) d in
  let cmd := Z.land cmd (wnot 32 PORT_CMD_ST) in
  let d := mmio_write (p ⊞ port_cmd) cmd d in
  let cmd := Z.land cmd (wnot 32 PORT_CMD_FRE) in
  let d := mmio_write (p ⊞ port_cmd) cmd d in
  Ret (poll_stopped READY_POLLS p d).

(** The loop of [start_port]. *)
Fixpoint poll_idle (n : nat) (p : Z) d : D :=
  match n with
  | O => d
  | S n =>
      let '(c, d) := mmio_read (p ⊞ port_cmd) d in
      if Z.land c PORT_CMD_CR =? 0 then d else poll_idle n p d
  end.

Definition start_port s (port : Z) d : outcome D :=
  p ← port_ptr s port;
  let d := poll_idle READY_POLLS p d in
  let '(cmd, d) := mmio_read (p ⊞ port_cmd) d in
  let cmd := Z.lor cmd PORT_CMD_FRE in
  let d := mmio_write (p ⊞ port_cmd) cmd d in
  let cmd := Z.lor cmd PORT_CMD_ST in
  Ret (mmio_write (p ⊞ port_cmd) cmd d).

Fixpoint poll_ready (n : nat) (p : Z) d : bool * D :=
  match n with
  | O => (false, d)
  | S n =>
      let '(tfd, d) := mmio_read (p ⊞ port_tfd) d in
      if Z.land tfd (Z.lor PORT_TFD_BSY PORT_TFD_DRQ) =? 0 then (true, d) else poll_ready n p d
  end.

Definition wait_port_ready s (port : Z) d : outcome (bool * D) :=
  p ← port_ptr s port; Ret (poll_ready READY_POLLS p d).

Fixpoint poll_done (n : nat) (p : Z) d : bool * D :=
  match n with
  | O => (false, d)
  | S n =>
      let '(ci, d) := mmio_read (p ⊞ port_ci) d in
      if Z.land ci 1 =? 0 then
        let '(tfd, d) := mmio_read (p ⊞ port_tfd) d in
        if negb (Z.land tfd PORT_TFD_ERR =? 0) then (false, d) else (true, d)
      else
        let '(is_, d) := mmio_read (p ⊞ port_is) d in
        if negb (Z.land is_ (wshl 32 1 30) =? 0) then (false, d) else poll_done n p d
  end.

Definition issue_command s (port : Z) d : outcome (bool * D) :=
  p ← port_ptr s port;
  let d := mmio_write (p ⊞ port_is) 0xFFFFFFFF d in
  let d := mmio_write (p ⊞ port_ci) 1 d in
  Ret (poll_done ISSUE_POLLS p d).

Definition setup_command s (port command lba count buf_phys buf_size : Z) (write : bool) d : outcome D :=
  clb ← arr_get (PORT_CLB s) port;
  ctba ← arr_get (PORT_CTBA s) port;
  let d := poke ctba (replicate (Z.to_nat size_of_HbaCmdTable) 0) d in
  let d := poke (clb ⊞ hdr_flags) (to_le 2 5) d in
  let d := if write then poke (clb ⊞ hdr_flags) (to_le 2 (Z.lor 5 (wshl 16 1 6))) d else d in
  let d := poke (clb ⊞ hdr_prdtl) (to_le 2 1) d in
  let d := poke (clb ⊞ hdr_prdbc) (to_le 4 0) d in
  let prdt := ctba ⊞ table_prdt in
  let d := poke (prdt ⊞ prdt_dba) (to_le 4 (wrap 32 buf_phys)) d in
  let d := poke (prdt ⊞ prdt_dbau) (to_le 4 (wrap 32 (wshr 64 buf_phys 32))) d in
  let d := poke (prdt ⊞ prdt_reserved) (to_le 4 0) d in
  let d := poke (prdt ⊞ prdt_dbc) (to_le 4 (wsub 32 buf_size 1)) d in
  let fis := ctba in
  let d := poke (fis ⊞ fis_type) [FIS_TYPE_REG_H2D] d in
  let d := poke (fis ⊞ fis_flags) [0x80] d in
  let d := poke (fis ⊞ fis_command) [command] d in
  let d := poke (fis ⊞ fis_device) [0x40] d in
  let d := poke (fis ⊞ fis_lba0) [wrap 8 (Z.land lba 0xFF)] d in
  let d := poke (fis ⊞ fis_lba1) [wrap 8 (Z.land (wshr 64 lba 8) 0xFF)] d in
  let d := poke (fis ⊞ fis_lba2) [wrap 8 (Z.land (wshr 64 lba 16) 0xFF)] d in
  let d := poke (fis ⊞ fis_lba3) [wrap 8 (Z.land (wshr 64 lba 24) 0xFF)] d in
  let d := poke (fis ⊞ fis_lba4) [wrap 8 (Z.land (wshr 64 lba 32) 0xFF)] d in
  let d := poke (fis ⊞ fis_lba5) [wrap 8 (Z.land (wshr 64 lba 40) 0xFF)] d in
  let d := poke (fis ⊞ fis_count_lo) [wrap 8 (Z.land count 0xFF)] d in
  let d := poke (fis ⊞ fis_count_hi) [wrap 8 (Z.land (wshr 16 count 8) 0xFF)] d in
  let d := poke (fis ⊞ fis_feature_lo) [0] d in
  let d := poke (fis ⊞ fis_feature_hi) [0] d in
  let d := poke (fis ⊞ fis_icc) [0] d in
  Ret (poke (fis ⊞ fis_control) [0] d).

Definition read_sectors s (port lba count buf : Z) d : outcome (bool * D) :=
  if MAX_PORTS <=? port then Ret (false, d) else
  if Z.land (ACTIVE_PORTS s) (wshl 32 1 port) =? 0 then Ret (false, d) else
  '(ready, d) ← wait_port_ready s port d;
  if negb ready then Ret (false, d) else
  let buf_phys := virt_to_phys buf in
  let byte_count := if count =? 0 then wmul 32 65536 512 else wmul 32 count 512 in
  d ← setup_command s port ATA_CMD_READ_DMA_EXT lba count buf_phys byte_count false d;
  issue_command s port d.

Definition active_ports s : Z := ACTIVE_PORTS s.

(** ** Identification *)

(** The 16-bit word [w] of a buffer. *)
Definition buf_word (buf w : Z) d : Z :=
  let a := virt_to_phys (buf ⊞ 2 ⊠ w) in ram d a + 256 * ram d (a ⊞ 1).

(** The printable characters of words [27..47], high byte first. *)
Definition model_chars (buf : Z) d : list Z :=
  zseq 27 20 ≫= fun w =>
    let val := buf_word buf w d in
    let hi := wrap 8 (wshr 16 val 8) in
    let lo := wrap 8 (Z.land val 0xFF) in
    (if (0x20 <=? hi) && (hi <=? 0x7E) then [hi] else []) ++
    (if (0x20 <=? lo) && (lo <=? 0x7E) then [lo] else []).

Definition identify_sectors (buf : Z) d : Z :=
  Z.lor (Z.lor (Z.lor (buf_word buf 100 d) (wshl 64 (buf_word buf 101 d) 16))
    (wshl 64 (buf_word buf 102 d) 32)) (wshl 64 (buf_word buf 103 d) 48).

(** What is printed: model, number of sectors, size in megabytes. *)
Definition identify_device s (port : Z) d : outcome (option (list Z * Z * Z) * D) :=
  let buf := IDENTIFY_BUF s in
  if buf =? 0 then Ret (None, d) else
  let d := poke buf (replicate (Z.to_nat 512) 0) d in
  let buf_phys := virt_to_phys buf in
  '(ready, d) ← wait_port_ready s port d;
  if negb ready then Ret (None, d) else
  d ← setup_command s port ATA_CMD_IDENTIFY 0 1 buf_phys 512 false d;
  '(ok, d) ← issue_command s port d;
  if negb ok then Ret (None, d) else
  let sectors := identify_sectors buf d in
  let size_mb := (sectors ⊠ 512) / (1024 * 1024) in
  Ret (Some (model_chars buf d, sectors, size_mb), d).

(** ** Initialisation *)

Context {H : Type} {HH : HeapOps H}.

Definition init_port s (port : Z) (h : H) d : outcome (bool * Ahci * H * D) :=
  d ← stop_port s port d;
  '(clb_virt, h) ← h_kmalloc_aligned 4096 4096 h;
  if clb_virt =? 0 then Ret (false, s, h, d) else
  let d := poke clb_virt (replicate (Z.to_nat 4096) 0) d in
  '(fb_virt, h) ← h_kmalloc_aligned 4096 4096 h;
  if fb_virt =? 0 then Ret (false, s, h, d) else
  let d := poke fb_virt (replicate (Z.to_nat 4096) 0) d in
  '(ct_virt, h) ← h_kmalloc_aligned 4096 4096 h;
  if ct_virt =? 0 then Ret (false, s, h, d) else
  let d := poke ct_virt (replicate (Z.to_nat 4096) 0) d in
  clbs ← arr_set (PORT_CLB s) port clb_virt;
  fbs ← arr_set (PORT_FB s) port fb_virt;
  ctbas ← arr_set (PORT_CTBA s) port ct_virt;
  let s := mkAhci (ABAR s) (ACTIVE_PORTS s) clbs fbs ctbas (IDENTIFY_BUF s) in
  let clb_phys := virt_to_phys clb_virt in
  let fb_phys := virt_to_phys fb_virt in
  let ct_phys := virt_to_phys ct_virt in
  p ← port_ptr s port;
  let d := mmio_write (p ⊞ port_clb) (wrap 32 clb_phys) d in
  let d := mmio_write (p ⊞ port_clbu) (wrap 32 (wshr 64 clb_phys 32)) d in
  let d := mmio_write (p ⊞ port_fb) (wrap 32 fb_phys) d in
  let d := mmio_write (p ⊞ port_fbu) (wrap 32 (wshr 64 fb_phys 32)) d in
  let d := poke (clb_virt ⊞ hdr_ctba) (to_le 4 (wrap 32 ct_phys)) d in
  let d := poke (clb_virt ⊞ hdr_ctbau) (to_le 4 (wrap 32 (wshr 64 ct_phys 32))) d in
  let d := mmio_write (p ⊞ port_serr) 0xFFFFFFFF d in
  let d := mmio_write (p ⊞ port_is) 0xFFFFFFFF d in
  d ← start_port s port d;
  Ret (true, s, h, d).

(** [ACTIVE_PORTS |= 1 << i] *)
Definition activate s (i : Z) : Ahci :=
  mkAhci (ABAR s) (Z.lor (ACTIVE_PORTS s) (wshl 32 1 i)) (PORT_CLB s) (PORT_FB s) (PORT_CTBA s) (IDENTIFY_BUF s).

(** The body of the loop over the ports in [init]. *)
Definition probe_port (pi i : Z) (st : Ahci * H * D) : outcome (Ahci * H * D) :=
  let '(s, h, d) := st in
  if Z.land pi (wshl 32 1 i) =? 0 then Ret (s, h, d) else
  p ← port_ptr s i;
  let '(ssts, d) := mmio_read (p ⊞ port_ssts) d in
  let det := Z.land ssts 0x0F in
  let ipm := Z.land (wshr 32 ssts 8) 0x0F in
  if negb (det =? 3) then Ret (s, h, d) else
  if negb (ipm =? 1) then Ret (s, h, d) else
  let '(sig, d) := mmio_read (p ⊞ port_sig) d in
  if negb (sig =? SATA_SIG_ATA) then Ret (s, h, d) else
  '(ok, s, h, d) ← init_port s i h d;
  if negb ok then Ret (s, h, d) else
  let s := activate s i in
  '(_, d) ← identify_device s i d;
  Ret (s, h, d).

Context {WP : WidePorts D}.

(** [map_mmio] works on the page tables, which are part of the machine. *)
Definition init (map_mmio : Z -> Z -> H * D -> outcome (Z * (H * D))) (t : PciTable) s (h : H) d :
    outcome (Ahci * H * D) :=
  '(id_buf, h) ← h_kmalloc_aligned 4096 4096 h;
  if id_buf =? 0 then Ret (s, h, d) else
  let s := mkAhci (ABAR s) (ACTIVE_PORTS s) (PORT_CLB s) (PORT_FB s) (PORT_CTBA s) id_buf in
  found ← find_by_class 0x01 0x06 0x01 t;
  match found with
  | None => Ret (s, h, d)
  | Some addr =>
      let d := enable_bus_master addr d in
      let '(abar_phys, d) := bar_mem_base addr 5 d in
      if abar_phys =? 0 then Ret (s, h, d) else
      let abar_phys_aligned := Z.land abar_phys (wnot 64 0xFFF) in
      let num_pages := (abar_phys ⊟ abar_phys_aligned ⊞ 0x1100 ⊞ 0xFFF) / 0x1000 in
      '(mapped, (h, d)) ← map_mmio abar_phys_aligned num_pages (h, d);
      if mapped =? 0 then Ret (s, h, d) else
      let abar_virt := mapped ⊞ (abar_phys ⊟ abar_phys_aligned) in
      let s := mkAhci abar_virt (ACTIVE_PORTS s) (PORT_CLB s) (PORT_FB s) (PORT_CTBA s) (IDENTIFY_BUF s) in
      let '(vs, d) := mmio_read (abar_virt ⊞ hba_vs) d in
      let '(ghc, d) := mmio_read (abar_virt ⊞ hba_ghc) d in
      let d := if Z.land ghc GHC_AE =? 0 then mmio_write (abar_virt ⊞ hba_ghc) (Z.lor ghc GHC_AE) d else d in
      let '(pi, d) := mmio_read (abar_virt ⊞ hba_pi) d in
      for_range (probe_port pi) 0 MAX_PORTS (s, h, d)
  end.
End driver.

(** * The controller

    What the AHCI specification says of the registers the driver touches, for
    one port: how far a stop has come, whether the device is busy, and the
    command in slot 0. *)

Inductive Job :=
  | Idle
  | Running (n : nat)   (* polls until it ends *)
  | Stuck.              (* issued, but the port does not process it *)

Record PortView := mkPortView {
  pv_clb : Z;           (* command list base *)
  pv_fb : Z;            (* FIS base *)
  pv_st : bool;
  pv_fre : bool;
  pv_drain : nat;       (* polls until CR and FR are clear after a stop *)
  pv_busy : nat;        (* polls until BSY and DRQ are clear *)
  pv_job : Job;
  pv_tfes : bool;       (* IS: task file error *)
  pv_halted : bool;     (* after an error, until ST is cleared *)
}.

Definition set_drain n v := mkPortView (pv_clb v) (pv_fb v) (pv_st v) (pv_fre v) n (pv_busy v) (pv_job v) (pv_tfes v) (pv_halted v).
Definition set_busy n v := mkPortView (pv_clb v) (pv_fb v) (pv_st v) (pv_fre v) (pv_drain v) n (pv_job v) (pv_tfes v) (pv_halted v).
Definition set_job j v := mkPortView (pv_clb v) (pv_fb v) (pv_st v) (pv_fre v) (pv_drain v) (pv_busy v) j (pv_tfes v) (pv_halted v).
Definition set_tfes b v := mkPortView (pv_clb v) (pv_fb v) (pv_st v) (pv_fre v) (pv_drain v) (pv_busy v) (pv_job v) b (pv_halted v).
Definition set_halted b v := mkPortView (pv_clb v) (pv_fb v) (pv_st v) (pv_fre v) (pv_drain v) (pv_busy v) (pv_job v) (pv_tfes v) b.
Definition set_bases clb fb v := mkPortView clb fb (pv_st v) (pv_fre v) (pv_drain v) (pv_busy v) (pv_job v) (pv_tfes v) (pv_halted v).
Definition set_run st fre n v := mkPortView (pv_clb v) (pv_fb v) st fre n (pv_busy v) (pv_job v) (pv_tfes v) (pv_halted v).

(** CR and FR are clear. *)
Definition settled (v : PortView) : bool :=
  negb (pv_st v) && negb (pv_fre v) && (match pv_drain v with O => true | S _ => false end).

(** ** Commands in memory *)

(** A little-endian number of [n] bytes. *)
Definition le (m : Z -> Z) (a : Z) (n : nat) : Z := from_le (m <$> zseq a n).

Record Command := mkCommand {
  cm_op : Z; cm_lba : Z; cm_count : Z; cm_buf : Z; cm_len : Z; cm_write : bool;
}.

(** The command that the controller finds in slot 0 of the list at [clb]; [None] when the
    header, the table or the single region descriptor is not legal.  The
    length of a region is stored less one, is even and at most 4 MiB: 22 bits. *)
Definition fetch (m : Z -> Z) (clb : Z) : option Command :=
  let flags := le m clb 2 in
  let ct := le m (clb + 8) 4 + 2 ^ 32 * le m (clb + 12) 4 in
  let dba := le m (ct + 0x80) 4 + 2 ^ 32 * le m (ct + 0x84) 4 in
  let dbc := le m (ct + 0x8C) 4 in
  if (flags mod 32 =? 5) && (le m (clb + 2) 2 =? 1) && (ct mod 128 =? 0) &&
     (m ct =? 0x27) && (m (ct + 1) =? 0x80) && (m (ct + 7) =? 0x40) &&
     (dba mod 2 =? 0) && (dbc mod 2 =? 1) && (dbc <? 2 ^ 22)
  then Some (mkCommand (m (ct + 2))
               (from_le [m (ct + 4); m (ct + 5); m (ct + 6); m (ct + 8); m (ct + 9); m (ct + 10)])
               (le m (ct + 12) 2) dba (dbc + 1) (Z.testbit flags 6))
  else None.

(** A transfer into memory. *)
Definition dma (m : Z -> Z) (a : Z) (data : list Z) (i : Z) : Z :=
  if (a <=? i) && (i <? a + zlen data) then default 0 (zget data (i - a)) else m i.

(** What a disk of [nsec] sectors with the bytes [img] and the identification [ident]
    delivers; [None] is an error. *)
Definition disk_answer (nsec : Z) (img : Z -> Z) (ident : list Z) (c : Command) : option (list Z) :=
  if cm_write c then None
  else if cm_op c =? ATA_CMD_READ_DMA_EXT then
    let n := if cm_count c =? 0 then 65536 else cm_count c in
    if cm_lba c + n <=? nsec then Some (img <$> zseq (cm_lba c * 512) (Z.to_nat (n * 512))) else None
  else if cm_op c =? ATA_CMD_IDENTIFY then Some ident
  else None.

(** ** Registers *)

Section registers.
Context (answer : Command -> option (list Z)) (polls : nat).
Implicit Types (v : PortView) (m : Z -> Z).

(** Reading the register at an offset: the value, the port afterwards and what
    memory becomes. *)
Inductive port_read : Z -> PortView -> (Z -> Z) -> Z -> PortView -> (Z -> Z) -> Prop :=
  | rd_cmd v m x : in_word 32 x ->
      Z.testbit x 0 = pv_st v -> Z.testbit x 4 = pv_fre v ->
      negb (Z.testbit x 15) && negb (Z.testbit x 14) = settled v ->
      port_read port_cmd v m x (set_drain (Nat.pred (pv_drain v)) v) m
  | rd_tfd v m x : in_word 32 x ->
      negb (Z.testbit x 7) && negb (Z.testbit x 3) = (match pv_busy v with O => true | S _ => false end) ->
      Z.testbit x 0 = pv_halted v ->
      port_read port_tfd v m x (set_busy (Nat.pred (pv_busy v)) v) m
  | rd_is v m x : in_word 32 x -> Z.testbit x 30 = pv_tfes v -> port_read port_is v m x v m
  | rd_ci_idle v m x : pv_job v = Idle -> Z.testbit x 0 = false -> port_read port_ci v m x v m
  | rd_ci_stuck v m x : pv_job v = Stuck -> Z.testbit x 0 = true -> port_read port_ci v m x v m
  | rd_ci_wait v m x n : pv_job v = Running (S n) -> Z.testbit x 0 = true ->
      port_read port_ci v m x (set_job (Running n) v) m
  | rd_ci_done v m x c data : pv_job v = Running O -> fetch m (pv_clb v) = Some c ->
      answer c = Some data -> zlen data <= cm_len c -> Z.testbit x 0 = false ->
      port_read port_ci v m x (set_job Idle v) (dma m (cm_buf c) data)
  | rd_ci_failed v m x c : pv_job v = Running O -> fetch m (pv_clb v) = Some c ->
      answer c = None -> Z.testbit x 0 = true ->
      port_read port_ci v m x (set_job Stuck (set_tfes true (set_halted true v))) m
  | rd_ci_illegal v m x v' m' : pv_job v = Running O ->
      (forall c data, fetch m (pv_clb v) = Some c -> answer c = Some data -> cm_len c < zlen data) ->
      (forall c, fetch m (pv_clb v) = Some c -> answer c <> None) ->
      port_read port_ci v m x v' m'
  | rd_ssts v m x : in_word 32 x -> port_read port_ssts v m x v m
  | rd_sig v m x : in_word 32 x -> port_read port_sig v m x v m.

(** Writing a register.  The bases may only be changed while the port is stopped, and a
    command only be issued while it runs: otherwise nothing is promised. *)
Inductive port_write : Z -> Z -> PortView -> PortView -> Prop :=
  | wr_cmd_run v x : Z.testbit x 0 = true ->
      port_write port_cmd x v (set_run true (Z.testbit x 4) (pv_drain v) v)
  | wr_cmd_stop v x n : Z.testbit x 0 = false -> (n <= polls)%nat ->
      port_write port_cmd x v
        (set_job Idle (set_halted false (set_run false (Z.testbit x 4) (if pv_st v || pv_fre v then n else pv_drain v) v)))
  | wr_is v x : port_write port_is x v (if Z.testbit x 30 then set_tfes false v else v)
  | wr_serr v x : port_write port_serr x v v
  | wr_ci_start v x n : Z.testbit x 0 = true -> pv_st v = true -> pv_fre v = true -> pv_halted v = false ->
      pv_job v = Idle -> (n <= polls)%nat -> port_write port_ci x v (set_job (Running n) v)
  | wr_ci_halted v x : Z.testbit x 0 = true -> pv_halted v = true -> port_write port_ci x v (set_job Stuck v)
  | wr_ci_none v x : Z.testbit x 0 = false -> port_write port_ci x v v
  | wr_ci_illegal v x v' : pv_halted v = false -> (pv_st v && pv_fre v = false \/ pv_job v <> Idle) ->
      port_write port_ci x v v'
  | wr_clb v x : settled v = true ->
      port_write port_clb x v (set_bases (pv_clb v / 2 ^ 32 * 2 ^ 32 + x) (pv_fb v) v)
  | wr_clbu v x : settled v = true ->
      port_write port_clbu x v (set_bases (x * 2 ^ 32 + pv_clb v mod 2 ^ 32) (pv_fb v) v)
  | wr_fb v x : settled v = true ->
      port_write port_fb x v (set_bases (pv_clb v) (pv_fb v / 2 ^ 32 * 2 ^ 32 + x) v)
  | wr_fbu v x : settled v = true ->
      port_write port_fbu x v (set_bases (pv_clb v) (x * 2 ^ 32 + pv_fb v mod 2 ^ 32) v)
  | wr_base_running off v x v' : settled v = false -> off ∈ [port_clb; port_clbu; port_fb; port_fbu] ->
      port_write off x v v'.
End registers.

(** The registers the driver reads and writes. *)
Definition read_regs : list Z := [port_cmd; port_tfd; port_is; port_ci; port_ssts; port_sig].
Definition write_regs : list Z :=
  [port_cmd; port_is; port_serr; port_ci; port_clb; port_clbu; port_fb; port_fbu].

Class Hba (D : Type) `{HbaOps D} := {
  hba_base : Z;                     (* virtual address of the registers *)
  hba_polls : nat;                  (* bound on the polls for one event *)
  hba_view : D -> Z -> PortView;
  hba_sectors : Z -> Z;
  hba_image : Z -> Z -> Z;
  hba_ident : Z -> list Z;
  hba_ident_len p : zlen (hba_ident p) = 512;
  hba_image_byte p i : in_word 8 (hba_image p i);
  hba_base_range : 0 < hba_base /\ hba_base + 0x1100 < 2 ^ 64;
  hba_read d p off : 0 <= p < 32 -> off ∈ read_regs ->
    let '(x, d') := mmio_read (hba_base + hba_ports + p * size_of_HbaPort + off) d in
    (exists m', port_read (disk_answer (hba_sectors p) (hba_image p) (hba_ident p)) off
                  (hba_view d p) (ram d) x (hba_view d' p) m' /\ forall i, ram d' i = m' i) /\
    (forall q, q <> p -> hba_view d' q = hba_view d q);
  hba_write d p off x : 0 <= p < 32 -> off ∈ write_regs -> in_word 32 x ->
    let d' := mmio_write (hba_base + hba_ports + p * size_of_HbaPort + off) x d in
    port_write hba_polls off x (hba_view d p) (hba_view d' p) /\
    (forall i, ram d' i = ram d i) /\ (forall q, q <> p -> hba_view d' q = hba_view d q);
  hba_ram_write a l d :
    (forall i, ram (ram_write a l d) i = dma (ram d) a l i) /\
    (forall q, hba_view (ram_write a l d) q = hba_view d q);
}.

(** * The polling loops *)

Section laws.
Context {D : Type} {HO : HbaOps D} {HB : Hba D}.
Implicit Types (d : D) (p : Z).

(** Everything but port [p] is as before; the memory is [m]. *)
Record frame (p : Z) (m : Z -> Z) d d' : Prop := {
  fr_ports q : q <> p -> hba_view d' q = hba_view d q;
  fr_ram i : ram d' i = m i;
}.

Lemma frame_trans p m d1 d2 d3 : frame p m d1 d2 -> frame p (ram d2) d2 d3 -> frame p m d1 d3.
Proof. intros [P1 R1] [P2 R2]. split; [intros q Hq; by rewrite P2, P1 | intros i; by rewrite R2, R1]. Qed.

(** A transfer after a step that leaves the memory alone. *)
Lemma frame_dma p a l d1 d2 d3 : frame p (ram d1) d1 d2 -> frame p (dma (ram d2) a l) d2 d3 ->
  frame p (dma (ram d1) a l) d1 d3.
Proof.
  intros [P1 R1] [P2 R2]. split; [intros q Hq; by rewrite P2, P1|].
  intros i. rewrite R2. unfold dma. by rewrite R1.
Qed.

Definition reg p off : Z := hba_base + hba_ports + p * size_of_HbaPort + off.

Lemma regs_small off : off ∈ read_regs ++ write_regs -> 0 <= off < 0x80.
Proof.
  intros Hin. assert (Forall (fun o => 0 <= o < 0x80) (read_regs ++ write_regs)) as Hf.
  { apply (bool_decide_unpack _). by vm_compute. }
  rewrite Forall_forall in Hf. by apply Hf.
Qed.

Lemma port_ptr_reg s p : ABAR s = hba_base -> 0 <= p < 32 ->
  exists a, port_ptr s p = Ret a /\ forall off, off ∈ read_regs ++ write_regs -> a ⊞ off = reg p off.
Proof.
  intros Hs Hp. unfold port_ptr. decide_tests. simpl. eexists. split; [done|].
  intros off Hoff. apply regs_small in Hoff. rewrite Hs. pose proof hba_base_range.
  unfold reg, hba_ports, size_of_HbaPort.
  rewrite (wmul_small 64 p 0x80) by (unfold in_word; lia).
  rewrite (wadd_small 64 hba_base 0x100) by (unfold in_word; lia).
  rewrite (wadd_small 64 (hba_base + 0x100) (p * 0x80)) by (unfold in_word; lia).
  apply wadd_small. unfold in_word. lia.
Qed.

(** Reading and writing registers of a port. *)
Lemma read_reg p off d : 0 <= p < 32 -> off ∈ read_regs ->
  exists x d' m', mmio_read (reg p off) d = (x, d') /\
    port_read (disk_answer (hba_sectors p) (hba_image p) (hba_ident p)) off
      (hba_view d p) (ram d) x (hba_view d' p) m' /\ frame p m' d d'.
Proof.
  intros Hp Hoff. pose proof (hba_read d p off Hp Hoff) as Hr. unfold reg.
  destruct (mmio_read _ d) as [x d']. destruct Hr as ((m' & Hr & Hm) & Hq).
  exists x, d', m'. split; [done|]. split; [done|]. by split.
Qed.

Lemma write_reg p off x d : 0 <= p < 32 -> off ∈ write_regs -> in_word 32 x ->
  let d' := mmio_write (reg p off) x d in
  port_write hba_polls off x (hba_view d p) (hba_view d' p) /\ frame p (ram d) d d'.
Proof.
  intros Hp Hoff Hx d'. destruct (hba_write d p off x Hp Hoff Hx) as (Hw & Hm & Hq).
  split; [exact Hw|]. by split.
Qed.

(** The one or two rules that apply to a register. *)
Ltac inv_reg H := inversion H; clear H; simplify_eq; try discriminate.

(** The tests of the code, on bits. *)
Lemma land_two x i j : 0 <= i -> 0 <= j -> (Z.land x (Z.lor (2 ^ i) (2 ^ j)) =? 0) =
  negb (Z.testbit x i) && negb (Z.testbit x j).
Proof.
  intros Hi Hj. rewrite Z.land_lor_distr_r, !land_pow2 by done.
  pose proof (Z.pow_pos_nonneg 2 i). pose proof (Z.pow_pos_nonneg 2 j).
  destruct (Z.testbit x i), (Z.testbit x j); simpl; rewrite ?Z.lor_0_r, ?Z.lor_0_l; try (apply Z.eqb_neq; lia); try done.
  apply Z.eqb_neq. intros [He _]%Z.lor_eq_0_iff. lia.
Qed.

Lemma land_one x i : 0 <= i -> (Z.land x (2 ^ i) =? 0) = negb (Z.testbit x i).
Proof.
  intros Hi. rewrite land_pow2 by done. pose proof (Z.pow_pos_nonneg 2 i).
  destruct (Z.testbit x i); [apply Z.eqb_neq; lia | done].
Qed.

Lemma read_tfd p d : 0 <= p < 32 -> exists x d', mmio_read (reg p port_tfd) d = (x, d') /\
  negb (Z.testbit x 7) && negb (Z.testbit x 3) = (pv_busy (hba_view d p) =? 0)%nat /\
  Z.testbit x 0 = pv_halted (hba_view d p) /\
  hba_view d' p = set_busy (Nat.pred (pv_busy (hba_view d p))) (hba_view d p) /\ frame p (ram d) d d'.
Proof.
  intros Hp. destruct (read_reg p port_tfd d Hp) as (x & d' & m' & He & Hr & Hf); [by right; left|].
  inv_reg Hr. exists x, d'. split_and!; try done. by destruct (pv_busy _).
Qed.

Lemma poll_ready_spec n a p d : 0 <= p < 32 -> a ⊞ port_tfd = reg p port_tfd ->
  exists d', frame p (ram d) d d' /\
    if (pv_busy (hba_view d p) <? n)%nat
    then poll_ready n a d = (true, d') /\ hba_view d' p = set_busy O (hba_view d p)
    else poll_ready n a d = (false, d') /\ hba_view d' p = set_busy (pv_busy (hba_view d p) - n)%nat (hba_view d p).
Proof.
  intros Hp Ha. revert d. induction n as [|n IH]; intros d; cbn [poll_ready].
  - exists d. split; [done|]. simpl. split; [done|]. rewrite Nat.sub_0_r. by destruct (hba_view d p).
  - rewrite Ha. destruct (read_tfd p d Hp) as (x & d1 & -> & Hbits & _ & Hv & Hf).
    unfold PORT_TFD_BSY, PORT_TFD_DRQ. rewrite land_two, Hbits by lia.
    destruct (pv_busy (hba_view d p)) as [|b] eqn:Hb.
    + exists d1. simpl. by split.
    + destruct (IH d1) as (d2 & Hf2 & H2). exists d2.
      split; [by eapply frame_trans|].
      rewrite Hv in H2. simpl in H2. change (S b <? S n)%nat with (b <? n)%nat. done.
Qed.

Lemma read_is p d : 0 <= p < 32 -> exists x d', mmio_read (reg p port_is) d = (x, d') /\
  Z.testbit x 30 = pv_tfes (hba_view d p) /\ hba_view d' p = hba_view d p /\ frame p (ram d) d d'.
Proof.
  intros Hp. destruct (read_reg p port_is d Hp) as (x & d' & m' & He & Hr & Hf); [by do 2 right; left|].
  inv_reg Hr. by exists x, d'.
Qed.

(** The rules for the command register, by what slot 0 holds. *)
Lemma port_read_ci ans v m x v' m' : port_read ans port_ci v m x v' m' ->
  match pv_job v with
  | Idle => Z.testbit x 0 = false /\ v' = v /\ m' = m
  | Stuck => Z.testbit x 0 = true /\ v' = v /\ m' = m
  | Running (S n) => Z.testbit x 0 = true /\ v' = set_job (Running n) v /\ m' = m
  | Running O => forall c, fetch m (pv_clb v) = Some c ->
      match ans c with
      | Some data => zlen data <= cm_len c ->
          Z.testbit x 0 = false /\ v' = set_job Idle v /\ m' = dma m (cm_buf c) data
      | None => Z.testbit x 0 = true /\ v' = set_job Stuck (set_tfes true (set_halted true v)) /\ m' = m
      end
  end.
Proof.
  remember port_ci as off eqn:Hoff. intros Hr. destruct Hr; try discriminate Hoff; repeat
    match goal with Hj : pv_job v = _ |- _ => rewrite Hj; clear Hj end; try done.
  - intros c' Hc'. simplify_eq. match goal with Ha : ans _ = Some _ |- _ => by rewrite Ha end.
  - intros c' Hc'. simplify_eq. match goal with Ha : ans _ = None |- _ => by rewrite Ha end.
  - intros c Hc. destruct (ans c) as [data|] eqn:Ha; [|naive_solver].
    intros Hl. match goal with Hb : forall c data, _ -> _ -> cm_len c < _ |- _ => specialize (Hb c data Hc Ha) end.
    lia.
Qed.

Lemma read_ci p d : 0 <= p < 32 -> exists x d' m', mmio_read (reg p port_ci) d = (x, d') /\
  port_read (disk_answer (hba_sectors p) (hba_image p) (hba_ident p)) port_ci
    (hba_view d p) (ram d) x (hba_view d' p) m' /\ frame p m' d d'.
Proof. intros Hp. apply (read_reg p port_ci d Hp). by do 3 right; left. Qed.

Lemma le_ext m m' a n : (forall i, m i = m' i) -> le m a n = le m' a n.
Proof. intros He. unfold le. f_equal. by apply list_fmap_ext. Qed.

Lemma fetch_ext m m' clb : (forall i, m i = m' i) -> fetch m clb = fetch m' clb.
Proof.
  intros He. unfold fetch. pose proof (fun a n => le_ext m m' a n He) as Hl. rewrite !Hl, !He. done.
Qed.

Lemma dma_ext m m' a data i : (forall i, m i = m' i) -> dma m a data i = dma m' a data i.
Proof. intros He. unfold dma. by rewrite He. Qed.

Section issue.
Context (p a : Z) (Hp : 0 <= p < 32).
Context (Hreg : forall off, off ∈ read_regs ++ write_regs -> a ⊞ off = reg p off).

Abbreviation answer := (disk_answer (hba_sectors p) (hba_image p) (hba_ident p)).

Lemma reg_ci : a ⊞ port_ci = reg p port_ci.
Proof. apply Hreg. by do 3 right; left. Qed.
Lemma reg_tfd : a ⊞ port_tfd = reg p port_tfd.
Proof. apply Hreg. by right; left. Qed.
Lemma reg_is : a ⊞ port_is = reg p port_is.
Proof. apply Hreg. by do 2 right; left. Qed.

(** A command that the disk carries out. *)
Lemma poll_done_ok n d k c data : (k < n)%nat ->
  pv_job (hba_view d p) = Running k -> pv_busy (hba_view d p) = O ->
  pv_halted (hba_view d p) = false -> pv_tfes (hba_view d p) = false ->
  fetch (ram d) (pv_clb (hba_view d p)) = Some c -> answer c = Some data -> zlen data <= cm_len c ->
  exists d', poll_done n a d = (true, d') /\ hba_view d' p = set_job Idle (hba_view d p) /\
    frame p (dma (ram d) (cm_buf c) data) d d'.
Proof.
  revert d k. induction n as [|n IH]; intros d k Hk Hjob Hbusy Hhalt Htfes Hfetch Hans Hlen; [lia|].
  cbn [poll_done]. rewrite reg_ci. destruct (read_ci p d Hp) as (x & d1 & m1 & -> & Hr & Hf).
  change (Z.land x 1) with (Z.land x (2 ^ 0)). rewrite land_one by lia.
  apply port_read_ci in Hr. rewrite Hjob in Hr. destruct k as [|k].
  - specialize (Hr c Hfetch). rewrite Hans in Hr. destruct (Hr Hlen) as (-> & Hv1 & ->). simpl.
    rewrite reg_tfd. destruct (read_tfd p d1 Hp) as (y & d2 & -> & _ & Hy & Hv & Hf2). rewrite Hv1 in *.
    change PORT_TFD_ERR with (2 ^ 0). rewrite land_one, Hy by lia. simpl. rewrite Hhalt. simpl.
    exists d2. split; [done|]. split.
    + rewrite Hv. unfold set_busy, set_job. simpl. by rewrite Hbusy.
    + by eapply frame_trans.
  - destruct Hr as (-> & Hv1 & ->). simpl.
    rewrite reg_is. destruct (read_is p d1 Hp) as (y & d2 & -> & Hy & Hv & Hf2). rewrite Hv1 in *.
    change (wshl 32 1 30) with (2 ^ 30). rewrite land_one, Hy by lia. simpl. rewrite Htfes. simpl.
    assert (frame p (ram d) d d2) as Hf12 by (by eapply frame_trans).
    destruct (IH d2 k) as (d3 & He & Hv3 & Hf3); rewrite ?Hv; try done; [lia | erewrite fetch_ext; [done | apply Hf12]|].
    exists d3. split; [done|]. rewrite Hv in Hv3. split; [by rewrite Hv3|]. by eapply frame_dma.
Qed.

(** A command that fails: the port reports the error and stops. *)
Lemma poll_done_failed n d k c : (k < n)%nat ->
  pv_job (hba_view d p) = Running k -> pv_tfes (hba_view d p) = false ->
  fetch (ram d) (pv_clb (hba_view d p)) = Some c -> answer c = None ->
  exists d', poll_done n a d = (false, d') /\
    hba_view d' p = set_job Stuck (set_tfes true (set_halted true (hba_view d p))) /\ frame p (ram d) d d'.
Proof.
  revert d k. induction n as [|n IH]; intros d k Hk Hjob Htfes Hfetch Hans; [lia|].
  cbn [poll_done]. rewrite reg_ci. destruct (read_ci p d Hp) as (x & d1 & m1 & -> & Hr & Hf).
  change (Z.land x 1) with (Z.land x (2 ^ 0)). rewrite land_one by lia.
  apply port_read_ci in Hr. rewrite Hjob in Hr.
  assert (Z.testbit x 0 = true) as Hx0.
  { destruct k; [specialize (Hr c Hfetch); rewrite Hans in Hr|]; apply Hr. }
  rewrite Hx0. simpl. rewrite reg_is.
  destruct (read_is p d1 Hp) as (y & d2 & -> & Hy & Hv & Hf2).
  change (wshl 32 1 30) with (2 ^ 30). rewrite land_one, Hy by lia. destruct k as [|k].
  - specialize (Hr c Hfetch). rewrite Hans in Hr. destruct Hr as (_ & Hv1 & ->). rewrite Hv1 in *. simpl.
    exists d2. split; [done|]. split; [done|]. by eapply frame_trans.
  - destruct Hr as (_ & Hv1 & ->). rewrite Hv1 in *. simpl. rewrite Htfes. simpl.
    assert (frame p (ram d) d d2) as Hf12 by (by eapply frame_trans).
    destruct (IH d2 k) as (d3 & He & Hv3 & Hf3); rewrite ?Hv; try done; [lia | erewrite fetch_ext; [done | apply Hf12]|].
    exists d3. split; [done|]. rewrite Hv in Hv3. split; [by rewrite Hv3|].
    eapply frame_trans; [exact Hf12|]. done.
Qed.

(** A command the port does not process: the poll runs out. *)
Lemma poll_done_stuck n d : pv_job (hba_view d p) = Stuck -> pv_tfes (hba_view d p) = false ->
  exists d', poll_done n a d = (false, d') /\ hba_view d' p = hba_view d p /\ frame p (ram d) d d'.
Proof.
  revert d. induction n as [|n IH]; intros d Hjob Htfes; cbn [poll_done].
  { by exists d. }
  rewrite reg_ci. destruct (read_ci p d Hp) as (x & d1 & m1 & -> & Hr & Hf).
  change (Z.land x 1) with (Z.land x (2 ^ 0)). rewrite land_one by lia.
  apply port_read_ci in Hr. rewrite Hjob in Hr. destruct Hr as (-> & Hv1 & ->). simpl. rewrite reg_is.
  destruct (read_is p d1 Hp) as (y & d2 & -> & Hy & Hv & Hf2). rewrite Hv1 in *.
  change (wshl 32 1 30) with (2 ^ 30). rewrite land_one, Hy, Htfes by lia. simpl.
  destruct (IH d2) as (d3 & He & Hv3 & Hf3); rewrite ?Hv; try done.
  exists d3. split; [done|]. rewrite Hv in Hv3. split; [done|].
  eapply frame_trans; [|exact Hf3]. by eapply frame_trans.
Qed.
End issue.
(** * Building a command *)

Section setup.
Context (hhdm clb ctba : Z).

(** Header and table lie in the direct map and do not overlap. *)
Record blocks_ok : Prop := {
  bo_hhdm : 0 <= hhdm;
  bo_clb : hhdm <= clb /\ clb + 4096 < 2 ^ 64;
  bo_ctba : hhdm <= ctba /\ ctba + 4096 < 2 ^ 64;
  bo_disjoint : clb + 4096 <= ctba \/ ctba + 4096 <= clb;
}.

Context (Hok : blocks_ok).

(** Stores are at an offset of the header ([false]) or of the table ([true]). *)
Definition base (b : bool) : Z := (if b then ctba else clb) - hhdm.

Definition written (m : Z -> Z) (ws : list (bool * Z * list Z)) : Z -> Z :=
  fold_left (fun m '(b, o, l) => dma m (base b + o) l) ws m.

Definition look (ws : list (bool * Z * list Z)) (b : bool) (k : Z) : option Z :=
  fold_left (fun r '(b', o, l) =>
    if Bool.eqb b b' && (o <=? k) && (k <? o + zlen l) then Some (default 0 (zget l (k - o))) else r) ws None.

Definition inside (w : bool * Z * list Z) : Prop := 0 <= w.1.2 /\ w.1.2 + zlen w.2 <= 4096.

Lemma dma_at m b o l b' k : inside (b, o, l) -> 0 <= k < 4096 ->
  dma m (base b + o) l (base b' + k) =
  if Bool.eqb b' b && (o <=? k) && (k <? o + zlen l) then default 0 (zget l (k - o)) else m (base b' + k).
Proof.
  intros [Ho Hl] Hk. simpl in *. destruct Hok as [_ _ _ Hd]. unfold dma.
  pose proof (zlen_nonneg l).
  destruct (Bool.eqb b' b) eqn:He; cbn [andb].
  - apply Bool.eqb_prop in He as ->.
    replace (base b + o <=? base b + k) with (o <=? k) by (apply Bool.eq_iff_eq_true; rewrite !Z.leb_le; lia).
    replace (base b + k <? base b + o + zlen l) with (k <? o + zlen l)
      by (apply Bool.eq_iff_eq_true; rewrite !Z.ltb_lt; lia).
    by replace (base b + k - (base b + o)) with (k - o) by lia.
  - assert (base b' + k < base b + o \/ base b + o + zlen l <= base b' + k) as Hout.
    { unfold base. destruct b, b'; simpl in He; try discriminate; lia. }
    case_match; [lia | done].
Qed.

Lemma written_look m ws b k : Forall inside ws -> 0 <= k < 4096 ->
  written m ws (base b + k) = default (m (base b + k)) (look ws b k).
Proof.
  intros Hws Hk. unfold written, look.
  assert (forall r m', m' (base b + k) = default (m (base b + k)) r ->
    fold_left (fun m '(b, o, l) => dma m (base b + o) l) ws m' (base b + k) =
    default (m (base b + k)) (fold_left (fun r '(b', o, l) =>
      if Bool.eqb b b' && (o <=? k) && (k <? o + zlen l) then Some (default 0 (zget l (k - o))) else r) ws r)) as Hg.
  { induction Hws as [|[[b' o] l] ws Hw Hws IH]; intros r m' Hm'; simpl; [done|].
    apply IH. rewrite dma_at by done. by destruct (_ && _ && _). }
  by apply Hg.
Qed.

(** Bytes outside both blocks. *)
Lemma written_out m ws i : Forall inside ws ->
  ~ base true <= i < base true + 4096 -> ~ base false <= i < base false + 4096 -> written m ws i = m i.
Proof.
  intros Hws Ht Hh. unfold written. revert m. induction Hws as [|[[b o] l] ws [Ho Hl] Hws IH]; intros m; simpl; [done|].
  rewrite IH. unfold dma. simpl in *. case_match; [|done]. destruct b; lia.
Qed.

(** The effect of stores, from the machine [d0]. *)
Definition stored d0 (ws : list (bool * Z * list Z)) d : Prop :=
  (forall i, ram d i = written (ram d0) ws i) /\ (forall q, hba_view d q = hba_view d0 q).

Lemma stored_nil d : stored d [] d.
Proof. done. Qed.

Lemma stored_poke d0 ws d b o l v : stored d0 ws d -> virt_to_phys hhdm v = base b + o ->
  stored d0 (ws ++ [(b, o, l)]) (poke hhdm v l d).
Proof.
  intros [Hr Hv] Ha. unfold poke. rewrite Ha. destruct (hba_ram_write (base b + o) l d) as [Hw Hq].
  split; [|intros q; by rewrite Hq]. intros i. rewrite Hw. unfold written. rewrite fold_left_app. simpl.
  unfold dma. by rewrite Hr.
Qed.

Lemma phys_off v o : 0 <= o -> hhdm <= v -> v + o < 2 ^ 64 -> virt_to_phys hhdm (v ⊞ o) = v - hhdm + o.
Proof.
  intros Ho Hv Hs. pose proof (bo_hhdm Hok). unfold virt_to_phys.
  rewrite (wadd_small 64 v), wsub_small by (unfold in_word; lia). lia.
Qed.

(** Peel the last store off a literal list of stores. *)
Ltac snoc_stores :=
  lazymatch goal with
  | |- stored _ ?ws (poke _ _ _ _) =>
      let ws' := eval cbv [List.removelast] in (List.removelast ws) in
      let x := eval cbv [List.last] in (List.last ws (true, 0, [])) in
      change ws with (ws' ++ [x])
  end.

(** The stores of [setup_command]. *)
Definition command_stores (command lba count buf size : Z) (write : bool) : list (bool * Z * list Z) :=
  [(true, 0, replicate 144 0); (false, 0, to_le 2 5)] ++
  (if write then [(false, 0, to_le 2 (Z.lor 5 (wshl 16 1 6)))] else []) ++
  [(false, 2, to_le 2 1); (false, 4, to_le 4 0);
   (true, 128, to_le 4 (wrap 32 buf)); (true, 132, to_le 4 (wrap 32 (wshr 64 buf 32)));
   (true, 136, to_le 4 0); (true, 140, to_le 4 (wsub 32 size 1));
   (true, 0, [0x27]); (true, 1, [0x80]); (true, 2, [command]); (true, 7, [0x40]);
   (true, 4, [wrap 8 (Z.land lba 0xFF)]); (true, 5, [wrap 8 (Z.land (wshr 64 lba 8) 0xFF)]);
   (true, 6, [wrap 8 (Z.land (wshr 64 lba 16) 0xFF)]); (true, 8, [wrap 8 (Z.land (wshr 64 lba 24) 0xFF)]);
   (true, 9, [wrap 8 (Z.land (wshr 64 lba 32) 0xFF)]); (true, 10, [wrap 8 (Z.land (wshr 64 lba 40) 0xFF)]);
   (true, 12, [wrap 8 (Z.land count 0xFF)]); (true, 13, [wrap 8 (Z.land (wshr 16 count 8) 0xFF)]);
   (true, 3, [0]); (true, 11, [0]); (true, 14, [0]); (true, 15, [0])].

Lemma setup_command_stores s port command lba count buf size write d :
  arr_get (PORT_CLB s) port = Ret clb -> arr_get (PORT_CTBA s) port = Ret ctba ->
  exists d', setup_command hhdm s port command lba count buf size write d = Ret d' /\
    stored d (command_stores command lba count buf size write) d'.
Proof.
  intros Hclb Hct. unfold setup_command. rewrite Hclb, Hct, !bind_ret. eexists. split; [reflexivity|].
  pose proof (bo_clb Hok). pose proof (bo_ctba Hok). pose proof (bo_hhdm Hok).
  assert (forall o, 0 <= o < 4096 -> virt_to_phys hhdm (ctba ⊞ o) = base true + o) as Ht
    by (intros o Ho; apply phys_off; lia).
  assert (forall o, 0 <= o < 4096 -> virt_to_phys hhdm (clb ⊞ o) = base false + o) as Hh
    by (intros o Ho; apply phys_off; lia).
  assert (forall o o', 0 <= o < 2048 -> 0 <= o' < 2048 -> virt_to_phys hhdm (ctba ⊞ o ⊞ o') = base true + (o + o')) as Hp.
  { intros o o' Ho Ho'. rewrite (wadd_small 64 ctba) by (unfold in_word; lia).
    rewrite phys_off by lia. unfold base. lia. }
  assert (virt_to_phys hhdm ctba = base true + 0) as Ht0.
  { rewrite <- Ht by lia. f_equal. rewrite wadd_small by (unfold in_word; lia). lia. }
  unfold command_stores. destruct write; cbn [app]; repeat (snoc_stores; apply stored_poke);
    first [apply stored_nil | exact Ht0 | apply Ht; lia | apply Hh; lia
      | apply (Hp 128 0); lia | apply (Hp 128 4); lia | apply (Hp 128 8); lia | apply (Hp 128 12); lia].
Qed.

Lemma command_stores_inside command lba count buf size write :
  Forall inside (command_stores command lba count buf size write).
Proof. unfold command_stores. destruct write; repeat constructor; by vm_compute. Qed.

(** A byte and a number in a block after stores. *)
Lemma written_le m ws b o n : Forall inside ws -> 0 <= o -> o + Z.of_nat n <= 4096 ->
  le (written m ws) (base b + o) n =
  from_le ((fun k => default (m (base b + k)) (look ws b k)) <$> zseq o n).
Proof.
  intros Hws Ho Hn. unfold le. f_equal. revert o Ho Hn. induction n as [|n IH]; intros o Ho Hn; simpl; [done|].
  rewrite written_look by (done || lia). f_equal. rewrite <- Z.add_assoc. apply IH; lia.
Qed.

Lemma look_le m ws b o n l : Forall inside ws -> 0 <= o -> o + Z.of_nat n <= 4096 ->
  look ws b <$> zseq o n = Some <$> l -> le (written m ws) (base b + o) n = from_le l.
Proof.
  intros Hws Ho Hn Hl. rewrite written_le by done. f_equal.
  assert (forall ks l : list Z, look ws b <$> ks = Some <$> l ->
    (fun k => default (m (base b + k)) (look ws b k)) <$> ks = l) as Hg; [|by apply Hg].
  clear. induction ks as [|k ks IH]; intros [|x l] Hl; simpl in *; try done.
  injection Hl as Hx Hl. rewrite Hx. simpl. f_equal. by apply IH.
Qed.

Lemma look_le_none m ws b o n : Forall inside ws -> 0 <= o -> o + Z.of_nat n <= 4096 ->
  look ws b <$> zseq o n = replicate n None -> le (written m ws) (base b + o) n = le m (base b + o) n.
Proof.
  intros Hws Ho Hn Hl. rewrite written_le by done. unfold le. f_equal.
  clear Hn. revert o Ho Hl. induction n as [|n IH]; intros o Ho Hl; simpl in *; [done|].
  injection Hl as Hx Hl. rewrite Hx. simpl. f_equal. rewrite IH by (done || lia).
  by rewrite <- Z.add_assoc.
Qed.

Lemma look_byte m ws b k x : Forall inside ws -> 0 <= k < 4096 -> look ws b k = Some x ->
  written m ws (base b + k) = x.
Proof. intros Hws Hk Hx. rewrite written_look by done. by rewrite Hx. Qed.

(** What [setup_command] leaves where the controller looks. *)
Definition lba_byte (lba k : Z) : Z := wrap 8 (Z.land (wshr 64 lba k) 0xFF).

Lemma command_fields command lba count buf size write :
  let look := look (command_stores command lba count buf size write) in
  (look false <$> zseq 0 2 = Some <$> to_le 2 (if write then 69 else 5) /\
   look false <$> zseq 2 2 = Some <$> to_le 2 1 /\
   look false <$> zseq 8 4 = replicate 4 None /\ look false <$> zseq 12 4 = replicate 4 None) /\
  (look true 0 = Some 0x27 /\ look true 1 = Some 0x80 /\ look true 2 = Some command /\ look true 7 = Some 0x40) /\
  (look true 4 = Some (wrap 8 (Z.land lba 0xFF)) /\ look true 5 = Some (lba_byte lba 8) /\
   look true 6 = Some (lba_byte lba 16) /\ look true 8 = Some (lba_byte lba 24) /\
   look true 9 = Some (lba_byte lba 32) /\ look true 10 = Some (lba_byte lba 40)) /\
  (look true <$> zseq 12 2 = Some <$> [wrap 8 (Z.land count 0xFF); wrap 8 (Z.land (wshr 16 count 8) 0xFF)]) /\
  (look true <$> zseq 128 4 = Some <$> to_le 4 (wrap 32 buf) /\
   look true <$> zseq 132 4 = Some <$> to_le 4 (wrap 32 (wshr 64 buf 32)) /\
   look true <$> zseq 140 4 = Some <$> to_le 4 (wsub 32 size 1)).
Proof.
  unfold command_stores, lba_byte.
  assert (forall x, exists a b c e, to_le 4 x = [a; b; c; e]) as H4 by (intros x; by do 4 eexists).
  destruct (H4 (wrap 32 buf)) as (a1 & b1 & c1 & e1 & ->).
  destruct (H4 (wrap 32 (wshr 64 buf 32))) as (a2 & b2 & c2 & e2 & ->).
  destruct (H4 (wsub 32 size 1)) as (a3 & b3 & c3 & e3 & ->).
  generalize (wrap 8 (Z.land lba 0xFF)), (wrap 8 (Z.land (wshr 64 lba 8) 0xFF)),
    (wrap 8 (Z.land (wshr 64 lba 16) 0xFF)), (wrap 8 (Z.land (wshr 64 lba 24) 0xFF)),
    (wrap 8 (Z.land (wshr 64 lba 32) 0xFF)), (wrap 8 (Z.land (wshr 64 lba 40) 0xFF)),
    (wrap 8 (Z.land count 0xFF)), (wrap 8 (Z.land (wshr 16 count 8) 0xFF)).
  intros. destruct write; split_and!; vm_compute; reflexivity.
Qed.

Lemma lba_bytes lba : in_word 48 lba ->
  from_le [wrap 8 (Z.land lba 0xFF); lba_byte lba 8; lba_byte lba 16; lba_byte lba 24; lba_byte lba 32; lba_byte lba 40] = lba.
Proof.
  intros Hlba. rewrite <- (from_le_to_le 6 lba) at 7 by done. f_equal. unfold lba_byte.
  assert (forall x, wrap 8 (Z.land x 0xFF) = x mod 256) as Hb.
  { intros x. change 0xFF with (Z.ones 8). rewrite Z.land_ones by lia. unfold wrap. by rewrite Z.mod_mod. }
  rewrite !Hb, !wshr_div by lia. cbn [to_le]. rewrite !Z.div_div by lia. done.
Qed.

Lemma count_bytes count : in_word 16 count ->
  from_le [wrap 8 (Z.land count 0xFF); wrap 8 (Z.land (wshr 16 count 8) 0xFF)] = count.
Proof.
  intros Hc. rewrite <- (from_le_to_le 2 count) at 3 by done. f_equal.
  assert (forall x, wrap 8 (Z.land x 0xFF) = x mod 256) as Hb.
  { intros x. change 0xFF with (Z.ones 8). rewrite Z.land_ones by lia. unfold wrap. by rewrite Z.mod_mod. }
  rewrite !Hb, wshr_div by lia. done.
Qed.

Lemma buf_halves buf : in_word 64 buf ->
  from_le (to_le 4 (wrap 32 buf)) + 2 ^ 32 * from_le (to_le 4 (wrap 32 (wshr 64 buf 32))) = buf.
Proof.
  intros [H1 H2]. rewrite !from_le_to_le by (apply wrap_in_word; lia). rewrite wshr_div by lia. unfold wrap.
  rewrite (Z.mod_small (buf / 2 ^ 32)).
  - pose proof (Z.div_mod buf (2 ^ 32)). lia.
  - split; [apply Z.div_pos; lia | apply Z.div_lt_upper_bound; lia].
Qed.

(** The header's pointer to the table, set when the port was set up. *)
Definition linked (m : Z -> Z) : Prop :=
  le m (base false + 8) 4 + 2 ^ 32 * le m (base false + 12) 4 = base true /\ base true mod 128 = 0.

(** The controller reads back the command that was set up. *)
Lemma fetch_command m command lba count buf size write : linked m ->
  in_word 48 lba -> in_word 16 count -> in_word 64 buf -> buf mod 2 = 0 ->
  0 < size <= 2 ^ 22 -> size mod 2 = 0 ->
  fetch (written m (command_stores command lba count buf size write)) (base false) =
    Some (mkCommand command lba count buf size write).
Proof.
  intros [Hlink Hal] Hlba Hcount Hbuf Hev Hsz Hsev.
  pose proof (command_stores_inside command lba count buf size write) as Hin.
  destruct (command_fields command lba count buf size write)
    as ((F1 & F2 & F3 & F4) & (B0 & B1 & B2 & B7) & (L0 & L1 & L2 & L3 & L4 & L5) & C & (P1 & P2 & P3)).
  set (ws := command_stores _ _ _ _ _ _) in *. clearbody ws. unfold fetch.
  assert (forall b, base b = base b + 0) as Hz by (intros; lia).
  rewrite (look_le_none m ws false 8 4 Hin), (look_le_none m ws false 12 4 Hin), Hlink by (done || lia).
  assert (le (written m ws) (base false) 2 = if write then 69 else 5) as ->.
  { rewrite (Hz false), (look_le m ws false 0 2 _ Hin ltac:(lia) ltac:(lia) F1). by destruct write. }
  rewrite (look_le m ws false 2 2 _ Hin ltac:(lia) ltac:(lia) F2).
  rewrite (look_le m ws true 128 4 _ Hin ltac:(lia) ltac:(lia) P1),
    (look_le m ws true 132 4 _ Hin ltac:(lia) ltac:(lia) P2),
    (look_le m ws true 140 4 _ Hin ltac:(lia) ltac:(lia) P3),
    (look_le m ws true 12 2 _ Hin ltac:(lia) ltac:(lia) C), buf_halves, count_bytes by done.
  assert (written m ws (base true) = 0x27) as -> by (rewrite (Hz true); apply look_byte; [done | lia | done]).
  rewrite (look_byte m ws true 1 _ Hin ltac:(lia) B1), (look_byte m ws true 2 _ Hin ltac:(lia) B2),
    (look_byte m ws true 7 _ Hin ltac:(lia) B7), (look_byte m ws true 4 _ Hin ltac:(lia) L0),
    (look_byte m ws true 5 _ Hin ltac:(lia) L1), (look_byte m ws true 6 _ Hin ltac:(lia) L2),
    (look_byte m ws true 8 _ Hin ltac:(lia) L3), (look_byte m ws true 9 _ Hin ltac:(lia) L4),
    (look_byte m ws true 10 _ Hin ltac:(lia) L5), lba_bytes by done.
  rewrite (wsub_small 32 size 1), (from_le_to_le 4 (size - 1)) by (unfold in_word; simpl; lia).
  rewrite Hal, Hev.
  replace ((size - 1) mod 2 =? 1) with true by (symmetry; apply Z.eqb_eq; Z.to_euclidean_division_equations; lia).
  replace (size - 1 <? 2 ^ 22) with true by lia. replace (size - 1 + 1) with size by lia.
  by destruct write.
Qed.
End setup.
(** * Issuing *)

(** The register is not one of the bases. *)
Ltac not_base :=
  match goal with Hin : _ ∈ [port_clb; port_clbu; port_fb; port_fbu] |- _ =>
    exfalso; repeat (apply elem_of_cons in Hin as [Hin|Hin]; [discriminate Hin|]);
    by apply not_elem_of_nil in Hin
  end.

Lemma write_is p d : 0 <= p < 32 ->
  let d' := mmio_write (reg p port_is) 0xFFFFFFFF d in
  hba_view d' p = set_tfes false (hba_view d p) /\ frame p (ram d) d d'.
Proof.
  intros Hp. destruct (write_reg p port_is 0xFFFFFFFF d Hp) as [Hw Hf]; [by right; left | done|].
  split; [|done]. remember port_is as off eqn:Hoff.
  remember 0xFFFFFFFF as x eqn:Hx. clear Hf. destruct Hw; try discriminate Hoff; [by subst x|].
  subst off. not_base.
Qed.

Lemma write_ci p d : 0 <= p < 32 -> let v := hba_view d p in
  let d' := mmio_write (reg p port_ci) 1 d in
  frame p (ram d) d d' /\
  (pv_halted v = true -> hba_view d' p = set_job Stuck v) /\
  (pv_halted v = false -> pv_st v = true -> pv_fre v = true -> pv_job v = Idle ->
     exists n, (n <= hba_polls)%nat /\ hba_view d' p = set_job (Running n) v).
Proof.
  intros Hp. destruct (write_reg p port_ci 1 d Hp) as [Hw Hf]; [by do 3 right; left | done|].
  cbv zeta. split; [exact Hf|]. clear Hf. set (d' := mmio_write _ 1 d) in *. clearbody d'.
  remember port_ci as off eqn:Hoff. remember 1 as x eqn:Hx in Hw.
  destruct Hw; try discriminate Hoff.
  - split; [congruence|]. intros. by exists n.
  - split; [done | congruence].
  - by subst.
  - split; [congruence|]. intros _ Hst Hfre Hj.
    match goal with Hor : _ \/ _ |- _ => destruct Hor as [Hrun|Hrun]; [by rewrite Hst, Hfre in Hrun | done] end.
  - subst off. not_base.
Qed.

Context (Hpolls : (hba_polls < READY_POLLS)%nat /\ (hba_polls < ISSUE_POLLS)%nat).

Abbreviation answer p := (disk_answer (hba_sectors p) (hba_image p) (hba_ident p)).

Lemma issue_ok s p d c data : ABAR s = hba_base -> 0 <= p < 32 -> let v := hba_view d p in
  pv_st v = true -> pv_fre v = true -> pv_halted v = false -> pv_job v = Idle -> pv_busy v = O ->
  fetch (ram d) (pv_clb v) = Some c -> answer p c = Some data -> zlen data <= cm_len c ->
  exists d', issue_command s p d = Ret (true, d') /\ hba_view d' p = set_tfes false v /\
    frame p (dma (ram d) (cm_buf c) data) d d'.
Proof.
  intros Ha Hp v Hst Hfre Hh Hj Hb Hf Hans Hlen. unfold issue_command.
  destruct (port_ptr_reg s p Ha Hp) as (a & -> & Hreg). rewrite bind_ret.
  rewrite (Hreg port_is), (Hreg port_ci) by first [by do 2 right; left | by do 3 right; left].
  destruct (write_is p d Hp) as [Hv1 Hf1]. set (d1 := mmio_write _ _ d) in *.
  destruct (write_ci p d1 Hp) as (Hf2 & _ & Hrun). set (d2 := mmio_write _ 1 d1) in *.
  rewrite Hv1 in Hrun. destruct Hrun as (n & Hn & Hv2); [done..|].
  assert (frame p (ram d) d d2) as Hf12 by (by eapply frame_trans).
  destruct (poll_done_ok p a Hp Hreg ISSUE_POLLS d2 n c data) as (d3 & -> & Hv3 & Hf3);
    rewrite ?Hv2; try done; [lia | erewrite fetch_ext; [done | apply Hf12]|].
  exists d3. split; [done|]. split; [|by eapply frame_dma].
  rewrite Hv3, Hv2. unfold set_job, set_tfes. simpl. by rewrite Hj.
Qed.

Lemma issue_failed s p d c : ABAR s = hba_base -> 0 <= p < 32 -> let v := hba_view d p in
  pv_st v = true -> pv_fre v = true -> pv_halted v = false -> pv_job v = Idle ->
  fetch (ram d) (pv_clb v) = Some c -> answer p c = None ->
  exists d', issue_command s p d = Ret (false, d') /\
    hba_view d' p = set_job Stuck (set_tfes true (set_halted true v)) /\ frame p (ram d) d d'.
Proof.
  intros Ha Hp v Hst Hfre Hh Hj Hf Hans. unfold issue_command.
  destruct (port_ptr_reg s p Ha Hp) as (a & -> & Hreg). rewrite bind_ret.
  rewrite (Hreg port_is), (Hreg port_ci) by first [by do 2 right; left | by do 3 right; left].
  destruct (write_is p d Hp) as [Hv1 Hf1]. set (d1 := mmio_write _ _ d) in *.
  destruct (write_ci p d1 Hp) as (Hf2 & _ & Hrun). set (d2 := mmio_write _ 1 d1) in *.
  rewrite Hv1 in Hrun. destruct Hrun as (n & Hn & Hv2); [done..|].
  assert (frame p (ram d) d d2) as Hf12 by (by eapply frame_trans).
  destruct (poll_done_failed p a Hp Hreg ISSUE_POLLS d2 n c) as (d3 & -> & Hv3 & Hf3);
    rewrite ?Hv2; try done; [lia | erewrite fetch_ext; [done | apply Hf12]|].
  exists d3. split; [done|]. split; [|by eapply frame_trans]. by rewrite Hv3, Hv2.
Qed.

(** On a halted port nothing completes. *)
Lemma issue_halted s p d : ABAR s = hba_base -> 0 <= p < 32 -> let v := hba_view d p in
  pv_halted v = true ->
  exists d', issue_command s p d = Ret (false, d') /\
    hba_view d' p = set_job Stuck (set_tfes false v) /\ frame p (ram d) d d'.
Proof.
  intros Ha Hp v Hh. unfold issue_command.
  destruct (port_ptr_reg s p Ha Hp) as (a & -> & Hreg). rewrite bind_ret.
  rewrite (Hreg port_is), (Hreg port_ci) by first [by do 2 right; left | by do 3 right; left].
  destruct (write_is p d Hp) as [Hv1 Hf1]. set (d1 := mmio_write _ _ d) in *.
  destruct (write_ci p d1 Hp) as (Hf2 & Hst & _). set (d2 := mmio_write _ 1 d1) in *.
  rewrite Hv1 in Hst. specialize (Hst Hh).
  destruct (poll_done_stuck p a Hp Hreg ISSUE_POLLS d2) as (d3 & -> & Hv3 & Hf3); rewrite ?Hst; try done.
  exists d3. split; [done|]. split; [by rewrite Hv3, Hst|].
  eapply frame_trans; [|exact Hf3]. by eapply frame_trans.
Qed.
(** * Reading sectors *)

(** A port that [init] has set up. *)
Record port_up (hhdm clb ctba : Z) s p d : Prop := {
  pu_abar : ABAR s = hba_base;
  pu_port : 0 <= p < 32;
  pu_active : Z.testbit (ACTIVE_PORTS s) p = true;
  pu_clb : arr_get (PORT_CLB s) p = Ret clb;
  pu_ctba : arr_get (PORT_CTBA s) p = Ret ctba;
  pu_blocks : blocks_ok hhdm clb ctba;
  pu_view_clb : pv_clb (hba_view d p) = clb - hhdm;
  pu_linked : linked hhdm clb ctba (ram d);
  pu_st : pv_st (hba_view d p) = true;
  pu_fre : pv_fre (hba_view d p) = true;
  pu_busy : (pv_busy (hba_view d p) <= hba_polls)%nat;
}.

(** It accepts a command. *)
Definition port_ready hhdm clb ctba s p d : Prop :=
  port_up hhdm clb ctba s p d /\ pv_halted (hba_view d p) = false /\ pv_job (hba_view d p) = Idle.

(** A buffer of [n] bytes in the direct map, apart from header and table. *)
Record buffer_ok (hhdm clb ctba buf n : Z) : Prop := {
  bf_low : hhdm <= buf;
  bf_high : buf + n < 2 ^ 64;
  bf_even : (buf - hhdm) mod 2 = 0;
  bf_clb : buf + n <= clb \/ clb + 4096 <= buf;
  bf_ctba : buf + n <= ctba \/ ctba + 4096 <= buf;
}.

(** The memory but for the buffer, header and table. *)
Definition only_blocks (hhdm clb ctba buf n : Z) d d' : Prop :=
  forall i, ~ buf - hhdm <= i < buf - hhdm + n -> ~ clb - hhdm <= i < clb - hhdm + 4096 ->
    ~ ctba - hhdm <= i < ctba - hhdm + 4096 -> ram d' i = ram d i.

Lemma linked_ext hhdm clb ctba m m' :
  (forall i, clb - hhdm + 8 <= i < clb - hhdm + 16 -> m' i = m i) ->
  linked hhdm clb ctba m -> linked hhdm clb ctba m'.
Proof.
  intros He [Hl Ha]. split; [|done]. unfold base in *. rewrite <- Hl. unfold le. simpl.
  by rewrite !He by lia.
Qed.

Lemma linked_stores hhdm clb ctba m command lba count buf size write : blocks_ok hhdm clb ctba ->
  linked hhdm clb ctba m ->
  linked hhdm clb ctba (written hhdm clb ctba m (command_stores command lba count buf size write)).
Proof.
  intros Hok [Hl Ha]. split; [|done]. rewrite <- Hl.
  pose proof (command_stores_inside command lba count buf size write) as Hin.
  destruct (command_fields command lba count buf size write) as ((_ & _ & F3 & F4) & _).
  by rewrite (look_le_none hhdm clb ctba Hok _ _ false 8 4 Hin), (look_le_none hhdm clb ctba Hok _ _ false 12 4 Hin) by (done || lia).
Qed.

(** Waiting for a port that is up. *)
Lemma wait_ready_spec hhdm clb ctba s p d : port_up hhdm clb ctba s p d ->
  exists d1, wait_port_ready s p d = Ret (true, d1) /\ frame p (ram d) d d1 /\
    hba_view d1 p = set_busy O (hba_view d p).
Proof.
  intros Hup. pose proof (pu_port _ _ _ _ _ _ Hup) as Hp. pose proof (pu_busy _ _ _ _ _ _ Hup). unfold wait_port_ready.
  destruct (port_ptr_reg s p (pu_abar _ _ _ _ _ _ Hup) Hp) as (a & -> & Hreg). rewrite bind_ret.
  destruct (poll_ready_spec READY_POLLS a p d Hp) as (d1 & Hf1 & Hr); [by apply Hreg; right; left|].
  replace (pv_busy (hba_view d p) <? READY_POLLS)%nat with true in Hr by (symmetry; apply Nat.ltb_lt; lia).
  destruct Hr as [-> Hv1]. by exists d1.
Qed.

Lemma written_ext hhdm clb ctba ws (m m' : Z -> Z) : (forall i, m i = m' i) ->
  forall i, written hhdm clb ctba m ws i = written hhdm clb ctba m' ws i.
Proof.
  unfold written. revert m m'. induction ws as [|[[b o] l] ws IH]; intros m m' Hm i; simpl; [done|].
  apply IH. intros j. by apply dma_ext.
Qed.

(** Then the command stands in memory. *)
Lemma setup_after hhdm clb ctba s p op lba count buf size d d1 : port_up hhdm clb ctba s p d ->
  frame p (ram d) d d1 -> hba_view d1 p = set_busy O (hba_view d p) ->
  exists d2, setup_command hhdm s p op lba count buf size false d1 = Ret d2 /\
    hba_view d2 p = set_busy O (hba_view d p) /\ (forall q, q <> p -> hba_view d2 q = hba_view d q) /\
    forall i, ram d2 i = written hhdm clb ctba (ram d) (command_stores op lba count buf size false) i.
Proof.
  intros Hup Hf Hv.
  destruct (setup_command_stores hhdm clb ctba (pu_blocks _ _ _ _ _ _ Hup) s p op lba count buf size false d1
    (pu_clb _ _ _ _ _ _ Hup) (pu_ctba _ _ _ _ _ _ Hup)) as (d2 & -> & Hr2 & Hv2).
  exists d2. split; [done|]. split; [by rewrite Hv2|]. split.
  - intros q Hq. by rewrite Hv2, (fr_ports _ _ _ _ Hf).
  - intros i. rewrite Hr2. apply written_ext, Hf.
Qed.

(** Up to issuing. *)
Lemma read_sectors_prepare hhdm clb ctba s p lba count buf d : port_up hhdm clb ctba s p d ->
  exists d1, read_sectors hhdm s p lba count buf d = issue_command s p d1 /\
    hba_view d1 p = set_busy O (hba_view d p) /\ (forall q, q <> p -> hba_view d1 q = hba_view d q) /\
    forall i, ram d1 i = written hhdm clb ctba (ram d)
      (command_stores ATA_CMD_READ_DMA_EXT lba count (virt_to_phys hhdm buf)
         (if count =? 0 then wmul 32 65536 512 else wmul 32 count 512) false) i.
Proof.
  intros Hup. pose proof (pu_port _ _ _ _ _ _ Hup) as Hp. unfold read_sectors, MAX_PORTS. decide_tests.
  pose proof (bit_set_testbit 32 (ACTIVE_PORTS s) p Hp) as Hbit. unfold bit_set in Hbit.
  rewrite (pu_active _ _ _ _ _ _ Hup) in Hbit. apply negb_true_iff in Hbit. rewrite Hbit.
  destruct (wait_ready_spec _ _ _ _ _ _ Hup) as (d1 & -> & Hf1 & Hv1). rewrite bind_ret. simpl negb. cbv iota.
  destruct (setup_after hhdm clb ctba s p ATA_CMD_READ_DMA_EXT lba count (virt_to_phys hhdm buf)
    (if count =? 0 then wmul 32 65536 512 else wmul 32 count 512) d d1 Hup Hf1 Hv1) as (d2 & -> & H2).
  rewrite bind_ret. by exists d2.
Qed.

Lemma read_answer p lba n buf : 0 < n <= 8192 ->
  answer p (mkCommand ATA_CMD_READ_DMA_EXT lba n buf (n * 512) false) =
  if lba + n <=? hba_sectors p
  then Some (hba_image p <$> zseq (lba * 512) (Z.to_nat (n * 512))) else None.
Proof.
  intros Hn. unfold disk_answer. cbn [cm_write cm_op cm_count cm_lba]. rewrite Z.eqb_refl.
  by replace (n =? 0) with false by lia.
Qed.

(** The command that fits one region descriptor is found in memory. *)
Lemma command_found hhdm clb ctba m op lba count buf size : blocks_ok hhdm clb ctba -> linked hhdm clb ctba m ->
  in_word 48 lba -> in_word 16 count -> 0 < size <= 2 ^ 22 -> size mod 2 = 0 -> buffer_ok hhdm clb ctba buf size ->
  fetch (written hhdm clb ctba m (command_stores op lba count (virt_to_phys hhdm buf) size false)) (clb - hhdm) =
  Some (mkCommand op lba count (buf - hhdm) size false).
Proof.
  intros Hok Hlink Hlba Hn Hs Hev [Hb1 Hb2 Hb3 _ _]. pose proof (bo_hhdm _ _ _ Hok).
  assert (virt_to_phys hhdm buf = buf - hhdm) as -> by (apply wsub_small; unfold in_word; lia).
  apply (fetch_command hhdm clb ctba Hok); try done; unfold in_word; lia.
Qed.

Lemma read_command hhdm clb ctba m lba n buf : blocks_ok hhdm clb ctba -> linked hhdm clb ctba m ->
  0 <= lba < 2 ^ 48 -> 0 < n <= 8192 -> buffer_ok hhdm clb ctba buf (n * 512) ->
  fetch (written hhdm clb ctba m (command_stores ATA_CMD_READ_DMA_EXT lba n (virt_to_phys hhdm buf)
    (if n =? 0 then wmul 32 65536 512 else wmul 32 n 512) false)) (clb - hhdm) =
  Some (mkCommand ATA_CMD_READ_DMA_EXT lba n (buf - hhdm) (n * 512) false).
Proof.
  intros Hok Hlink Hlba Hn Hbuf. replace (n =? 0) with false by lia. rewrite (wmul_small 32 n 512) by (unfold in_word; lia).
  apply command_found; try done; try (unfold in_word; lia). Z.to_euclidean_division_equations; lia.
Qed.

(** Issuing a command that the disk can answer. *)
Lemma issued_ok hhdm clb ctba s p op lba count buf size data d d1 : port_ready hhdm clb ctba s p d ->
  in_word 48 lba -> in_word 16 count -> 0 < size <= 2 ^ 22 -> size mod 2 = 0 -> buffer_ok hhdm clb ctba buf size ->
  answer p (mkCommand op lba count (buf - hhdm) size false) = Some data -> zlen data = size ->
  hba_view d1 p = set_busy O (hba_view d p) -> (forall q, q <> p -> hba_view d1 q = hba_view d q) ->
  (forall i, ram d1 i = written hhdm clb ctba (ram d) (command_stores op lba count (virt_to_phys hhdm buf) size false) i) ->
  exists d', issue_command s p d1 = Ret (true, d') /\ port_ready hhdm clb ctba s p d' /\
    pv_fb (hba_view d' p) = pv_fb (hba_view d p) /\
    (forall i, 0 <= i < size -> Some (ram d' (buf - hhdm + i)) = zget data i) /\
    only_blocks hhdm clb ctba buf size d d' /\ (forall q, q <> p -> hba_view d' q = hba_view d q).
Proof.
  intros [Hup [Hhalt Hjob]] Hlba Hcount Hs Hev Hbuf Hans Hlen Hv1 Hq1 Hr1.
  destruct Hup as [Ha Hp Hact Hclb Hct Hok Hvc Hlink Hst Hfre Hbusy].
  pose proof (command_found hhdm clb ctba (ram d) op lba count buf size Hok Hlink Hlba Hcount Hs Hev Hbuf) as Hfetch.
  pose proof (linked_stores hhdm clb ctba (ram d) op lba count (virt_to_phys hhdm buf) size false Hok Hlink) as Hlink1.
  pose proof (command_stores_inside op lba count (virt_to_phys hhdm buf) size false) as Hins.
  set (ws := command_stores _ _ _ _ _ _) in *. clearbody ws.
  destruct (issue_ok s p d1 (mkCommand op lba count (buf - hhdm) size false) data)
    as (d2 & He & Hv2 & Hf2); rewrite ?Hv1; try done.
  { cbn [pv_clb set_busy]. rewrite Hvc. by erewrite fetch_ext. }
  { simpl. lia. }
  rewrite Hv1 in Hv2. cbn [cm_buf] in Hf2. destruct Hbuf as [Hb1 Hb2 Hb3 Hb4 Hb5].
  assert (forall i, ~ buf - hhdm <= i < buf - hhdm + size -> ram d2 i = written hhdm clb ctba (ram d) ws i) as Hram.
  { intros i Hi. rewrite (fr_ram _ _ _ _ Hf2). unfold dma. rewrite Hlen. case_match; [lia | done]. }
  exists d2. split; [exact He|]. split; [|split; [by rewrite Hv2|split; [|split]]].
  - split; [|by rewrite Hv2]. split; rewrite ?Hv2; try done; [|simpl; lia].
    eapply linked_ext; [|exact Hlink1]. intros i Hi. apply Hram. lia.
  - intros i Hi. rewrite (fr_ram _ _ _ _ Hf2). unfold dma. rewrite Hlen. decide_tests. simpl.
    replace (buf - hhdm + i - (buf - hhdm)) with i by lia. destruct (zget_is_Some data i) as [x ->]; [lia | done].
  - intros i Hi1 Hi2 Hi3. rewrite Hram by done. apply written_out; [done | exact Hi3 | exact Hi2].
  - intros q Hq. by rewrite (fr_ports _ _ _ _ Hf2), Hq1.
Qed.

Lemma read_ok hhdm clb ctba s p lba n buf d : port_ready hhdm clb ctba s p d ->
  0 <= lba < 2 ^ 48 -> 0 < n <= 8192 -> lba + n <= hba_sectors p ->
  buffer_ok hhdm clb ctba buf (n * 512) ->
  exists d', read_sectors hhdm s p lba n buf d = Ret (true, d') /\ port_ready hhdm clb ctba s p d' /\
    (forall i, 0 <= i < n * 512 -> ram d' (buf - hhdm + i) = hba_image p (lba * 512 + i)) /\
    only_blocks hhdm clb ctba buf (n * 512) d d' /\ (forall q, q <> p -> hba_view d' q = hba_view d q).
Proof.
  intros Hready Hlba Hn Hin Hbuf.
  destruct (read_sectors_prepare hhdm clb ctba s p lba n buf d (proj1 Hready)) as (d1 & -> & Hv1 & Hq1 & Hr1).
  replace (n =? 0) with false in Hr1 by lia. rewrite (wmul_small 32 n 512) in Hr1 by (unfold in_word; lia).
  pose proof (read_answer p lba n (buf - hhdm) Hn) as Hans. replace (lba + n <=? hba_sectors p) with true in Hans by lia.
  destruct (issued_ok hhdm clb ctba s p ATA_CMD_READ_DMA_EXT lba n buf (n * 512)
    (hba_image p <$> zseq (lba * 512) (Z.to_nat (n * 512))) d d1 Hready)
    as (d2 & He & Hr & _ & Hd & Ho & Hq); try done; try (unfold in_word; lia).
  { Z.to_euclidean_division_equations; lia. }
  { apply zlen_fmap_zseq. lia. }
  exists d2. split; [exact He|]. split; [exact Hr|]. split; [|done].
  intros i Hi. specialize (Hd i Hi). rewrite zget_fmap_zseq in Hd by lia. by injection Hd.
Qed.

Lemma read_past_end hhdm clb ctba s p lba n buf d : port_ready hhdm clb ctba s p d ->
  0 <= lba < 2 ^ 48 -> 0 < n <= 8192 -> hba_sectors p < lba + n ->
  buffer_ok hhdm clb ctba buf (n * 512) ->
  exists d', read_sectors hhdm s p lba n buf d = Ret (false, d') /\
    port_up hhdm clb ctba s p d' /\ pv_halted (hba_view d' p) = true.
Proof.
  intros [Hup [Hhalt Hjob]] Hlba Hn Hin Hbuf.
  destruct (read_sectors_prepare hhdm clb ctba s p lba n buf d Hup) as (d1 & -> & Hv1 & Hq1 & Hr1).
  destruct Hup as [Ha Hp Hact Hclb Hct Hok Hvc Hlink Hst Hfre Hbusy].
  pose proof (read_command hhdm clb ctba (ram d) lba n buf Hok Hlink Hlba Hn Hbuf) as Hfetch.
  pose proof (linked_stores hhdm clb ctba (ram d) ATA_CMD_READ_DMA_EXT lba n (virt_to_phys hhdm buf)
    (if n =? 0 then wmul 32 65536 512 else wmul 32 n 512) false Hok Hlink) as Hlink1.
  set (ws := command_stores _ _ _ _ _ _) in *. clearbody ws.
  pose proof (read_answer p lba n (buf - hhdm) Hn) as Hans. replace (lba + n <=? hba_sectors p) with false in Hans by lia.
  destruct (issue_failed s p d1 (mkCommand ATA_CMD_READ_DMA_EXT lba n (buf - hhdm) (n * 512) false))
    as (d2 & He & Hv2 & Hf2); rewrite ?Hv1; try done.
  { cbn [pv_clb set_busy]. rewrite Hvc. by erewrite fetch_ext. }
  rewrite Hv1 in Hv2. exists d2. split; [exact He|]. split; [|by rewrite Hv2].
  split; rewrite ?Hv2; try done; [|simpl; lia].
  eapply linked_ext; [|exact Hlink1]. intros i _. by rewrite (fr_ram _ _ _ _ Hf2).
Qed.

Lemma read_halted hhdm clb ctba s p lba n buf d : port_up hhdm clb ctba s p d -> pv_halted (hba_view d p) = true ->
  exists d', read_sectors hhdm s p lba n buf d = Ret (false, d') /\
    port_up hhdm clb ctba s p d' /\ pv_halted (hba_view d' p) = true.
Proof.
  intros Hup Hhalt.
  destruct (read_sectors_prepare hhdm clb ctba s p lba n buf d Hup) as (d1 & -> & Hv1 & Hq1 & Hr1).
  destruct Hup as [Ha Hp Hact Hclb Hct Hok Hvc Hlink Hst Hfre Hbusy].
  pose proof (linked_stores hhdm clb ctba (ram d) ATA_CMD_READ_DMA_EXT lba n (virt_to_phys hhdm buf)
    (if n =? 0 then wmul 32 65536 512 else wmul 32 n 512) false Hok Hlink) as Hlink1.
  destruct (issue_halted s p d1 Ha Hp) as (d2 & He & Hv2 & Hf2); [by rewrite Hv1|].
  rewrite Hv1 in Hv2. exists d2. split; [exact He|]. split; [|by rewrite Hv2].
  split; rewrite ?Hv2; try done; [|simpl; lia].
  eapply linked_ext; [|exact Hlink1]. intros i _. by rewrite (fr_ram _ _ _ _ Hf2).
Qed.

(** * Starting and stopping a port *)

Lemma read_cmd p d : 0 <= p < 32 -> exists x d', mmio_read (reg p port_cmd) d = (x, d') /\
  in_word 32 x /\ Z.testbit x 0 = pv_st (hba_view d p) /\ Z.testbit x 4 = pv_fre (hba_view d p) /\
  negb (Z.testbit x 15) && negb (Z.testbit x 14) = settled (hba_view d p) /\
  hba_view d' p = set_drain (Nat.pred (pv_drain (hba_view d p))) (hba_view d p) /\ frame p (ram d) d d'.
Proof.
  intros Hp. destruct (read_reg p port_cmd d Hp) as (x & d' & m' & He & Hr & Hf); [by left|].
  inv_reg Hr. by exists x, d'.
Qed.

Lemma write_cmd p x d : 0 <= p < 32 -> in_word 32 x -> let v := hba_view d p in
  let d' := mmio_write (reg p port_cmd) x d in
  frame p (ram d) d d' /\
  if Z.testbit x 0 then hba_view d' p = set_run true (Z.testbit x 4) (pv_drain v) v
  else exists n, (n <= hba_polls)%nat /\ hba_view d' p =
    set_job Idle (set_halted false (set_run false (Z.testbit x 4) (if pv_st v || pv_fre v then n else pv_drain v) v)).
Proof.
  intros Hp Hx. destruct (write_reg p port_cmd x d Hp) as [Hw Hf]; [by left | done|].
  cbv zeta. split; [exact Hf|]. remember port_cmd as off eqn:Hoff. clear Hf.
  destruct Hw as [v x Hb|v x n Hb Hn|v x|v x|v x n|v x|v x|v x v'|v x|v x|v x|v x|off v x v' Hs Hin]; try discriminate Hoff.
  - by rewrite Hb.
  - rewrite Hb. by exists n.
  - subst off. not_base.
Qed.

Lemma poll_stopped_spec n a p d : 0 <= p < 32 -> a ⊞ port_cmd = reg p port_cmd ->
  pv_st (hba_view d p) = false -> pv_fre (hba_view d p) = false -> (pv_drain (hba_view d p) < n)%nat ->
  let d' := poll_stopped n a d in
  hba_view d' p = set_drain O (hba_view d p) /\ frame p (ram d) d d'.
Proof.
  intros Hp Ha. revert d. induction n as [|n IH]; intros d Hst Hfre Hn; [lia|]. cbn [poll_stopped].
  rewrite Ha. destruct (read_cmd p d Hp) as (x & d1 & -> & _ & _ & _ & Hset & Hv & Hf).
  unfold PORT_CMD_CR, PORT_CMD_FR. rewrite !land_one, Hset by lia. unfold settled. rewrite Hst, Hfre. simpl.
  destruct (pv_drain (hba_view d p)) as [|k] eqn:Hk; [done|].
  destruct (IH d1) as [Hv2 Hf2]; rewrite ?Hv; try done; [simpl; lia|].
  rewrite Hv in Hv2. split; [done | by eapply frame_trans].
Qed.

(** Stopping: the port comes to rest with its bases unchanged and no command. *)
Lemma stop_port_spec s p d : ABAR s = hba_base -> 0 <= p < 32 -> (pv_drain (hba_view d p) <= hba_polls)%nat ->
  let v := hba_view d p in
  exists d', stop_port s p d = Ret d' /\ frame p (ram d) d d' /\
    hba_view d' p = set_job Idle (set_halted false (set_run false false O v)).
Proof.
  intros Ha Hp Hdr v. unfold stop_port. destruct (port_ptr_reg s p Ha Hp) as (a & -> & Hreg). rewrite bind_ret.
  rewrite (Hreg port_cmd) by (by left).
  destruct (read_cmd p d Hp) as (x & d1 & -> & Hx & Hb0 & Hb4 & _ & Hv1 & Hf1).
  set (c1 := Z.land x (wnot 32 PORT_CMD_ST)). set (c2 := Z.land c1 (wnot 32 PORT_CMD_FRE)).
  assert (in_word 32 c1 /\ in_word 32 c2) as [Hc1 Hc2] by (split; by repeat apply in_word_land).
  assert (Z.testbit c1 0 = false /\ Z.testbit c2 0 = false /\ Z.testbit c2 4 = false) as (B1 & B2 & B3).
  { unfold c2, c1. rewrite !Z.land_spec. change (Z.testbit (wnot 32 PORT_CMD_ST) 0) with false.
    change (Z.testbit (wnot 32 PORT_CMD_FRE) 4) with false. by rewrite !andb_false_r. }
  destruct (write_cmd p c1 d1 Hp Hc1) as [Hf2 Hv2]. rewrite B1 in Hv2.
  set (d2 := mmio_write _ c1 d1) in *. destruct Hv2 as (n1 & Hn1 & Hv2).
  destruct (write_cmd p c2 d2 Hp Hc2) as [Hf3 Hv3]. rewrite B2, B3 in Hv3.
  set (d3 := mmio_write _ c2 d2) in *. destruct Hv3 as (n2 & Hn2 & Hv3).
  rewrite Hv1 in Hv2. rewrite Hv2 in Hv3.
  destruct (poll_stopped_spec READY_POLLS a p d3 Hp) as [Hv4 Hf4]; [by apply Hreg; left | by rewrite Hv3 | by rewrite Hv3 | |].
  { rewrite Hv3. simpl. repeat case_match; lia. }
  eexists. split; [reflexivity|]. split; [|by rewrite Hv4, Hv3].
  eapply frame_trans; [|exact Hf4]. eapply frame_trans; [|exact Hf3]. by eapply frame_trans.
Qed.

Lemma poll_idle_settled n a p d : 0 <= p < 32 -> a ⊞ port_cmd = reg p port_cmd ->
  settled (hba_view d p) = true -> let d' := poll_idle n a d in
  hba_view d' p = hba_view d p /\ frame p (ram d) d d'.
Proof.
  intros Hp Ha Hset. destruct n as [|n]; [done|]. cbn [poll_idle]. rewrite Ha.
  destruct (read_cmd p d Hp) as (x & d1 & -> & _ & _ & _ & Hb & Hv & Hf).
  unfold PORT_CMD_CR. rewrite land_one by lia. rewrite Hset in Hb. apply andb_true_iff in Hb as [-> _].
  split; [|done]. rewrite Hv. unfold settled in Hset.
  destruct (pv_drain (hba_view d p)) eqn:Hd; [|by rewrite andb_false_r in Hset].
  unfold set_drain. simpl. rewrite <- Hd. by destruct (hba_view d p).
Qed.

Lemma start_port_spec s p d : ABAR s = hba_base -> 0 <= p < 32 -> settled (hba_view d p) = true ->
  pv_job (hba_view d p) = Idle -> pv_halted (hba_view d p) = false ->
  exists d', start_port s p d = Ret d' /\ frame p (ram d) d d' /\
    hba_view d' p = set_run true true O (hba_view d p).
Proof.
  intros Ha Hp Hset Hj Hh. unfold start_port. destruct (port_ptr_reg s p Ha Hp) as (a & -> & Hreg). rewrite bind_ret.
  destruct (poll_idle_settled READY_POLLS a p d Hp) as [Hv1 Hf1]; [by apply Hreg; left | done|].
  set (d1 := poll_idle _ _ d) in *. rewrite (Hreg port_cmd) by (by left).
  destruct (read_cmd p d1 Hp) as (x & d2 & -> & Hx & Hb0 & Hb4 & _ & Hv2 & Hf2). rewrite Hv1 in *.
  unfold settled in Hset. apply andb_true_iff in Hset as [Hset Hd]. apply andb_true_iff in Hset as [Hst Hfre].
  apply negb_true_iff in Hst, Hfre. destruct (pv_drain (hba_view d p)) eqn:Hdr; [|done].
  set (c1 := Z.lor x PORT_CMD_FRE). set (c2 := Z.lor c1 PORT_CMD_ST).
  assert (in_word 32 c1 /\ in_word 32 c2) as [Hc1 Hc2].
  { split; repeat apply in_word_lor; try done; by (unfold in_word; simpl; lia). }
  assert (Z.testbit c1 0 = false /\ Z.testbit c1 4 = true /\ Z.testbit c2 0 = true /\ Z.testbit c2 4 = true) as (B1 & B2 & B3 & B4).
  { unfold c2, c1. rewrite !Z.lor_spec, Hb0, Hst. change (Z.testbit PORT_CMD_FRE 0) with false.
    change (Z.testbit PORT_CMD_FRE 4) with true. change (Z.testbit PORT_CMD_ST 0) with true.
    by rewrite !orb_true_r. }
  destruct (write_cmd p c1 d2 Hp Hc1) as [Hf3 Hv3]. rewrite B1, B2 in Hv3.
  set (d3 := mmio_write _ c1 d2) in *. destruct Hv3 as (n3 & Hn3 & Hv3).
  destruct (write_cmd p c2 d3 Hp Hc2) as [Hf4 Hv4]. rewrite B3, B4 in Hv4.
  set (d4 := mmio_write _ c2 d3) in *. exists d4. split; [done|]. split.
  - eapply frame_trans; [|exact Hf4]. eapply frame_trans; [|exact Hf3]. by eapply frame_trans.
  - rewrite Hv4, Hv3, Hv2. unfold set_run, set_job, set_halted, set_drain. simpl. rewrite Hst, Hfre, Hj, Hh. done.
Qed.

(** * Setting up a port *)

Lemma write_base off p x d : 0 <= p < 32 -> off ∈ [port_clb; port_clbu; port_fb; port_fbu] -> in_word 32 x ->
  let v := hba_view d p in settled v = true ->
  let d' := mmio_write (reg p off) x d in
  frame p (ram d) d d' /\ hba_view d' p =
    if off =? port_clb then set_bases (pv_clb v / 2 ^ 32 * 2 ^ 32 + x) (pv_fb v) v
    else if off =? port_clbu then set_bases (x * 2 ^ 32 + pv_clb v mod 2 ^ 32) (pv_fb v) v
    else if off =? port_fb then set_bases (pv_clb v) (pv_fb v / 2 ^ 32 * 2 ^ 32 + x) v
    else set_bases (pv_clb v) (x * 2 ^ 32 + pv_fb v mod 2 ^ 32) v.
Proof.
  intros Hp Hoff Hx v Hset d'. destruct (write_reg p off x d Hp) as [Hw Hf];
    [by do 4 right | done|].
  split; [exact Hf|]. fold v d' in Hw. clear Hf. clearbody d' v.
  destruct Hw as [v x Hb|v x n Hb Hn|v x|v x|v x n|v x|v x|v x v'|v x|v x|v x|v x|off v x v' Hs Hin]; try done; try not_base.
  congruence.
Qed.

Lemma halves x : in_word 64 x -> wrap 32 (wshr 64 x 32) * 2 ^ 32 + wrap 32 x = x.
Proof.
  intros Hx. pose proof (buf_halves x Hx) as Hh. rewrite !from_le_to_le in Hh by (apply wrap_in_word; lia). lia.
Qed.

Lemma write_bases_spec a p clb fb d : 0 <= p < 32 -> settled (hba_view d p) = true ->
  (forall off, off ∈ read_regs ++ write_regs -> a ⊞ off = reg p off) -> in_word 64 clb -> in_word 64 fb ->
  let d' := mmio_write (a ⊞ port_fbu) (wrap 32 (wshr 64 fb 32)) (mmio_write (a ⊞ port_fb) (wrap 32 fb)
    (mmio_write (a ⊞ port_clbu) (wrap 32 (wshr 64 clb 32)) (mmio_write (a ⊞ port_clb) (wrap 32 clb) d))) in
  frame p (ram d) d d' /\ hba_view d' p = set_bases clb fb (hba_view d p).
Proof.
  intros Hp Hset Hreg Hclb Hfb. cbv zeta.
  rewrite (Hreg port_clb), (Hreg port_clbu), (Hreg port_fb), (Hreg port_fbu) by (apply (bool_decide_unpack _); by vm_compute).
  assert (forall x, in_word 32 (wrap 32 x)) as Hw by (intros; apply wrap_in_word; lia).
  destruct (write_base port_clb p (wrap 32 clb) d Hp) as [F1 V1]; [by left | done | done |].
  set (d1 := mmio_write _ _ d) in *. change (port_clb =? port_clb) with true in V1. cbv iota in V1.
  destruct (write_base port_clbu p (wrap 32 (wshr 64 clb 32)) d1 Hp) as [F2 V2]; [by right; left | done | by rewrite V1 |].
  set (d2 := mmio_write _ _ d1) in *. rewrite V1 in V2.
  change (port_clbu =? port_clb) with false in V2. change (port_clbu =? port_clbu) with true in V2. cbv iota in V2.
  destruct (write_base port_fb p (wrap 32 fb) d2 Hp) as [F3 V3]; [by do 2 right; left | done | by rewrite V2 |].
  set (d3 := mmio_write _ _ d2) in *. rewrite V2 in V3.
  change (port_fb =? port_clb) with false in V3. change (port_fb =? port_clbu) with false in V3.
  change (port_fb =? port_fb) with true in V3. cbv iota in V3.
  destruct (write_base port_fbu p (wrap 32 (wshr 64 fb 32)) d3 Hp) as [F4 V4]; [by do 3 right; left | done | by rewrite V3 |].
  set (d4 := mmio_write _ _ d3) in *. rewrite V3 in V4.
  change (port_fbu =? port_clb) with false in V4. change (port_fbu =? port_clbu) with false in V4.
  change (port_fbu =? port_fb) with false in V4. cbv iota in V4. split.
  - eapply frame_trans; [|exact F4]. eapply frame_trans; [|exact F3]. by eapply frame_trans.
  - rewrite V4. unfold set_bases. cbn [pv_clb pv_fb pv_st pv_fre pv_drain pv_busy pv_job pv_tfes pv_halted].
    assert (forall q x, in_word 32 x -> (q * 2 ^ 32 + x) mod 2 ^ 32 = x) as Hmod.
    { intros q x Hx. rewrite Z.add_comm, Z.mod_add, Z.mod_small by (done || lia). done. }
    rewrite !Hmod by done. by rewrite !halves.
Qed.

(** Filling a page leaves the ports alone. *)
Lemma poke_views hhdm v l d q : hba_view (poke hhdm v l d) q = hba_view d q.
Proof. unfold poke. apply hba_ram_write. Qed.

(** A store changes its own bytes only. *)
Lemma poke_out hhdm v l d i : 0 <= hhdm <= v -> v < 2 ^ 64 -> ~ v - hhdm <= i < v - hhdm + zlen l ->
  ram (poke hhdm v l d) i = ram d i.
Proof.
  intros Hv Hs Hi. unfold poke. rewrite (proj1 (hba_ram_write _ _ _)). unfold dma.
  assert (virt_to_phys hhdm v = v - hhdm) as -> by (apply wsub_small; unfold in_word; lia).
  case_match; [lia | done].
Qed.

(** Byte [i] of memory is in none of the pages [vs]. *)
Definition outside (hhdm : Z) (vs : list Z) (i : Z) : Prop := Forall (fun v => ~ v - hhdm <= i < v - hhdm + 4096) vs.

Lemma pages_out hhdm clb fb ct d i : 0 <= hhdm -> hhdm <= clb < 2 ^ 64 -> hhdm <= fb < 2 ^ 64 -> hhdm <= ct < 2 ^ 64 ->
  outside hhdm [clb; fb; ct] i ->
  let page := replicate (Z.to_nat 4096) 0 in
  ram (poke hhdm ct page (poke hhdm fb page (poke hhdm clb page d))) i = ram d i.
Proof.
  intros Hh H1 H2 H3 Ho page. apply Forall_cons in Ho as [O1 Ho]. apply Forall_cons in Ho as [O2 Ho].
  apply Forall_cons in Ho as [O3 _]. assert (zlen page = 4096) as Hl by (apply zlen_replicate).
  rewrite !poke_out; rewrite ?Hl; done || lia.
Qed.

Lemma link_out hhdm clb l1 l2 d i : 0 <= hhdm <= clb -> clb + 4096 < 2 ^ 64 -> zlen l1 = 4 -> zlen l2 = 4 ->
  ~ clb - hhdm <= i < clb - hhdm + 4096 ->
  ram (poke hhdm (clb ⊞ hdr_ctbau) l2 (poke hhdm (clb ⊞ hdr_ctba) l1 d)) i = ram d i.
Proof.
  intros H1 H2 L1 L2 Ho. unfold hdr_ctbau, hdr_ctba. rewrite !(wadd_small 64 clb) by (unfold in_word; lia).
  rewrite !poke_out; lia.
Qed.

(** Two stores link the header to the table. *)
Lemma link_stores hhdm clb ctba d : blocks_ok hhdm clb ctba -> base hhdm clb ctba true mod 128 = 0 ->
  let ct := ctba - hhdm in
  let d' := poke hhdm (clb ⊞ hdr_ctbau) (to_le 4 (wrap 32 (wshr 64 ct 32)))
              (poke hhdm (clb ⊞ hdr_ctba) (to_le 4 (wrap 32 ct)) d) in
  linked hhdm clb ctba (ram d').
Proof.
  intros Hok Hal ct d'. split; [|done].
  assert (forall o, 0 <= o < 4096 -> virt_to_phys hhdm (clb ⊞ o) = base hhdm clb ctba false + o) as Hh.
  { intros o Ho. pose proof (bo_clb _ _ _ Hok). apply (phys_off hhdm clb ctba); [done | lia..]. }
  set (ws := [(false, 8, to_le 4 (wrap 32 ct)); (false, 12, to_le 4 (wrap 32 (wshr 64 ct 32)))]).
  assert (stored hhdm clb ctba d ws d') as [Hr _].
  { unfold ws, d'. apply (stored_poke hhdm clb ctba d [_]); [|by apply Hh].
    apply (stored_poke hhdm clb ctba d []); [apply stored_nil | by apply Hh]. }
  assert (Forall inside ws) as Hins by (repeat constructor; by vm_compute).
  assert (forall a n, le (ram d') a n = le (written hhdm clb ctba (ram d) ws) a n) as Hle by (intros; by apply le_ext).
  rewrite !Hle. clear Hle Hr.
  assert (look ws false <$> zseq 8 4 = Some <$> to_le 4 (wrap 32 ct) /\
    look ws false <$> zseq 12 4 = Some <$> to_le 4 (wrap 32 (wshr 64 ct 32))) as [L1 L2].
  { assert (forall x, exists a b c e, to_le 4 x = [a; b; c; e]) as H4 by (intros x; by do 4 eexists).
    unfold ws. destruct (H4 (wrap 32 ct)) as (a1 & b1 & c1 & e1 & ->).
    destruct (H4 (wrap 32 (wshr 64 ct 32))) as (a2 & b2 & c2 & e2 & ->). split; vm_compute; reflexivity. }
  rewrite (look_le hhdm clb ctba Hok (ram d) ws false 8 4 _ Hins ltac:(lia) ltac:(lia) L1),
    (look_le hhdm clb ctba Hok (ram d) ws false 12 4 _ Hins ltac:(lia) ltac:(lia) L2).
  apply buf_halves. destruct Hok. unfold in_word, base, ct in *. lia.
Qed.

Section heap.
Context {H : Type} {HH : HeapOps H}.

(** The statics after a port was given its blocks. *)
Definition with_port s p clb fb ct : Ahci :=
  mkAhci (ABAR s) (ACTIVE_PORTS s) (zset (PORT_CLB s) p clb) (zset (PORT_FB s) p fb) (zset (PORT_CTBA s) p ct) (IDENTIFY_BUF s).

Lemma init_port_ready hhdm s p (h h1 h2 h3 : H) d clb fb ct :
  ABAR s = hba_base -> 0 <= p < 32 ->
  zlen (PORT_CLB s) = 32 -> zlen (PORT_FB s) = 32 -> zlen (PORT_CTBA s) = 32 ->
  (pv_drain (hba_view d p) <= hba_polls)%nat -> (pv_busy (hba_view d p) <= hba_polls)%nat ->
  h_kmalloc_aligned 4096 4096 h = Ret (clb, h1) -> h_kmalloc_aligned 4096 4096 h1 = Ret (fb, h2) ->
  h_kmalloc_aligned 4096 4096 h2 = Ret (ct, h3) -> clb <> 0 -> fb <> 0 -> ct <> 0 ->
  blocks_ok hhdm clb ct -> hhdm <= fb < 2 ^ 64 -> (ct - hhdm) mod 128 = 0 ->
  exists d', let s' := with_port s p clb fb ct in init_port hhdm s p h d = Ret (true, s', h3, d') /\
    port_ready hhdm clb ct (activate s' p) p d' /\ pv_fb (hba_view d' p) = fb - hhdm /\
    (forall q, q <> p -> hba_view d' q = hba_view d q) /\
    forall i, outside hhdm [clb; fb; ct] i -> ram d' i = ram d i.
Proof.
  intros Ha Hp L1 L2 L3 Hdr Hbusy M1 M2 M3 N1 N2 N3 Hok Hfb Hal. unfold init_port.
  destruct (stop_port_spec s p d Ha Hp Hdr) as (d1 & -> & F1 & V1). rewrite bind_ret.
  rewrite M1, bind_ret, (proj2 (Z.eqb_neq clb 0) N1), M2, bind_ret, (proj2 (Z.eqb_neq fb 0) N2), M3, bind_ret,
    (proj2 (Z.eqb_neq ct 0) N3).
  set (d2 := poke hhdm ct _ _).
  assert (forall q, hba_view d2 q = hba_view d1 q) as V2 by (intros q; unfold d2; by rewrite !poke_views).
  rewrite !arr_set_ok, !bind_ret by lia.
  set (s' := mkAhci _ _ _ _ _ _). destruct (port_ptr_reg s' p Ha Hp) as (a & Hpp & Hreg). rewrite Hpp, bind_ret.
  assert (forall v, hhdm <= v < 2 ^ 64 -> virt_to_phys hhdm v = v - hhdm /\ in_word 64 (v - hhdm)) as Hphys.
  { intros v Hv. pose proof (bo_hhdm _ _ _ Hok). split; [apply wsub_small|]; unfold in_word; lia. }
  pose proof (bo_clb _ _ _ Hok). pose proof (bo_ctba _ _ _ Hok).
  destruct (Hphys clb) as [-> Wclb]; [lia|]. destruct (Hphys fb) as [-> Wfb]; [lia|].
  destruct (Hphys ct) as [-> Wct]; [lia|].
  destruct (write_bases_spec a p (clb - hhdm) (fb - hhdm) d2 Hp) as [F3 V3]; [by rewrite V2, V1 | done..|].
  set (d3 := mmio_write (a ⊞ port_fbu) _ _) in *. rewrite V2, V1 in V3.
  pose proof (link_stores hhdm clb ct d3 Hok Hal) as Hlink. cbv zeta in Hlink.
  set (d4 := poke hhdm (clb ⊞ hdr_ctbau) _ _) in *.
  assert (forall q, hba_view d4 q = hba_view d3 q) as V4 by (intros q; unfold d4; by rewrite !poke_views).
  rewrite (Hreg port_serr), (Hreg port_is) by (apply (bool_decide_unpack _); by vm_compute).
  destruct (write_reg p port_serr 0xFFFFFFFF d4 Hp) as [W5 F5]; [by do 2 right; left | done|].
  set (d5 := mmio_write (reg p port_serr) _ d4) in *.
  assert (hba_view d5 p = hba_view d4 p) as V5.
  { clear -W5. remember port_serr as off eqn:Hoff. destruct W5; try done. subst off. not_base. }
  destruct (write_is p d5 Hp) as [V6 F6]. set (d6 := mmio_write (reg p port_is) _ d5) in *.
  rewrite V5, V4, V3 in V6.
  destruct (start_port_spec s' p d6 Ha Hp) as (d7 & -> & F7 & V7); [by rewrite V6..|]. rewrite bind_ret.
  rewrite V6 in V7. exists d7. cbv zeta. fold s'. change (with_port s p clb fb ct) with s'. split; [done|].
  assert (frame p (ram d4) d4 d7) as F47 by (eapply frame_trans; [|exact F7]; by eapply frame_trans).
  split; [|split; [by rewrite V7|split]].
  - split; [|by rewrite V7]. split; try done; try (by rewrite V7).
    + simpl. pose proof (Z.pow_pos_nonneg 2 p). rewrite Z.lor_spec, wshl_1, Z.pow2_bits_true, orb_true_r by lia. done.
    + simpl. apply arr_get_Ret, zget_zset_eq. lia.
    + simpl. apply arr_get_Ret, zget_zset_eq. lia.
    + eapply linked_ext; [|exact Hlink]. intros i _. apply (fr_ram _ _ _ _ F47).
  - intros q Hq. by rewrite (fr_ports _ _ _ _ F47), V4, (fr_ports _ _ _ _ F3), V2, (fr_ports _ _ _ _ F1).
  - intros i Hi.
    pose proof (Forall_inv Hi) as Hi1. pose proof (bo_hhdm _ _ _ Hok).
    rewrite (fr_ram _ _ _ _ F47). unfold d4. rewrite link_out, (fr_ram _ _ _ _ F3) by (done || lia).
    unfold d2. by rewrite pages_out, (fr_ram _ _ _ _ F1) by (done || lia).
Qed.
End heap.

(** * Theorems *)

Lemma setup_command_fetch hhdm clb ctba s p command lba count buf size write d :
  arr_get (PORT_CLB s) p = Ret clb -> arr_get (PORT_CTBA s) p = Ret ctba -> blocks_ok hhdm clb ctba ->
  exists d', setup_command hhdm s p command lba count buf size write d = Ret d' /\
    (forall q, hba_view d' q = hba_view d q) /\
    fetch (ram d') (clb - hhdm) =
      fetch (written hhdm clb ctba (ram d) (command_stores command lba count buf size write)) (clb - hhdm).
Proof.
  intros Hclb Hct Hok.
  destruct (setup_command_stores hhdm clb ctba Hok s p command lba count buf size write d Hclb Hct) as (d' & He & Hr & Hv).
  exists d'. split; [done|]. split; [done|]. by apply fetch_ext.
Qed.

(** encoding of a command.  What [setup_command] writes (header flags, region
    descriptor, FIS bytes) is decoded by the controller as exactly the command, sector
    number, sector count, buffer and length it was given, for every 48-bit sector number and
    16-bit count; the registers are not touched. *)
Theorem command_roundtrip hhdm clb ctba s p command lba count buf size write d :
  arr_get (PORT_CLB s) p = Ret clb -> arr_get (PORT_CTBA s) p = Ret ctba -> blocks_ok hhdm clb ctba ->
  linked hhdm clb ctba (ram d) ->
  in_word 48 lba -> in_word 16 count -> in_word 64 buf -> buf mod 2 = 0 ->
  0 < size <= 2 ^ 22 -> size mod 2 = 0 ->
  exists d', setup_command hhdm s p command lba count buf size write d = Ret d' /\
    fetch (ram d') (clb - hhdm) = Some (mkCommand command lba count buf size write) /\
    forall q, hba_view d' q = hba_view d q.
Proof.
  intros Hclb Hct Hok Hlink Hlba Hcount Hbuf Hev Hsz Hsev.
  destruct (setup_command_fetch hhdm clb ctba s p command lba count buf size write d Hclb Hct Hok) as (d' & He & Hv & Hf).
  exists d'. split; [done|]. split; [|done]. rewrite Hf. by apply (fetch_command hhdm clb ctba Hok).
Qed.

(** transfers of more than 8192 sectors do not fit the one region descriptor, whose
    length has 22 bits: the driver accepts such a count and hands the controller a
    descriptor with reserved bits set. *)
Theorem long_transfer_illegal hhdm clb ctba s p command lba count buf d :
  arr_get (PORT_CLB s) p = Ret clb -> arr_get (PORT_CTBA s) p = Ret ctba -> blocks_ok hhdm clb ctba ->
  linked hhdm clb ctba (ram d) -> in_word 16 count -> count = 0 \/ 8192 < count ->
  let byte_count := if count =? 0 then wmul 32 65536 512 else wmul 32 count 512 in
  exists d', setup_command hhdm s p command lba count buf byte_count false d = Ret d' /\
    fetch (ram d') (clb - hhdm) = None.
Proof.
  clear Hpolls. intros Hclb Hct Hok [Hl Hal] Hcount Hbig byte_count.
  destruct (setup_command_fetch hhdm clb ctba s p command lba count buf byte_count false d Hclb Hct Hok) as (d' & He & _ & Hf).
  exists d'. split; [done|]. rewrite Hf. clear Hf He d'.
  pose proof (command_stores_inside command lba count buf byte_count false) as Hin.
  destruct (command_fields command lba count buf byte_count false) as ((_ & _ & F3 & F4) & _ & _ & _ & (_ & _ & P3)).
  set (ws := command_stores _ _ _ _ _ _) in *. clearbody ws. unfold fetch.
  assert (clb - hhdm = base hhdm clb ctba false) as -> by done.
  rewrite (look_le_none hhdm clb ctba Hok _ ws false 8 4 Hin), (look_le_none hhdm clb ctba Hok _ ws false 12 4 Hin), Hl by (done || lia).
  rewrite (look_le hhdm clb ctba Hok _ ws true 140 4 _ Hin ltac:(lia) ltac:(lia) P3).
  assert (byte_count = (if count =? 0 then 65536 else count) * 512) as Hb.
  { unfold byte_count. unfold in_word in Hcount. case_ltb; [done|]. apply wmul_small. unfold in_word. lia. }
  unfold in_word in Hcount.
  assert (2 ^ 22 < byte_count <= 2 ^ 25) as Hbc by (rewrite Hb; case_ltb; lia).
  rewrite wsub_small, from_le_to_le by (unfold in_word; simpl; lia).
  replace (byte_count - 1 <? 2 ^ 22) with false by lia. by rewrite andb_false_r.
Qed.


(** C38: a read beyond the end of the disk fails, and the driver never recovers the port: every
    later read on it fails, whatever it asks for. *)
Theorem error_ends_reading hhdm clb ctba s p lba n buf d : port_ready hhdm clb ctba s p d ->
  0 <= lba < 2 ^ 48 -> 0 < n <= 8192 -> hba_sectors p < lba + n ->
  buffer_ok hhdm clb ctba buf (n * 512) ->
  exists d1, read_sectors hhdm s p lba n buf d = Ret (false, d1) /\
    forall lba' n' buf', exists d2, read_sectors hhdm s p lba' n' buf' d1 = Ret (false, d2).
Proof.
  intros Hready Hlba Hn Hout Hbuf.
  destruct (read_past_end hhdm clb ctba s p lba n buf d Hready Hlba Hn Hout Hbuf) as (d1 & He & Hup & Hh).
  exists d1. split; [done|]. intros lba' n' buf'.
  destruct (read_halted hhdm clb ctba s p lba' n' buf' d1 Hup Hh) as (d2 & He2 & _). by exists d2.
Qed.

(** setting up a port.  From any state of the port [init_port] stops it before it changes
    the bases, and leaves it running on the new blocks, with the header linked to the table,
    so that reads succeed; when an allocation fails nothing is recorded.
    The other ports keep their state and their blocks. *)
Theorem init_port_sets_up {H : Type} {HH : HeapOps H} hhdm s p (h h1 h2 h3 : H) d clb fb ct :
  ABAR s = hba_base -> 0 <= p < 32 ->
  zlen (PORT_CLB s) = 32 -> zlen (PORT_FB s) = 32 -> zlen (PORT_CTBA s) = 32 ->
  (pv_drain (hba_view d p) <= hba_polls)%nat -> (pv_busy (hba_view d p) <= hba_polls)%nat ->
  h_kmalloc_aligned 4096 4096 h = Ret (clb, h1) -> h_kmalloc_aligned 4096 4096 h1 = Ret (fb, h2) ->
  h_kmalloc_aligned 4096 4096 h2 = Ret (ct, h3) -> clb <> 0 -> fb <> 0 ->
  blocks_ok hhdm clb ct -> hhdm <= fb < 2 ^ 64 -> (ct - hhdm) mod 128 = 0 ->
  if ct =? 0 then exists d', init_port hhdm s p h d = Ret (false, s, h3, d')
  else exists s' d', init_port hhdm s p h d = Ret (true, s', h3, d') /\
    port_ready hhdm clb ct (activate s' p) p d' /\ pv_fb (hba_view d' p) = fb - hhdm /\
    (forall q, q <> p -> hba_view d' q = hba_view d q /\
       zget (PORT_CLB s') q = zget (PORT_CLB s) q /\ zget (PORT_CTBA s') q = zget (PORT_CTBA s) q).
Proof.
  intros Ha Hp L1 L2 L3 Hdr Hbusy M1 M2 M3 N1 N2 Hok Hfb Hal. case_ltb.
  - unfold init_port. destruct (stop_port_spec s p d Ha Hp Hdr) as (d1 & -> & F1 & V1). rewrite bind_ret.
    rewrite M1, bind_ret, (proj2 (Z.eqb_neq clb 0) N1), M2, bind_ret, (proj2 (Z.eqb_neq fb 0) N2), M3, bind_ret.
    subst ct. simpl. by eexists.
  - destruct (init_port_ready hhdm s p h h1 h2 h3 d clb fb ct) as (d' & He & Hr & Hf & Hq & _); try done.
    exists (with_port s p clb fb ct), d'. split; [exact He|]. split; [exact Hr|]. split; [exact Hf|]. intros q Hne.
    split; [by apply Hq|]. simpl. split; apply zget_zset_ne; lia.
Qed.
End laws.

(** * A controller for the witnesses

    The disk on every port has [nsec] sectors with the bytes [img]; the device needs
    two polls for everything. *)

Record HbaSim (nsec : Z) (img : Z -> Z) := mkHbaSim { sim_view : Z -> PortView; sim_ram : Z -> Z }.
Arguments mkHbaSim {nsec img} _ _.
Arguments sim_view {nsec img} _ _.
Arguments sim_ram {nsec img} _ _.

Section sim.
Context (nsec : Z) (img : Z -> Z).

Definition sim_answer : Command -> option (list Z) :=
  disk_answer nsec (fun i => wrap 8 (img i)) (replicate 512 0).

Definition sim_base : Z := 0xFFFF8000FEBF1000.

(** Value, port and memory after reading a register. *)
Definition sim_read (off : Z) (v : PortView) (m : Z -> Z) : Z * PortView * (Z -> Z) :=
  if off =? port_cmd then
    ((if pv_st v then 1 else 0) + (if pv_fre v then 16 else 0) + (if settled v then 0 else 2 ^ 15),
     set_drain (Nat.pred (pv_drain v)) v, m)
  else if off =? port_tfd then
    ((if pv_halted v then 1 else 0) + (match pv_busy v with O => 0 | S _ => 2 ^ 7 end),
     set_busy (Nat.pred (pv_busy v)) v, m)
  else if off =? port_is then (if pv_tfes v then 2 ^ 30 else 0, v, m)
  else if off =? port_ci then
    match pv_job v with
    | Idle => (0, v, m)
    | Stuck => (1, v, m)
    | Running (S n) => (1, set_job (Running n) v, m)
    | Running O =>
        match fetch m (pv_clb v) with
        | Some c =>
            match sim_answer c with
            | Some data =>
                if zlen data <=? cm_len c then (0, set_job Idle v, dma m (cm_buf c) data) else (0, v, m)
            | None => (1, set_job Stuck (set_tfes true (set_halted true v)), m)
            end
        | None => (0, v, m)
        end
    end
  else if off =? port_ssts then (0x123, v, m)
  else (SATA_SIG_ATA, v, m).

(** The port after writing a register. *)
Definition sim_write (off x : Z) (v : PortView) : PortView :=
  if off =? port_cmd then
    if Z.testbit x 0 then set_run true (Z.testbit x 4) (pv_drain v) v
    else set_job Idle (set_halted false (set_run false (Z.testbit x 4) (if pv_st v || pv_fre v then 2%nat else pv_drain v) v))
  else if off =? port_is then (if Z.testbit x 30 then set_tfes false v else v)
  else if off =? port_serr then v
  else if off =? port_ci then
    if negb (Z.testbit x 0) then v
    else if pv_halted v then set_job Stuck v else set_job (Running 2) v
  else if negb (settled v) then v
  else if off =? port_clb then set_bases (pv_clb v / 2 ^ 32 * 2 ^ 32 + x) (pv_fb v) v
  else if off =? port_clbu then set_bases (x * 2 ^ 32 + pv_clb v mod 2 ^ 32) (pv_fb v) v
  else if off =? port_fb then set_bases (pv_clb v) (pv_fb v / 2 ^ 32 * 2 ^ 32 + x) v
  else set_bases (pv_clb v) (x * 2 ^ 32 + pv_fb v mod 2 ^ 32) v.

Definition sim_port (addr : Z) : Z := (addr - sim_base - hba_ports) / size_of_HbaPort.
Definition sim_off (addr : Z) : Z := (addr - sim_base - hba_ports) mod size_of_HbaPort.

#[global] Instance sim_hba_ops : HbaOps (HbaSim nsec img) := {|
  mmio_read addr d :=
    let '(x, v, m) := sim_read (sim_off addr) (sim_view d (sim_port addr)) (sim_ram d) in
    (x, mkHbaSim (fun q => if decide (q = sim_port addr) then v else sim_view d q) m);
  mmio_write addr x d :=
    let v := sim_write (sim_off addr) x (sim_view d (sim_port addr)) in
    mkHbaSim (fun q => if decide (q = sim_port addr) then v else sim_view d q) (sim_ram d);
  ram := sim_ram;
  ram_write a l d := mkHbaSim (sim_view d) (dma (sim_ram d) a l);
|}.

Lemma sim_addr p off : 0 <= p -> 0 <= off < 0x80 ->
  let addr := sim_base + hba_ports + p * size_of_HbaPort + off in sim_port addr = p /\ sim_off addr = off.
Proof.
  intros Hp Ho. unfold sim_port, sim_off, size_of_HbaPort. cbv zeta.
  replace (sim_base + hba_ports + p * 128 + off - sim_base - hba_ports) with (off + p * 128) by lia.
  rewrite Z.div_add, Z.mod_add, Z.div_small, Z.mod_small by lia. lia.
Qed.

Lemma sim_read_law off v m : off ∈ read_regs ->
  port_read sim_answer off v m (sim_read off v m).1.1 (sim_read off v m).1.2 (sim_read off v m).2.
Proof.
  intros Hoff. repeat (apply elem_of_cons in Hoff as [->|Hoff]); [..|by apply not_elem_of_nil in Hoff].
  - change (sim_read port_cmd v m) with
      ((if pv_st v then 1 else 0) + (if pv_fre v then 16 else 0) + (if settled v then 0 else 2 ^ 15),
       set_drain (Nat.pred (pv_drain v)) v, m). cbn [fst snd].
    apply rd_cmd; destruct (settled v), (pv_st v), (pv_fre v); done.
  - change (sim_read port_tfd v m) with
      ((if pv_halted v then 1 else 0) + (match pv_busy v with O => 0 | S _ => 2 ^ 7 end),
       set_busy (Nat.pred (pv_busy v)) v, m). cbn [fst snd].
    apply rd_tfd; destruct (pv_halted v), (pv_busy v); done.
  - change (sim_read port_is v m) with (if pv_tfes v then 2 ^ 30 else 0, v, m). cbn [fst snd].
    apply rd_is; destruct (pv_tfes v); done.
  - change (sim_read port_ci v m) with
      (match pv_job v with
       | Idle => (0, v, m) | Stuck => (1, v, m) | Running (S n) => (1, set_job (Running n) v, m)
       | Running O => match fetch m (pv_clb v) with
          | Some c => match sim_answer c with
             | Some data => if zlen data <=? cm_len c then (0, set_job Idle v, dma m (cm_buf c) data) else (0, v, m)
             | None => (1, set_job Stuck (set_tfes true (set_halted true v)), m) end
          | None => (0, v, m) end end).
    destruct (pv_job v) as [|[|n]|] eqn:Hj.
    + by apply rd_ci_idle.
    + destruct (fetch m (pv_clb v)) as [c|] eqn:Hf.
      * destruct (sim_answer c) as [data|] eqn:Ha.
        -- destruct (Z.leb_spec (zlen data) (cm_len c)).
           ++ by eapply rd_ci_done.
           ++ apply rd_ci_illegal; [done | intros c' data' Hc' Hd' | intros c' Hc']; assert (c' = c) as -> by congruence.
              ** by assert (data' = data) as -> by congruence.
              ** congruence.
        -- by eapply rd_ci_failed.
      * apply rd_ci_illegal; [done | congruence | congruence].
    + by apply rd_ci_wait.
    + by apply rd_ci_stuck.
  - change (sim_read port_ssts v m) with (0x123, v, m). by apply rd_ssts.
  - change (sim_read port_sig v m) with (SATA_SIG_ATA, v, m). by apply rd_sig.
Qed.

Lemma sim_write_law off x v : off ∈ write_regs -> port_write 2 off x v (sim_write off x v).
Proof.
  intros Hoff.
  repeat (apply elem_of_cons in Hoff as [->|Hoff]); [..|by apply not_elem_of_nil in Hoff];
    cbn -[set_run set_job set_bases set_halted set_tfes settled Z.testbit Z.div Z.modulo Z.mul Z.add Z.pow].
  - destruct (Z.testbit x 0) eqn:Hx; [by apply wr_cmd_run | apply (wr_cmd_stop 2 v x 2 Hx); lia].
  - apply wr_is.
  - apply wr_serr.
  - destruct (Z.testbit x 0) eqn:Hx; simpl; [|by apply wr_ci_none].
    destruct (pv_halted v) eqn:Hh; [by apply wr_ci_halted|].
    destruct (pv_st v && pv_fre v) eqn:Hs; [|apply wr_ci_illegal; auto].
    destruct (pv_job v) eqn:Hj; [|by apply wr_ci_illegal; [|right; rewrite Hj]..].
    apply andb_true_iff in Hs as [? ?]. apply wr_ci_start; auto.
  - destruct (settled v) eqn:Hs; [by apply wr_clb | apply wr_base_running; [done | by left]].
  - destruct (settled v) eqn:Hs; [by apply wr_clbu | apply wr_base_running; [done | by right; left]].
  - destruct (settled v) eqn:Hs; [by apply wr_fb | apply wr_base_running; [done | by do 2 right; left]].
  - destruct (settled v) eqn:Hs; [by apply wr_fbu | apply wr_base_running; [done | by do 3 right; left]].
Qed.

#[global] Program Instance sim_hba : Hba (HbaSim nsec img) := {|
  hba_base := sim_base;
  hba_polls := 2;
  hba_view := sim_view;
  hba_sectors := fun _ => nsec;
  hba_image := fun _ i => wrap 8 (img i);
  hba_ident := fun _ => replicate 512 0;
|}.
Next Obligation. done. Qed.
Next Obligation. intros p i. by apply wrap_in_word. Qed.
Next Obligation. by vm_compute. Qed.
Next Obligation.
  intros d p off Hp Hoff. cbn [mmio_read sim_hba_ops].
  assert (0 <= off < 0x80) as Ho.
  { assert (off ∈ read_regs ++ write_regs) as Hin by (apply elem_of_app; by left).
    assert (Forall (fun o => 0 <= o < 0x80) (read_regs ++ write_regs)) as Hf by (apply (bool_decide_unpack _); by vm_compute).
    rewrite Forall_forall in Hf. by apply Hf. }
  destruct (sim_addr p off) as [-> ->]; [lia | done |].
  pose proof (sim_read_law off (sim_view d p) (sim_ram d) Hoff) as Hlaw.
  destruct (sim_read off (sim_view d p) (sim_ram d)) as [[x v] m]. cbn [fst snd] in Hlaw.
  split; [|intros q Hq; simpl; by rewrite decide_False].
  exists m. simpl. rewrite decide_True by done. by split.
Qed.
Next Obligation.
  intros d p off x Hp Hoff Hx. cbn [mmio_write sim_hba_ops].
  assert (0 <= off < 0x80) as Ho.
  { assert (off ∈ read_regs ++ write_regs) as Hin by (apply elem_of_app; by right).
    assert (Forall (fun o => 0 <= o < 0x80) (read_regs ++ write_regs)) as Hf by (apply (bool_decide_unpack _); by vm_compute).
    rewrite Forall_forall in Hf. by apply Hf. }
  destruct (sim_addr p off) as [-> ->]; [lia | done |]. simpl.
  split; [rewrite decide_True by done; by apply sim_write_law|]. split; [done|].
  intros q Hq. by rewrite decide_False.
Qed.
Next Obligation. done. Qed.
End sim.

Definition demo_image (i : Z) : Z := i mod 251.

(** Port 0 is set up: list at 0x10000, table at 0x20000. *)
Definition demo_ram (i : Z) : Z := if (0x10008 <=? i) && (i <? 0x1000C) then default 0 (zget (to_le 4 0x20000) (i - 0x10008)) else 0.

Definition demo_hba : HbaSim 4 demo_image :=
  mkHbaSim (fun _ => mkPortView 0x10000 0x30000 true true 0 2 Idle false false) demo_ram.

Definition demo_ahci : Ahci :=
  mkAhci sim_base 1 (0x10000 :: replicate 31 0) (replicate 32 0) (0x20000 :: replicate 31 0) 0.

Lemma demo_ready : port_ready 0 0x10000 0x20000 demo_ahci 0 demo_hba.
Proof.
  split; [|by split]. split; try done. split; lia.
Qed.

Lemma demo_polls nsec img :
  (hba_polls (D:=HbaSim nsec img) < READY_POLLS)%nat /\ (hba_polls (D:=HbaSim nsec img) < ISSUE_POLLS)%nat.
Proof. destruct polls_values as [-> ->]. cbn [hba_polls sim_hba]. lia. Qed.

Lemma demo_buffer : buffer_ok 0 0x10000 0x20000 0x40000 1024.
Proof. split; [lia | lia | done | lia | lia]. Qed.

Lemma demo_blocks : blocks_ok 0 0x10000 0x20000.
Proof. split; lia. Qed.

Lemma command_roundtrip_witness : exists d', setup_command 0 demo_ahci 0 0x25 0x123456789ABC 3 0x40000 1536 false demo_hba = Ret d' /\
  fetch (ram d') 0x10000 = Some (mkCommand 0x25 0x123456789ABC 3 0x40000 1536 false).
Proof.
  destruct (command_roundtrip 0 0x10000 0x20000 demo_ahci 0 0x25 0x123456789ABC 3 0x40000 1536 false demo_hba)
    as (d' & He & Hf & _); [reflexivity | reflexivity | apply demo_blocks | apply demo_ready | unfold in_word; lia.. | reflexivity | lia | reflexivity |].
  exists d'. split; [exact He | exact Hf].
Defined.

Lemma long_transfer_illegal_witness : exists d', setup_command 0 demo_ahci 0 0x25 0 10000 0x40000 5120000 false demo_hba = Ret d' /\
  fetch (ram d') 0x10000 = None.
Proof.
  destruct (long_transfer_illegal 0 0x10000 0x20000 demo_ahci 0 0x25 0 10000 0x40000 demo_hba)
    as (d' & He & Hf); [reflexivity | reflexivity | apply demo_blocks | apply demo_ready | unfold in_word; lia | lia |].
  exists d'. split; [exact He | exact Hf].
Defined.


Lemma error_ends_reading_witness : exists d1, read_sectors 0 demo_ahci 0 3 2 0x40000 demo_hba = Ret (false, d1) /\
  exists d2, read_sectors 0 demo_ahci 0 0 1 0x40000 d1 = Ret (false, d2).
Proof.
  destruct (error_ends_reading (demo_polls _ _) 0 0x10000 0x20000 demo_ahci 0 3 2 0x40000 demo_hba)
    as (d1 & He & Hn); [apply demo_ready | lia | lia | simpl; lia | apply demo_buffer |].
  exists d1. split; [exact He | apply Hn].
Defined.

Lemma init_port_sets_up_witness : exists s' h' d', init_port 0 (mkAhci sim_base 0 (replicate 32 0) (replicate 32 0) (replicate 32 0) 0)
    5 ([] : IdealHeap) demo_hba = Ret (true, s', h', d') /\
  port_ready 0 0x1000 0x3000 (activate s' 5) 5 d'.
Proof.
  pose proof (init_port_sets_up (H:=IdealHeap) (demo_polls _ _) 0 (mkAhci sim_base 0 (replicate 32 0) (replicate 32 0) (replicate 32 0) 0)
    5 [] [(0x1000, 4096)] [(0x2000, 4096); (0x1000, 4096)] [(0x3000, 4096); (0x2000, 4096); (0x1000, 4096)]
    demo_hba 0x1000 0x2000 0x3000) as Hi.
  destruct Hi as (s' & d' & He & Hr & _); try reflexivity; try lia; try (simpl; lia); try (split; simpl; lia).
  exists s', [(0x3000, 4096); (0x2000, 4096); (0x1000, 4096)], d'. split; [exact He | exact Hr].
Defined.
