(* ===== verification/Volume.v ===== *)
(** The disk driver as a disk of the file system: [Ahci.read_sectors] over a
    controller meets [Disk]'s contract, so that what [Ext3] and [Ext3Dir] prove holds for
    the file system on the driver. *)
From S2P Require Import Prelude Word Vfs PageSource Buddy Slab Mem Disk Ext3 Ext3Dir Ahci.

(** The offset of the direct map, the driver's statics and the machine. *)
Record Driver (D : Type) := mkDriver { dv_hhdm : Z; dv_ahci : Ahci; dv_dev : D }.
Arguments mkDriver {D} _ _ _.
Arguments dv_hhdm {D} _.
Arguments dv_ahci {D} _.
Arguments dv_dev {D} _.

Section driver.
Context {D : Type} {HO : HbaOps D}.

(** The call in [read_bytes]: the bytes of the buffer afterwards, if it reports success. *)
#[global] Instance driver_disk : Disk (Driver D) := {|
  Disk.read_sectors port lba count buf v :=
    let n := if count =? 0 then 65536 else count in
    '(ok, d) ← Ahci.read_sectors (dv_hhdm v) (dv_ahci v) port lba count buf (dv_dev v);
    Ret (if ok : bool then Some (ram d <$> zseq (virt_to_phys (dv_hhdm v) buf) (Z.to_nat (n * 512))) else None,
         mkDriver (dv_hhdm v) (dv_ahci v) d);
|}.

Context {HB : Hba D}.
Context (Hpolls : (hba_polls < READY_POLLS)%nat /\ (hba_polls < ISSUE_POLLS)%nat).

(** The memory of a port: command list, received FIS and command table. *)
Definition port_blocks (s : Ahci) (p : Z) : list (Z * Z) :=
  (fun l => (default 0 (zget l p), 4096)) <$> [PORT_CTBA s; PORT_FB s; PORT_CLB s].

(** The port is set up and accepts a command; the direct map starts at a page. *)
Definition driver_ready (v : Driver D) (p : Z) : Prop :=
  dv_hhdm v mod 4096 = 0 /\ exists clb ctba, port_ready (dv_hhdm v) clb ctba (dv_ahci v) p (dv_dev v).

(** A block of the heap apart from the port's memory is a buffer for the driver. *)
Lemma placed_buffer hhdm clb ctba s p d buf n : hhdm mod 4096 = 0 -> port_up hhdm clb ctba s p d ->
  placed hhdm (port_blocks s p) buf n -> buffer_ok hhdm clb ctba buf n.
Proof.
  intros Hh Hup [Hpage Hbase Htop Hap]. pose proof (pu_clb _ _ _ _ _ _ Hup) as Hc%arr_get_Ret.
  pose proof (pu_ctba _ _ _ _ _ _ Hup) as Ht%arr_get_Ret. unfold port_blocks in Hap. cbn [fmap list_fmap] in Hap.
  rewrite Hc, Ht in Hap. apply Forall_cons in Hap as [A1 Hap]. apply Forall_cons in Hap as [_ Hap].
  apply Forall_cons in Hap as [A2 _]. unfold apart in *. simpl in *.
  split; [done | done | | lia | lia]. clear -Hh Hpage. Z.to_euclidean_division_equations. lia.
Qed.

Lemma driver_read v p lba n buf : driver_ready v p -> 0 <= lba < 2 ^ 48 -> 0 < n <= 8192 ->
  placed (dv_hhdm v) (port_blocks (dv_ahci v) p) buf (n * 512) ->
  exists v', Disk.read_sectors p lba (wrap 16 n) buf v = Ret
    (if lba + n <=? hba_sectors p then Some (hba_image p <$> zseq (lba * 512) (Z.to_nat (n * 512))) else None, v') /\
    (lba + n <= hba_sectors p ->
     driver_ready v' p /\ dv_hhdm v' = dv_hhdm v /\ dv_ahci v' = dv_ahci v).
Proof.
  intros (Hh & clb & ctba & Hr) Hlba Hn Hpl. pose proof (proj1 Hr) as Hup.
  pose proof (placed_buffer _ _ _ _ _ _ _ _ Hh Hup Hpl) as Hbuf.
  rewrite wrap_small by (unfold in_word; lia). unfold Disk.read_sectors, driver_disk.
  rewrite (proj2 (Z.eqb_neq n 0)) by lia. destruct (Z.leb_spec (lba + n) (hba_sectors p)) as [Hin|Hout].
  - destruct (read_ok Hpolls _ _ _ _ _ _ _ _ _ Hr Hlba Hn Hin Hbuf) as (d' & -> & Hr' & Hd & _).
    rewrite bind_ret. exists (mkDriver (dv_hhdm v) (dv_ahci v) d'). split; [|intros _; split; [split; [done | eauto] | done]].
    do 3 f_equal. pose proof (bo_hhdm _ _ _ (pu_blocks _ _ _ _ _ _ Hup)). destruct Hbuf as [B1 B2 _ _ _].
    assert (virt_to_phys (dv_hhdm v) buf = buf - dv_hhdm v) as -> by (apply wsub_small; unfold in_word; lia).
    apply zget_ext; [by rewrite !zlen_fmap_zseq by lia|]. rewrite zlen_fmap_zseq by lia. intros i Hi.
    rewrite !zget_fmap_zseq by lia. by rewrite Hd.
  - destruct (read_past_end Hpolls _ _ _ _ _ _ _ _ _ Hr Hlba Hn Hout Hbuf) as (d' & -> & _).
    rewrite bind_ret. eexists. split; [done | lia].
Qed.

(** The driver is a disk; it is not resilient. *)
#[global] Program Instance driver_laws : DiskLaws (Driver D) := {|
  disk_ready := driver_ready;
  disk_resilient := False;
  disk_sectors := fun _ => hba_sectors;
  disk_byte := fun _ => hba_image;
  disk_blocks := fun v => port_blocks (dv_ahci v);
  disk_base := dv_hhdm;
|}.
Next Obligation. intros v p i. apply hba_image_byte. Qed.
Next Obligation.
  intros v p lba n buf Hv Hlba Hn Hpl. destruct (driver_read v p lba n buf Hv Hlba Hn Hpl) as (v' & He & Hk).
  exists v'. split; [exact He|]. intros [[]|Hin]. destruct (Hk Hin) as (Hv' & Hh & Hs). by rewrite Hh, Hs.
Qed.
End driver.

(** * From a port to a file *)

Section theorems.
Context {D : Type} {HO : HbaOps D} {HB : Hba D}.
Context {H : Type} {HH : HeapOps H} {HL : HeapLaws H}.
Context (Hpolls : (hba_polls < READY_POLLS)%nat /\ (hba_polls < ISSUE_POLLS)%nat).

(** A port before [init_port]: it may be running, but comes to rest within the polls. *)
Record port_fresh (s : Ahci) (p : Z) (d : D) : Prop := {
  pf_abar : ABAR s = hba_base;
  pf_port : 0 <= p < 32;
  pf_clb : zlen (PORT_CLB s) = 32;
  pf_fb : zlen (PORT_FB s) = 32;
  pf_ctba : zlen (PORT_CTBA s) = 32;
  pf_drain : (pv_drain (hba_view d p) <= hba_polls)%nat;
  pf_busy : (pv_busy (hba_view d p) <= hba_polls)%nat;
}.

(** [init_port] takes three pages of the heap, apart from the blocks in use and from each other. *)
Lemma init_port_takes hhdm s p (h : H) d L ns0 : port_fresh s p d ->
  0 <= hhdm <= h_base (H:=H) -> hhdm mod 4096 = 0 ->
  h_wf h -> h_live h ≡ₚ L -> h_room L (4096 :: 4096 :: 4096 :: ns0) ->
  exists clb fb ct h' d', let s' := with_port s p clb fb ct in
    init_port hhdm s p h d = Ret (true, s', h', d') /\ port_ready hhdm clb ct (activate s' p) p d' /\
    h_wf h' /\ h_live h' ≡ₚ (ct, 4096) :: (fb, 4096) :: (clb, 4096) :: L /\
    (forall ns, h_room L (4096 :: 4096 :: 4096 :: ns) -> h_room ((ct, 4096) :: (fb, 4096) :: (clb, 4096) :: L) ns) /\
    Forall (fun v => placed (h_base (H:=H)) L v 4096) [clb; fb; ct] /\
    (forall q, q <> p -> hba_view d' q = hba_view d q) /\
    (forall i, outside hhdm [clb; fb; ct] i -> ram d' i = ram d i).
Proof.
  intros [Ha Hp L1 L2 L3 Hdr Hbusy] Hh Hpage Hw Hl Hroom.
  destruct (aligned_next L 4096 _ h ltac:(lia) Hw Hl Hroom) as (clb & h1 & M1 & N1 & P1 & W1 & Hl1 & R1).
  destruct (aligned_next _ 4096 _ h1 ltac:(lia) W1 Hl1 (R1 _ Hroom)) as (fb & h2 & M2 & N2 & P2 & W2 & Hl2 & R2).
  destruct (aligned_next _ 4096 _ h2 ltac:(lia) W2 Hl2 (R2 _ (R1 _ Hroom))) as (ct & h3 & M3 & N3 & P3 & W3 & Hl3 & R3).
  assert (ct + 4096 <= clb \/ clb + 4096 <= ct) as Hap.
  { pose proof (pl_apart _ _ _ _ P3) as Hap. apply Forall_cons in Hap as [_ Hap]. by apply Forall_cons in Hap as [Hap _]. }
  assert (blocks_ok hhdm clb ct) as Hok by (destruct P1, P3; split; lia).
  assert (hhdm <= fb < 2 ^ 64) by (destruct P2; lia).
  destruct (init_port_ready Hpolls hhdm s p h h1 h2 h3 d clb fb ct) as (d' & He & Hr & _ & Hq & Ho); try done.
  { destruct P3 as [A3 _ _ _]. clear -Hpage A3. Z.to_euclidean_division_equations. lia. }
  exists clb, fb, ct, h3, d'. cbv zeta. split_and!; try done.
  - intros ns Hns. by apply R3, R2, R1.
  - rewrite !Forall_cons, Forall_nil. split_and!; [done | eapply placed_sub; [|exact P2] | eapply placed_sub; [|exact P3] | done];
      intros b Hb; rewrite ?elem_of_cons; tauto.
Qed.

Lemma port_blocks_with s p clb fb ct : 0 <= p < 32 -> zlen (PORT_CLB s) = 32 -> zlen (PORT_FB s) = 32 ->
  zlen (PORT_CTBA s) = 32 ->
  port_blocks (activate (with_port s p clb fb ct) p) p = [(ct, 4096); (fb, 4096); (clb, 4096)].
Proof. intros Hp L1 L2 L3. unfold port_blocks. simpl. by rewrite !zget_zset_eq by lia. Qed.

(** [init_port] turns three pages of the heap into the memory of a ready disk. *)
Lemma init_port_St hhdm s p (h : H) d L ns0 : port_fresh s p d ->
  0 <= hhdm <= h_base (H:=H) -> hhdm mod 4096 = 0 ->
  h_wf h -> h_live h ≡ₚ L -> h_room L (4096 :: 4096 :: 4096 :: ns0) ->
  exists s' h' d', init_port hhdm s p h d = Ret (true, s', h', d') /\
    let own := port_blocks (activate s' p) p in
    St (DL:=driver_laws Hpolls) p (hba_sectors p) (hba_image p) own L (h', mkDriver hhdm (activate s' p) d') /\
    forall ns, h_room L (4096 :: 4096 :: 4096 :: ns) -> h_room (L ++ own) ns.
Proof.
  intros Hpf Hh Hpage Hw Hl Hroom.
  destruct (init_port_takes hhdm s p h d L ns0 Hpf Hh Hpage Hw Hl Hroom)
    as (clb & fb & ct & h' & d' & He & Hr & Hw' & Hl' & Hns & _). cbv zeta in He, Hr.
  exists (with_port s p clb fb ct), h', d'. split; [exact He|]. cbv zeta. destruct Hpf as [_ Hp L1 L2 L3 _ _].
  pose proof (port_blocks_with s p clb fb ct Hp L1 L2 L3) as Hown. set (s' := with_port s p clb fb ct) in *.
  rewrite Hown.
  assert (L ++ [(ct, 4096); (fb, 4096); (clb, 4096)] ≡ₚ (ct, 4096) :: (fb, 4096) :: (clb, 4096) :: L) as Hperm
    by (rewrite (Permutation_app_comm L); done).
  split.
  - split; simpl; try done; [by rewrite Hl', Hperm | lia | by split; [|exists clb, ct]].
  - intros ns Hns'. eapply h_room_perm; [symmetry; exact Hperm|]. by apply Hns.
Qed.

End theorems.

(** The small disk of [Ext3] behind the controller; port 5 still runs with bases of the firmware. *)
Definition demo_controller : HbaSim 128 (patched demo_patches) :=
  mkHbaSim (fun _ => mkPortView 0x7000 0x8000 true true 1 1 Idle false false) (fun _ => 0).

Definition demo_statics : Ahci := mkAhci sim_base 0 (replicate 32 0) (replicate 32 0) (replicate 32 0) 0.

Lemma demo_fresh : port_fresh demo_statics 5 demo_controller.
Proof. split; try done; simpl; lia. Qed.

