(* ===== verification/Storage.v ===== *)
(** Bringing the disks up, [init] and [identify_device] of [src/kern/drv/disk/ahci.rs] over a
    whole controller: which ports become disks, and that each of them is a disk for the file
    system ([Volume]). *)
From S2P Require Import Prelude Word Port Vfs PageSource Buddy Slab Mem Disk Ext3 Ext3Dir Pci Ahci Volume.

(** * The rest of the controller

    Its global registers, the link state and signature of each port, and its configuration
    space, none of which has to do with the ports' commands. *)

Section quiet.
Context {D : Type} {HO : HbaOps D} {HB : Hba D}.

(** Ports and memory are as before. *)
Definition quiet (d d' : D) : Prop :=
  (forall q, hba_view d' q = hba_view d q) /\ forall i, ram d' i = ram d i.

#[global] Instance quiet_preorder : PreOrder quiet.
Proof.
  split; [done|]. intros d1 d2 d3 [V1 R1] [V2 R2]. split; [intros q; by rewrite V2 | intros i; by rewrite R2].
Qed.
End quiet.

Class HbaHost (D : Type) `{Hba D, !WidePorts D} := {
  hst_pi : Z;                      (* ports implemented *)
  hst_ssts : Z -> Z;
  hst_sig : Z -> Z;
  hst_ident_bytes p : bytes_ok (hba_ident p);
  hst_global off d : off ∈ [hba_vs; hba_ghc; hba_pi] ->
    let '(x, d') := mmio_read (hba_base (D:=D) + off) d in
    quiet d d' /\ (off = hba_pi -> x = hst_pi);
  hst_enable x d : quiet d (mmio_write (hba_base (D:=D) + hba_ghc) x d);
  hst_link p d : 0 <= p < 32 ->
    (mmio_read (reg p port_ssts) d).1 = hst_ssts p /\ (mmio_read (reg p port_sig) d).1 = hst_sig p;
  hst_in32 port d : quiet d (port_in32 port d).2;
  hst_out32 port x d : quiet d (port_out32 port x d);
}.

(** * Identification *)

(** The answer to the command, as words and as what [identify_device] prints. *)
Definition answer_word (l : list Z) (w : Z) : Z := default 0 (zget l (2 * w)) + 256 * default 0 (zget l (2 * w + 1)).

Definition printable (c : Z) : list Z := if (0x20 <=? c) && (c <=? 0x7E) then [c] else [].

Definition answer_model (l : list Z) : list Z :=
  zseq 27 20 ≫= fun w => printable (default 0 (zget l (2 * w + 1))) ++ printable (default 0 (zget l (2 * w))).

(** Words 100 to 103, low word first. *)
Definition answer_sectors (l : list Z) : Z :=
  answer_word l 100 + 2 ^ 16 * answer_word l 101 + 2 ^ 32 * answer_word l 102 + 2 ^ 48 * answer_word l 103.

Section identify.
Context {D : Type} {HO : HbaOps D} {HB : Hba D}.
Context (Hpolls : (hba_polls < READY_POLLS)%nat /\ (hba_polls < ISSUE_POLLS)%nat).
Implicit Types (d : D) (s : Ahci).

(** The buffer holds the bytes [l]. *)
Definition holds (hhdm buf : Z) (l : list Z) d : Prop :=
  forall i, 0 <= i < zlen l -> Some (ram d (buf - hhdm + i)) = zget l i.

Lemma buf_word_holds hhdm buf l w d : 0 <= hhdm <= buf -> buf + 512 < 2 ^ 64 -> zlen l = 512 -> holds hhdm buf l d ->
  0 <= w < 256 -> buf_word hhdm buf w d = answer_word l w.
Proof.
  intros Hh Hs Hl Hd Hw. unfold buf_word, answer_word, virt_to_phys.
  cbv zeta. rewrite (wmul_small 64), (wadd_small 64 buf), wsub_small, wadd_small by (unfold in_word; lia).
  rewrite <- !Hd by lia. simpl. f_equal; [f_equal; lia|]. f_equal. f_equal. lia.
Qed.

Lemma lor_word lo hi k : 0 <= k -> in_word k lo -> 0 <= hi -> Z.lor lo (hi * 2 ^ k) = lo + 2 ^ k * hi.
Proof. intros Hk Hlo Hhi. rewrite lor_shifted by done. lia. Qed.

Lemma identify_sectors_holds hhdm buf l d : 0 <= hhdm <= buf -> buf + 512 < 2 ^ 64 -> zlen l = 512 -> bytes_ok l ->
  holds hhdm buf l d -> identify_sectors hhdm buf d = answer_sectors l.
Proof.
  intros Hh Hs Hl Hb Hd. unfold identify_sectors, answer_sectors.
  rewrite !(buf_word_holds hhdm buf l) by (done || lia).
  assert (forall w, in_word 16 (answer_word l w)) as Hw.
  { intros w. unfold answer_word. assert (forall i, in_word 8 (default 0 (zget l i))) as Hi.
    { intros i. destruct (zget l i) as [x|] eqn:Hx; [by eapply Forall_zget | by split]. }
    pose proof (Hi (2 * w)). pose proof (Hi (2 * w + 1)). unfold in_word in *. lia. }
  pose proof (Hw 100) as W0. pose proof (Hw 101) as W1. pose proof (Hw 102) as W2. pose proof (Hw 103) as W3.
  unfold in_word in *. rewrite !wshl_small by (unfold in_word; lia).
  rewrite (lor_word (answer_word l 100)) by (unfold in_word; lia). rewrite (lor_word _ (answer_word l 102)) by (unfold in_word; lia).
  by rewrite lor_word by (unfold in_word; lia).
Qed.
Lemma model_chars_holds hhdm buf l d : 0 <= hhdm <= buf -> buf + 512 < 2 ^ 64 -> zlen l = 512 -> bytes_ok l ->
  holds hhdm buf l d -> model_chars hhdm buf d = answer_model l.
Proof.
  intros Hh Hs Hl Hb Hd. unfold model_chars, answer_model.
  apply bind_ext_in. intros w Hw%elem_of_zseq.
  rewrite (buf_word_holds hhdm buf l) by (done || lia). unfold answer_word, printable.
  assert (forall i, in_word 8 (default 0 (zget l i))) as Hi.
  { intros i. destruct (zget l i) as [x|] eqn:Hx; [by eapply Forall_zget | by split]. }
  pose proof (Hi (2 * w)) as Hlo. pose proof (Hi (2 * w + 1)) as Hhi.
  set (lo := default 0 (zget l (2 * w))) in *. set (hi := default 0 (zget l (2 * w + 1))) in *. unfold in_word in *.
  assert (wrap 8 (wshr 16 (lo + 256 * hi) 8) = hi) as ->.
  { rewrite wshr_div, wrap_small; unfold in_word; Z.to_euclidean_division_equations; lia. }
  assert (wrap 8 (Z.land (lo + 256 * hi) 255) = lo) as ->; [|done].
  change 255 with (Z.ones 8). rewrite Z.land_ones by lia.
  rewrite wrap_small; unfold in_word; Z.to_euclidean_division_equations; lia.
Qed.

Context {WP : WidePorts D} {HS : HbaHost D}.

(** On a port that was set up the command succeeds: what is printed comes from the disk's
    answer, only the buffer and the port's own blocks change, and the port stays ready. *)
Lemma identify_spec hhdm clb ctba s p d : port_ready hhdm clb ctba s p d -> IDENTIFY_BUF s <> 0 ->
  buffer_ok hhdm clb ctba (IDENTIFY_BUF s) 512 -> let l := hba_ident p in
  exists d', identify_device hhdm s p d =
      Ret (Some (answer_model l, answer_sectors l, (answer_sectors l ⊠ 512) / (1024 * 1024)), d') /\
    port_ready hhdm clb ctba s p d' /\ pv_fb (hba_view d' p) = pv_fb (hba_view d p) /\
    only_blocks hhdm clb ctba (IDENTIFY_BUF s) 512 d d' /\ (forall q, q <> p -> hba_view d' q = hba_view d q).
Proof.
  intros [Hup [Hhalt Hjob]] Hne Hbuf l. set (buf := IDENTIFY_BUF s) in *. unfold identify_device. fold buf.
  rewrite (proj2 (Z.eqb_neq buf 0) Hne). set (d0 := poke _ _ _ d).
  pose proof (bo_hhdm _ _ _ (pu_blocks _ _ _ _ _ _ Hup)) as Hh.
  pose proof Hbuf as [B1 B2 _ B4 B5].
  assert (forall i, ~ buf - hhdm <= i < buf - hhdm + 512 -> ram d0 i = ram d i) as Hr0
    by (intros i Hi; unfold d0; apply poke_out; rewrite ?zlen_replicate; lia).
  assert (forall q, hba_view d0 q = hba_view d q) as Hv0 by (intros q; apply poke_views).
  assert (port_ready hhdm clb ctba s p d0) as Hready.
  { split; [|by rewrite Hv0]. destruct Hup. split; rewrite ?Hv0; try done.
    apply (linked_ext Hpolls hhdm clb ctba (ram d)); [|done]. intros i Hi. apply Hr0. lia. }
  destruct (wait_ready_spec Hpolls _ _ _ _ _ _ (proj1 Hready)) as (d1 & -> & Hf1 & Hv1). rewrite bind_ret. simpl negb. cbv iota.
  destruct (setup_after hhdm clb ctba s p ATA_CMD_IDENTIFY 0 1 (virt_to_phys hhdm buf) 512 d0 d1 (proj1 Hready) Hf1 Hv1)
    as (d2 & -> & Hv2 & Hq2 & Hr2). rewrite bind_ret.
  destruct (issued_ok Hpolls hhdm clb ctba s p ATA_CMD_IDENTIFY 0 1 buf 512 l d0 d2 Hready)
    as (d3 & -> & Hready3 & Hfb & Hd & Ho & Hq); try done; try apply hba_ident_len.
  rewrite bind_ret. simpl negb. cbv iota.
  assert (holds hhdm buf l d3) as Hl by (intros i Hi; apply Hd; unfold l in Hi; rewrite hba_ident_len in Hi; lia).
  assert (0 <= hhdm <= buf) as Hhb by lia. pose proof (hba_ident_len p) as Hlen. pose proof (hst_ident_bytes p) as Hbytes.
  rewrite (identify_sectors_holds hhdm buf l), (model_chars_holds hhdm buf l) by done.
  exists d3. split; [done|]. split; [done|]. split; [by rewrite Hfb, Hv0|]. split.
  - intros i Hi1 Hi2 Hi3. rewrite Ho by done. by apply Hr0.
  - intros q Hne'. by rewrite Hq, Hv0.
Qed.

End identify.

(** * The loop over the ports *)

Lemma ready_kept {D} `{Hba D} hhdm clb ctba (s s' : Ahci) q (d d' : D) : port_ready hhdm clb ctba s q d ->
  ABAR s' = ABAR s -> Z.testbit (ACTIVE_PORTS s') q = true ->
  zget (PORT_CLB s') q = zget (PORT_CLB s) q -> zget (PORT_CTBA s') q = zget (PORT_CTBA s) q ->
  hba_view d' q = hba_view d q ->
  (forall i, clb - hhdm <= i < clb - hhdm + 4096 -> ram d' i = ram d i) ->
  port_ready hhdm clb ctba s' q d'.
Proof.
  intros [[Ha Hp Hact Hclb Hct Hok Hvc Hlink Hst Hfre Hbusy] [Hh Hj]] A1 A2 A3 A4 Hv Hr.
  apply arr_get_Ret in Hclb, Hct.
  split; [|by rewrite Hv]. split; rewrite ?Hv, ?A1; try done; [by apply arr_get_Ret; rewrite ?A3, ?A4..|].
  destruct Hlink as [Hl Hal]. split; [|done]. rewrite <- Hl. unfold le, base in *. simpl. by rewrite !Hr by lia.
Qed.

Section probe.
Context {D : Type} {HO : HbaOps D} {HB : Hba D} {WP : WidePorts D} {HS : HbaHost D}.
Context {H : Type} {HH : HeapOps H} {HL : HeapLaws H}.
Context (Hpolls : (hba_polls < READY_POLLS)%nat /\ (hba_polls < ISSUE_POLLS)%nat).
Implicit Types (d : D) (s : Ahci) (h : H).

(** Port [p] is implemented, its link is up and active, and an ATA disk answers. *)
Definition disk_at (p : Z) : bool :=
  Z.testbit hst_pi p && (Z.land (hst_ssts p) 0x0F =? 3) && (Z.land (wshr 32 (hst_ssts p) 8) 0x0F =? 1) &&
  (hst_sig p =? SATA_SIG_ATA).

(** The disks among the ports below [i]. *)
Definition found (i : Z) : list Z := List.filter disk_at (zseq 0 (Z.to_nat i)).

Definition pages (n : nat) : list Z := replicate n 4096.

(** After the ports below [i]: each disk is ready and has three pages of its own; the other ports are
    as they were. *)
Record probed (hhdm idb : Z) (L : list (Z * Z)) (i : Z) s h d : Prop := {
  pr_abar : ABAR s = hba_base;
  pr_clb : zlen (PORT_CLB s) = 32;
  pr_fb : zlen (PORT_FB s) = 32;
  pr_ctba : zlen (PORT_CTBA s) = 32;
  pr_idb : IDENTIFY_BUF s = idb;
  pr_wf : h_wf h;
  pr_live : h_live h ≡ₚ mjoin (port_blocks s <$> found i) ++ L;
  pr_room ns : h_room L (pages (3 * length (found i)) ++ ns) -> h_room (mjoin (port_blocks s <$> found i) ++ L) ns;
  pr_active p : 0 <= p < 32 -> Z.testbit (ACTIVE_PORTS s) p = (p <? i) && disk_at p;
  pr_ready p : 0 <= p < i -> disk_at p = true ->
    exists clb ctba, port_ready hhdm clb ctba s p d /\ apart (clb, 4096) (idb, 4096);
  pr_rest p : i <= p < 32 -> (pv_drain (hba_view d p) <= hba_polls)%nat /\ (pv_busy (hba_view d p) <= hba_polls)%nat;
  pr_word : in_word 32 (ACTIVE_PORTS s);
}.

Lemma found_step i : 0 <= i -> found (i + 1) = found i ++ (if disk_at i then [i] else []).
Proof.
  intros Hi. unfold found. replace (Z.to_nat (i + 1)) with (Z.to_nat i + 1)%nat by lia.
  rewrite zseq_add, List.filter_app. f_equal. simpl. replace (0 + Z.of_nat (Z.to_nat i)) with i by lia. by destruct (disk_at i).
Qed.

Lemma found_below i p : p ∈ found i -> 0 <= p < i /\ disk_at p = true.
Proof.
  unfold found. rewrite list_elem_of_In, filter_In, <- list_elem_of_In, elem_of_zseq. intros [? ?]. split; [lia | done].
Qed.

Lemma probed_quiet hhdm idb L i s h d d' : probed hhdm idb L i s h d -> quiet d d' -> probed hhdm idb L i s h d'.
Proof.
  intros [A1 A2 A3 A4 A5 A6 A7 A8 A9 A10 A11 A12] [Hv Hr]. split; try done.
  - intros p Hp Hd. destruct (A10 p Hp Hd) as (clb & ctba & Hrdy & Hap). exists clb, ctba. split; [|done].
    pose proof (pu_active _ _ _ _ _ _ (proj1 Hrdy)). by eapply ready_kept.
  - intros p Hp. rewrite Hv. by apply A11.
Qed.

Lemma probed_skip hhdm idb L i s h d : 0 <= i -> disk_at i = false -> probed hhdm idb L i s h d -> probed hhdm idb L (i + 1) s h d.
Proof.
  intros Hi Hd [A1 A2 A3 A4 A5 A6 A7 A8 A9 A10 A11 A12].
  assert (found (i + 1) = found i) as Hf by (rewrite found_step, Hd by done; apply app_nil_r).
  split; rewrite ?Hf; try done.
  - intros p Hp. rewrite A9 by done. destruct (decide (p = i)) as [->|Hne]; [by rewrite Hd, !andb_false_r|].
    f_equal. lia.
  - intros p Hp Hdp. apply A10; [|done]. destruct (decide (p = i)) as [->|Hne]; [congruence | lia].
  - intros p Hp. apply A11. lia.
Qed.
(** Another port's blocks do not depend on port [i]. *)
Lemma port_blocks_other s i clb fb ct q : q <> i -> port_blocks (activate (with_port s i clb fb ct) i) q = port_blocks s q.
Proof. intros Hq. unfold port_blocks. simpl. by rewrite !zget_zset_ne by lia. Qed.

Lemma blocks_step s i clb fb ct : 0 <= i < 32 -> zlen (PORT_CLB s) = 32 -> zlen (PORT_FB s) = 32 ->
  zlen (PORT_CTBA s) = 32 -> disk_at i = true ->
  mjoin (port_blocks (activate (with_port s i clb fb ct) i) <$> found (i + 1)) ≡ₚ
    (ct, 4096) :: (fb, 4096) :: (clb, 4096) :: mjoin (port_blocks s <$> found i).
Proof.
  intros Hi L1 L2 L3 Hd. rewrite found_step, Hd, fmap_app, join_app by lia. cbn [fmap list_fmap mjoin list_join].
  rewrite port_blocks_with by done. rewrite Permutation_app_comm. simpl. do 3 f_equiv.
  rewrite (list_fmap_ext (port_blocks (activate (with_port s i clb fb ct) i)) (port_blocks s)); [done|].
  intros k q Hq%list_elem_of_lookup_2%found_below. apply port_blocks_other. lia.
Qed.

Context (hhdm idb : Z) (L : list (Z * Z)).
Hypothesis Hhhdm : 0 <= hhdm <= h_base (H:=H) /\ hhdm mod 4096 = 0.
Hypothesis Hidb : placed hhdm [] idb 4096 /\ idb <> 0 /\ (idb, 4096) ∈ L.

(** The identification buffer is a buffer of a port whose blocks are apart from it. *)
Lemma idb_buffer clb ct : apart (clb, 4096) (idb, 4096) -> apart (ct, 4096) (idb, 4096) ->
  buffer_ok hhdm clb ct idb 512.
Proof.
  destruct Hidb as ([H1 H2 H3 _] & _). destruct Hhhdm as [_ Hp]. unfold apart. simpl. intros A1 A2.
  split; try lia. clear -H1 Hp. Z.to_euclidean_division_equations. lia.
Qed.

(** A page that is apart from the three pages of another port is not written to. *)
Lemma apart_outside v clb fb ct i : apart (clb, 4096) (v, 4096) -> apart (fb, 4096) (v, 4096) ->
  apart (ct, 4096) (v, 4096) -> v - hhdm <= i < v - hhdm + 4096 -> outside hhdm [clb; fb; ct] i.
Proof. unfold apart, outside. simpl. intros A1 A2 A3 Hi. rewrite !Forall_cons, Forall_nil. lia. Qed.

(** The command list of a disk is among the blocks in use. *)
Lemma clb_in_use i s h d p clb ctba : probed hhdm idb L i s h d -> 0 <= p < i -> disk_at p = true ->
  port_ready hhdm clb ctba s p d -> (clb, 4096) ∈ mjoin (port_blocks s <$> found i) ++ L.
Proof.
  intros Hpr Hp Hd Hrdy. apply elem_of_app. left. apply list_elem_of_join. exists (port_blocks s p). split.
  - pose proof (pu_clb _ _ _ _ _ _ (proj1 Hrdy)) as Hc%arr_get_Ret. unfold port_blocks. simpl. rewrite Hc. simpl.
    by do 2 right; left.
  - apply list_elem_of_fmap_2. unfold found. rewrite list_elem_of_In, filter_In, <- list_elem_of_In, elem_of_zseq.
    split; [lia | done].
Qed.
(** One disk: its port is set up, the disk identified, and the earlier disks stay ready. *)
Lemma probe_disk i s h d ns : 0 <= i < 32 -> disk_at i = true -> probed hhdm idb L i s h d ->
  h_room L (pages (3 * length (found i)) ++ 4096 :: 4096 :: 4096 :: ns) ->
  exists s1 h1 d1 info d2, init_port hhdm s i h d = Ret (true, s1, h1, d1) /\
    identify_device hhdm (activate s1 i) i d1 = Ret (info, d2) /\ probed hhdm idb L (i + 1) (activate s1 i) h1 d2.
Proof.
  intros Hi Hdisk Hpr Hroom. pose proof Hpr as [A1 A2 A3 A4 A5 A6 A7 A8 A9 A10 A11 A12].
  set (B := mjoin (port_blocks s <$> found i) ++ L) in *. destruct (A11 i ltac:(lia)) as [Hdr Hbusy].
  destruct (init_port_takes Hpolls hhdm s i h d B ns) as (clb & fb & ct & h1 & d1 & He & Hr & Hw & Hl & Hns & Hpl & Hq & Ho);
    [by split | tauto | tauto | done | done | by apply A8 |].
  cbv zeta in He, Hr. pose proof (blocks_step s i clb fb ct Hi A2 A3 A4 Hdisk) as Hblocks.
  set (s1 := with_port s i clb fb ct) in *.
  rewrite !Forall_cons in Hpl. destruct Hpl as (P1 & P2 & P3 & _).
  assert (forall b, b ∈ B -> apart (clb, 4096) b /\ apart (fb, 4096) b /\ apart (ct, 4096) b) as Hap.
  { intros b Hb. destruct P1 as [_ _ _ P1], P2 as [_ _ _ P2], P3 as [_ _ _ P3]. rewrite Forall_forall in P1, P2, P3. auto. }
  assert ((idb, 4096) ∈ B) as HidB by (apply elem_of_app; right; apply Hidb).
  destruct (Hap _ HidB) as (Ai1 & _ & Ai3).
  destruct (identify_spec Hpolls hhdm clb ct (activate s1 i) i d1 Hr) as (d2 & Hid & Hr2 & _ & Ho2 & Hq2).
  { simpl. rewrite A5. apply Hidb. }
  { simpl. rewrite A5. by apply idb_buffer. }
  simpl in Ho2. rewrite A5 in Ho2.
  exists s1, h1, d1. do 2 eexists. split; [exact He|]. split; [exact Hid|].
  assert (length (found (i + 1)) = S (length (found i))) as Hlen by (rewrite found_step, Hdisk, length_app by lia; simpl; lia).
  split; try done; try (simpl; by rewrite zlen_zset).
  - rewrite Hl, Hblocks. done.
  - intros ns' Hns'. eapply h_room_perm; [rewrite Hblocks; reflexivity|]. apply Hns, A8. unfold pages in *.
    rewrite Hlen in Hns'. replace (3 * S (length (found i)))%nat with (3 * length (found i) + 3)%nat in Hns' by lia.
    by rewrite replicate_add, <- app_assoc in Hns'.
  - intros q Hqr. simpl. rewrite Z.lor_spec, A9, wshl_1, Z.pow2_bits_eqb by lia.
    destruct (Z.eqb_spec i q) as [<-|Hne]; [rewrite Hdisk, orb_true_r, andb_true_r; lia|]. rewrite orb_false_r. f_equal. lia.
  - intros q Hqr Hdq. destruct (decide (q = i)) as [->|Hne]; [by exists clb, ct|].
    destruct (A10 q ltac:(lia) Hdq) as (clbq & ctq & Hrq & Hapq). exists clbq, ctq. split; [|done].
    destruct (Hap _ (clb_in_use i s h d q clbq ctq Hpr ltac:(lia) Hdq Hrq)) as (Q1 & Q2 & Q3).
    pose proof (pu_active _ _ _ _ _ _ (proj1 Hrq)) as Hact.
    apply (ready_kept hhdm clbq ctq s _ q d); try done.
    + simpl. by rewrite Z.lor_spec, Hact.
    + simpl. by rewrite zget_zset_ne by lia.
    + simpl. by rewrite zget_zset_ne by lia.
    + by rewrite Hq2, Hq by done.
    + intros k Hk. unfold apart in Hapq, Q1, Q3. simpl in Hapq, Q1, Q3.
      rewrite Ho2, Ho by lia || (by eapply apart_outside). done.
  - intros q Hqr. rewrite Hq2, Hq by lia. apply A11. lia.
  - simpl. rewrite wshl_1 by lia. apply in_word_lor; [done | apply in_word_pow2; lia].
Qed.
(** Reading the link state and the signature. *)
Lemma link_reads p d : 0 <= p < 32 ->
  (exists d', mmio_read (reg p port_ssts) d = (hst_ssts p, d') /\ quiet d d') /\
  (exists d', mmio_read (reg p port_sig) d = (hst_sig p, d') /\ quiet d d').
Proof.
  intros Hp. destruct (hst_link p d Hp) as [H1 H2]. split.
  - destruct (read_reg p port_ssts d Hp) as (x & d' & m' & He & Hr & Hf); [by do 4 right; left|].
    rewrite He in H1. simpl in H1. subst x. exists d'. split; [done|].
    inversion Hr; simplify_eq; try discriminate. destruct Hf as [Hq Hm].
    split; [|done]. intros q. destruct (decide (q = p)) as [->|Hne]; [done | by apply Hq].
  - destruct (read_reg p port_sig d Hp) as (x & d' & m' & He & Hr & Hf); [by do 5 right; left|].
    rewrite He in H2. simpl in H2. subst x. exists d'. split; [done|].
    inversion Hr; simplify_eq; try discriminate. destruct Hf as [Hq Hm].
    split; [|done]. intros q. destruct (decide (q = p)) as [->|Hne]; [done | by apply Hq].
Qed.

Lemma found_short i : 0 <= i -> Z.of_nat (length (found i)) <= i.
Proof.
  intros Hi. unfold found. pose proof (List.filter_length_le disk_at (zseq 0 (Z.to_nat i))) as Hl.
  rewrite zseq_length in Hl. clear -Hi Hl. lia.
Qed.

Context (ns : list Z) (Hroom : h_room L (pages 96 ++ ns)).

Lemma room_for_disk i : 0 <= i < 32 -> exists ns', h_room L (pages (3 * length (found i)) ++ 4096 :: 4096 :: 4096 :: ns').
Proof.
  intros Hi. pose proof (found_short i ltac:(lia)). exists (pages (93 - 3 * length (found i)) ++ ns).
  replace 96%nat with (3 * length (found i) + (3 + (93 - 3 * length (found i))))%nat in Hroom by lia.
  unfold pages in *. by rewrite !replicate_add, <- !app_assoc in Hroom.
Qed.

Lemma probe_port_spec i st : 0 <= i < 32 -> probed hhdm idb L i st.1.1 st.1.2 st.2 ->
  returns (probe_port hhdm hst_pi i st) (fun st' => probed hhdm idb L (i + 1) st'.1.1 st'.1.2 st'.2).
Proof.
  destruct st as [[s h] d]. simpl. intros Hi Hpr. unfold probe_port.
  assert ((Z.land hst_pi (wshl 32 1 i) =? 0) = negb (Z.testbit hst_pi i)) as Hbit
    by (rewrite <- (bit_set_testbit 32) by done; unfold bit_set; by rewrite negb_involutive).
  destruct (Z.testbit hst_pi i) eqn:Hpi; rewrite Hbit; simpl negb; cbv iota.
  2: { apply returns_ret. simpl. apply probed_skip; [lia | by unfold disk_at; rewrite Hpi | done]. }
  destruct (port_ptr_reg s i (pr_abar _ _ _ _ _ _ _ Hpr) Hi) as (a & -> & Hreg). rewrite bind_ret.
  rewrite (Hreg port_ssts), (Hreg port_sig) by (apply (bool_decide_unpack _); by vm_compute).
  destruct (proj1 (link_reads i d Hi)) as (d1 & -> & Hq1). pose proof (probed_quiet _ _ _ _ _ _ _ _ Hpr Hq1) as Hpr1.
  destruct (Z.land (hst_ssts i) 0x0F =? 3) eqn:Hdet; simpl negb; cbv iota.
  2: { apply returns_ret. simpl. apply probed_skip; [lia | by unfold disk_at; rewrite Hpi, Hdet | done]. }
  destruct (Z.land (wshr 32 (hst_ssts i) 8) 0x0F =? 1) eqn:Hipm; simpl negb; cbv iota.
  2: { apply returns_ret. simpl. apply probed_skip; [lia | by unfold disk_at; rewrite Hpi, Hdet, Hipm | done]. }
  destruct (proj2 (link_reads i d1 Hi)) as (d2 & -> & Hq2). pose proof (probed_quiet _ _ _ _ _ _ _ _ Hpr1 Hq2) as Hpr2.
  destruct (hst_sig i =? SATA_SIG_ATA) eqn:Hsig; simpl negb; cbv iota.
  2: { apply returns_ret. simpl. apply probed_skip; [lia | by unfold disk_at; rewrite Hpi, Hdet, Hipm, Hsig | done]. }
  destruct (room_for_disk i Hi) as (ns' & Hns').
  destruct (probe_disk i s h d2 ns' Hi) as (s1 & h1 & d3 & info & d4 & -> & Hid & Hpr'); try done.
  { unfold disk_at. by rewrite Hpi, Hdet, Hipm, Hsig. }
  rewrite bind_ret. simpl negb. cbv iota. rewrite Hid, bind_ret. by apply returns_ret.
Qed.

(** All ports. *)
Lemma probe_all s h d : probed hhdm idb L 0 s h d ->
  returns (for_range (probe_port hhdm hst_pi) 0 MAX_PORTS (s, h, d)) (fun st => probed hhdm idb L 32 st.1.1 st.1.2 st.2).
Proof.
  intros Hpr. apply (for_range_inv _ (fun i st => probed hhdm idb L i st.1.1 st.1.2 st.2)); [done | done |].
  intros i st Hi Hst. by apply probe_port_spec.
Qed.
End probe.

(** * [init] *)

Section init.
Context {D : Type} {HO : HbaOps D} {HB : Hba D} {WP : WidePorts D} {HS : HbaHost D} {PH : PciHost D}.
Context {H : Type} {HH : HeapOps H} {HL : HeapLaws H}.
Context (Hpolls : (hba_polls < READY_POLLS)%nat /\ (hba_polls < ISSUE_POLLS)%nat).
Implicit Types (d : D) (s : Ahci) (h : H).

(** The configuration space is reached without touching the ports. *)
Lemma config_quiet a offset v d : quiet d (config_read32 a offset d).2 /\ quiet d (config_write32 a offset v d).
Proof.
  unfold config_read32, config_write32, inl, outl. split.
  - pose proof (hst_in32 PCI_CONFIG_DATA (port_out32 PCI_CONFIG_ADDR (config_address a offset) d)) as Hq.
    destruct (port_in32 _ _) as [x d']. simpl in *. etransitivity; [apply hst_out32 | exact Hq].
  - etransitivity; apply hst_out32.
Qed.

Lemma enable_quiet a d : quiet d (enable_bus_master a d).
Proof.
  unfold enable_bus_master, config_read16.
  destruct (config_quiet a (Z.land 4 0xFC) 0 d) as [Q1 _]. destruct (config_read32 a (Z.land 4 0xFC) d) as [x d1].
  destruct (config_quiet a 4 0 d1) as [Q2 _]. destruct (config_read32 a 4 d1) as [y d2].
  etransitivity; [exact Q1|]. etransitivity; [exact Q2|]. by apply config_quiet.
Qed.

Lemma bar_quiet a i d : quiet d (bar_mem_base a i d).2.
Proof.
  unfold bar_mem_base, bar.
  destruct (config_quiet a (wadd 8 0x10 (wmul 8 i 4)) 0 d) as [Q1 _].
  destruct (config_read32 a (wadd 8 0x10 (wmul 8 i 4)) d) as [x d1]. simpl in Q1.
  destruct (negb (Z.land x 1 =? 0)); [done|]. destruct (_ =? 2); [|done].
  destruct (config_quiet a (wadd 8 0x10 (wmul 8 (wadd 8 i 1) 4)) 0 d1) as [Q2 _].
  destruct (config_read32 a (wadd 8 0x10 (wmul 8 (wadd 8 i 1) 4)) d1) as [y d2]. by etransitivity.
Qed.

(** The base of the registers, as the configuration space has it. *)
Definition abar_of d (a : PciAddr) : Z := bar_base (host_reg d a 9) (host_reg d a 10).

Lemma find_registers a d : addr_ok a -> exists d', quiet d d' /\ bar_mem_base a 5 (enable_bus_master a d) = (abar_of d a, d').
Proof.
  intros Ha. destruct (enable_bus_master_command a d Ha) as (_ & _ & Hregs).
  pose proof (enable_quiet a d) as Q1. set (d1 := enable_bus_master a d) in *.
  destruct (bar_mem_base_decodes a 5 d1 Ha) as [Hb _]; [lia|]. pose proof (bar_quiet a 5 d1) as Q2.
  change (4 + 5) with 9 in Hb. change (5 + 5) with 10 in Hb. rewrite !Hregs in Hb by (intros [=]).
  destruct (bar_mem_base a 5 d1) as [x d2]. simpl in *. subst x. exists d2. split; [by etransitivity | done].
Qed.

(** What [init] needs of [map_mmio]: a window on the registers, for page tables of the sizes [ks] of
    the heap; the ports are left alone. *)
Definition maps_registers (map_mmio : Z -> Z -> H * D -> outcome (Z * (H * D))) (abar : Z) (ks : list Z) : Prop :=
  let base := Z.land abar (wnot 64 0xFFF) in
  forall h d L ns, h_wf h -> h_live h ≡ₚ L -> h_room L (ks ++ ns) ->
    exists v h' d' T, map_mmio base ((abar ⊟ base ⊞ 0x1100 ⊞ 0xFFF) / 0x1000) (h, d) = Ret (v, (h', d')) /\
      v <> 0 /\ v ⊞ (abar ⊟ base) = hba_base (D:=D) /\
      h_wf h' /\ h_live h' ≡ₚ T ++ L /\ (forall q, hba_view d' q = hba_view d q) /\
      forall ns', h_room L (ks ++ ns') -> h_room (T ++ L) ns'.

(** The driver's statics before [init]. *)
Record statics_fresh s : Prop := {
  sf_active : ACTIVE_PORTS s = 0;
  sf_clb : zlen (PORT_CLB s) = 32;
  sf_fb : zlen (PORT_FB s) = 32;
  sf_ctba : zlen (PORT_CTBA s) = 32;
}.

(** The global registers. *)
Lemma global_reads d off : off ∈ [hba_vs; hba_ghc; hba_pi] ->
  exists x d', mmio_read (hba_base (D:=D) ⊞ off) d = (x, d') /\ quiet d d' /\ (off = hba_pi -> x = hst_pi).
Proof.
  intros Hoff. pose proof (hst_global off d Hoff) as Hg. pose proof hba_base_range as Hb.
  assert (hba_base (D:=D) ⊞ off = hba_base (D:=D) + off) as ->.
  { apply wadd_small. unfold in_word. repeat (apply elem_of_cons in Hoff as [->|Hoff]; [unfold hba_vs, hba_ghc, hba_pi; lia|]).
    by apply not_elem_of_nil in Hoff. }
  destruct (mmio_read _ d) as [x d']. by exists x, d'.
Qed.

(** Every port is at rest within the polls. *)
Definition ports_fresh d : Prop :=
  forall p, 0 <= p < 32 -> (pv_drain (hba_view d p) <= hba_polls)%nat /\ (pv_busy (hba_view d p) <= hba_polls)%nat.

(** After the registers are mapped. *)
Lemma init_tail hhdm idb L ns s h d : 0 <= hhdm <= h_base (H:=H) -> hhdm mod 4096 = 0 ->
  placed hhdm [] idb 4096 -> idb <> 0 -> (idb, 4096) ∈ L -> statics_fresh s -> IDENTIFY_BUF s = idb ->
  ABAR s = hba_base (D:=D) -> ports_fresh d -> h_wf h -> h_live h ≡ₚ L -> h_room L (pages 96 ++ ns) ->
  exists s' h' d', for_range (probe_port hhdm hst_pi) 0 MAX_PORTS (s, h, d) = Ret (s', h', d') /\
    probed hhdm idb L 32 s' h' d'.
Proof.
  intros Hh Hpage Hidb Hne Hin [F1 F2 F3 F4] Hbuf Ha Hd Hw Hl Hroom.
  destruct (probe_all Hpolls hhdm idb L (conj Hh Hpage) (conj Hidb (conj Hne Hin)) ns Hroom s h d) as ([[s' h'] d'] & He & Hp).
  - split; try done.
    + intros p Hp. by rewrite F1, Z.testbit_0_l, (proj2 (Z.ltb_ge p 0)) by lia.
    + intros p Hp. lia.
    + by rewrite F1.
  - by exists s', h', d'.
Qed.
(** A disk's own three pages among the blocks in use. *)
Lemma own_blocks s p : 0 <= p < 32 -> disk_at p = true ->
  exists R, mjoin (port_blocks s <$> found 32) ≡ₚ R ++ port_blocks s p.
Proof.
  intros Hp Hd. assert (p ∈ found 32) as Hin.
  { unfold found. rewrite list_elem_of_In, filter_In, <- list_elem_of_In, elem_of_zseq. split; [lia | done]. }
  apply list_elem_of_split in Hin as (l1 & l2 & ->). exists (mjoin (port_blocks s <$> l1) ++ mjoin (port_blocks s <$> l2)).
  rewrite fmap_app, join_app. cbn [fmap list_fmap mjoin list_join].
  rewrite (Permutation_app_comm (port_blocks s p)), app_assoc. done.
Qed.

(** Every disk that was found meets the contract of the file system. *)
Lemma probed_St hhdm idb L s h d p : 0 <= hhdm <= h_base (H:=H) -> hhdm mod 4096 = 0 ->
  probed hhdm idb L 32 s h d -> 0 <= p < 32 -> disk_at p = true ->
  exists R, R ++ port_blocks s p ≡ₚ mjoin (port_blocks s <$> found 32) ++ L /\
    St (DL:=driver_laws Hpolls) p (hba_sectors p) (hba_image p) (port_blocks s p) R (h, mkDriver hhdm s d).
Proof.
  intros Hh Hpage [_ _ _ _ _ Hw Hl _ _ Hr _ _] Hp Hd. destruct (own_blocks s p Hp Hd) as (R & HR).
  assert ((R ++ L) ++ port_blocks s p ≡ₚ mjoin (port_blocks s <$> found 32) ++ L) as HP
    by (rewrite HR, <- !app_assoc; apply Permutation_app_head, Permutation_app_comm).
  exists (R ++ L). split; [exact HP|]. destruct (Hr p ltac:(lia) Hd) as (clb & ctba & Hrdy & _).
  split; simpl; try done; [by rewrite Hl, HP | lia |]. split; [done|]. by exists clb, ctba.
Qed.

(** Extra room may be left over. *)
Lemma room_drop (L : list (Z * Z)) n ns : h_room L (pages n ++ ns) -> h_room L ns.
Proof. induction n as [|n IH]; [done|]. intros Hr. apply IH, (h_room_tail L 4096), Hr. Qed.

(** [init] on a machine with a controller. *)
Lemma ahci_init_up hhdm map_mmio ks t s h d L ns a :
  0 <= hhdm <= h_base (H:=H) -> hhdm mod 4096 = 0 -> statics_fresh s -> ports_fresh d ->
  h_wf h -> h_live h ≡ₚ L -> h_room L (4096 :: ks ++ pages 96 ++ ns) ->
  find_by_class 0x01 0x06 0x01 t = Ret (Some a) -> addr_ok a -> abar_of d a <> 0 ->
  maps_registers map_mmio (abar_of d a) ks ->
  exists s' h' d' L', init hhdm map_mmio t s h d = Ret (s', h', d') /\ in_word 32 (active_ports s') /\
    (forall p, 0 <= p < 32 -> Z.testbit (active_ports s') p = disk_at p) /\
    (forall ns', h_room L (4096 :: ks ++ pages 96 ++ ns') -> h_room L' ns') /\
    forall p, 0 <= p < 32 -> disk_at p = true -> exists R, R ++ port_blocks s' p ≡ₚ L' /\
      St (DL:=driver_laws Hpolls) p (hba_sectors p) (hba_image p) (port_blocks s' p) R (h', mkDriver hhdm s' d').
Proof.
  intros Hh Hpage Hs Hd Hw Hl Hroom Hfind Haddr Hne Hmap. unfold init.
  destruct (aligned_next L 4096 _ h ltac:(lia) Hw Hl Hroom) as (idb & h1 & -> & Hidb & Hpl & Hw1 & Hl1 & Hr1).
  rewrite bind_ret, (proj2 (Z.eqb_neq idb 0) Hidb), Hfind, bind_ret.
  destruct (find_registers a d Haddr) as (d1 & Hq1 & ->). rewrite (proj2 (Z.eqb_neq (abar_of d a) 0) Hne).
  destruct (Hmap h1 d1 _ _ Hw1 Hl1 (Hr1 _ Hroom)) as (v & h2 & d2 & T & -> & Hv & Hbase & Hw2 & Hl2 & Hq2 & Hr2).
  rewrite bind_ret, (proj2 (Z.eqb_neq v 0) Hv), Hbase.
  destruct (global_reads d2 hba_vs) as (x1 & d3 & -> & Hq3 & _); [by left|].
  destruct (global_reads d3 hba_ghc) as (x2 & d4 & -> & Hq4 & _); [by right; left|].
  set (d5 := if _ =? 0 then _ else d4). assert (quiet d4 d5) as Hq5.
  { unfold d5. destruct (_ =? 0); [|done]. pose proof hba_base_range. unfold hba_ghc.
    rewrite wadd_small by (unfold in_word; lia). apply hst_enable. }
  destruct (global_reads d5 hba_pi) as (x3 & d6 & -> & Hq6 & Hpi); [by do 2 right; left|]. rewrite (Hpi eq_refl).
  assert (ports_fresh d6) as Hd6.
  { intros p Hp. rewrite (proj1 Hq6), (proj1 Hq5), (proj1 Hq4), (proj1 Hq3), Hq2, (proj1 Hq1). by apply Hd. }
  destruct Hs as [F1 F2 F3 F4]. cbn [ACTIVE_PORTS PORT_CLB PORT_FB PORT_CTBA IDENTIFY_BUF].
  destruct (init_tail hhdm idb (T ++ (idb, 4096) :: L) ns (mkAhci (hba_base (D:=D)) (ACTIVE_PORTS s) (PORT_CLB s) (PORT_FB s)
    (PORT_CTBA s) idb) h2 d6 Hh Hpage) as (s' & h' & d' & -> & Hpr); try done.
  - destruct Hpl. split; [done | lia | done | done].
  - apply elem_of_app. right. left.
  - by apply Hr2, Hr1.
  - exists s', h', d', (mjoin (port_blocks s' <$> found 32) ++ T ++ (idb, 4096) :: L). split; [done|].
    split; [apply Hpr|]. split; [|split].
    + intros p Hp. unfold active_ports. rewrite (pr_active _ _ _ _ _ _ _ Hpr) by done. by rewrite (proj2 (Z.ltb_lt p 32)) by lia.
    + intros ns' Hns'. apply (room_drop _ (96 - 3 * length (found 32))). apply (pr_room _ _ _ _ _ _ _ Hpr).
      pose proof (found_short 32 ltac:(lia)). unfold pages. rewrite app_assoc, <- replicate_add.
      replace (3 * length (found 32) + (96 - 3 * length (found 32)))%nat with 96%nat by lia. by apply Hr2, Hr1.
    + intros p Hp Hdp. by apply (probed_St hhdm idb _ s' h' d' p).
Qed.
End init.

(** * A board for the witnesses

    The controller of [Ahci] with disks on ports 2 and 5, at the function 0:31.2 of the host bridge
    of [Pci]. *)

Record Host (nsec : Z) (img : Z -> Z) := mkHost { hs_hba : HbaSim nsec img; hs_pci : PciSim }.
Arguments mkHost {nsec img} _ _.
Arguments hs_hba {nsec img} _.
Arguments hs_pci {nsec img} _.

Section host.
Context (nsec : Z) (img : Z -> Z).

#[global] Instance host_hba_ops : HbaOps (Host nsec img) := {|
  mmio_read addr d :=
    if addr <? sim_base + hba_ports then (if addr =? sim_base + hba_pi then 36 else 0, d)
    else let '(x, c) := mmio_read addr (hs_hba d) in (x, mkHost c (hs_pci d));
  mmio_write addr x d :=
    if addr <? sim_base + hba_ports then d else mkHost (mmio_write addr x (hs_hba d)) (hs_pci d);
  ram d := ram (hs_hba d);
  ram_write a l d := mkHost (ram_write a l (hs_hba d)) (hs_pci d);
|}.

Lemma port_register p off : 0 <= p < 32 -> off ∈ read_regs ++ write_regs ->
  (sim_base + hba_ports + p * size_of_HbaPort + off <? sim_base + hba_ports) = false.
Proof. intros Hp Hoff%regs_small. unfold size_of_HbaPort. lia. Qed.

#[global] Program Instance host_hba : Hba (Host nsec img) := {|
  hba_base := sim_base;
  hba_polls := 2;
  hba_view := fun d => hba_view (hs_hba d);
  hba_sectors := fun _ => nsec;
  hba_image := fun _ i => wrap 8 (img i);
  hba_ident := fun _ => replicate 512 0;
|}.
Next Obligation. done. Qed.
Next Obligation. intros p i. by apply wrap_in_word. Qed.
Next Obligation. by vm_compute. Qed.
Next Obligation.
  intros d p off Hp Hoff. cbn [mmio_read host_hba_ops]. rewrite port_register by (done || (apply elem_of_app; by left)).
  pose proof (hba_read (hs_hba d) p off Hp Hoff) as Hr. unfold hba_base in Hr. cbn [sim_hba] in Hr.
  destruct (mmio_read _ (hs_hba d)) as [x c]. exact Hr.
Qed.
Next Obligation.
  intros d p off x Hp Hoff Hx. cbn [mmio_write host_hba_ops]. rewrite port_register by (done || (apply elem_of_app; by right)).
  exact (hba_write (hs_hba d) p off x Hp Hoff Hx).
Qed.
Next Obligation. intros a l d. exact (hba_ram_write a l (hs_hba d)). Qed.

#[global] Instance host_ports : WidePorts (Host nsec img) := {|
  port_in16 p d := let '(x, c) := port_in16 p (hs_pci d) in (x, mkHost (hs_hba d) c);
  port_out16 p x d := mkHost (hs_hba d) (port_out16 p x (hs_pci d));
  port_in32 p d := let '(x, c) := port_in32 p (hs_pci d) in (x, mkHost (hs_hba d) c);
  port_out32 p x d := mkHost (hs_hba d) (port_out32 p x (hs_pci d));
|}.

#[global] Program Instance host_host : PciHost (Host nsec img) := {|
  host_addr := fun d => host_addr (hs_pci d);
  host_reg := fun d => host_reg (hs_pci d);
  host_store := host_store (D:=PciSim);
  host_bits := host_bits (D:=PciSim);
|}.
Next Obligation. intros d a r. exact (host_reg_word (hs_pci d) a r). Qed.
Next Obligation. intros v d. exact (host_select v (hs_pci d)). Qed.
Next Obligation.
  intros d Hb. pose proof (host_read (hs_pci d) Hb) as Hr. unfold inl in *. cbn [port_in32 host_ports].
  destruct (port_in32 PCI_CONFIG_DATA (hs_pci d)) as [x c]. exact Hr.
Qed.
Next Obligation. intros v d Hb. exact (host_write v (hs_pci d) Hb). Qed.
Next Obligation. intros a old v. exact (host_command (D:=PciSim) a old v). Qed.

#[global] Program Instance host_controller : HbaHost (Host nsec img) := {|
  hst_pi := 36;
  hst_ssts := fun _ => 0x123;
  hst_sig := fun _ => SATA_SIG_ATA;
|}.
Next Obligation. intros p. apply Forall_replicate. by split. Qed.
Next Obligation.
  intros off d Hoff. cbn [mmio_read host_hba_ops]. unfold hba_base. cbn [host_hba].
  assert (off < hba_ports) as Hlt.
  { repeat (apply elem_of_cons in Hoff as [->|Hoff]; [done|]). by apply not_elem_of_nil in Hoff. }
  rewrite (proj2 (Z.ltb_lt _ _)) by lia. split; [done|]. intros ->. by rewrite Z.eqb_refl.
Qed.
Next Obligation. intros x d. done. Qed.
Next Obligation.
  intros p d Hp. unfold reg, hba_base. cbn [mmio_read host_hba_ops host_hba].
  rewrite !port_register by (done || (apply (bool_decide_unpack _); by vm_compute)).
  cbn [mmio_read sim_hba_ops].
  destruct (sim_addr p port_ssts) as [-> ->]; [lia | by vm_compute |].
  destruct (sim_addr p port_sig) as [-> ->]; [lia | by vm_compute |]. done.
Qed.
Next Obligation. intros p d. cbn [port_in32 host_ports]. by destruct (port_in32 p (hs_pci d)). Qed.
Next Obligation. done. Qed.
End host.

Definition demo_board : Host 128 (patched demo_patches) := mkHost demo_controller Pci.demo_machine.

Definition demo_table : PciTable := table_of table_init (all_functions Pci.demo_machine).

(** Device memory at a fixed distance. *)
Definition demo_map {T} (base n : Z) (st : T) : outcome (Z * T) := Ret (0xFFFF800000000000 ⊞ base, st).

Lemma demo_maps : maps_registers (H:=IdealHeap) (D:=Host 128 (patched demo_patches)) demo_map 0xFEBF1000 [].
Proof.
  intros h d L ns Hw Hl Hr. exists sim_base, h, d, []. by split_and!.
Qed.

Lemma demo_board_polls : (hba_polls (D:=Host 128 (patched demo_patches)) < READY_POLLS)%nat /\
  (hba_polls (D:=Host 128 (patched demo_patches)) < ISSUE_POLLS)%nat.
Proof. destruct polls_values as [-> ->]. cbn [hba_polls host_hba]. lia. Qed.

Lemma demo_board_fresh : ports_fresh demo_board.
Proof. intros p Hp. simpl. lia. Qed.

Lemma demo_statics_fresh : statics_fresh ahci_boot.
Proof. by split. Qed.

