(* ===== verification/Bringup.v ===== *)
(** The disk part of [_start], [src/main.rs]: enumerate the PCI functions and print them, bring the disks
    up, mount the first one and print its root directory.  The lines the driver and [mount] log
    themselves are left out, so the console here carries the two listings. *)
From Stdlib Require Import String Ascii.
From S2P Require Import Prelude Word Port Serial Utf8 Vfs Disk Ext3 Ext3Dir Pci Listing Ahci Volume Storage.

Section code.
Context {C : Type} {PD : PortDevice C} {D : Type} {HO : HbaOps D} {WP : WidePorts D} {H : Type} {HH : HeapOps H}.
Context (fuel : nat) (hhdm : Z).

(** From [pci::scan] to the end of the block that mounts; the mounted file system is dropped there.
    Reading does not change the driver's statics. *)
Definition bring_up (map_mmio : Z -> Z -> H * D -> outcome (Z * (H * D))) (t : PciTable) (s : Ahci) (h : H) (d : D) (c : C) :
    outcome (C * PciTable * Ahci * H * D) :=
  '(d, t, _) ← scan d t;
  c ← dump fuel t c;
  '(s, h, d) ← init hhdm map_mmio t s h d;
  let ahci_ports := active_ports s in
  if negb (ahci_ports =? 0) then
    let port := trailing_zeros 32 ahci_ports in
    '(mounted, st) ← mount port (h, mkDriver hhdm s d);
    match mounted with
    | Some ext3 =>
        '(r, st) ← dump_root fuel ext3 c st;
        c ← r;
        '(_, st) ← unmount ext3 st;
        Ret (c, t, s, st.1, dv_dev st.2)
    | None => Ret (c, t, s, st.1, dv_dev st.2)
    end
  else Ret (c, t, s, h, d).
End code.

(** * The scan leaves the ports alone *)

Lemma for_from_keeps {S} (body : Z -> S -> outcome S) (I : S -> Prop) :
  (forall i s s', body i s = Ret s' -> I s -> I s') ->
  forall n lo s s', for_from body lo n s = Ret s' -> I s -> I s'.
Proof.
  intros Hb n. induction n as [|n IH]; intros lo s s' He Hs; simpl in He; [by injection He as <-|].
  destruct (body lo s) as [s1|] eqn:Hs1; [|done]. rewrite bind_ret in He. eapply IH; [exact He|]. by eapply Hb.
Qed.

Section scan.
Context {D : Type} {HO : HbaOps D} {HB : Hba D} {WP : WidePorts D} {HS : HbaHost D}.
Implicit Types (d : D).

Lemma read16_quiet a o d : quiet d (config_read16 a o d).2.
Proof.
  unfold config_read16. destruct (config_quiet a (Z.land o 0xFC) 0 d) as [Hq _].
  by destruct (config_read32 a (Z.land o 0xFC) d).
Qed.

Lemma read8_quiet a o d : quiet d (config_read8 a o d).2.
Proof.
  unfold config_read8. destruct (config_quiet a (Z.land o 0xFC) 0 d) as [Hq _].
  by destruct (config_read32 a (Z.land o 0xFC) d).
Qed.

Lemma scan_func_quiet d0 b dv fn (st st' : ScanState (D:=D)) : scan_func b dv fn st = Ret st' -> quiet d0 st.1.1 -> quiet d0 st'.1.1.
Proof.
  destruct st as [[d t] cnt]. unfold scan_func, vendor_id, device_id, class_code, subclass, prog_if. simpl. intros He Hq.
  set (a := mkPciAddr (wrap 8 b) dv fn) in *.
  pose proof (read16_quiet a 0 d) as Q1. destruct (config_read16 a 0 d) as [x1 d1]. simpl in Q1.
  destruct (x1 =? 0xFFFF); [injection He as <-; by etransitivity|].
  pose proof (read16_quiet a 2 d1) as Q2. destruct (config_read16 a 2 d1) as [x2 d2]. simpl in Q2.
  pose proof (read8_quiet a 11 d2) as Q3. destruct (config_read8 a 11 d2) as [x3 d3]. simpl in Q3.
  pose proof (read8_quiet a 10 d3) as Q4. destruct (config_read8 a 10 d3) as [x4 d4]. simpl in Q4.
  pose proof (read8_quiet a 9 d4) as Q5. destruct (config_read8 a 9 d4) as [x5 d5]. simpl in Q5.
  destruct (if _ <? _ then _ else _) as [t'|]; [|done]. injection He as <-. simpl.
  by do 5 (etransitivity; [|eassumption]).
Qed.

Lemma scan_dev_quiet d0 b dv (st st' : ScanState (D:=D)) : scan_dev b dv st = Ret st' -> quiet d0 st.1.1 -> quiet d0 st'.1.1.
Proof.
  destruct st as [[d t] cnt]. unfold scan_dev, vendor_id, header_type. simpl. intros He Hq.
  set (a := mkPciAddr (wrap 8 b) dv 0) in *.
  pose proof (read16_quiet a 0 d) as Q1. destruct (config_read16 a 0 d) as [x1 d1]. simpl in Q1.
  destruct (x1 =? 0xFFFF); [injection He as <-; by etransitivity|].
  pose proof (read8_quiet a 14 d1) as Q2. destruct (config_read8 a 14 d1) as [x2 d2]. simpl in Q2.
  eapply (for_from_keeps _ (fun st : ScanState (D:=D) => quiet d0 st.1.1)); [|exact He|].
  - intros i s s'. apply scan_func_quiet.
  - simpl. by do 2 (etransitivity; [|eassumption]).
Qed.

Lemma scan_quiet d t (st : ScanState (D:=D)) : scan d t = Ret st -> quiet d st.1.1.
Proof.
  unfold scan. intros He. eapply (for_from_keeps _ (fun st : ScanState (D:=D) => quiet d st.1.1)); [|exact He|done].
  intros b s s' Hb. eapply (for_from_keeps _ (fun st : ScanState (D:=D) => quiet d st.1.1)); [|exact Hb].
  intros dv x x'. apply scan_dev_quiet.
Qed.
End scan.

Lemma cfg_words {D} `{PciHost D} (d : D) a o : in_word 16 (cfg16 d a o) /\ in_word 8 (cfg8 d a o).
Proof. split; apply Z.mod_pos_bound; lia. Qed.

Lemma all_functions_ok {D} `{PciHost D} (d : D) : Forall device_ok (all_functions d).
Proof.
  apply Forall_forall. intros dv Hin. unfold all_functions in Hin.
  apply list_elem_of_bind in Hin as (b & Hin & Hb%elem_of_zseq).
  apply list_elem_of_bind in Hin as (dn & Hin & Hdn%elem_of_zseq). unfold device_functions in Hin.
  destruct (present d (mkPciAddr b dn 0)); [|by apply not_elem_of_nil in Hin].
  apply list_elem_of_bind in Hin as (fn & Hin & Hfn%elem_of_zseq).
  assert (0 <= fn < 8) as Hfn' by (destruct (Z.testbit _ 7); lia).
  destruct (present d (mkPciAddr b dn fn)); [|by apply not_elem_of_nil in Hin].
  apply list_elem_of_singleton in Hin as ->. unfold device_ok, device_at. simpl.
  split_and!; try apply cfg_words; unfold in_word; lia.
Qed.

Lemma table_lists l : lists (table_of table_init l) (take (Z.to_nat MAX_PCI_DEVICES) l).
Proof.
  eexists. split; [reflexivity|]. unfold table_of. cbn [count]. destruct (decide (l = [])) as [->|]; [|done]. done.
Qed.

(** * Mount, list, drop *)

Section listing.
Context {H D : Type} {HO : HeapOps H} {HL : HeapLaws H} {DO : Disk D} {DL : DiskLaws D} {C : Type} {PD : PortDevice C} {UC : Uart C}.

Lemma mount_list_drop fuel port nsec img own L (st : H * D) (c : C) sb max i items : (uart_polls < fuel)%nat -> ready c ->
  (forall k, in_word 8 (img k)) -> St port nsec img own L st -> superblock_at nsec img = Some sb -> sb_ok sb ->
  2 ^ 26 <= max -> ample (H:=H) own max 4 L ->
  inode_at nsec img sb ROOT_INO = Some i -> is_dir i = true ->
  contents nsec img sb i (dir_of items) -> size i <= max -> Forall item_ok items ->
  exists fs st1 c' st2 st3 o, mount port st = Ret (Some fs, st1) /\ dump_root fuel fs c st1 = Ret (Ret c', st2) /\
    unmount fs st2 = Ret (tt, st3) /\ St port nsec img own L st3 /\ ready c' /\ uart_sent c' = uart_sent c ++ o /\
    reads (Lit (text "ext3: / listing:" ++ [10]) :: mjoin (item_line <$> listed items)) o.
Proof.
  intros Hfuel Hc Himg Hst Hsb Hok Hmax Ha Hi Hdir Hcont Hsize Hitems.
  assert (forall ns, (length ns <= 3)%nat -> Forall (fun n => 0 < n <= max) ns -> room (H:=H) own L (4096 :: ns)) as Hroom.
  { intros ns Hlen Hns. apply Ha; [simpl; lia|]. constructor; [lia | done]. }
  destruct (mount_yields port nsec img own L) with (s := st) as (r & st1 & L1 & Hm & Hst1 & Hpost);
    [apply Hroom; [simpl; lia | repeat constructor; lia] | right; by exists sb | done |].
  rewrite Hsb in Hpost. destruct Hpost as (q & Hq & -> & -> & Hns).
  set (r := log fuel [Lit (text "ext3: / listing:" ++ [10])] c).
  assert (logs r [Lit (text "ext3: / listing:" ++ [10])] c) as Hr by (apply log_logs; [done.. | repeat constructor]).
  destruct (list_root_yields port nsec img own Himg sb Hok max Hmax ((q, 4096) :: L) q i items (dump_entry fuel) r)
    with (s := st1) as (x & st2 & L2 & Heq & Hst2 & -> & ->); try done.
  { intros ns Hlen Hall. by apply Hns, Hroom. }
  destruct (logs_returns _ _ _ (spec_each_dump fuel Hfuel items r _ c Hitems Hr)) as (c' & o & Hret & Hc' & Ho & Hout).
  destruct (triple_kfree port nsec img own L q 4096 st2 Hst2) as ([] & st3 & L3 & Hfree & Hst3 & ->).
  exists (mkExt3 port q sb), st1, c', st2, st3, o. split; [exact Hm|]. split; [by rewrite <- Hret|].
  split; [|done]. unfold unmount. cbn [sb_ptr]. by rewrite (proj2 (Z.eqb_neq q 0) Hq).
Qed.
End listing.

(** * What it does *)

Section spec.
Context {D : Type} {HO : HbaOps D} {HB : Hba D} {WP : WidePorts D} {HS : HbaHost D} {PH : PciHost D}.
Context {H : Type} {HH : HeapOps H} {HL : HeapLaws H} {C : Type} {PD : PortDevice C} {UC : Uart C}.
Context (Hpolls : (hba_polls < READY_POLLS)%nat /\ (hba_polls < ISSUE_POLLS)%nat).
Context (fuel : nat) (Hfuel : (uart_polls < fuel)%nat) (hhdm : Z).
Implicit Types (d : D) (s : Ahci) (h : H) (c : C).

(** The scanned table, and what it is searched for. *)
Definition scanned_table d : PciTable := table_of table_init (all_functions d).

Definition controller_at d : option PciAddr :=
  addr <$> List.find (matches 0x01 0x06 0x01) (take (Z.to_nat MAX_PCI_DEVICES) (all_functions d)).

(** The lowest port with a disk. *)
Definition first_disk (p : Z) : Prop := 0 <= p < 32 /\ disk_at p = true /\ forall q, 0 <= q < p -> disk_at q = false.

Lemma first_active x p : in_word 32 x -> (forall q, 0 <= q < 32 -> Z.testbit x q = disk_at q) -> first_disk p ->
  (x =? 0) = false /\ trailing_zeros 32 x = p.
Proof.
  intros Hx Hbits (Hp & Hd & Hlow). assert (x <> 0) as Hne.
  { intros ->. rewrite <- Hbits, Z.testbit_0_l in Hd by done. done. }
  split; [by apply Z.eqb_neq|]. destruct (trailing_zeros_spec 32 x) as (Hr & Hset & Hbelow); [lia | done | done |].
  destruct (Z.lt_trichotomy (trailing_zeros 32 x) p) as [Hlt|[Heq|Hgt]]; [|done|].
  - rewrite Hbits, Hlow in Hset by lia. done.
  - rewrite <- Hbits, Hbelow in Hd by lia. done.
Qed.
End spec.

Lemma demo_first_disk : first_disk (D:=Host 128 (patched demo_patches)) 2.
Proof.
  split; [lia|]. split; [by vm_compute|]. intros q Hq. assert (q = 0 \/ q = 1) as [-> | ->] by lia; by vm_compute.
Qed.

