(* ===== verification/Mmio.v ===== *)
(** Mapping of device memory: [map_mmio] of [src/kern/mem.rs] and the local
    APIC of [src/kern/arch/x86_64/lapic.rs], whose register page is mapped in
    the same way.  Missing page tables are allocated; the theorems say that no
    existing translation changes and what becomes mapped. *)
From stdpp Require Import gmap.
From S2P Require Import Prelude Word PageSource Buddy Port Paging.

Definition PTE_PWT : Z := 2 ^ 3.
Definition PTE_PCD : Z := 2 ^ 4.

(** What the mapping code relies on in the page allocator ([mem::alloc_pages(0)]): an allocation
    takes a free page, an aligned one of the direct map. *)
Class TablePages (P : Type) `{PageSource P} (hhdm : Z) := {
  table_wf : P -> Prop;
  table_free : P -> Z -> Prop;
  table_free_page s p : table_wf s -> table_free s p -> p mod 4096 = 0 /\ hhdm <= p /\
    p + 4096 <= 2 ^ 64 /\ p - hhdm + 4096 <= 2 ^ 52;
  table_alloc_law s : table_wf s -> returns (page_alloc s) (fun '(r, s') => table_wf s' /\
    match r with
    | None => s' = s
    | Some p => table_free s p /\ forall q, table_free s' q -> table_free s q /\ q <> p
    end);
}.

Section code.
Context {A : Type} `{PageSource A}.
Context (hhdm cr3 : Z).
Implicit Types (m : Words) (s : A).

(** [ptr::write_bytes(page, 0, 4096)] *)
Definition zero_page (page : Z) m : Words :=
  fold_left (fun m i => <[slot page i := 0]> m) (zseq 0 512) m.

(** [if entry & PTE_PRESENT == 0 { alloc, clear, store }]; [false] when there is no page. *)
Definition ensure_table (e : Z) m s : outcome (bool * Words * A) :=
  if absent (word m e) then
    '(r, s) ← page_alloc s;
    match r with
    | Some page =>
        let m := zero_page page m in
        let page_phys := page ⊟ hhdm in
        Ret (true, <[e := Z.lor (Z.lor page_phys PTE_PRESENT) PTE_WRITABLE]> m, s)
    | None => Ret (false, m, s)
    end
  else Ret (true, m, s).

Definition mmio_entry (phys : Z) : Z :=
  Z.lor (Z.lor (Z.lor (Z.lor (Z.lor phys PTE_PRESENT) PTE_WRITABLE) PTE_PWT) PTE_PCD) PTE_NX.

(** The body of the loop: one page; [false] is [return 0]. *)
Definition mmio_page (phys : Z) m s : outcome (bool * Words * A) :=
  let vaddr := hhdm ⊞ phys in
  let pml4 := phys_to_virt hhdm (Z.land cr3 (wnot 64 0xFFF)) in
  '(ok, m, s) ← ensure_table (slot pml4 (index vaddr 39)) m s;
  if negb ok then Ret (false, m, s) else
  let pml4e := word m (slot pml4 (index vaddr 39)) in
  let pdpt := phys_to_virt hhdm (frame pml4e) in
  let pdpte := word m (slot pdpt (index vaddr 30)) in
  if negb (absent pdpte) && large pdpte then Ret (true, m, s) else
  '(ok, m, s) ← ensure_table (slot pdpt (index vaddr 30)) m s;
  if negb ok then Ret (false, m, s) else
  let pdpte := word m (slot pdpt (index vaddr 30)) in
  let pd := phys_to_virt hhdm (frame pdpte) in
  let pde := word m (slot pd (index vaddr 21)) in
  if negb (absent pde) && large pde then Ret (true, m, s) else
  '(ok, m, s) ← ensure_table (slot pd (index vaddr 21)) m s;
  if negb ok then Ret (false, m, s) else
  let pde := word m (slot pd (index vaddr 21)) in
  let pt := phys_to_virt hhdm (frame pde) in
  let pte := word m (slot pt (index vaddr 12)) in
  Ret (true, if absent pte then <[slot pt (index vaddr 12) := mmio_entry phys]> m else m, s).

Fixpoint mmio_loop (phys_base i : Z) (n : nat) m s : outcome (bool * Words * A) :=
  match n with
  | O => Ret (true, m, s)
  | S n' =>
      '(ok, m, s) ← mmio_page (phys_base ⊞ i ⊠ 0x1000) m s;
      if negb ok then Ret (false, m, s) else mmio_loop phys_base (i + 1) n' m s
  end.

(** The address in the direct map, 0 on failure. *)
Definition map_mmio (phys_base num_pages : Z) m s : outcome (Z * Words * A) :=
  '(ok, m, s) ← mmio_loop phys_base 0 (Z.to_nat num_pages) m s;
  if negb ok then Ret (0, m, s) else Ret (hhdm ⊞ phys_base, m, s).
End code.

(** * The local APIC *)

Definition IA32_APIC_BASE_MSR : Z := 0x1B.
Definition LAPIC_PHYS : Z := 0xFEE00000.
Definition SVR : Z := 0xF0.
Definition LINT0 : Z := 0x350.
Definition LINT1 : Z := 0x360.

Definition lapic_entry : Z :=
  Z.lor (Z.lor (Z.lor (Z.lor LAPIC_PHYS PTE_PRESENT) PTE_WRITABLE) PTE_PWT) PTE_PCD.

(** The registers, read and written through addresses. *)
Class LapicRegs (D : Type) := {
  read_volatile : Z -> D -> outcome (Z * D);
  write_volatile : Z -> Z -> D -> outcome D;
}.

(** The registers at [base] as documented: writable bits take what is written; while the local APIC
    is disabled (bit 8 of [SVR] clear) the entries of the local vector table stay masked. *)
Definition LVT_MASKED : Z := 2 ^ 16.
Definition svr_writable : Z := 0x13FF.
Definition lint_writable : Z := 0x1A7FF.

Class LapicLaws (D : Type) `{LapicRegs D} (base : Z) := {
  reg : Z -> D -> Z;
  read_law off d : off ∈ [SVR; LINT0; LINT1] -> returns (read_volatile (base + off) d) (fun '(x, d') =>
    x = reg off d /\ forall o, reg o d' = reg o d);
  svr_law val d : Z.testbit val 8 = true -> returns (write_volatile (base + SVR) val d) (fun d' =>
    reg SVR d' = Z.land val svr_writable /\ forall o, o <> SVR -> reg o d' = reg o d);
  lint_law off val d : off ∈ [LINT0; LINT1] -> returns (write_volatile (base + off) val d) (fun d' =>
    reg off d' = (if Z.testbit (reg SVR d) 8 then Z.land val lint_writable
                  else Z.lor (Z.land val lint_writable) LVT_MASKED) /\
    forall o, o <> off -> reg o d' = reg o d);
}.

Section lapic.
Context {A D : Type} `{PageSource A, LapicRegs D}.
Context (hhdm cr3 : Z).
Implicit Types (m : Words) (s : A) (d : D).

(** The virtual address of the registers, 0 on failure. *)
Definition map_lapic_page m s : outcome (Z * Words * A) :=
  let pml4_phys := Z.land cr3 (wnot 64 0xFFF) in
  let vaddr := hhdm ⊞ LAPIC_PHYS in
  let pml4 := phys_to_virt hhdm pml4_phys in
  let pml4e := word m (slot pml4 (index vaddr 39)) in
  if absent pml4e then Ret (0, m, s) else
  let pdpt := phys_to_virt hhdm (frame pml4e) in
  let pdpte := word m (slot pdpt (index vaddr 30)) in
  if negb (absent pdpte) && large pdpte then Ret (vaddr, m, s) else
  if absent pdpte then Ret (0, m, s) else
  let pd := phys_to_virt hhdm (frame pdpte) in
  let pde := word m (slot pd (index vaddr 21)) in
  if negb (absent pde) && large pde then Ret (vaddr, m, s) else
  if absent pde then
    '(pt_page, s) ← page_alloc s;
    match pt_page with
    | Some va =>
        let m := zero_page va m in
        let pt_phys_new := va ⊟ hhdm in
        let m := <[slot pd (index vaddr 21) := Z.lor (Z.lor pt_phys_new PTE_PRESENT) PTE_WRITABLE]> m in
        let pt := phys_to_virt hhdm pt_phys_new in
        Ret (vaddr, <[slot pt (index vaddr 12) := lapic_entry]> m, s)
    | None => Ret (0, m, s)
    end
  else
    let pt := phys_to_virt hhdm (frame pde) in
    let pte := word m (slot pt (index vaddr 12)) in
    Ret (vaddr, if absent pte then <[slot pt (index vaddr 12) := lapic_entry]> m else m, s).

Definition read_reg (LAPIC_VIRT off : Z) d : outcome (Z * D) := read_volatile (LAPIC_VIRT ⊞ off) d.

Definition write_reg (LAPIC_VIRT off val : Z) d : outcome D := write_volatile (LAPIC_VIRT ⊞ off) val d.

(** [init]: the new [LAPIC_VIRT], the tables, the allocator, the device. *)
Definition lapic_init (LAPIC_VIRT : Z) m s d : outcome (Z * Words * A * D) :=
  '(vaddr, m, s) ← map_lapic_page m s;
  if vaddr =? 0 then Ret (LAPIC_VIRT, m, s, d) else
  let LAPIC_VIRT := vaddr in
  '(svr_before, d) ← read_reg LAPIC_VIRT SVR d;
  '(lint0_before, d) ← read_reg LAPIC_VIRT LINT0 d;
  d ← write_reg LAPIC_VIRT SVR (Z.lor (Z.lor svr_before (2 ^ 8)) 0xFF) d;
  d ← write_reg LAPIC_VIRT LINT0 (Z.shiftl 7 8) d;
  d ← write_reg LAPIC_VIRT LINT1 (Z.shiftl 4 8) d;
  '(svr_after, d) ← read_reg LAPIC_VIRT SVR d;
  '(lint0_after, d) ← read_reg LAPIC_VIRT LINT0 d;
  Ret (LAPIC_VIRT, m, s, d).
End lapic.

(** * Walks that look at one table per level *)

Section walk.
Context (hhdm cr3 : Z).
Implicit Types (m : Words) (v : Z).

(** The entries that a walk for [v] looks at, from table [base] down; [big] says at which
    levels an entry can be a page itself. *)
Fixpoint looked (levels : list (Z * bool)) (base : Z) m v : list Z :=
  match levels with
  | [] => []
  | (k, big) :: levels =>
      let e := slot base (index v k) in
      e :: (if absent (word m e) || (big && large (word m e)) then []
            else looked levels (phys_to_virt hhdm (frame (word m e))) m v)
  end.

Definition levels : list (Z * bool) := [(39, false); (30, true); (21, true); (12, false)].

Definition root : Z := phys_to_virt hhdm (Z.land cr3 (wnot 64 0xFFF)).

Definition entries m v : list Z := looked levels root m v.

(** A walk that succeeds passes through entries that were looked at, all present. *)
Lemma walk_entries m v path s : walk hhdm cr3 m v = Some (path, s) ->
  forall e, e ∈ path -> e ∈ entries m v /\ absent (word m e) = false.
Proof.
  unfold walk, entries, levels, root. cbn [looked]. intros Hw e He.
  repeat match type of Hw with context [if ?b then _ else _] =>
    destruct b eqn:?; [simplify_eq|] end; try done; simplify_eq; cbn [orb andb];
    (split; [set_solver | repeat (apply elem_of_cons in He as [->|He]; [done|]); by apply not_elem_of_nil in He]).
Qed.

(** A walk depends only on its entries. *)
Lemma walk_keep m m' v path s : walk hhdm cr3 m v = Some (path, s) ->
  (forall e, e ∈ path -> word m' e = word m e) -> walk hhdm cr3 m' v = Some (path, s).
Proof.
  unfold walk. intros Hw He.
  repeat match type of Hw with context [if ?b then _ else _] =>
    destruct b eqn:?; [simplify_eq|] end; try done; simplify_eq;
    repeat match goal with |- context [word m' ?a] => rewrite (He a) by (first [left | right; left | do 2 right; left | do 3 right; left]) end;
    by repeat match goal with Hb : _ = false |- _ => rewrite Hb | Hb : _ = true |- _ => rewrite Hb end.
Qed.

Lemma translate_keep m m' v path s : walk hhdm cr3 m v = Some (path, s) ->
  (forall e, e ∈ path -> word m' e = word m e) -> translate hhdm cr3 m' v = translate hhdm cr3 m v.
Proof.
  intros Hw He. unfold translate. rewrite Hw, (walk_keep m m' v path s Hw He). simpl.
  destruct (last path) as [leaf|] eqn:Hl; [|done]. simpl. rewrite He; [done|].
  apply last_Some in Hl as [l ->]. set_solver.
Qed.

(** ** Steps that keep what is there *)

(** Every present entry that some walk looks at is unchanged. *)
Definition keeps m m' : Prop :=
  forall v e, e ∈ entries m v -> absent (word m e) = false -> word m' e = word m e.

Lemma looked_keep ls base m m' v e :
  (forall e, e ∈ looked ls base m v -> absent (word m e) = false -> word m' e = word m e) ->
  e ∈ looked ls base m v -> e ∈ looked ls base m' v.
Proof.
  revert base. induction ls as [|[k big] ls IH]; intros base Hk; simpl; [done|].
  rewrite !elem_of_cons. intros [->|He]; [by left|]. right.
  destruct (absent (word m (slot base (index v k)))) eqn:Ha; [destruct (not_elem_of_nil _ He)|].
  rewrite (Hk (slot base (index v k))), Ha; [|simpl; left | done]. cbn [orb] in *.
  destruct (big && large _) eqn:Hb; [destruct (not_elem_of_nil _ He)|].
  apply IH; [|done]. intros e' He' Ha'. apply Hk; [|done]. simpl. rewrite Ha. simpl. rewrite Hb. by right.
Qed.

Lemma keeps_entries m m' v e : keeps m m' -> e ∈ entries m v -> e ∈ entries m' v.
Proof. intros Hk. apply looked_keep. intros e' He'. by apply (Hk v). Qed.

#[export] Instance keeps_preorder : PreOrder keeps.
Proof.
  split; [done|]. intros m1 m2 m3 H12 H23 v e He Ha. pose proof (H12 v e He Ha) as Hw.
  rewrite (H23 v e), Hw; [done | by eapply keeps_entries | by rewrite Hw].
Qed.

(** Then every translation is kept. *)
Lemma keeps_translate m m' v x : keeps m m' -> translate hhdm cr3 m v = Some x ->
  translate hhdm cr3 m' v = Some x.
Proof.
  intros Hk Ht. rewrite <- Ht. unfold translate in Ht.
  destruct (walk hhdm cr3 m v) as [[path s]|] eqn:Hw; [|done].
  apply (translate_keep m m' v path s Hw). intros e He.
  destruct (walk_entries m v path s Hw e He) as [Hin Ha]. by apply (Hk v).
Qed.

(** Storing to an absent entry keeps. *)
Lemma keeps_insert m e x : absent (word m e) = true -> keeps m (<[e := x]> m).
Proof.
  intros Ha v e' He' Ha'. rewrite word_insert. case_decide; [|done]. subst. congruence.
Qed.
End walk.

(** * Adding tables *)

Section tables.
Context {A : Type} (hhdm cr3 : Z) `{TablePages A hhdm}.
Context (Hhhdm : 0 <= hhdm /\ hhdm mod 4096 = 0).
Implicit Types (m : Words) (s : A) (v p e : Z).

Abbreviation keeps := (keeps hhdm cr3).
Abbreviation entries := (entries hhdm cr3).

Definition in_page p e : Prop := p <= e < p + 4096.

(** No free page holds an entry that a walk looks at. *)
Definition apart m s : Prop := forall v e p, e ∈ entries m v -> table_free s p -> ~ in_page p e.

Lemma index_range v k : 0 <= index v k < 512.
Proof.
  unfold index. change 0x1FF with (Z.ones 9). rewrite Z.land_ones by lia. apply Z.mod_pos_bound. lia.
Qed.

Lemma slot_page p i : 0 <= p -> p + 4096 <= 2 ^ 64 -> 0 <= i < 512 -> slot p i = p + i * 8.
Proof.
  intros Hp Hp2 Hi. unfold slot. rewrite (wmul_small 64 i), wadd_small by (unfold in_word; lia). done.
Qed.

Lemma zero_page_word p m : 0 <= p -> p + 4096 <= 2 ^ 64 ->
  (forall i, 0 <= i < 512 -> word (zero_page p m) (slot p i) = 0) /\
  (forall e, ~ in_page p e -> word (zero_page p m) e = word m e).
Proof.
  intros Hp Hp2. unfold zero_page.
  assert (forall n k m, 0 <= k -> k + Z.of_nat n <= 512 ->
    let m' := fold_left (fun m i => <[slot p i := 0]> m) (zseq k n) m in
    (forall i, k <= i < k + Z.of_nat n -> word m' (slot p i) = 0) /\
    (forall e, (forall i, k <= i < k + Z.of_nat n -> e <> slot p i) -> word m' e = word m e)) as Hg.
  { induction n as [|n IH]; intros k m0 Hk Hn; simpl; [by split; [lia|]|].
    destruct (IH (k + 1) (<[slot p k := 0]> m0)) as [I1 I2]; [lia | lia |]. split.
    - intros i Hi. destruct (decide (i = k)) as [->|]; [|apply I1; lia].
      rewrite I2; [by rewrite word_insert, decide_True|].
      intros j Hj. rewrite !slot_page by lia. lia.
    - intros e He. rewrite I2 by (intros i Hi; apply He; lia).
      rewrite word_insert, decide_False; [done|]. intros Hs. apply (He k); [lia | done]. }
  destruct (Hg 512%nat 0 m) as [G1 G2]; [lia | lia |]. split; [intros i Hi; apply G1; lia|].
  intros e He. apply G2. intros i Hi ->. apply He. unfold in_page. rewrite slot_page by lia. lia.
Qed.

#[local] Opaque zero_page.

(** The entry for a new table. *)
Definition table_entry p : Z := Z.lor (Z.lor (p ⊟ hhdm) PTE_PRESENT) PTE_WRITABLE.

Lemma table_entry_bits p i : p mod 4096 = 0 -> hhdm <= p -> p + 4096 <= 2 ^ 64 -> p - hhdm + 4096 <= 2 ^ 52 -> 0 <= i ->
  Z.testbit (table_entry p) i = Z.testbit (p - hhdm) i || (i =? 0) || (i =? 1).
Proof.
  intros Hm Hl Hh Hb Hi. unfold table_entry. rewrite wsub_small by (unfold in_word; lia).
  change PTE_PRESENT with (2 ^ 0). change PTE_WRITABLE with (2 ^ 1).
  by rewrite !Z.lor_spec, !flag_bit by lia.
Qed.

Lemma table_entry_spec p : p mod 4096 = 0 -> hhdm <= p -> p + 4096 <= 2 ^ 64 -> p - hhdm + 4096 <= 2 ^ 52 ->
  absent (table_entry p) = false /\ large (table_entry p) = false /\
  phys_to_virt hhdm (frame (table_entry p)) = p.
Proof.
  intros Hm Hl Hh Hb. pose proof (fun i => table_entry_bits p i Hm Hl Hh Hb) as Hbit.
  assert ((p - hhdm) mod 2 ^ 12 = 0) as Hal.
  { rewrite Zminus_mod. change (2 ^ 12) with 4096. by rewrite Hm, (proj2 Hhhdm). }
  assert (forall i, 0 <= i < 12 -> Z.testbit (p - hhdm) i = false) as Hlow.
  { intros i Hi. rewrite <- (Z.mod_pow2_bits_low _ 12) by lia. rewrite Hal. apply Z.bits_0. }
  split; [|split].
  - rewrite absent_bit, Hbit by lia. by rewrite orb_true_r.
  - rewrite large_bit, Hbit, Hlow by lia. done.
  - assert (frame (table_entry p) = p - hhdm) as ->.
    + apply Z.bits_inj'. intros i Hi. rewrite frame_bits, Hbit by done. destruct (Z.leb_spec 12 i).
      * destruct (Z.ltb_spec i 52); [rewrite !andb_true_r; bit_tests; done|].
        rewrite (testbit_high 52 (p - hhdm)) by (unfold in_word; lia). by bit_tests.
      * rewrite Hlow by lia. by rewrite andb_false_r.
    + unfold phys_to_virt. rewrite wadd_small by (unfold in_word; lia). lia.
Qed.

(** The tables form a tree: an entry is looked at in one position, and only by addresses that
    agree on all indices down to it. *)
Definition same_indices (i : nat) v w : Prop :=
  forall l k big, (l <= i)%nat -> levels !! l = Some (k, big) -> index v k = index w k.

Definition tree m : Prop := forall v w i j e,
  entries m v !! i = Some e -> entries m w !! j = Some e -> i = j /\ same_indices i v w.

(** With a cleared page linked in, a walk looks at the same entries, and at one of that page when it
    ended at the new link. *)
Lemma looked_linked ls base m p e0 w :
  p mod 4096 = 0 -> hhdm <= p -> p + 4096 <= 2 ^ 64 -> p - hhdm + 4096 <= 2 ^ 52 -> ~ in_page p e0 ->
  absent (word m e0) = true ->
  (forall e, e ∈ looked hhdm ls base m w -> ~ in_page p e) ->
  let l := looked hhdm ls base m w in
  let l' := looked hhdm ls base (<[e0 := table_entry p]> (zero_page p m)) w in
  (l' = l /\ (last l = Some e0 -> length l = length ls)) \/ exists k big, ls !! length l = Some (k, big) /\ l' = l ++ [slot p (index w k)] /\ last l = Some e0.
Proof.
  intros Hm Hl Hh Hb He0 Hab. destruct Hhhdm as [Hh0 _].
  destruct (zero_page_word p m) as [Z1 Z2]; [lia | done |].
  destruct (table_entry_spec p Hm Hl Hh Hb) as (T1 & T2 & T3). set (m' := <[e0 := _]> _).
  assert (forall i, 0 <= i < 512 -> word m' (slot p i) = 0) as Hzero.
  { intros i Hi. unfold m'. rewrite word_insert, decide_False; [by apply Z1|].
    intros ->. apply He0. unfold in_page. rewrite slot_page by lia. lia. }
  revert base. induction ls as [|[k big] ls IH]; intros base Hout; simpl; [by left|].
  set (e1 := slot base (index w k)) in *.
  assert (last [e1] = Some e0 -> e1 = e0) as Hlast1 by (by intros [= ->]).
  assert (~ in_page p e1) as He1 by (apply Hout; simpl; left).
  assert (word m' e1 = if decide (e0 = e1) then table_entry p else word m e1) as Hw.
  { unfold m'. rewrite word_insert. case_decide; [done | by apply Z2]. }
  rewrite Hw. case_decide as Hd.
  - rewrite <- Hd, Hab, T1, T2, T3, andb_false_r. cbn [orb].
    destruct ls as [|[k2 big2] ls]; [left; split; [reflexivity|]; by simpl|]. cbn [looked]. right.
    pose proof (index_range w k2) as Hi. rewrite (Hzero _ Hi). change (absent 0) with true. cbn [orb].
    exists k2, big2. split; [reflexivity | split; reflexivity].
  - simpl in Hout. fold e1 in Hout.
    destruct (absent (word m e1) || big && large (word m e1)).
    { left. split; [reflexivity|]. intros [= Hl1]. by destruct Hd. }
    destruct (IH (phys_to_virt hhdm (frame (word m e1)))) as [[-> Hend]|(k2 & big2 & Hk & -> & Hlast)].
    + intros e' He'. apply Hout. by right.
    + left. split; [reflexivity|]. intros Hl1. destruct (looked hhdm ls _ m w); [destruct Hd; symmetry; by apply Hlast1|].
      simpl. f_equal. by apply Hend.
    + right. exists k2, big2. split; [exact Hk|]. split; [reflexivity|].
      destruct (looked hhdm ls _ m w); [done | exact Hlast].
Qed.

(** A last-level entry leads nowhere further. *)
Lemma looked_leaf ls base m e0 x w :
  (forall i, looked hhdm ls base m w !! i = Some e0 -> S i = length ls) ->
  looked hhdm ls base (<[e0 := x]> m) w = looked hhdm ls base m w.
Proof.
  revert base. induction ls as [|[k big] ls IH]; intros base Hpos; simpl; [done|].
  set (e1 := slot base (index w k)) in *. f_equal. rewrite word_insert. case_decide as Hd.
  - assert (ls = []) as ->.
    { specialize (Hpos O). simpl in Hpos. fold e1 in Hpos. rewrite Hd in Hpos. specialize (Hpos eq_refl).
      by destruct ls. }
    simpl. by repeat case_match.
  - simpl in Hpos. fold e1 in Hpos.
    destruct (absent (word m e1) || big && large (word m e1)); [done|].
    apply IH. intros i Hi. specialize (Hpos (S i) Hi). lia.
Qed.

(** What holds between steps. *)
Record tables_ok m s : Prop := {
  to_wf : table_wf s;
  to_apart : apart m s;
  to_tree : tree m;
}.

Lemma walk_none m v : walk hhdm cr3 m v = None <->
  exists e, last (entries m v) = Some e /\ absent (word m e) = true.
Proof.
  unfold walk, entries, levels. fold (root hhdm cr3). cbn [looked].
  set (e4 := slot (root hhdm cr3) (index v 39)). destruct (absent (word m e4)) eqn:P4; cbn [orb andb].
  { split; [by exists e4 | done]. }
  set (e3 := slot _ (index v 30)). destruct (absent (word m e3)) eqn:P3; cbn [orb].
  { split; [by exists e3 | done]. }
  destruct (large (word m e3)) eqn:L3.
  { split; [done | intros (e & [= <-] & He); congruence]. }
  set (e2 := slot _ (index v 21)). destruct (absent (word m e2)) eqn:P2; cbn [orb].
  { split; [by exists e2 | done]. }
  destruct (large (word m e2)) eqn:L2.
  { split; [done | intros (e & [= <-] & He); congruence]. }
  set (e1 := slot _ (index v 12)). destruct (absent (word m e1)) eqn:P1; cbn [orb].
  - split; [by exists e1 | done].
  - split; [done | intros (e & [= <-] & He); congruence].
Qed.

(** The allocator has no page left. *)
Definition exhausted s : Prop := page_alloc s = Ret (None, s).

(** A step: existing translations stay, the tables stay well formed. *)
Record step m m' s' : Prop := {
  step_keeps : keeps m m';
  step_ok : tables_ok m' s';
}.

Section linked.
Context (m : Words) (s s' : A) (p e0 v0 : Z) (n0 : nat).
Context (Hok : tables_ok m s) (Hfree : table_free s p) (Hwf' : table_wf s').
Context (Hrest : forall q, table_free s' q -> table_free s q /\ q <> p).
Context (He0 : entries m v0 !! n0 = Some e0) (Hn0 : (n0 < 3)%nat) (Hab : absent (word m e0) = true).

Abbreviation m' := (<[e0 := table_entry p]> (zero_page p m)).

Lemma linked_out : ~ in_page p e0.
Proof. apply (to_apart m s Hok v0); [by eapply list_elem_of_lookup_2 | done]. Qed.

Lemma linked_entries w : (entries m' w = entries m w /\ last (entries m w) <> Some e0) \/
  exists k big, levels !! length (entries m w) = Some (k, big) /\
    entries m' w = entries m w ++ [slot p (index w k)] /\ last (entries m w) = Some e0.
Proof.
  destruct (table_free_page s p (to_wf m s Hok) Hfree) as (Hm & Hl & Hh & Hb). pose proof (to_apart m s Hok) as Hap.
  destruct (looked_linked levels (root hhdm cr3) m p e0 w Hm Hl Hh Hb linked_out Hab) as [[Heq Hend]|Hlink].
  - intros e He. by apply (Hap w).
  - left. split; [exact Heq|]. intros Hlast. specialize (Hend Hlast).
    rewrite last_lookup in Hlast. unfold Mmio.entries in Hlast. rewrite Hend in Hlast.
    change (Nat.pred (length levels)) with 3%nat in Hlast.
    destruct (to_tree m s Hok v0 w _ _ _ He0 Hlast) as [-> _]. lia.
  - right. exact Hlink.
Qed.

Lemma linked_slot i : 0 <= i < 512 -> in_page p (slot p i) /\ slot p i = p + i * 8.
Proof.
  intros Hi. destruct (table_free_page s p (to_wf m s Hok) Hfree) as (Hm & Hl & Hh & Hb). destruct Hhhdm.
  unfold in_page. rewrite slot_page by lia. lia.
Qed.

(** An entry of the new page stands one place after the link. *)
Lemma linked_position w i e : entries m' w !! i = Some e ->
  entries m w !! i = Some e /\ ~ in_page p e \/
  in_page p e /\ exists n k big, i = S n /\ entries m w !! n = Some e0 /\
    levels !! i = Some (k, big) /\ e = slot p (index w k).
Proof.
  pose proof (to_apart m s Hok) as Hap. intros He.
  destruct (linked_entries w) as [[Heq _]|(k & big & Hk & Heq & Hlast)]; rewrite Heq in He.
  - left. split; [done|]. apply (Hap w); [by eapply list_elem_of_lookup_2 | done].
  - apply lookup_app_Some in He as [He|[Hge He]].
    + left. split; [done|]. apply (Hap w); [by eapply list_elem_of_lookup_2 | done].
    + right. apply list_lookup_singleton_Some in He as [Hz <-].
      split; [apply linked_slot, index_range|]. rewrite last_lookup in Hlast.
      assert (entries m w <> []) as Hne by (by destruct (entries m w)).
      destruct (entries m w) as [|a l]; [done|]. simpl in Hz, Hge, Hlast, Hk.
      assert (i = S (length l)) as -> by lia. exists (length l), k, big. split; [reflexivity|]. split; [exact Hlast | by split].
Qed.

Lemma linked_ok : tables_ok m' s'.
Proof.
  pose proof (to_apart m s Hok) as Hap. pose proof (to_tree m s Hok) as Htree. split; [exact Hwf'|..].
  - intros w e q He Hq. destruct (Hrest q Hq) as [Hq1 Hne].
    apply list_elem_of_lookup_1 in He as [i Hi].
    destruct (linked_position w i e Hi) as [[He _]|[Hin _]].
    + apply (Hap w); [by eapply list_elem_of_lookup_2 | done].
    + destruct (table_free_page s q (to_wf m s Hok) Hq1) as (Hqm & _). destruct (table_free_page s p (to_wf m s Hok) Hfree) as (Hpm & _).
      unfold in_page in *. Z.to_euclidean_division_equations. lia.
  - intros v w i j e Hi Hj.
    destruct (linked_position v i e Hi) as [[Hi' Hn]|[Hn (n & k & big & -> & Hk & Hlv & ->)]];
      destruct (linked_position w j _ Hj) as [[Hj' Hn']|[Hn' (n' & k' & big' & -> & Hk' & Hlv' & He')]].
    + exact (Htree _ _ _ _ _ Hi' Hj').
    + subst e. destruct (Hn Hn').
    + destruct (Hn' Hn).
    + destruct (Htree _ _ _ _ _ Hk Hk') as [<- Hs]. split; [done|].
      rewrite Hlv in Hlv'. injection Hlv' as <- <-.
      pose proof (linked_slot _ (index_range v k)) as [_ S1]. pose proof (linked_slot _ (index_range w k)) as [_ S2].
      intros l k2 b2 Hl Hlv2. destruct (decide (l = S n)) as [->|].
      * rewrite Hlv in Hlv2. injection Hlv2 as <- <-. lia.
      * apply (Hs l k2 b2); [lia | done].
Qed.

(** No address becomes mapped. *)
Lemma linked_none w : walk hhdm cr3 m w = None -> walk hhdm cr3 m' w = None.
Proof.
  rewrite !walk_none. intros (e & Hlast & He).
  destruct (table_free_page s p (to_wf m s Hok) Hfree) as (Hm & Hl & Hh & Hb). destruct Hhhdm as [Hh0 _].
  destruct (zero_page_word p m) as [Z1 Z2]; [lia | done |].
  destruct (linked_entries w) as [[-> Hne]|(k & big & Hk & -> & Hlast')].
  - exists e. split; [done|]. rewrite word_insert, decide_False by congruence.
    rewrite Z2; [done|]. apply (to_apart m s Hok w); [|done].
    rewrite last_lookup in Hlast. by eapply list_elem_of_lookup_2.
  - exists (slot p (index w k)). split; [apply last_snoc|].
    pose proof (linked_slot _ (index_range w k)) as [Hin _].
    rewrite word_insert, decide_False; [by rewrite (Z1 _ (index_range w k))|].
    intros Heq. apply linked_out. by rewrite Heq.
Qed.
End linked.

(** What [ensure_table] does to entry [e]. *)
Lemma ensure_table_spec m s v e n : tables_ok m s -> entries m v !! n = Some e -> (n < 3)%nat ->
  returns (ensure_table hhdm e m s) (fun '(ok, m', s') => step m m' s' /\
    (forall w, walk hhdm cr3 m w = None -> walk hhdm cr3 m' w = None) /\
    if ok then absent (word m' e) = false /\
      (m' = m \/ (large (word m' e) = false /\
         forall i, 0 <= i < 512 -> word m' (slot (phys_to_virt hhdm (frame (word m' e))) i) = 0))
    else exhausted s').
Proof.
  intros Hok He Hn. unfold ensure_table. destruct (absent (word m e)) eqn:Hab.
  2:{ apply returns_ret. split; [by split|]. split; [done|]. split; [done | by left]. }
  destruct (table_alloc_law s (to_wf m s Hok)) as ([[p|] s'] & Halloc & Hwf' & Hlaw); rewrite Halloc; cbn [outcome_bind].
  2:{ rewrite Hlaw in *. apply returns_ret. by split. }
  revert Hlaw.
  intros [Hfree Hrest]. destruct (table_free_page s p (to_wf m s Hok) Hfree) as (Hm & Hl & Hh & Hb).
  pose proof (linked_out m s p e v n Hok Hfree He) as Hout. destruct Hhhdm as [Hh0 _].
  destruct (zero_page_word p m) as [Z1 Z2]; [lia | done |].
  destruct (table_entry_spec p Hm Hl Hh Hb) as (T1 & T2 & T3).
  apply returns_ret. fold (table_entry p). split; [split|split].
  - intros w e' He' Ha'. rewrite word_insert, decide_False by congruence. apply Z2. by apply (to_apart m s Hok w).
  - by eapply linked_ok.
  - by eapply linked_none.
  - rewrite word_insert, decide_True by done. split; [done|]. right. split; [done|]. rewrite T3. intros i Hi.
    rewrite word_insert, decide_False; [by apply Z1|].
    intros ->. apply Hout. unfold in_page. rewrite slot_page by lia. lia.
Qed.

(** ** The entries of one walk, level by level *)

Lemma entry4 m v : entries m v !! 0%nat = Some (slot (root hhdm cr3) (index v 39)).
Proof. reflexivity. Qed.

Section below.
Context (m : Words) (v : Z).
Abbreviation e4 := (slot (root hhdm cr3) (index v 39)).
Abbreviation e3 := (slot (phys_to_virt hhdm (frame (word m e4))) (index v 30)).
Abbreviation e2 := (slot (phys_to_virt hhdm (frame (word m e3))) (index v 21)).
Abbreviation e1 := (slot (phys_to_virt hhdm (frame (word m e2))) (index v 12)).

Lemma entry3 : absent (word m e4) = false -> entries m v !! 1%nat = Some e3.
Proof. intros H4. unfold entries, levels. cbn [looked]. rewrite H4. reflexivity. Qed.

Lemma entry2 : absent (word m e4) = false -> absent (word m e3) = false -> large (word m e3) = false ->
  entries m v !! 2%nat = Some e2.
Proof.
  intros H4 H3 L3. unfold entries, levels. cbn [looked]. rewrite H4. cbn [orb andb]. rewrite H3, L3. reflexivity.
Qed.

Lemma entry1 : absent (word m e4) = false -> absent (word m e3) = false -> large (word m e3) = false ->
  absent (word m e2) = false -> large (word m e2) = false -> entries m v !! 3%nat = Some e1.
Proof.
  intros H4 H3 L3 H2 L2. unfold entries, levels. cbn [looked].
  rewrite H4. cbn [orb andb]. rewrite H3, L3. cbn [orb]. rewrite H2, L2. reflexivity.
Qed.
End below.

(** Storing a page entry at the last level: of the unmapped addresses only those on that page
    become mapped. *)
Lemma leaf_ok m s e v x : tables_ok m s -> entries m v !! 3%nat = Some e -> absent (word m e) = true ->
  step m (<[e := x]> m) s /\
  forall w, ~ same_indices 3 v w -> walk hhdm cr3 m w = None -> walk hhdm cr3 (<[e := x]> m) w = None.
Proof.
  intros [Hwf Hap Htree] He Hab.
  assert (forall w, entries (<[e := x]> m) w = entries m w) as Heq.
  { intros w. apply looked_leaf. intros i Hi. destruct (Htree w v i 3%nat e Hi He) as [-> _]. reflexivity. }
  split; [split; [by apply keeps_insert|]; split; [exact Hwf|..]|].
  - intros w e' p He'. rewrite Heq in He'. by apply (Hap w).
  - intros w1 w2 i j e'. rewrite !Heq. apply Htree.
  - intros w Hw. rewrite !walk_none, Heq. intros (e' & Hlast & Ha). exists e'. split; [done|].
    rewrite word_insert, decide_False; [done|]. intros <-. apply Hw.
    rewrite last_lookup in Hlast. by destruct (Htree v w _ _ _ He Hlast).
Qed.

(** What a mapping step for [v] leaves: [v] is mapped; and when it was not mapped before, by the
    page entry [x]. *)
Definition mapped (x v : Z) m m' : Prop :=
  exists path sh, walk hhdm cr3 m' v = Some (path, sh) /\
    (walk hhdm cr3 m v = None -> sh = 12 /\ exists leaf, last path = Some leaf /\ word m' leaf = x).

(** Pages with other indices stay unmapped. *)
Definition others v m m' : Prop :=
  forall w, ~ same_indices 3 v w -> walk hhdm cr3 m w = None -> walk hhdm cr3 m' w = None.

(** The last step: the entry of the page itself. *)
Lemma leaf_spec x v m0 m s :
  let e4 := slot (root hhdm cr3) (index v 39) in
  let e3 := slot (phys_to_virt hhdm (frame (word m e4))) (index v 30) in
  let e2 := slot (phys_to_virt hhdm (frame (word m e3))) (index v 21) in
  let e1 := slot (phys_to_virt hhdm (frame (word m e2))) (index v 12) in
  tables_ok m s -> absent x = false -> absent (word m e4) = false ->
  absent (word m e3) = false -> large (word m e3) = false ->
  absent (word m e2) = false -> large (word m e2) = false ->
  (absent (word m e1) = false -> m = m0) ->
  let m' := if absent (word m e1) then <[e1 := x]> m else m in
  step m m' s /\ mapped x v m0 m' /\ others v m m'.
Proof.
  intros e4 e3 e2 e1 Hok Hx P4 P3 L3 P2 L2 Hsame m'.
  pose proof (entry1 m v P4 P3 L3 P2 L2) as In1. fold e4 e3 e2 e1 in In1.
  assert (forall w, absent (word w e1) = false -> word w e4 = word m e4 -> word w e3 = word m e3 ->
    word w e2 = word m e2 -> walk hhdm cr3 w v = Some ([e4; e3; e2; e1], 12)) as Hwalk.
  { intros w Hp W4 W3 W2. unfold walk. fold (root hhdm cr3) e4. rewrite W4, P4. fold e3. rewrite W3, P3, L3.
    fold e2. rewrite W2, P2, L2. fold e1. by rewrite Hp. }
  unfold m'. destruct (absent (word m e1)) eqn:P1.
  - destruct (leaf_ok m s e1 v x Hok In1 P1) as (K & Hoth).
    split; [exact K|]. split; [|exact Hoth].
    assert (forall e, absent (word m e) = false -> word (<[e1 := x]> m) e = word m e) as Hk.
    { intros e He. rewrite word_insert, decide_False; [done|]. intros <-. congruence. }
    assert (word (<[e1 := x]> m) e1 = x) as We1 by (by rewrite word_insert, decide_True).
    exists [e4; e3; e2; e1], 12. split.
    + apply Hwalk; [by rewrite We1 | by apply Hk..].
    + intros _. split; [reflexivity|]. exists e1. split; [reflexivity | exact We1].
  - split; [by split|]. split; [|by intros w _]. exists [e4; e3; e2; e1], 12.
    split; [by apply Hwalk|]. rewrite <- (Hsame eq_refl). rewrite Hwalk by done. discriminate.
Qed.

(** A walk that ends at an existing page. *)
Lemma mapped_same x v m0 m path sh : walk hhdm cr3 m v = Some (path, sh) -> m = m0 -> mapped x v m0 m.
Proof. intros Hw <-. exists path, sh. split; [exact Hw|]. intros Hn. congruence. Qed.

Lemma mmio_entry_present phys : absent (mmio_entry phys) = false.
Proof.
  rewrite absent_bit. unfold mmio_entry, PTE_PRESENT, PTE_NX, PTE_PWT, PTE_PCD. rewrite !Z.lor_spec.
  change (Z.testbit 1 0) with true. by rewrite !orb_true_r.
Qed.

Lemma step_refl m s : tables_ok m s -> step m m s.
Proof. by split. Qed.

Lemma step_trans m1 m2 m3 s2 s3 : step m1 m2 s2 -> step m2 m3 s3 -> step m1 m3 s3.
Proof. intros [K1 _] [K2 O2]. split; [by transitivity m2 | exact O2]. Qed.

(** What one round of [map_mmio] does. *)
Lemma mmio_page_spec phys m s : let v := hhdm ⊞ phys in tables_ok m s ->
  returns (mmio_page hhdm cr3 phys m s) (fun '(ok, m', s') => step m m' s' /\
    (if ok then mapped (mmio_entry phys) v m m' else exhausted s') /\ others v m m').
Proof.
  intros v Hok. unfold mmio_page. fold v (root hhdm cr3).
  set (e4 := slot (root hhdm cr3) (index v 39)).
  eapply returns_bind; [exact (ensure_table_spec m s v e4 0 Hok (entry4 m v) ltac:(lia))|].
  intros [[ok m1] s1] (St1 & N1 & H1). destruct ok; cbn [negb]; [|apply returns_ret; split; [exact St1 | split; [exact H1 | intros w _; apply N1]]].
  destruct H1 as [P4 Z4]. set (e3 := slot (phys_to_virt hhdm (frame (word m1 e4))) (index v 30)).
  pose proof (entry3 m1 v P4) as In3. pose proof (step_ok _ _ _ St1) as Hok1.
  assert (absent (word m1 e3) = false -> m1 = m) as S1.
  { intros Hp. destruct Z4 as [->|[_ Z4]]; [done|]. unfold e3 in Hp. by rewrite (Z4 _ (index_range v 30)) in Hp. }
  destruct (negb (absent (word m1 e3)) && large (word m1 e3)) eqn:Hbig.
  { apply andb_true_iff in Hbig as [Hp3%negb_true_iff Hl3]. apply returns_ret. split; [exact St1|].
    split; [|by intros w _; apply N1]. apply (mapped_same _ v m m1 [e4; e3] 30); [|by apply S1].
    unfold walk. fold (root hhdm cr3) e4. rewrite P4. fold e3. by rewrite Hp3, Hl3. }
  eapply returns_bind; [exact (ensure_table_spec m1 s1 v e3 1 Hok1 In3 ltac:(lia))|].
  intros [[ok m2] s2] (St2 & N2 & H2). pose proof (step_trans _ _ _ _ _ St1 St2) as St02.
  assert (forall w, walk hhdm cr3 m w = None -> walk hhdm cr3 m2 w = None) as N02 by (intros w Hw; by apply N2, N1).
  destruct ok; cbn [negb]; [|apply returns_ret; split; [exact St02 | split; [exact H2 | intros w _; apply N02]]].
  destruct H2 as [P3 Z3]. pose proof (step_ok _ _ _ St2) as Hok2.
  assert (word m2 e4 = word m1 e4) as W4 by (apply (step_keeps _ _ _ St2 v); [by eapply list_elem_of_lookup_2, entry4 | exact P4]).
  assert (large (word m2 e3) = false) as L3.
  { destruct Z3 as [->|[L3 _]]; [|exact L3]. rewrite P3 in Hbig. exact Hbig. }
  set (e2 := slot (phys_to_virt hhdm (frame (word m2 e3))) (index v 21)).
  assert (absent (word m2 e2) = false -> m2 = m) as S2.
  { intros Hp. destruct Z3 as [->|[_ Z3]]; [by apply S1|]. unfold e2 in Hp. by rewrite (Z3 _ (index_range v 21)) in Hp. }
  assert (absent (word m2 e4) = false) as P4' by (by rewrite W4).
  pose proof (entry2 m2 v P4') as In2. fold e4 in In2. rewrite W4 in In2. fold e3 e2 in In2. specialize (In2 P3 L3).
  destruct (negb (absent (word m2 e2)) && large (word m2 e2)) eqn:Hbig2.
  { apply andb_true_iff in Hbig2 as [Hp2%negb_true_iff Hl2]. apply returns_ret. split; [exact St02|].
    split; [|by intros w _; apply N02]. apply (mapped_same _ v m m2 [e4; e3; e2] 21); [|by apply S2].
    unfold walk. fold (root hhdm cr3) e4. rewrite P4', W4. fold e3. rewrite P3, L3. fold e2. by rewrite Hp2, Hl2. }
  eapply returns_bind; [exact (ensure_table_spec m2 s2 v e2 2 Hok2 In2 ltac:(lia))|].
  intros [[ok m3] s3] (St3 & N3 & H3). pose proof (step_trans _ _ _ _ _ St02 St3) as St03.
  assert (forall w, walk hhdm cr3 m w = None -> walk hhdm cr3 m3 w = None) as N03 by (intros w Hw; by apply N3, N02).
  destruct ok; cbn [negb]; [|apply returns_ret; split; [exact St03 | split; [exact H3 | intros w _; apply N03]]].
  destruct H3 as [P2 Z2]. pose proof (step_ok _ _ _ St3) as Hok3.
  assert (word m3 e4 = word m1 e4) as W4' by (rewrite <- W4; apply (step_keeps _ _ _ St3 v); [by eapply list_elem_of_lookup_2, entry4 | exact P4']).
  assert (word m3 e3 = word m2 e3) as W3.
  { apply (step_keeps _ _ _ St3 v); [|exact P3]. pose proof (entry3 m2 v P4') as Hin. fold e4 in Hin. rewrite W4 in Hin.
    by eapply list_elem_of_lookup_2. }
  assert (large (word m3 e2) = false) as L2.
  { destruct Z2 as [->|[L2 _]]; [|exact L2]. rewrite P2 in Hbig2. exact Hbig2. }
  pose proof (leaf_spec (mmio_entry phys) v m m3 s3) as Hleaf. cbv zeta in Hleaf. fold e4 in Hleaf.
  rewrite W4' in Hleaf. fold e3 in Hleaf. rewrite W3 in Hleaf. fold e2 in Hleaf.
  destruct Hleaf as (St & Hm & Hoth); [exact Hok3 | apply mmio_entry_present | exact P4 | exact P3 | exact L3 | exact P2 | exact L2 | |].
  { intros Hp. destruct Z2 as [->|[_ Z2]]; [by apply S2|]. by rewrite (Z2 _ (index_range v 12)) in Hp. }
  apply returns_ret. split; [exact (step_trans _ _ _ _ _ St03 St)|]. split; [exact Hm|].
  intros w Hw Hn. by apply Hoth, N03.
Qed.

(** *** The range *)

(** A mapping survives later steps. *)
Lemma mapped_later x v m0 m m' m'' : keeps m' m'' ->
  (walk hhdm cr3 m0 v = None -> walk hhdm cr3 m v = None) -> mapped x v m m' -> mapped x v m0 m''.
Proof.
  intros K Hnone (path & sh & Hw & Hnew).
  assert (forall e, e ∈ path -> word m'' e = word m' e) as He.
  { intros e Hin. destruct (walk_entries hhdm cr3 m' _ path sh Hw e Hin) as [H1 H2]. exact (K _ e H1 H2). }
  exists path, sh. split; [exact (walk_keep hhdm cr3 m' m'' _ path sh Hw He)|]. intros Hn.
  destruct (Hnew (Hnone Hn)) as (Hsh & leaf & Hl & Hword). split; [exact Hsh|]. exists leaf. split; [exact Hl|].
  rewrite He; [exact Hword|]. rewrite last_lookup in Hl. by eapply list_elem_of_lookup_2.
Qed.

(** The four indices make up bits 12 to 47. *)
Lemma indices_page v w : 0 <= v -> 0 <= w -> same_indices 3 v w ->
  v / 2 ^ 12 mod 2 ^ 36 = w / 2 ^ 12 mod 2 ^ 36.
Proof.
  intros Hv Hw Hs.
  assert (forall l k big, (l <= 3)%nat -> levels !! l = Some (k, big) -> 0 <= k < 64 ->
    v / 2 ^ k mod 2 ^ 9 = w / 2 ^ k mod 2 ^ 9) as He.
  { intros l k big Hl Hk Hk0. specialize (Hs l k big Hl Hk). unfold index in Hs. rewrite !wshr_div in Hs by lia.
    change 0x1FF with (Z.ones 9) in Hs. by rewrite !Z.land_ones in Hs by lia. }
  pose proof (He 0%nat 39 false ltac:(lia) eq_refl ltac:(lia)) as I4.
  pose proof (He 1%nat 30 true ltac:(lia) eq_refl ltac:(lia)) as I3.
  pose proof (He 2%nat 21 true ltac:(lia) eq_refl ltac:(lia)) as I2.
  pose proof (He 3%nat 12 false ltac:(lia) eq_refl ltac:(lia)) as I1.
  change (2 ^ 36) with (2 ^ 9 * (2 ^ 9 * (2 ^ 9 * 2 ^ 9))).
  rewrite !Z.rem_mul_r, !Zdiv.Zdiv_Zdiv by lia.
  change (2 ^ 12 * 2 ^ 9) with (2 ^ 21). change (2 ^ 21 * 2 ^ 9) with (2 ^ 30). change (2 ^ 30 * 2 ^ 9) with (2 ^ 39).
  by rewrite I1, I2, I3, I4.
Qed.

(** Different pages less than 2^48 apart differ in an index. *)
Lemma pages_differ v w : 0 <= v -> 0 <= w -> v mod 4096 = w mod 4096 -> v <> w -> Z.abs (v - w) < 2 ^ 48 ->
  ~ same_indices 3 v w.
Proof.
  intros Hv Hw Hm Hne Hd Hs. apply (indices_page v w Hv Hw) in Hs. change (2 ^ 12) with 4096 in Hs.
  Z.to_euclidean_division_equations. lia.
Qed.

(** The page of round [k], and what the loop leaves of it. *)
Section range.
Context (phys_base num : Z) (Hbase : 0 <= phys_base).
Context (Hend : hhdm + phys_base + num * 4096 <= 2 ^ 64) (Hnum : num * 4096 <= 2 ^ 48).

Definition range_mapped (k : Z) m m' : Prop :=
  mapped (mmio_entry (phys_base + k * 4096)) (hhdm + phys_base + k * 4096) m m'.

Lemma mmio_loop_spec n : forall i m s, 0 <= i -> i + Z.of_nat n = num -> tables_ok m s ->
  returns (mmio_loop hhdm cr3 phys_base i n m s) (fun '(ok, m', s') => step m m' s' /\
    if ok then forall k, i <= k < num -> range_mapped k m m' else exhausted s').
Proof.
  induction n as [|n IH]; intros i m s Hi Hn Hok; simpl.
  { apply returns_ret. split; [by apply step_refl|]. lia. }
  destruct Hhhdm as [Hh0 _].
  rewrite (wmul_small 64 i), (wadd_small 64 phys_base) by (unfold in_word; lia).
  pose proof (mmio_page_spec (phys_base + i * 4096) m s Hok) as Hpage. cbv zeta in Hpage.
  rewrite wadd_small, Z.add_assoc in Hpage by (unfold in_word; lia).
  eapply returns_bind; [exact Hpage|]. intros [[ok m1] s1] (St1 & Hm & Hoth).
  destruct ok; cbn [negb]; [|by apply returns_ret].
  eapply returns_mono; [apply (IH (i + 1) m1 s1); [lia | lia | exact (step_ok _ _ _ St1)]|].
  intros [[ok m2] s2] [St2 Hrest]. split; [exact (step_trans _ _ _ _ _ St1 St2)|].
  destruct ok; [|exact Hrest]. intros k Hk. destruct (decide (k = i)) as [->|].
  - unfold range_mapped. apply (mapped_later _ _ m m m1 m2 (step_keeps _ _ _ St2)); [done | exact Hm].
  - apply (mapped_later _ _ m m1 m2 m2); [reflexivity | | apply Hrest; lia].
    apply Hoth. apply pages_differ; [lia | lia | | lia | lia].
    replace (hhdm + phys_base + k * 4096) with (hhdm + phys_base + i * 4096 + (k - i) * 4096) by lia.
    symmetry. apply Z.mod_add. lia.
Qed.
End range.

(** [map_lapic_page] changes nothing when it fails. *)
Lemma map_lapic_page_spec m s : let v := hhdm ⊞ LAPIC_PHYS in tables_ok m s ->
  returns (map_lapic_page hhdm cr3 m s) (fun '(r, m', s') => step m m' s' /\
    (r = 0 /\ m' = m \/ r = v /\ mapped lapic_entry v m m')).
Proof.
  intros v Hok. unfold map_lapic_page. fold v (root hhdm cr3).
  set (e4 := slot (root hhdm cr3) (index v 39)).
  assert (step m m s /\ (0 = 0 /\ m = m \/ 0 = v /\ mapped lapic_entry v m m)) as Hfail
    by (split; [by apply step_refl | by left]).
  destruct (absent (word m e4)) eqn:P4; [by apply returns_ret|].
  set (e3 := slot (phys_to_virt hhdm (frame (word m e4))) (index v 30)).
  destruct (absent (word m e3)) eqn:P3; cbn [negb andb]; [by apply returns_ret|].
  destruct (large (word m e3)) eqn:L3.
  { apply returns_ret. split; [by apply step_refl|]. right. split; [done|]. apply (mapped_same _ v m m [e4; e3] 30); [|done].
    unfold walk. fold (root hhdm cr3) e4. rewrite P4. fold e3. by rewrite P3, L3. }
  pose proof (entry2 m v P4 P3 L3) as In2.
  set (e2 := slot (phys_to_virt hhdm (frame (word m e3))) (index v 21)) in *. fold e4 e3 e2 in In2.
  destruct (absent (word m e2)) eqn:P2; cbn [negb andb].
  2:{ destruct (large (word m e2)) eqn:L2.
    - apply returns_ret. split; [by apply step_refl|]. right. split; [done|].
      apply (mapped_same _ v m m [e4; e3; e2] 21); [|done].
      unfold walk. fold (root hhdm cr3) e4. rewrite P4. fold e3. rewrite P3, L3. fold e2. by rewrite P2, L2.
    - destruct (leaf_spec lapic_entry v m m s Hok eq_refl P4 P3 L3 P2 L2 ltac:(done)) as (St & Hm & _).
      apply returns_ret. split; [exact St | right; split; [reflexivity | exact Hm]]. }
  pose proof (ensure_table_spec m s v e2 2 Hok In2 ltac:(lia)) as Htab. unfold ensure_table in Htab. rewrite P2 in Htab.
  destruct (table_alloc_law s (to_wf m s Hok)) as ([[p|] s'] & Halloc & Hwf' & Hlaw); rewrite Halloc in Htab |- *; cbn [mbind outcome_bind] in Htab |- *.
  2:{ rewrite Hlaw in *. by apply returns_ret. }
  destruct Hlaw as [Hfree Hrest]. destruct (table_free_page s p (to_wf m s Hok) Hfree) as (Hm & Hl & Hh & Hb).
  destruct Htab as ([[ok m1] s1] & Heq & St1 & _ & Hnew). injection Heq as <- Hm1 <-. fold (table_entry p) in Hm1 |- *.
  destruct Hhhdm as [Hh0 _]. rewrite wsub_small by (unfold in_word; lia). unfold phys_to_virt.
  rewrite wadd_small by (unfold in_word; lia). replace (hhdm + (p - hhdm)) with p by lia.
  destruct (table_entry_spec p Hm Hl Hh Hb) as (T1 & T2 & T3).
  assert (word m1 e2 = table_entry p) as W2 by (by rewrite <- Hm1, word_insert, decide_True).
  destruct Hnew as [_ [->|[_ Hzero]]]; [exfalso; rewrite W2 in P2; congruence|].
  specialize (Hzero _ (index_range v 12)). rewrite W2, T3 in Hzero.
  assert (word m1 e4 = word m e4) as W4 by (apply (step_keeps _ _ _ St1 v); [by eapply list_elem_of_lookup_2, entry4 | exact P4]).
  assert (word m1 e3 = word m e3) as W3
    by (apply (step_keeps _ _ _ St1 v); [by eapply list_elem_of_lookup_2, entry3 | exact P3]).
  pose proof (leaf_spec lapic_entry v m m1 s' (step_ok _ _ _ St1) eq_refl) as Hleaf. cbv zeta in Hleaf. fold e4 in Hleaf.
  rewrite W4 in Hleaf. fold e3 in Hleaf. rewrite W3 in Hleaf. fold e2 in Hleaf. rewrite W2, T3, Hzero in Hleaf.
  destruct Hleaf as (St & Hmap & _); [exact P4 | exact P3 | exact L3 | exact T1 | exact T2 | done |].
  apply returns_ret. rewrite Hm1. split; [exact (step_trans _ _ _ _ _ St1 St) | right; split; [reflexivity | exact Hmap]].
Qed.

(** ** Addresses inside a page *)

Lemma index_in_page v o k : 0 <= v -> v mod 4096 = 0 -> 0 <= o < 4096 -> 12 <= k < 64 ->
  index (v + o) k = index v k.
Proof.
  intros Hv Hm Ho Hk. unfold index. rewrite !wshr_div by lia. f_equal.
  replace (2 ^ k) with (4096 * 2 ^ (k - 12)).
  - rewrite <- !Z.div_div by lia. f_equal. Z.to_euclidean_division_equations. lia.
  - change 4096 with (2 ^ 12). rewrite <- Z.pow_add_r by lia. f_equal. lia.
Qed.

Lemma walk_in_page m v o : 0 <= v -> v mod 4096 = 0 -> 0 <= o < 4096 ->
  walk hhdm cr3 m (v + o) = walk hhdm cr3 m v.
Proof.
  intros Hv Hm Ho. unfold walk.
  by rewrite !(index_in_page v o 39), !(index_in_page v o 30), !(index_in_page v o 21), !(index_in_page v o 12) by lia.
Qed.

Lemma translate_none m v : walk hhdm cr3 m v = None <-> translate hhdm cr3 m v = None.
Proof.
  unfold translate. split; [by intros ->|]. intros Ht.
  destruct (walk hhdm cr3 m v) as [[path sh]|] eqn:Hw; [|done]. exfalso. revert Hw Ht. unfold walk. clear.
  repeat (case_match; try done); intros [= <- <-]; discriminate.
Qed.

(** The entry that maps [v]. *)
Definition leaf_entry m v : option Z :=
  '(path, _) ← walk hhdm cr3 m v; leaf ← last path; Some (word m leaf).

(** An entry for the page at [phys]. *)
Lemma mapped_translate x v phys o m m' : mapped x v m m' -> frame x = phys ->
  0 <= v -> v mod 4096 = 0 -> 0 <= o < 4096 -> phys mod 4096 = 0 ->
  exists a, translate hhdm cr3 m' (v + o) = Some a /\
    (translate hhdm cr3 m (v + o) = None -> a = phys + o /\ leaf_entry m' (v + o) = Some x).
Proof.
  intros (path & sh & Hw & Hnew) Hx Hv Hm Ho Hp.
  destruct (translate hhdm cr3 m' (v + o)) as [a|] eqn:Ht.
  2:{ apply translate_none in Ht. rewrite walk_in_page in Ht by done. congruence. }
  exists a. split; [done|]. rewrite <- translate_none, walk_in_page by done. intros Hn.
  destruct (Hnew Hn) as (-> & leaf & Hl & Hword). unfold leaf_entry. unfold translate in Ht.
  rewrite walk_in_page, Hw in Ht |- * by done. simpl in Ht |- *. rewrite Hl in Ht |- *. simpl in Ht |- *.
  rewrite Hword in *. split; [|done]. rewrite Hx in Ht. injection Ht as <-.
  change (2 ^ 12) with 4096 in *. Z.to_euclidean_division_equations. lia.
Qed.
End tables.

(** The entry of a device page is uncached, not executable and has the page's frame. *)
Lemma mmio_entry_frame phys : 0 <= phys < 2 ^ 52 -> phys mod 4096 = 0 -> frame (mmio_entry phys) = phys.
Proof.
  intros Hp Hm. apply Z.bits_inj'. intros i Hi. rewrite frame_bits by done.
  unfold mmio_entry, PTE_NX, PTE_PWT, PTE_PCD. change PTE_PRESENT with (2 ^ 0). change PTE_WRITABLE with (2 ^ 1).
  rewrite !Z.lor_spec, !flag_bit by lia. destruct (Z.leb_spec 12 i).
  - destruct (Z.ltb_spec i 52); [bit_tests; done|].
    rewrite (testbit_high 52 phys) by (unfold in_word; lia). by rewrite andb_false_r.
  - rewrite andb_false_r. symmetry. rewrite <- (Z.mod_pow2_bits_low _ 12) by lia.
    change (2 ^ 12) with 4096. rewrite Hm. apply Z.bits_0.
Qed.

(** * The kernel's page allocator *)

(** The direct map starts at [hhdm] and holds the allocator's region. *)
Record in_direct_map (hhdm : Z) (b : BuddyAllocator) : Prop := {
  dm_wf : wf b;
  dm_align : base b mod 4096 = 0;
  dm_lo : hhdm <= base b;
  dm_hi : base b - hhdm + total_pages b * PAGE_SIZE <= 2 ^ 52;
}.

(** A page of the region whose bit is clear. *)
Definition page_free_at (b : BuddyAllocator) (p : Z) : Prop :=
  exists i, p = base b + i * PAGE_SIZE /\ 0 <= i < total_pages b /\ i < BITMAP_SIZE /\ page_used b i = false.

#[export] Program Instance buddy_tables hhdm : TablePages BuddyAllocator hhdm :=
  {| table_wf := in_direct_map hhdm; table_free := page_free_at |}.
Next Obligation.
  intros hhdm b p [Hwf Ha Hl Hh] (i & -> & Hi & _). pose proof (wf_region b Hwf). unfold PAGE_SIZE in *.
  split; [|lia]. rewrite Z.mod_add by lia. exact Ha.
Qed.
Next Obligation.
  intros hhdm b [Hwf Ha Hl Hh]. simpl. rewrite alloc_one_eq by exact Hwf.
  destruct (first_unused b) as [i|] eqn:Hi; apply returns_ret; [|by split].
  apply first_unused_range in Hi as (Hr & Hlt & Hu); [|exact Hwf].
  pose proof (set_bit_region b i) as (H1 & H2 & _). split.
  { split; rewrite ?H1, ?H2; [apply set_bit_wf; [exact Hwf | lia] | exact Ha | exact Hl | exact Hh]. }
  split; [exists i; split; [done|]; split; [lia|]; split; [lia | done]|].
  intros q (j & -> & Hj & Hjb & Huj). rewrite H1, H2 in *. rewrite used_set_bit in Huj by (done || lia).
  apply orb_false_iff in Huj as [Hne%Z.eqb_neq Huj]. unfold PAGE_SIZE.
  split; [by exists j | lia].
Qed.

(** * Properties *)

(** An address space whose top-level table, at physical 1 MiB, is empty; the allocator has the
    first 16 pages. *)
Definition demo_cr3 : Z := 0x100000.

(** Without any entry, when the top-level table is outside the managed region. *)
Lemma empty_tables_ok hhdm cr3 b : let top := root hhdm cr3 in in_direct_map hhdm b -> 0 <= top -> top + 4096 <= 2 ^ 64 ->
  Buddy.base b + total_pages b * 4096 <= top \/ top + 4096 <= Buddy.base b ->
  tables_ok (A := BuddyAllocator) hhdm cr3 ∅ b.
Proof.
  intros top Hdm Htop Hfit Hout.
  assert (forall v, entries hhdm cr3 ∅ v = [slot top (index v 39)]) as He.
  { intros v. unfold entries, levels. cbn [looked]. unfold word. rewrite lookup_empty. reflexivity. }
  assert (forall v, slot top (index v 39) = top + index v 39 * 8) as Hslot.
  { intros v. apply slot_page; [done | done | apply index_range]. }
  split; [exact Hdm|..].
  - intros v e p. rewrite He. intros ->%list_elem_of_singleton (i & -> & Hi & _).
    pose proof (index_range v 39). unfold in_page. rewrite Hslot. unfold PAGE_SIZE. lia.
  - intros v w i j e. rewrite !He, !Hslot. intros [-> <-]%list_lookup_singleton_Some [-> Heq]%list_lookup_singleton_Some.
    split; [done|]. intros l k big Hl Hlv. destruct l; [|lia]. injection Hlv as <- <-. lia.
Qed.

Lemma demo_tables_ok : tables_ok (A := BuddyAllocator) demo_base demo_cr3 ∅ demo.
Proof.
  destruct demo_post as (Hwf & Hb & Ht & _). apply empty_tables_ok; [| by vm_compute | by vm_compute | left; by rewrite Hb, Ht].
  split; [exact Hwf | by rewrite Hb | by rewrite Hb | by rewrite Hb, Ht].
Qed.


Definition map_mmio_demo : outcome (Z * Words * BuddyAllocator) :=
  map_mmio demo_base demo_cr3 0xFEB00000 2 ∅ demo.

Lemma map_mmio_demo_ok : fst <$> observed map_mmio_demo = Some (demo_base + 0xFEB00000).
Proof. vm_compute. reflexivity. Qed.


(** The registers the local APIC has after [init]: enabled with spurious vector 255, the legacy
    controllers on LINT0, non-maskable interrupts on LINT1, both unmasked. *)
Record lapic_ready {D} {base} `{LapicLaws D base} (d : D) : Prop := {
  lr_enabled : Z.testbit (reg SVR d) 8 = true;
  lr_spurious : Z.land (reg SVR d) 0xFF = 0xFF;
  lr_lint0 : reg LINT0 d = 0x700;
  lr_lint1 : reg LINT1 d = 0x400;
}.

Lemma lapic_registers {D} base `{LapicLaws D base} (svr : Z) (d : D) :
  returns (d ← write_volatile (base + SVR) (Z.lor (Z.lor svr (2 ^ 8)) 0xFF) d;
           d ← write_volatile (base + LINT0) (Z.shiftl 7 8) d;
           write_volatile (base + LINT1) (Z.shiftl 4 8) d) lapic_ready.
Proof.
  assert (Z.testbit (Z.lor (Z.lor svr (2 ^ 8)) 0xFF) 8 = true) as H8
    by (rewrite !Z.lor_spec; change (Z.testbit (2 ^ 8) 8) with true; by rewrite orb_true_r).
  eapply returns_bind; [by apply svr_law|]. intros d1 [R1 K1].
  assert (Z.testbit (reg SVR d1) 8 = true) as E1 by (by rewrite R1, Z.land_spec, H8).
  eapply returns_bind; [apply lint_law; by left|]. intros d2 [R2 K2]. rewrite E1 in R2.
  assert (reg SVR d2 = reg SVR d1) as S2 by (by apply K2).
  eapply returns_mono; [apply lint_law; right; left|]. intros d3 [R3 K3]. rewrite S2, E1 in R3.
  assert (reg SVR d3 = reg SVR d1) as S3 by (by rewrite K3).
  split; [by rewrite S3 | | by rewrite K3, R2 | exact R3].
  rewrite S3, R1, <- Z.land_assoc. change (Z.land svr_writable 0xFF) with 0xFF.
  apply Z.bits_inj'. intros i Hi. rewrite Z.land_spec, Z.lor_spec. destruct (Z.testbit 0xFF i); [by rewrite orb_true_r | by rewrite andb_false_r].
Qed.

(** The whole sequence of [init], with its reads. *)
Lemma lapic_sequence {D B} base `{LapicLaws D base} (y : B) (d : D) :
  returns ('(svr_before, d) ← read_volatile (base + SVR) d;
           '(lint0_before, d) ← read_volatile (base + LINT0) d;
           d ← write_volatile (base + SVR) (Z.lor (Z.lor svr_before (2 ^ 8)) 0xFF) d;
           d ← write_volatile (base + LINT0) (Z.shiftl 7 8) d;
           d ← write_volatile (base + LINT1) (Z.shiftl 4 8) d;
           '(svr_after, d) ← read_volatile (base + SVR) d;
           '(lint0_after, d) ← read_volatile (base + LINT0) d;
           Ret (y, d)) (fun '(y', d') => y' = y /\ lapic_ready d').
Proof.
  assert (forall off d d0, off ∈ [SVR; LINT0; LINT1] -> lapic_ready d -> read_volatile (base + off) d = Ret d0 ->
    lapic_ready d0.2) as Hread.
  { intros off d0 [x d1] Hoff [R1 R2 R3 R4] Heq. destruct (read_law off d0 Hoff) as ([x' d2] & Heq' & _ & Hsame).
    rewrite Heq in Heq'. injection Heq' as <- <-. by split; simpl; rewrite Hsame. }
  eapply returns_bind; [apply read_law; left|]. intros [svr d1] _.
  eapply returns_bind; [apply read_law; right; left|]. intros [lint0 d2] _.
  destruct (lapic_registers base svr d2) as (d5 & Hd5 & Hready).
  destruct (write_volatile (base + SVR) _ d2) as [d3|] eqn:E3; [|discriminate Hd5]. cbn [mbind outcome_bind] in Hd5 |- *.
  destruct (write_volatile (base + LINT0) _ d3) as [d4|] eqn:E4; [|discriminate Hd5]. cbn [mbind outcome_bind] in Hd5 |- *.
  rewrite Hd5. cbn [mbind outcome_bind].
  destruct (read_law SVR d5) as (p & E & _); [left|]. pose proof (Hread SVR d5 p ltac:(left) Hready E) as R6.
  rewrite E. destruct p as [x d6]. cbn [mbind outcome_bind snd] in *.
  destruct (read_law LINT0 d6) as (p & E' & _); [right; left|].
  pose proof (Hread LINT0 d6 p ltac:(right; left) R6 E') as R7.
  rewrite E'. destruct p as [x' d7]. apply returns_ret. by split.
Qed.

(** The local APIC is mapped and switched on.  [init] never crashes and changes no existing
    translation.  Either the registers could not be mapped, and then nothing changed, neither
    tables nor device; or their page is in the address space, at the device's physical address if
    it was not mapped before, and the local APIC is enabled with spurious vector 255, passes the
    interrupts of the legacy controllers on LINT0 and non-maskable ones on LINT1, neither masked. *)
Theorem lapic_init_ready {A D} (hhdm cr3 : Z) `{TablePages A hhdm} `{LapicLaws D (hhdm + LAPIC_PHYS)}
    (virt : Z) (m : Words) (s : A) (d : D)
    (Hhhdm : 0 <= hhdm /\ hhdm mod 4096 = 0) (Hvirt : hhdm + LAPIC_PHYS + 4096 <= 2 ^ 64) (Hok : tables_ok hhdm cr3 m s) :
  exists virt' m' s' d', lapic_init hhdm cr3 virt m s d = Ret (virt', m', s', d') /\
    (forall v x, translate hhdm cr3 m v = Some x -> translate hhdm cr3 m' v = Some x) /\
    tables_ok hhdm cr3 m' s' /\
    (virt' = virt /\ m' = m /\ d' = d \/
     virt' = hhdm + LAPIC_PHYS /\ lapic_ready d' /\
       exists a, translate hhdm cr3 m' virt' = Some a /\ (translate hhdm cr3 m virt' = None -> a = LAPIC_PHYS)).
Proof.
  unfold lapic_init. destruct (map_lapic_page_spec hhdm cr3 Hhhdm m s Hok) as ([[r m'] s'] & -> & [Hk Hok'] & Hres).
  cbn [mbind outcome_bind].
  assert (forall v x, translate hhdm cr3 m v = Some x -> translate hhdm cr3 m' v = Some x) as Htr
    by (intros v x; by apply keeps_translate).
  destruct Hres as [[-> ->]|[-> Hmap]].
  { exists virt, m, s', d. split; [reflexivity|]. split; [exact Htr|]. split; [exact Hok'|]. by left. }
  assert (hhdm ⊞ LAPIC_PHYS = hhdm + LAPIC_PHYS) as Hv by (apply wadd_small; unfold in_word, LAPIC_PHYS in *; lia).
  rewrite Hv in *. rewrite (proj2 (Z.eqb_neq _ _)) by (unfold LAPIC_PHYS; lia). unfold read_reg, write_reg.
  assert (forall o, 0 <= o < 4096 -> (hhdm + LAPIC_PHYS) ⊞ o = hhdm + LAPIC_PHYS + o) as Hadd
    by (intros o Ho; apply wadd_small; unfold in_word, LAPIC_PHYS in *; lia).
  rewrite !Hadd by (unfold SVR, LINT0, LINT1; lia).
  destruct (lapic_sequence (hhdm + LAPIC_PHYS) (hhdm + LAPIC_PHYS, m', s') d) as ([y d'] & -> & -> & Hready).
  exists (hhdm + LAPIC_PHYS), m', s', d'. split; [reflexivity|]. split; [exact Htr|]. split; [exact Hok'|].
  right. split; [reflexivity|]. split; [exact Hready|].
  assert ((hhdm + LAPIC_PHYS) mod 4096 = 0) as Hm by (unfold LAPIC_PHYS; rewrite Zplus_mod, (proj2 Hhhdm); reflexivity).
  destruct (mapped_translate hhdm cr3 _ _ LAPIC_PHYS 0 m m' Hmap) as (a & Ha & Hnew);
    [reflexivity | unfold LAPIC_PHYS; lia | exact Hm | lia | reflexivity |].
  rewrite !Z.add_0_r in *. exists a. split; [exact Ha|]. intros Hn. by destruct (Hnew Hn).
Qed.

(** A local APIC with these registers: SVR, LINT0, LINT1. *)
Definition demo_apic : Type := Z * Z * Z.

Definition demo_base_apic : Z := demo_base + LAPIC_PHYS.

Definition demo_masked (svr val : Z) : Z :=
  if Z.testbit svr 8 then Z.land val lint_writable else Z.lor (Z.land val lint_writable) LVT_MASKED.

#[local] Instance demo_apic_regs : LapicRegs demo_apic := {|
  read_volatile a d := let '(svr, lint0, lint1) := d in
    if a =? demo_base_apic + SVR then Ret (svr, d)
    else if a =? demo_base_apic + LINT0 then Ret (lint0, d)
    else if a =? demo_base_apic + LINT1 then Ret (lint1, d) else Ret (0, d);
  write_volatile a val d := let '(svr, lint0, lint1) := d in
    if a =? demo_base_apic + SVR then
      let mask x := if Z.testbit val 8 then x else Z.lor x LVT_MASKED in
      Ret (Z.land val svr_writable, mask lint0, mask lint1)
    else if a =? demo_base_apic + LINT0 then Ret (svr, demo_masked svr val, lint1)
    else if a =? demo_base_apic + LINT1 then Ret (svr, lint0, demo_masked svr val) else Ret d |}.

#[local] Program Instance demo_apic_laws : LapicLaws demo_apic demo_base_apic := {|
  reg off d := let '(svr, lint0, lint1) := d in
    if off =? SVR then svr else if off =? LINT0 then lint0 else if off =? LINT1 then lint1 else 0 |}.
Next Obligation.
  intros off [[svr l0] l1] Hoff. rewrite !elem_of_cons, elem_of_nil in Hoff.
  destruct Hoff as [->|[->|[->|[]]]]; by eexists.
Qed.
Next Obligation.
  intros val [[svr l0] l1] Hv. eexists. split; [reflexivity|]. rewrite Hv. split; [reflexivity|].
  intros o Ho. rewrite !(proj2 (Z.eqb_neq o SVR)) by done. reflexivity.
Qed.
Next Obligation.
  intros off val [[svr l0] l1] Hoff. rewrite !elem_of_cons, elem_of_nil in Hoff.
  destruct Hoff as [->|[->|[]]]; eexists; (split; [reflexivity|]); (split; [reflexivity|]); intros o Ho;
    unfold SVR, LINT0, LINT1 in *; by repeat case_match; try lia.
Qed.

(** After [map_mmio_demo] the directory that the local APIC needs exists. *)
Definition lapic_demo : outcome (Z * Words * BuddyAllocator * demo_apic) :=
  '(_, m, s) ← map_mmio_demo; lapic_init (D := demo_apic) demo_base demo_cr3 0 m s (0x1FF, LVT_MASKED, LVT_MASKED).

Definition lapic_virt (r : outcome (Z * Words * BuddyAllocator * demo_apic)) : option Z :=
  match r with Ret (v, _, _, _) => Some v | Crash _ => None end.

Lemma lapic_demo_ok : lapic_virt lapic_demo = Some demo_base_apic.
Proof. vm_compute. reflexivity. Qed.

Lemma map_mmio_demo_tables r m s : map_mmio_demo = Ret (r, m, s) -> tables_ok (A := BuddyAllocator) demo_base demo_cr3 m s.
Proof.
  unfold map_mmio_demo, map_mmio. intros He.
  destruct (mmio_loop_spec demo_base demo_cr3 ltac:(by split) 0xFEB00000 2) with (n := 2%nat) (i := 0) (m := (∅ : Words)) (s := demo)
    as ([[ok m'] s'] & Hr & [_ Hok] & _); [done | done | done | done | done | apply demo_tables_ok |].
  change (Z.to_nat 2) with 2%nat in He. rewrite Hr in He. simpl in He.
  by destruct ok; injection He as <- <- <-.
Qed.

Lemma lapic_init_ready_witness : exists m s m' s' d',
  map_mmio_demo = Ret (demo_base + 0xFEB00000, m, s) /\
  lapic_init (D := demo_apic) demo_base demo_cr3 0 m s (0x1FF, LVT_MASKED, LVT_MASKED) = Ret (demo_base_apic, m', s', d') /\
  lapic_ready d'.
Proof.
  pose proof lapic_demo_ok as Hd. pose proof map_mmio_demo_ok as Hm. pose proof map_mmio_demo_tables as Ht.
  unfold lapic_demo in Hd. destruct map_mmio_demo as [[[r m] s]|]; [|discriminate Hd].
  injection Hm as ->. specialize (Ht _ _ _ eq_refl). cbn [mbind outcome_bind] in Hd.
  destruct (lapic_init_ready (D := demo_apic) demo_base demo_cr3 0 m s (0x1FF, LVT_MASKED, LVT_MASKED))
    as (v & m' & s' & d' & He & _ & _ & Hres); [by split | done | exact Ht |].
  rewrite He in Hd. injection Hd as ->. exists m, s, m', s', d'. split; [reflexivity|]. split; [exact He|].
  destruct Hres as [[Hz _]|(_ & Hr & _)]; [discriminate Hz | exact Hr].
Defined.
