(* ===== verification/Shell.v ===== *)
(** The shell task of [src/main.rs]: a line editor on the frame buffer that
    reads characters from the PS/2 keyboard ([shell_task_entry],
    [shell_draw_at], [shell_draw_prompt]).  The theorems relate the frame
    buffer to an abstract terminal, a grid of characters with a current line. *)
From stdpp Require Import gmap.
From S2P Require Import Prelude Word Gfx Fifo Ps2.
Import Vesa Psf.

Definition SHELL_FG : Z := 0xFFFFFF.
Definition SHELL_BG : Z := 0x000080.
(** "avaria> " *)
Definition SHELL_PROMPT : list Z := [97; 118; 97; 114; 105; 97; 62; 32].
Definition SHELL_CHAR_W : Z := 8.
Definition SHELL_CHAR_H : Z := 16.
Definition SHELL_PAD_X : Z := 8.
Definition SHELL_PAD_Y : Z := 8.
Definition LINE_MAX : Z := 256.
(** "> " *)
Definition prefix : list Z := [62; 32].

(** The local variables of the task. *)
Record Shell := mkShell {
  line_buf : list Z;
  line_len : Z;
  cur_row : Z;
  cur_col : Z;
}.

Section code.
Context (font : option PsfFont) (fb : Framebuffer).
Implicit Types (mem : list Z).

Definition cols : Z := (width fb ⊟ SHELL_PAD_X ⊠ 2) / SHELL_CHAR_W.
Definition rows : Z := (height fb ⊟ SHELL_PAD_Y ⊠ 2) / SHELL_CHAR_H.

Definition shell_draw_at (col row ch : Z) mem : outcome (list Z) :=
  match font with
  | Some f => draw_char f fb (SHELL_PAD_X ⊞ col ⊠ SHELL_CHAR_W) (SHELL_PAD_Y ⊞ row ⊠ SHELL_CHAR_H)
                ch SHELL_FG SHELL_BG mem
  | None => Ret mem
  end.

(** [for (i, b) in bytes.enumerate()] *)
Fixpoint draw_enumerated (i row : Z) (bytes : list Z) mem : outcome (list Z) :=
  match bytes with
  | [] => Ret mem
  | b :: bytes => mem ← shell_draw_at i row b mem; draw_enumerated (i ⊞ 1) row bytes mem
  end.

Definition shell_draw_prompt (row : Z) mem : outcome (list Z) := draw_enumerated 0 row SHELL_PROMPT mem.

(** [cur_row += 1], back to the top of a cleared screen after the last row. *)
Definition next_row (row : Z) mem : outcome (Z * list Z) :=
  let row := row ⊞ 1 in
  if rows <=? row then mem ← clear fb 0x00 0x00 0x80 mem; Ret (0, mem) else Ret (row, mem).

(** The entered line, if there is one, shown again behind "> ". *)
Definition shell_echo (s : Shell) (row : Z) mem : outcome (Z * list Z) :=
  if 0 <? line_len s then
    mem ← draw_enumerated 0 row prefix mem;
    mem ← for_range (fun i mem => b ← arr_get (line_buf s) i;
                                  shell_draw_at (zlen prefix ⊞ i) row b mem) 0 (line_len s) mem;
    next_row row mem
  else Ret (row, mem).

(** [b'\n'] *)
Definition shell_newline (s : Shell) mem : outcome (Shell * list Z) :=
  mem ← shell_draw_at (cur_col s) (cur_row s) 32 mem;
  '(row, mem) ← next_row (cur_row s) mem;
  '(row, mem) ← shell_echo s row mem;
  mem ← shell_draw_prompt row mem;
  mem ← shell_draw_at (zlen SHELL_PROMPT) row 95 mem;
  Ret (mkShell (line_buf s) 0 row (zlen SHELL_PROMPT), mem).

(** [0x08] *)
Definition shell_backspace (s : Shell) mem : outcome (Shell * list Z) :=
  if 0 <? line_len s then
    mem ← shell_draw_at (cur_col s) (cur_row s) 32 mem;
    let len := line_len s ⊟ 1 in
    let col := cur_col s ⊟ 1 in
    mem ← shell_draw_at col (cur_row s) 95 mem;
    Ret (mkShell (line_buf s) len (cur_row s) col, mem)
  else Ret (s, mem).

(** Every other character. *)
Definition shell_insert (ch : Z) (s : Shell) mem : outcome (Shell * list Z) :=
  if (line_len s <? LINE_MAX - 1) && (cur_col s <? cols ⊟ 1) then
    mem ← shell_draw_at (cur_col s) (cur_row s) ch mem;
    buf ← arr_set (line_buf s) (line_len s) ch;
    let len := line_len s ⊞ 1 in
    let col := cur_col s ⊞ 1 in
    mem ← shell_draw_at col (cur_row s) 95 mem;
    Ret (mkShell buf len (cur_row s) col, mem)
  else Ret (s, mem).

Definition shell_key (ch : Z) (s : Shell) mem : outcome (Shell * list Z) :=
  if ch =? 10 then shell_newline s mem
  else if ch =? 0x08 then shell_backspace s mem
  else shell_insert ch s mem.

(** One round of the loop; without a key the processor halts until the next interrupt. *)
Definition shell_round (q : KbBuf) (s : Shell) mem : outcome (KbBuf * Shell * list Z) :=
  '(r, q) ← read_key q;
  match r with
  | Some ch => '(s, mem) ← shell_key ch s mem; Ret (q, s, mem)
  | None => Ret (q, s, mem)
  end.

(** What comes before the loop. *)
Definition shell_start mem : outcome (Shell * list Z) :=
  let s := mkShell (replicate (Z.to_nat LINE_MAX) 0) 0 0 (zlen SHELL_PROMPT) in
  mem ← clear fb 0x00 0x00 0x80 mem;
  mem ← shell_draw_prompt (cur_row s) mem;
  mem ← shell_draw_at (cur_col s) (cur_row s) 95 mem;
  Ret (s, mem).

(** The task between interrupts: a scan code arrives, or the loop makes a round. *)
Inductive event := Irq (scancode : Z) | Round.

Definition shell_event (e : event) (k : Kb) (s : Shell) mem : outcome (Kb * Shell * list Z) :=
  match e with
  | Irq sc => k ← process_scancode sc k; Ret (k, s, mem)
  | Round => '(q, s, mem) ← shell_round (keys k) s mem; Ret (mkKb (mods k) q, s, mem)
  end.

Fixpoint shell_events (es : list event) (k : Kb) (s : Shell) mem : outcome (Kb * Shell * list Z) :=
  match es with
  | [] => Ret (k, s, mem)
  | e :: es => '(k, s, mem) ← shell_event e k s mem; shell_events es k s mem
  end.

(** [shell_task_entry], the keyboard included, from boot. *)
Definition shell_task (es : list event) mem : outcome (Kb * Shell * list Z) :=
  '(s, mem) ← shell_start mem; shell_events es boot s mem.
End code.

(** * The abstract terminal *)

Abbreviation Grid := (gmap (Z * Z) Z).

(** The characters on the screen, the current row, and the line typed so far. *)
Record Term := mkTerm { t_grid : Grid; t_row : Z; t_line : list Z }.

Section term.
Context (cols rows : Z).

(** Write a text from column [i] on. *)
Fixpoint puts (i row : Z) (text : list Z) (g : Grid) : Grid :=
  match text with
  | [] => g
  | c :: text => puts (i + 1) row text (<[(i, row) := c]> g)
  end.

Definition advance (row : Z) (g : Grid) : Z * Grid := if row + 1 <? rows then (row + 1, g) else (0, ∅).

Definition echo (row : Z) (line : list Z) (g : Grid) : Z * Grid :=
  match line with [] => (row, g) | _ => advance row (puts 0 row (prefix ++ line) g) end.

Definition cursor (t : Term) : Z := zlen SHELL_PROMPT + zlen (t_line t).

Definition term_key (ch : Z) (t : Term) : Term :=
  if ch =? 10 then
    let '(row, g) := advance (t_row t) (<[(cursor t, t_row t) := 32]> (t_grid t)) in
    let '(row, g) := echo row (t_line t) g in
    mkTerm (puts 0 row (SHELL_PROMPT ++ [95]) g) row []
  else if ch =? 8 then
    match t_line t with
    | [] => t
    | _ => mkTerm (<[(cursor t - 1, t_row t) := 95]> (<[(cursor t, t_row t) := 32]> (t_grid t)))
                  (t_row t) (take (length (t_line t) - 1) (t_line t))
    end
  else if (zlen (t_line t) <? 255) && (cursor t <? cols - 1) then
    mkTerm (<[(cursor t + 1, t_row t) := 95]> (<[(cursor t, t_row t) := ch]> (t_grid t))) (t_row t) (t_line t ++ [ch])
  else t.

Definition term_start : Term := mkTerm (puts 0 0 (SHELL_PROMPT ++ [95]) ∅) 0 [].

(** With the abstract keyboard of [Ps2]. *)
Definition a_event (e : event) (x : (Mods * list Z) * Term) : (Mods * list Z) * Term :=
  let '(kb, t) := x in
  match e with
  | Irq sc => ((a_kb_step (Scan sc) kb).2, t)
  | Round => match a_kb_step ReadKey kb with
             | (Some ch, kb) => (kb, term_key ch t)
             | (None, kb) => (kb, t)
             end
  end.
End term.

(** * What the frame buffer shows *)

Section view.
Context (f : PsfFont) (fb : Framebuffer) (Hf : font_wf f) (Hh : f_height f <= 16).
Context (Hwide : 96 <= width fb) (Hhigh : 32 <= height fb).
Implicit Types (mem : list Z) (g : Grid).

Abbreviation C := (cols fb).
Abbreviation R := (rows fb).

(** Pixel [px], [py] of a cell; a font lower than the cell leaves background below it. *)
Definition cell_pixel (c : option Z) (px py : Z) : list Z :=
  match c with
  | Some c => if py <? f_height f then (if glyph_bit f (glyph_of f c) py px then rgb SHELL_FG else rgb SHELL_BG)
              else rgb SHELL_BG
  | None => rgb SHELL_BG
  end.

Definition cell_x (col : Z) : Z := SHELL_PAD_X + col * SHELL_CHAR_W.
Definition cell_y (row : Z) : Z := SHELL_PAD_Y + row * SHELL_CHAR_H.

Record view mem g : Prop := {
  view_wf : wf fb mem;
  view_cells col row px py : 0 <= col < C -> 0 <= row < R -> 0 <= px < 8 -> 0 <= py < 16 ->
    pixel fb mem (cell_x col + px) (cell_y row + py) = cell_pixel (g !! (col, row)) px py;
}.

Lemma screen_small mem : wf fb mem -> width fb < 2 ^ 62 /\ height fb < 2 ^ 62.
Proof. clear Hf. intros []. split; nia. Qed.

Lemma cols_rows mem : wf fb mem ->
  10 <= C /\ 16 + C * 8 <= width fb /\ 1 <= R /\ 16 + R * 16 <= height fb.
Proof.
  intros Hwf. destruct (screen_small mem Hwf) as [Hw Hhe]. clear Hf Hwf.
  unfold cols, rows, SHELL_PAD_X, SHELL_PAD_Y, SHELL_CHAR_W, SHELL_CHAR_H.
  rewrite (wmul_small 64 8 2) by (unfold in_word; lia). rewrite !wsub_small by (unfold in_word; lia).
  Z.to_euclidean_division_equations. lia.
Qed.

Lemma cell_on_screen mem col row px py : wf fb mem ->
  0 <= col < C -> 0 <= row < R -> 0 <= px < 8 -> 0 <= py < 16 -> on_screen fb (cell_x col + px) (cell_y row + py).
Proof.
  intros Hwf. destruct (cols_rows mem Hwf) as (_ & Hc & _ & Hr). clear Hf Hwf.
  unfold on_screen, cell_x, cell_y, SHELL_PAD_X, SHELL_PAD_Y, SHELL_CHAR_W, SHELL_CHAR_H. lia.
Qed.

(** Drawing a character sets its cell and no other. *)
Lemma draw_at_view mem g col row ch : view mem g -> 0 <= col < C -> 0 <= row < R -> 0 <= ch ->
  returns (shell_draw_at (Some f) fb col row ch mem) (fun mem' => view mem' (<[(col, row) := ch]> g)).
Proof.
  intros [Hwf Hv] Hcol Hrow Hch. destruct (screen_small mem Hwf) as [Hw Hhe].
  destruct (cols_rows mem Hwf) as (_ & Hc & _ & Hr). pose proof (fw_charsize f Hf) as Hcs. pose proof (fw_height f Hf) as Hfh.
  assert (in_word 32 SHELL_FG /\ in_word 32 SHELL_BG) as [Hfg Hbg] by done.
  unfold shell_draw_at, SHELL_PAD_X, SHELL_PAD_Y, SHELL_CHAR_W, SHELL_CHAR_H.
  rewrite (wmul_small 64 col), (wmul_small 64 row) by (unfold in_word; lia).
  rewrite !wadd_small by (unfold in_word; lia). eapply returns_mono.
  { apply (draw_char_paints f fb (8 + col * 8) (8 + row * 16)); [done | done | lia..| done | done]. }
  intros mem' Hp. split; [by eapply paints_wf|]. intros col' row' px py Hcol' Hrow' Hpx Hpy.
  destruct Hp as [_ Hp _]. rewrite Hp by (by apply (cell_on_screen mem)). unfold char_pic, cell_x, cell_y.
  unfold SHELL_PAD_X, SHELL_PAD_Y, SHELL_CHAR_W, SHELL_CHAR_H. clear Hp.
  destruct (decide ((col', row') = (col, row))) as [Heq|Hne].
  - injection Heq as -> ->. rewrite lookup_insert_eq. unfold cell_pixel.
    replace (8 + row * 16 + py - (8 + row * 16)) with py by lia.
    replace (8 + col * 8 + px - (8 + col * 8)) with px by lia.
    destruct (Z.ltb_spec py (f_height f)); decide_tests; cbn [andb default]; [done|].
    pose proof (Hv col row px py Hcol Hrow Hpx Hpy) as Hold. unfold cell_x, cell_y, cell_pixel in Hold.
    unfold SHELL_PAD_X, SHELL_PAD_Y, SHELL_CHAR_W, SHELL_CHAR_H in Hold. rewrite Hold.
    destruct (g !! (col, row)); [|done]. by decide_tests.
  - rewrite lookup_insert_ne by done.
    case_match eqn:Hin; [exfalso | by apply Hv].
    destruct (_ && _) eqn:Hb in Hin; [|discriminate]. apply Hne. clear Hin Hv Hwf Hf. f_equal; lia.
Qed.

Lemma clear_view mem : wf fb mem -> returns (clear fb 0x00 0x00 0x80 mem) (fun mem' => view mem' ∅).
Proof.
  intros Hwf. destruct (screen_small mem Hwf) as [Hw Hhe]. unfold clear.
  eapply returns_mono; [apply fill_rect_paints; [done | lia..]|].
  intros mem' Hp. split; [by eapply paints_wf|]. intros col row px py Hcol Hrow Hpx Hpy.
  pose proof (cell_on_screen mem col row px py Hwf Hcol Hrow Hpx Hpy) as Hs. destruct Hp as [_ Hp _].
  rewrite Hp by done. unfold rect. destruct Hs as [Hsx Hsy]. by decide_tests.
Qed.

(** ** Texts *)

Lemma puts_snoc i row l c g : puts i row (l ++ [c]) g = <[(i + zlen l, row) := c]> (puts i row l g).
Proof.
  revert i g. induction l as [|a l IH]; intros i g; simpl; [by rewrite zlen_nil, Z.add_0_r|].
  rewrite IH, zlen_cons. f_equal. f_equal. lia.
Qed.

Lemma puts_app i row l1 l2 g : puts i row (l1 ++ l2) g = puts (i + zlen l1) row l2 (puts i row l1 g).
Proof.
  revert i g. induction l1 as [|a l IH]; intros i g; simpl; [by rewrite zlen_nil, Z.add_0_r|].
  rewrite IH, zlen_cons. f_equal. lia.
Qed.

(** The texts are not read modulo anything: bytes. *)
Lemma draw_enumerated_view bytes i row mem g : view mem g -> 0 <= i -> i + zlen bytes <= C -> 0 <= row < R ->
  Forall (Z.le 0) bytes ->
  returns (draw_enumerated (Some f) fb i row bytes mem) (fun mem' => view mem' (puts i row bytes g)).
Proof.
  intros Hv Hi Hlen Hrow Hb. revert i mem g Hv Hi Hlen. induction Hb as [|b bytes Hb0 Hb IH]; intros i mem g Hv Hi Hlen; simpl.
  { by apply returns_ret. }
  rewrite zlen_cons in Hlen. pose proof (zlen_nonneg bytes).
  pose proof (screen_small mem (view_wf _ _ Hv)) as [Hw _]. pose proof (cols_rows mem (view_wf _ _ Hv)) as (_ & Hc & _).
  eapply returns_bind; [by apply draw_at_view; [done | lia | ..]|]. intros mem' Hv'.
  rewrite wadd_small by (unfold in_word; lia). apply IH; [done | lia | lia].
Qed.

Lemma draw_line_view line buf row mem g : view mem g -> 0 <= row < R -> 2 + zlen line <= C ->
  take (length line) buf = line -> Forall (Z.le 0) line ->
  returns (for_range (fun i mem => b ← arr_get buf i; shell_draw_at (Some f) fb (zlen prefix ⊞ i) row b mem)
             0 (zlen line) mem) (fun mem' => view mem' (puts 2 row line g)).
Proof.
  intros Hv Hrow Hlen Htake Hb. pose proof (zlen_nonneg line). eapply returns_mono.
  { apply (for_range_inv _ (fun i mem' => view mem' (puts 2 row (take (Z.to_nat i) line) g))); [done | done |].
    intros i m Hi Hm. destruct (zget_is_Some line i Hi) as [b Hget].
    rewrite (proj2 (arr_get_Ret _ _ b)), bind_ret by (rewrite <- Htake in Hget; rewrite <- Hget; symmetry;
      replace (length line) with (Z.to_nat (zlen line)) by (unfold zlen; lia); apply zget_take; lia).
    assert (0 <= b) as Hb0 by (apply (Forall_zget (Z.le 0) _ _ _ Hb Hget)).
    change (zlen prefix) with 2. pose proof (screen_small mem (view_wf _ _ Hv)) as [Hw _].
    pose proof (cols_rows mem (view_wf _ _ Hv)) as (_ & Hc & _). rewrite wadd_small by (unfold in_word; lia).
    eapply returns_mono; [by apply draw_at_view; [done | lia | ..]|]. intros m' Hm'.
    assert (take (Z.to_nat (i + 1)) line = take (Z.to_nat i) line ++ [b]) as ->.
    { replace (Z.to_nat (i + 1)) with (S (Z.to_nat i)) by lia. apply take_S_r.
      unfold zget in Hget. by destruct (0 <=? i). }
    rewrite puts_snoc, zlen_take by lia. exact Hm'. }
  intros m' Hm'. by rewrite take_ge in Hm' by (unfold zlen; lia).
Qed.

Lemma next_row_view row mem g : view mem g -> 0 <= row < R ->
  returns (next_row fb row mem) (fun '(row', mem') => row' = (advance R row g).1 /\ view mem' (advance R row g).2 /\ 0 <= row' < R).
Proof.
  intros Hv Hrow. pose proof (screen_small mem (view_wf _ _ Hv)) as [_ Hhe].
  pose proof (cols_rows mem (view_wf _ _ Hv)) as (_ & _ & _ & Hr). unfold next_row, advance.
  rewrite wadd_small by (unfold in_word; lia).
  destruct (Z.ltb_spec (row + 1) R); decide_tests.
  - apply returns_ret. simpl. split; [done|]. split; [done | lia].
  - eapply returns_bind; [apply clear_view, Hv|]. intros mem' Hv'. apply returns_ret. simpl. split; [done|]. split; [done | lia].
Qed.
End view.

(** ** The terminal's current row *)

Lemma puts_lookup i row l g j r : puts i row l g !! (j, r) =
  if decide (r = row /\ i <= j < i + zlen l) then zget l (j - i) else g !! (j, r).
Proof.
  revert i g. induction l as [|c l IH]; intros i g; simpl.
  { rewrite zlen_nil, decide_False; [done | lia]. }
  pose proof (zlen_nonneg l). rewrite IH, zlen_cons. destruct (decide (r = row /\ j = i)) as [[-> ->]|Hne].
  - rewrite decide_False, decide_True, lookup_insert_eq, Z.sub_diag by lia. done.
  - rewrite lookup_insert_ne by (intros [= -> ->]; lia). destruct (decide (r = row /\ i + 1 <= j < _)), (decide (r = row /\ i <= j < _));
      try (exfalso; lia); [|done].
    unfold zget. decide_tests. replace (Z.to_nat (j - i)) with (S (Z.to_nat (j - (i + 1)))) by lia. done.
Qed.

(** The current row reads prompt, line, cursor; to its right it is blank, below it empty. *)
Record term_ok (t : Term) : Prop := {
  tk_text i : 0 <= i <= cursor t -> t_grid t !! (i, t_row t) = zget (SHELL_PROMPT ++ t_line t ++ [95]) i;
  tk_right i : cursor t < i -> t_grid t !! (i, t_row t) = None \/ t_grid t !! (i, t_row t) = Some 32;
  tk_below i r : t_row t < r -> t_grid t !! (i, r) = None;
}.

Definition empty_from (r : Z) (g : Grid) : Prop := forall i r', r <= r' -> g !! (i, r') = None.

Lemma advance_empty R row g : empty_from (row + 1) g ->
  empty_from (advance R row g).1 (advance R row g).2.
Proof.
  intros Hg. unfold advance. case_ltb; [done|]. intros i r' _. apply lookup_empty.
Qed.

Lemma puts_empty i row l g : empty_from row g -> empty_from (row + 1) (puts i row l g).
Proof. intros Hg j r Hr. rewrite puts_lookup, decide_False by lia. apply Hg. lia. Qed.

Lemma insert_empty i row c g : empty_from (row + 1) g -> empty_from (row + 1) (<[(i, row) := c]> g).
Proof. intros Hg j r Hr. rewrite lookup_insert_ne; [by apply Hg|]. intros [= _ ->]. lia. Qed.

Lemma echo_empty R row line g : empty_from row g -> empty_from (echo R row line g).1 (echo R row line g).2.
Proof. intros Hg. unfold echo. destruct line; [done|]. by apply advance_empty, puts_empty. Qed.

(** A fresh prompt. *)
Lemma prompt_ok row g : empty_from row g -> term_ok (mkTerm (puts 0 row (SHELL_PROMPT ++ [95]) g) row []).
Proof.
  intros Hg. assert (zlen (SHELL_PROMPT ++ [95]) = 9) as Hl by done. split; cbn [t_grid t_row t_line].
  - intros i Hi. change (cursor _) with 8 in Hi. rewrite puts_lookup, Hl, decide_True, Z.sub_0_r by lia. done.
  - intros i Hi. change (cursor _) with 8 in Hi. rewrite puts_lookup, Hl, decide_False by lia. left. apply Hg. lia.
  - intros i r Hr. rewrite puts_lookup, decide_False by lia. apply Hg. lia.
Qed.

Lemma term_start_ok : term_ok term_start.
Proof. apply prompt_ok. intros i r _. apply lookup_empty. Qed.

(** Text and cursor at the end of a line. *)
Lemma zget_line line i : 0 <= i <= 8 + zlen line ->
  zget (SHELL_PROMPT ++ line ++ [95]) i =
    if i <? 8 + zlen line then zget (SHELL_PROMPT ++ line) i else Some 95.
Proof.
  intros Hi. rewrite app_assoc. rewrite zget_app by lia. rewrite zlen_app. change (zlen SHELL_PROMPT) with 8.
  case_ltb; [done|]. replace (i - (8 + zlen line)) with 0 by lia. done.
Qed.

Lemma term_key_ok C R ch t : term_ok t -> term_ok (term_key C R ch t).
Proof.
  intros Hok. pose proof Hok as [Ht Hr Hb]. pose proof (zlen_nonneg (t_line t)). unfold term_key.
  assert (cursor t = 8 + zlen (t_line t)) as Hc by done.
  destruct (ch =? 10); [|destruct (ch =? 8)].
  - assert (empty_from (t_row t + 1) (<[(cursor t, t_row t) := 32]> (t_grid t))) as He
      by (apply insert_empty; intros i r Hlt; apply Hb; lia).
    apply (advance_empty R) in He. destruct (advance R (t_row t) _) as [row g]. simpl in He.
    apply (echo_empty R row (t_line t)) in He. destruct (echo R row _ _) as [row2 g2]. by apply prompt_ok.
  - destruct (t_line t) as [|x line0] eqn:Hl; [done|]. set (line := x :: line0) in *.
    assert (zlen (take (length line - 1) line) = zlen line - 1) as Hl1.
    { unfold line. unfold zlen. rewrite length_take. simpl. lia. }
    assert (1 <= zlen line) by (unfold line; rewrite zlen_cons; pose proof (zlen_nonneg line0); lia).
    split; unfold cursor in *; cbn [t_grid t_row t_line] in *; change (zlen SHELL_PROMPT) with 8 in *;
      change (x :: line0) with line in Hl; rewrite ?Hl in *; rewrite ?Hl1.
    + intros i Hi. rewrite zget_line, Hl1 by lia. case_ltb.
      * rewrite !lookup_insert_ne by (intros [= ?]; lia). rewrite Ht, zget_line by lia. decide_tests.
        rewrite !zget_app by lia. change (zlen SHELL_PROMPT) with 8. case_ltb; [done|].
        replace (length line - 1)%nat with (Z.to_nat (zlen line - 1)) by (unfold zlen; lia). by rewrite zget_take by lia.
      * replace (8 + zlen line - 1) with i by lia. by rewrite lookup_insert_eq.
    + intros i Hi. rewrite lookup_insert_ne by (intros [= ?]; lia).
      destruct (decide (i = 8 + zlen line)) as [->|]; [right; by rewrite lookup_insert_eq|].
      rewrite lookup_insert_ne by (intros [= ?]; lia). apply Hr. lia.
    + intros i r Hlt. rewrite !lookup_insert_ne by (intros [= _ ?]; lia). by apply Hb.
  - destruct ((zlen (t_line t) <? 255) && (cursor t <? C - 1)); [|done].
    split; unfold cursor in *; cbn [t_grid t_row t_line] in *; change (zlen SHELL_PROMPT) with 8 in *;
      rewrite ?zlen_app; change (zlen [ch]) with 1.
    + intros i Hi. rewrite zget_line by (rewrite zlen_app; change (zlen [ch]) with 1; lia).
      rewrite zlen_app. change (zlen [ch]) with 1. case_ltb.
      * rewrite lookup_insert_ne by (intros [= ?]; lia).
        destruct (decide (i = 8 + zlen (t_line t))) as [->|].
        -- rewrite lookup_insert_eq, app_assoc, zget_app by lia. rewrite zlen_app. change (zlen SHELL_PROMPT) with 8.
           decide_tests. by rewrite Z.sub_diag.
        -- rewrite lookup_insert_ne by (intros [= ?]; lia). rewrite Ht, zget_line by lia. decide_tests.
           rewrite app_assoc, (zget_app (SHELL_PROMPT ++ t_line t) [ch]) by lia. rewrite zlen_app. change (zlen SHELL_PROMPT) with 8.
           by decide_tests.
      * replace (8 + zlen (t_line t) + 1) with i by lia. by rewrite lookup_insert_eq.
    + intros i Hi. rewrite !lookup_insert_ne by (intros [= ?]; lia). apply Hr. lia.
    + intros i r Hlt. rewrite !lookup_insert_ne by (intros [= _ ?]; lia). by apply Hb.
Qed.

(** * The editor implements the terminal *)

Section refinement.
Context (f : PsfFont) (fb : Framebuffer) (Hf : font_wf f) (Hh : f_height f <= 16).
Context (Hwide : 96 <= width fb) (Hhigh : 32 <= height fb).
Implicit Types (mem : list Z) (t : Term).

Abbreviation C := (cols fb).
Abbreviation R := (rows fb).
Abbreviation view := (view f fb).

Record refines (s : Shell) t : Prop := {
  rf_buf : zlen (line_buf s) = LINE_MAX;
  rf_len : line_len s = zlen (t_line t);
  rf_line : take (length (t_line t)) (line_buf s) = t_line t;
  rf_row : cur_row s = t_row t;
  rf_col : cur_col s = cursor t;
  rf_rows : 0 <= t_row t < R;
  rf_max : zlen (t_line t) <= 255 /\ cursor t < C;
  rf_chars : Forall (Z.le 0) (t_line t);
}.

Lemma echo_view s t row mem g : refines s t -> view mem g -> 0 <= row < R ->
  returns (shell_echo (Some f) fb s row mem) (fun '(row', mem') =>
    row' = (echo R row (t_line t) g).1 /\ view mem' (echo R row (t_line t) g).2 /\ 0 <= row' < R).
Proof.
  intros [Hb Hlen Hline _ _ _ [_ Hcur] Hch] Hv Hrow. unfold shell_echo, echo. rewrite Hlen.
  destruct (t_line t) as [|x l] eqn:Hl; [by apply returns_ret|].
  assert (cursor t = 8 + zlen (t_line t)) as Hcu by done. rewrite Hl in Hcu. set (line := x :: l) in *.
  assert (0 < zlen line) by (unfold line; rewrite zlen_cons; pose proof (zlen_nonneg l); lia). decide_tests.
  eapply returns_bind; [apply (draw_enumerated_view f fb Hf Hh Hwide Hhigh prefix 0 row mem g Hv)|]; [lia | change (zlen prefix) with 2; lia | exact Hrow | by repeat constructor |].
  intros m1 Hv1.
  eapply returns_bind; [apply (draw_line_view f fb Hf Hh Hwide Hhigh line _ row m1 _ Hv1 Hrow); [lia | exact Hline | exact Hch]|].
  intros m2 Hv2. by apply (next_row_view f fb Hwide Hhigh).
Qed.

Lemma newline_refines s t mem : refines s t -> view mem (t_grid t) ->
  returns (shell_newline (Some f) fb s mem) (fun '(s', mem') =>
    refines s' (term_key C R 10 t) /\ view mem' (t_grid (term_key C R 10 t))).
Proof.
  intros Hr Hv. pose proof (cols_rows fb Hwide Hhigh mem (view_wf _ _ _ _ Hv)) as (HC & _ & HR & _).
  pose proof Hr as [Hb Hlen Hline Hrow Hcol Hrows [Hmax Hcur] Hch]. pose proof (zlen_nonneg (t_line t)).
  assert (cursor t = 8 + zlen (t_line t)) as Hcu by done.
  unfold shell_newline, term_key. rewrite Hcol, Hrow. change (10 =? 10) with true. cbv iota.
  eapply returns_bind; [apply (draw_at_view f fb Hf Hh Hwide Hhigh mem _ (cursor t) (t_row t) 32 Hv); lia|]. intros m1 Hv1.
  eapply returns_bind; [apply (next_row_view f fb Hwide Hhigh _ m1 _ Hv1 Hrows)|]. intros [row m2] (Hr2 & Hv2 & Hrow2).
  destruct (advance R (t_row t) _) as [row' g2]. simpl in Hr2, Hv2. subst row'.
  eapply returns_bind; [apply (echo_view s t row m2 g2 Hr Hv2 Hrow2)|]. intros [row3 m3] (Hr3 & Hv3 & Hrow3).
  destruct (echo R row (t_line t) g2) as [row' g3]. simpl in Hr3, Hv3. subst row'.
  eapply returns_bind; [apply (draw_enumerated_view f fb Hf Hh Hwide Hhigh SHELL_PROMPT 0 row3 m3 g3 Hv3);
    [lia | change (zlen SHELL_PROMPT) with 8; lia | exact Hrow3 | by repeat constructor]|]. intros m4 Hv4.
  eapply returns_bind; [apply (draw_at_view f fb Hf Hh Hwide Hhigh m4 _ (zlen SHELL_PROMPT) row3 95 Hv4);
    change (zlen SHELL_PROMPT) with 8; lia|]. intros m5 Hv5.
  apply returns_ret. rewrite puts_app. split; [|exact Hv5].
  split; cbn [line_buf line_len cur_row cur_col t_grid t_row t_line]; try done.
  change (cursor _) with 8. rewrite zlen_nil. lia.
Qed.

Lemma backspace_refines s t mem : refines s t -> view mem (t_grid t) ->
  returns (shell_backspace (Some f) fb s mem) (fun '(s', mem') =>
    refines s' (term_key C R 8 t) /\ view mem' (t_grid (term_key C R 8 t))).
Proof.
  intros Hr Hv. pose proof Hr as [Hb Hlen Hline Hrow Hcol Hrows [Hmax Hcur] Hch].
  assert (cursor t = 8 + zlen (t_line t)) as Hcu by done.
  unfold shell_backspace, term_key. rewrite Hcol, Hrow, Hlen. change (8 =? 10) with false. change (8 =? 8) with true. cbv iota.
  destruct (t_line t) as [|x l] eqn:Hl; [by apply returns_ret|]. set (line := x :: l) in *.
  assert (0 < zlen line) by (unfold line; rewrite zlen_cons; pose proof (zlen_nonneg l); lia). decide_tests.
  assert (zlen (take (length line - 1) line) = zlen line - 1) as Hl1.
  { unfold zlen in *. rewrite length_take. lia. }
  rewrite !wsub_small by (unfold in_word, LINE_MAX in *; lia).
  eapply returns_bind; [apply (draw_at_view f fb Hf Hh Hwide Hhigh mem _ (cursor t) (t_row t) 32 Hv); lia|]. intros m1 Hv1.
  eapply returns_bind; [apply (draw_at_view f fb Hf Hh Hwide Hhigh m1 _ (cursor t - 1) (t_row t) 95 Hv1); lia|]. intros m2 Hv2.
  apply returns_ret. split; [|exact Hv2].
  split; unfold cursor; cbn [line_buf line_len cur_row cur_col t_grid t_row t_line]; rewrite ?Hl1; try done; try lia.
  - transitivity (take (length line - 1) (take (length line) (line_buf s))); [|by rewrite Hline].
    rewrite take_take. f_equal. rewrite length_take. unfold zlen in *. lia.
  - rewrite Hl. fold line. change (zlen SHELL_PROMPT) with 8. lia.
  - unfold cursor in Hcur. rewrite Hl in Hcur. fold line in Hcur. lia.
  - by apply Forall_take.
Qed.

Lemma insert_refines ch s t mem : refines s t -> view mem (t_grid t) -> 0 <= ch -> ch <> 10 -> ch <> 8 ->
  returns (shell_insert (Some f) fb ch s mem) (fun '(s', mem') =>
    refines s' (term_key C R ch t) /\ view mem' (t_grid (term_key C R ch t))).
Proof.
  intros Hr Hv Hch0 Hn10 Hn8. pose proof Hr as [Hb Hlen Hline Hrow Hcol Hrows [Hmax Hcur] Hch].
  pose proof (cols_rows fb Hwide Hhigh mem (view_wf _ _ _ _ Hv)) as (HC & HCw & _).
  pose proof (screen_small fb Hwide Hhigh mem (view_wf _ _ _ _ Hv)) as [Hw _].
  pose proof (zlen_nonneg (t_line t)). assert (cursor t = 8 + zlen (t_line t)) as Hcu by done.
  unfold shell_insert, term_key. rewrite Hcol, Hrow, Hlen, wsub_small by (unfold in_word; lia). decide_tests.
  change (LINE_MAX - 1) with 255.
  destruct ((zlen (t_line t) <? 255) && (cursor t <? C - 1)) eqn:Hroom; [|by apply returns_ret].
  eapply returns_bind; [apply (draw_at_view f fb Hf Hh Hwide Hhigh mem _ (cursor t) (t_row t) ch Hv); lia|]. intros m1 Hv1.
  rewrite arr_set_ok, bind_ret by (rewrite Hb; unfold LINE_MAX; lia).
  rewrite !wadd_small by (unfold in_word; lia).
  eapply returns_bind; [apply (draw_at_view f fb Hf Hh Hwide Hhigh m1 _ (cursor t + 1) (t_row t) 95 Hv1); lia|]. intros m2 Hv2.
  apply returns_ret. split; [|exact Hv2].
  split; unfold cursor; cbn [line_buf line_len cur_row cur_col t_grid t_row t_line]; rewrite ?zlen_app;
    change (zlen [ch]) with 1; change (zlen SHELL_PROMPT) with 8; try done; try lia.
  - by rewrite zlen_zset.
  - rewrite length_app. simpl. rewrite Nat.add_1_r. unfold zset. decide_tests.
    erewrite take_S_r.
    + rewrite take_insert_ge by (unfold zlen; lia). by rewrite Hline.
    + replace (Z.to_nat (zlen (t_line t))) with (length (t_line t)) by (unfold zlen; lia).
      apply list_lookup_insert_eq. unfold zlen, LINE_MAX in *. lia.
  - apply Forall_app. split; [done|]. by constructor.
Qed.

Lemma key_refines ch s t mem : refines s t -> view mem (t_grid t) -> 0 <= ch ->
  returns (shell_key (Some f) fb ch s mem) (fun '(s', mem') =>
    refines s' (term_key C R ch t) /\ view mem' (t_grid (term_key C R ch t))).
Proof.
  intros Hr Hv Hch. unfold shell_key. destruct (Z.eqb_spec ch 10) as [->|]; [by apply newline_refines|].
  destruct (Z.eqb_spec ch 8) as [->|]; [by apply backspace_refines | by apply insert_refines].
Qed.

Lemma start_refines mem : wf fb mem ->
  returns (shell_start (Some f) fb mem) (fun '(s, mem') => refines s term_start /\ view mem' (t_grid term_start)).
Proof.
  intros Hwf. pose proof (cols_rows fb Hwide Hhigh mem Hwf) as (HC & _ & HR & _). unfold shell_start. cbn [cur_row cur_col].
  eapply returns_bind; [apply (clear_view f fb Hwide Hhigh mem Hwf)|]. intros m1 Hv1.
  eapply returns_bind; [apply (draw_enumerated_view f fb Hf Hh Hwide Hhigh SHELL_PROMPT 0 0 m1 ∅ Hv1);
    [lia | change (zlen SHELL_PROMPT) with 8; lia | lia | by repeat constructor]|]. intros m2 Hv2.
  eapply returns_bind; [apply (draw_at_view f fb Hf Hh Hwide Hhigh m2 _ (zlen SHELL_PROMPT) 0 95 Hv2);
    change (zlen SHELL_PROMPT) with 8; lia|]. intros m3 Hv3.
  apply returns_ret. split; [|exact Hv3]. split; cbn [line_buf line_len cur_row cur_col t_grid t_row t_line term_start];
    try done; try lia. change (cursor _) with 8. rewrite zlen_nil. lia.
Qed.
End refinement.

(** * The task with its keyboard *)

(** The characters the keyboard delivers are bytes. *)
Definition chars_small : bool :=
  forallb (fun code => forallb (fun '(s, c) => 0 <=? code_typed code (mkMods s false false c))
    [(false, false); (false, true); (true, false); (true, true)]) (zseq 0 128).

Lemma code_typed_nonneg code m : 0 <= code < 128 -> 0 <= code_typed code m.
Proof.
  intros Hc. assert (chars_small = true) as Hall by (vm_compute; reflexivity). unfold chars_small in Hall.
  rewrite forallb_forall in Hall. assert (In code (zseq 0 128)) as Hin by (apply list_elem_of_In, elem_of_zseq; lia).
  specialize (Hall code Hin).
  rewrite forallb_forall in Hall. specialize (Hall (SHIFT_HELD m, CAPS_LOCK m)).
  apply Z.leb_le. apply Hall. destruct (SHIFT_HELD m), (CAPS_LOCK m); simpl; tauto.
Qed.

Section system.
Context (f : PsfFont) (fb : Framebuffer) (Hf : font_wf f) (Hh : f_height f <= 16).
Context (Hwide : 96 <= width fb) (Hhigh : 32 <= height fb).

Definition irq_byte (e : event) : Prop := match e with Irq sc => in_word 8 sc | Round => True end.

(** The task and the keyboard implement the abstract keyboard and terminal. *)
Record system (k : Kb) (s : Shell) (mem : list Z) (x : (Mods * list Z) * Term) : Prop := {
  sys_kb : kb_wf (keys k) /\ (mods k, kb_contents (keys k)) = x.1;
  sys_chars : Forall (Z.le 0) x.1.2;
  sys_shell : refines fb s x.2;
  sys_view : view f fb mem (t_grid x.2);
  sys_term : term_ok x.2;
}.

Lemma event_system e k s mem x : irq_byte e -> system k s mem x ->
  returns (shell_event (Some f) fb e k s mem) (fun '(k', s', mem') =>
    system k' s' mem' (a_event (cols fb) (rows fb) e x)).
Proof.
  intros He [[Hwf Hx] Hq Hr Hv Ht]. destruct x as [kb t]. simpl in Hx, Hq, Hr, Hv, Ht. subst kb. destruct e as [sc|].
  - destruct (kb_step_simulates (Scan sc) k He Hwf) as (k' & Hk & Hwf' & Hs). unfold kb_step in Hk. unfold shell_event, a_event.
    apply bind_ret_inv in Hk as (k1 & -> & [= ->]). rewrite bind_ret. apply returns_ret.
    split; [by rewrite <- Hs | | exact Hr | exact Hv | exact Ht].
    simpl in Hq |- *. unfold a_scan. repeat (case_match; try exact Hq). cbn [snd].
    apply Forall_app. split; [exact Hq|]. constructor; [|constructor].
    apply code_typed_nonneg, Z.mod_pos_bound. lia.
  - destruct (kb_step_simulates ReadKey k I Hwf) as (k' & Hk & Hwf' & Hs). unfold kb_step in Hk.
    unfold shell_event, shell_round, a_event. apply bind_ret_inv in Hk as ([r q] & -> & [= Hr' <-]).
    rewrite bind_ret. simpl in Hs, Hr', Hq |- *. rewrite Hr'. destruct (kb_contents (keys k)) as [|ch rest]; simpl in Hs |- *.
    + apply returns_ret. split; [by split; [exact Hwf' | exact Hs] | exact Hq | exact Hr | exact Hv | exact Ht].
    + apply Forall_cons in Hq as [Hch Hq]. destruct (key_refines f fb Hf Hh Hwide Hhigh ch s t mem Hr Hv Hch) as ([s' mem'] & -> & Hr2 & Hv2).
      apply returns_ret. split; [by split; [exact Hwf' | exact Hs] | exact Hq | exact Hr2 | exact Hv2 | by apply term_key_ok].
Qed.

Lemma events_system es : forall k s mem x, Forall irq_byte es -> system k s mem x ->
  returns (shell_events (Some f) fb es k s mem) (fun '(k', s', mem') =>
    system k' s' mem' (fold_left (fun x e => a_event (cols fb) (rows fb) e x) es x)).
Proof.
  induction es as [|e es IH]; intros k s mem x Hb Hs; simpl; [by apply returns_ret|].
  apply Forall_cons in Hb as [He Hb]. eapply returns_bind; [by apply event_system|].
  intros [[k1 s1] m1] Hs1. by apply IH.
Qed.

Lemma task_system es mem : wf fb mem -> Forall irq_byte es ->
  returns (shell_task (Some f) fb es mem) (fun '(k', s', mem') =>
    system k' s' mem' (fold_left (fun x e => a_event (cols fb) (rows fb) e x) es ((mods boot, []), term_start))).
Proof.
  intros Hwf Hb. unfold shell_task.
  eapply returns_bind; [apply (start_refines f fb Hf Hh Hwide Hhigh mem Hwf)|]. intros [s m1] [Hr Hv].
  apply events_system; [exact Hb|]. destruct boot_keys_wf as [Hk Hnil].
  split; cbn [fst snd]; [split; [exact Hk | by rewrite Hnil] | constructor | exact Hr | exact Hv | exact term_start_ok].
Qed.
End system.

(** C23: The shell is a correct line editor.  From boot, under any interleaving of keyboard
    interrupts and rounds of its loop, the task never crashes: no store leaves the frame
    buffer, no access leaves the line buffer.  The keyboard and the screen are those of the
    abstract machine: every character typed is handled in order, printable ones are appended
    while the line has fewer than 255 characters and fits the row, backspace removes the last,
    newline shows the entered line again and starts a new row, on a cleared screen after the
    last one.  At all times the current row reads prompt, line, cursor; nothing but blanks
    follows, and the rows below are empty. *)
Theorem shell_shows_terminal (f : PsfFont) (fb : Framebuffer) (mem : list Z) (es : list event)
    (Hf : font_wf f) (Hh : f_height f <= 16) (Hwide : 96 <= width fb) (Hhigh : 32 <= height fb)
    (Hwf : wf fb mem) (Hes : Forall irq_byte es) :
  exists k s mem', shell_task (Some f) fb es mem = Ret (k, s, mem') /\
    let '(kb, t) := fold_left (fun x e => a_event (cols fb) (rows fb) e x) es ((mods boot, []), term_start) in
    (mods k, kb_contents (keys k)) = kb /\
    take (Z.to_nat (line_len s)) (line_buf s) = t_line t /\
    view f fb mem' (t_grid t) /\ term_ok t.
Proof.
  destruct (task_system f fb Hf Hh Hwide Hhigh es mem Hwf Hes) as ([[k s] mem'] & -> & [[_ Hkb] _ Hr Hv Ht]).
  exists k, s, mem'. split; [reflexivity|].
  destruct (fold_left _ es _) as [kb t]. simpl in *. split; [exact Hkb|].
  split; [|split; [exact Hv | exact Ht]]. rewrite (rf_len _ _ _ Hr).
  replace (Z.to_nat (zlen (t_line t))) with (length (t_line t)) by (unfold zlen; lia). exact (rf_line _ _ _ Hr).
Qed.

(** A screen of 12 by 1 cells; H, I, backspace. *)
Definition demo_screen : Framebuffer := mkFramebuffer 112 32 336 3.
Definition demo_pixels : list Z := replicate (Z.to_nat 10752) 0.
Definition demo_events : list event := [Irq 0x23; Irq 0xA3; Round; Irq 0x17; Round; Irq 0x0E; Round; Round].

Lemma demo_screen_wf : wf demo_screen demo_pixels.
Proof. split; unfold demo_pixels; rewrite ?zlen_replicate; simpl; lia. Qed.

Lemma shell_shows_terminal_witness : exists f k s mem', Psf.parse Psf.demo_font = Ret (Some f) /\
  shell_task (Some f) demo_screen demo_events demo_pixels = Ret (k, s, mem') /\
  take (Z.to_nat (line_len s)) (line_buf s) = [104].
Proof.
  destruct Psf.demo_parse as (f & Hp & Hf & Hh). exists f.
  destruct (shell_shows_terminal f demo_screen demo_pixels demo_events) as (k & s & mem' & He & Hres);
    [exact Hf | lia | simpl; lia | simpl; lia | exact demo_screen_wf | repeat constructor; simpl; lia |].
  exists k, s, mem'. split; [exact Hp|]. split; [exact He|].
  assert (t_line (fold_left (fun x e => a_event (cols demo_screen) (rows demo_screen) e x) demo_events
    ((mods boot, []), term_start)).2 = [104]) as Ht by (vm_compute; reflexivity).
  destruct (fold_left _ _ _) as [kb t]. destruct Hres as (_ & Hl & _). rewrite Hl. exact Ht.
Defined.
