(* ===== verification/Cpu.v ===== *)
(** Processor instructions, [src/kern/arch/x86_64/cpu.rs] without the port
    instructions of [Port], and [sse.rs], which switches the vector units on.
    The processor is a type [C] with the instructions as operations and, in
    the laws, their documented effect. *)
From S2P Require Import Prelude Word.

Class Processor (C : Type) := {
  (** [eax], [edx] *)
  insn_rdmsr : Z -> C -> Z * Z * C;
  insn_wrmsr : Z -> Z -> Z -> C -> C;
  (** [eax], [ebx], [ecx], [edx] for a leaf and a subleaf *)
  insn_cpuid : Z -> Z -> C -> Z * Z * Z * Z;
  rflags : C -> Z;
  insn_cli : C -> C;
  insn_sti : C -> C;
  cr0 : C -> Z;
  set_cr0 : Z -> C -> C;
  cr4 : C -> Z;
  set_cr4 : Z -> C -> C;
  (** [ecx], [eax], [edx]; can fault *)
  insn_xsetbv : Z -> Z -> Z -> C -> outcome C;
}.

Section code.
Context {C : Type} `{Processor C}.
Implicit Types (c : C).

Definition rdmsr (msr : Z) c : Z * C :=
  let '(lo, hi, c) := insn_rdmsr msr c in (Z.lor (wshl 64 hi 32) lo, c).

Definition wrmsr (msr val : Z) c : C :=
  let lo := wrap 32 val in
  let hi := wrap 32 (wshr 64 val 32) in
  insn_wrmsr msr lo hi c.

(** [pushfq; pop; cli] *)
Definition save_irq c : Z * C := (rflags c, insn_cli c).

Definition restore_irq (flags : Z) c : C :=
  if negb (Z.land flags 0x200 =? 0) then insn_sti c else c.

Definition cpuid (leaf : Z) c : Z * Z * Z * Z := insn_cpuid leaf 0 c.

Definition cpu_vendor c : list Z :=
  let '(_, ebx, ecx, edx) := cpuid 0 c in
  to_le 4 ebx ++ to_le 4 edx ++ to_le 4 ecx.

Definition has_feature_sse c : bool :=
  let '(_, _, _, edx) := cpuid 1 c in negb (Z.land edx (2 ^ 25) =? 0).

Definition has_feature_sse2 c : bool :=
  let '(_, _, _, edx) := cpuid 1 c in negb (Z.land edx (2 ^ 26) =? 0).

Definition has_feature_sse3 c : bool :=
  let '(_, _, ecx, _) := cpuid 1 c in negb (Z.land ecx (2 ^ 0) =? 0).

Definition has_feature_sse41 c : bool :=
  let '(_, _, ecx, _) := cpuid 1 c in negb (Z.land ecx (2 ^ 19) =? 0).

Definition has_feature_sse42 c : bool :=
  let '(_, _, ecx, _) := cpuid 1 c in negb (Z.land ecx (2 ^ 20) =? 0).

Definition has_feature_avx c : bool :=
  let '(_, _, ecx, _) := cpuid 1 c in negb (Z.land ecx (2 ^ 28) =? 0).

Definition has_tsc c : bool :=
  let '(_, _, _, edx) := cpuid 1 c in negb (Z.land edx (2 ^ 4) =? 0).

Definition has_invariant_tsc c : bool :=
  let '(max, _, _, _) := cpuid 0x80000000 c in
  if max <? 0x80000007 then false
  else let '(_, _, _, edx) := cpuid 0x80000007 c in negb (Z.land edx (2 ^ 8) =? 0).

Definition lapic_id c : Z :=
  let '(_, ebx, _, _) := cpuid 1 c in wshr 32 ebx 24.

(** [sse::init] *)
Definition sse_init c : outcome C :=
  if negb (has_feature_sse c) then Ret c
  else
    let cr0 := cr0 c in
    let cr0 := Z.land cr0 (wnot 64 (2 ^ 2)) in
    let cr0 := Z.lor cr0 (2 ^ 1) in
    let c := set_cr0 cr0 c in
    let cr4 := cr4 c in
    let cr4 := Z.lor cr4 (2 ^ 9) in
    let cr4 := Z.lor cr4 (2 ^ 10) in
    let cr4 := if has_feature_avx c then Z.lor cr4 (2 ^ 18) else cr4 in
    let c := set_cr4 cr4 c in
    if has_feature_avx c then
      let xcr0 := 0x7 in
      let lo := wrap 32 xcr0 in
      let hi := wrap 32 (wshr 64 xcr0 32) in
      insn_xsetbv 0 lo hi c
    else Ret c.
End code.

(** * Documented behaviour *)

(** Registers hold what is written, writes do not interfere, and the feature bits of leaf 1 that
    are tested here do not depend on the control registers.  [xsetbv] needs [CR4.OSXSAVE], an
    existing register and the x87 bit. *)
Class ProcessorLaws (C : Type) `{Processor C} := {
  msr : Z -> C -> Z;
  xcr0 : C -> Z;
  rdmsr_law i c : exists lo hi, insn_rdmsr i c = (lo, hi, c) /\ in_word 32 lo /\ in_word 32 hi /\
    msr i c = hi * 2 ^ 32 + lo;
  wrmsr_law i lo hi c : in_word 32 lo -> in_word 32 hi -> msr i (insn_wrmsr i lo hi c) = hi * 2 ^ 32 + lo;
  cr0_set v c : cr0 (set_cr0 v c) = v /\ cr4 (set_cr0 v c) = cr4 c /\ xcr0 (set_cr0 v c) = xcr0 c;
  cr4_set v c : cr4 (set_cr4 v c) = v /\ cr0 (set_cr4 v c) = cr0 c /\ xcr0 (set_cr4 v c) = xcr0 c;
  features_set0 v c : has_feature_sse (set_cr0 v c) = has_feature_sse c /\ has_feature_avx (set_cr0 v c) = has_feature_avx c;
  features_set4 v c : has_feature_sse (set_cr4 v c) = has_feature_sse c /\ has_feature_avx (set_cr4 v c) = has_feature_avx c;
  xsetbv_law lo hi c : Z.testbit (cr4 c) 18 = true -> Z.testbit lo 0 = true -> in_word 32 lo -> in_word 32 hi ->
    returns (insn_xsetbv 0 lo hi c) (fun c' => xcr0 c' = hi * 2 ^ 32 + lo /\ cr0 c' = cr0 c /\ cr4 c' = cr4 c);
  cli_law c : Z.testbit (rflags (insn_cli c)) 9 = false;
  sti_law c : Z.testbit (rflags (insn_sti c)) 9 = true;
}.

Section facts.
Context {C : Type} `{ProcessorLaws C}.
Implicit Types (c : C).

Lemma rdmsr_value i c : rdmsr i c = (msr i c, c).
Proof.
  unfold rdmsr. destruct (rdmsr_law i c) as (lo & hi & -> & Hlo & Hhi & ->). f_equal.
  rewrite wshl_small, Z.lor_comm, (lor_shifted 32) by (done || unfold in_word in *; lia). lia.
Qed.

(** ** Critical sections *)

(** The interrupt flag. *)
Definition irq_on c : bool := Z.testbit (rflags c) 9.

(** Code between a [save_irq] and the matching [restore_irq]. *)
Definition critical (body : C -> C) c : C :=
  let '(flags, c) := save_irq c in restore_irq flags (body c).

Lemma critical_restores body c : irq_on (body (insn_cli c)) = false -> irq_on (critical body c) = irq_on c.
Proof.
  intros Hb. unfold critical, save_irq, restore_irq. change 0x200 with (2 ^ 9). rewrite land_bit by lia.
  fold (irq_on c). destruct (irq_on c); [apply sti_law | exact Hb].
Qed.

(** Sections nested to any depth. *)
Fixpoint nested (n : nat) (body : C -> C) : C -> C :=
  match n with O => body | S n => critical (nested n body) end.

Lemma nested_off n body c : (forall c, irq_on c = false -> irq_on (body c) = false) ->
  irq_on c = false -> irq_on (nested n body c) = false.
Proof.
  intros Hb. revert c. induction n as [|n IH]; intros c Hc; simpl; [by apply Hb|].
  rewrite critical_restores; [done|]. apply IH, cli_law.
Qed.

(** Sections nest: after [n + 1] of them, one inside the other around code that does not enable
    interrupts itself, interrupts are on exactly when they were on before; inside they are off. *)
Theorem irq_sections_nest n body c (Hb : forall c, irq_on c = false -> irq_on (body c) = false) :
  irq_on (nested (S n) body c) = irq_on c /\ irq_on (insn_cli c) = false.
Proof.
  split; [|apply cli_law]. simpl. apply critical_restores. apply nested_off; [exact Hb | apply cli_law].
Qed.

(** ** Registers and features *)

(** A model-specific register reads back what was written. *)
Theorem msr_roundtrip i v c : in_word 64 v -> rdmsr i (wrmsr i v c) = (v, wrmsr i v c).
Proof.
  intros Hv. rewrite rdmsr_value. f_equal. unfold wrmsr. unfold in_word in Hv.
  rewrite wrmsr_law by (apply wrap_in_word; lia). rewrite wshr_div by lia. unfold wrap.
  rewrite (Z.mod_small (v / 2 ^ 32)) by (Z.to_euclidean_division_equations; lia).
  rewrite Z.mul_comm. symmetry. by apply Z.div_mod.
Qed.

(** What [init] of the vector units leaves in the control registers. *)
Record sse_ready c c' : Prop := {
  sr_cr0 i : 0 <= i < 64 -> Z.testbit (cr0 c') i = if i =? 2 then false else if i =? 1 then true else Z.testbit (cr0 c) i;
  sr_cr4 i : 0 <= i < 64 -> Z.testbit (cr4 c') i =
    if (i =? 9) || (i =? 10) || ((i =? 18) && has_feature_avx c) then true else Z.testbit (cr4 c) i;
  sr_xcr0 : xcr0 c' = if has_feature_avx c then 7 else xcr0 c;
}.

Lemma sse_init_runs c : exists c', sse_init c = Ret c' /\
  if has_feature_sse c then sse_ready c c' else c' = c.
Proof.
  unfold sse_init. destruct (has_feature_sse c); cbn [negb]; [|by exists c].
  set (v0 := Z.lor _ (2 ^ 1)). destruct (cr0_set v0 c) as (A1 & A2 & A3). destruct (features_set0 v0 c) as [_ A4].
  rewrite A2, A4. set (v4 := if has_feature_avx c then _ else _).
  destruct (cr4_set v4 (set_cr0 v0 c)) as (B1 & B2 & B3). destruct (features_set4 v4 (set_cr0 v0 c)) as [_ B4].
  rewrite B4, A4.
  assert (forall i, 0 <= i < 64 -> Z.testbit v0 i = if i =? 2 then false else if i =? 1 then true else Z.testbit (cr0 c) i) as T0.
  { intros i Hi. unfold v0. rewrite Z.lor_spec, Z.land_spec. unfold wnot. rewrite Z.land_spec, Z.lnot_spec by lia.
    rewrite !Z.pow2_bits_eqb, (Z.eqb_sym 2), (Z.eqb_sym 1) by lia.
    destruct (Z.eqb_spec i 2) as [->|]; [by rewrite andb_false_r|]. destruct (Z.eqb_spec i 1) as [->|]; [by rewrite orb_true_r|].
    rewrite orb_false_r. cbn [negb andb]. rewrite Z.ones_spec_low by lia. by rewrite andb_true_r. }
  assert (forall i, 0 <= i < 64 -> Z.testbit v4 i =
    if (i =? 9) || (i =? 10) || ((i =? 18) && has_feature_avx c) then true else Z.testbit (cr4 c) i) as T4.
  { intros i Hi. unfold v4. destruct (has_feature_avx c); rewrite !Z.lor_spec, !Z.pow2_bits_eqb by lia;
      rewrite (Z.eqb_sym 9), (Z.eqb_sym 10), ?(Z.eqb_sym 18), ?andb_true_r, ?andb_false_r, ?orb_false_r;
      destruct (Z.testbit (cr4 c) i), (i =? 9), (i =? 10), (i =? 18); done. }
  destruct (has_feature_avx c) eqn:Havx.
  - destruct (xsetbv_law (wrap 32 7) (wrap 32 (wshr 64 7 32)) (set_cr4 v4 (set_cr0 v0 c))) as (c' & Hc' & X1 & X2 & X3);
      [by rewrite B1, T4 by lia | done | by apply wrap_in_word..|].
    exists c'. split; [exact Hc'|]. split; [intros i Hi; rewrite X2, B2, A1; by apply T0 | intros i Hi; rewrite X3, B1, Havx; by apply T4 | by rewrite X1, Havx].
  - eexists. split; [reflexivity|]. split; [intros i Hi; rewrite B2, A1; by apply T0 | intros i Hi; rewrite B1, Havx; by apply T4 | by rewrite B3, A3, Havx].
Qed.

(** The vector units are switched on exactly as the processor has them.  Without SSE
    nothing changes.  With it, emulation is off and coprocessor monitoring on, the operating
    system's support for [fxsave] and SIMD exceptions is announced, and with AVX also [xsave], with
    the x87, SSE and AVX states enabled; every other control bit is as before.  The privileged
    [xsetbv] is reached only after [CR4.OSXSAVE] is set, so the routine does not fault. *)
Theorem sse_init_ready c : exists c', sse_init c = Ret c' /\
  if has_feature_sse c then sse_ready c c' else c' = c.
Proof. apply sse_init_runs. Qed.

(** The vendor string: the three registers in the order [ebx], [edx], [ecx], each little-endian. *)
Theorem cpu_vendor_bytes c name : bytes_ok name -> length name = 12%nat ->
  (let '(_, ebx, ecx, edx) := cpuid 0 c in
   ebx = from_le (take 4 name) /\ edx = from_le (take 4 (drop 4 name)) /\ ecx = from_le (drop 8 name)) ->
  cpu_vendor c = name.
Proof.
  intros Hb Hl. unfold cpu_vendor. destruct (cpuid 0 c) as [[[eax ebx] ecx] edx]. intros (-> & -> & ->).
  assert (forall n l, bytes_ok l -> length l = n -> to_le n (from_le l) = l) as Hle
    by (intros n l Hl' <-; by apply to_le_from_le).
  rewrite !Hle; [| by apply Forall_drop | rewrite length_drop; lia | by apply Forall_take, Forall_drop
    | rewrite length_take, length_drop; lia | by apply Forall_take | rewrite length_take; lia].
  change (drop 8 name) with (drop (4 + 4) name). by rewrite <- drop_drop, take_drop, take_drop.
Qed.
End facts.

(** * A processor *)

Record DemoCpu := mkDemo { d_msr : Z -> Z; d_flags : Z; d_cr0 : Z; d_cr4 : Z; d_xcr0 : Z }.

(** SSE, AVX and the time stamp counter are present; the vendor "GenuineIntel". *)
#[export] Instance demo_processor : Processor DemoCpu := {|
  insn_rdmsr i c := (wrap 32 (d_msr c i), wrap 32 (d_msr c i / 2 ^ 32), c);
  insn_wrmsr i lo hi c := mkDemo (fun j => if j =? i then hi * 2 ^ 32 + lo else d_msr c j)
    (d_flags c) (d_cr0 c) (d_cr4 c) (d_xcr0 c);
  insn_cpuid leaf _ c :=
    if leaf =? 0 then (1, 0x756E6547, 0x6C65746E, 0x49656E69)
    else if leaf =? 1 then (0, 0, 2 ^ 28, 2 ^ 25 + 2 ^ 4) else (0, 0, 0, 0);
  rflags := d_flags;
  insn_cli c := mkDemo (d_msr c) (Z.land (d_flags c) (Z.lnot (2 ^ 9))) (d_cr0 c) (d_cr4 c) (d_xcr0 c);
  insn_sti c := mkDemo (d_msr c) (Z.lor (d_flags c) (2 ^ 9)) (d_cr0 c) (d_cr4 c) (d_xcr0 c);
  cr0 := d_cr0;
  set_cr0 v c := mkDemo (d_msr c) (d_flags c) v (d_cr4 c) (d_xcr0 c);
  cr4 := d_cr4;
  set_cr4 v c := mkDemo (d_msr c) (d_flags c) (d_cr0 c) v (d_xcr0 c);
  insn_xsetbv _ lo hi c :=
    if Z.testbit (d_cr4 c) 18 then Ret (mkDemo (d_msr c) (d_flags c) (d_cr0 c) (d_cr4 c) (hi * 2 ^ 32 + lo))
    else Crash UndefinedBehaviour |}.

#[export] Program Instance demo_laws : ProcessorLaws DemoCpu := {|
  msr i c := d_msr c i mod 2 ^ 64;
  xcr0 := d_xcr0 |}.
Next Obligation.
  intros i c. eexists _, _. split; [reflexivity|]. split; [by apply wrap_in_word|]. split; [by apply wrap_in_word|].
  unfold wrap. Z.to_euclidean_division_equations. lia.
Qed.
Next Obligation.
  intros i lo hi c Hlo Hhi. simpl. rewrite Z.eqb_refl. unfold in_word in *. apply Z.mod_small. lia.
Qed.
Next Obligation. done. Qed.
Next Obligation. done. Qed.
Next Obligation. done. Qed.
Next Obligation. done. Qed.
Next Obligation. intros lo hi c Hx _ _ _. simpl in *. rewrite Hx. by apply returns_ret. Qed.
Next Obligation. intros c. cbn [rflags insn_cli demo_processor d_flags]. rewrite Z.land_spec. apply andb_false_r. Qed.
Next Obligation. intros c. cbn [rflags insn_sti demo_processor d_flags]. rewrite Z.lor_spec. apply orb_true_r. Qed.

Definition demo_cpu : DemoCpu := mkDemo (fun _ => 0) 0x202 0x80000015 0x20 1.

Lemma irq_sections_nest_witness : irq_on (nested 3 (fun c => c) demo_cpu) = true.
Proof. destruct (irq_sections_nest 2 (fun c => c) demo_cpu) as [Hn _]; [by intros c|]. exact Hn. Defined.

Lemma msr_roundtrip_witness : (rdmsr 0x1B (wrmsr 0x1B 0xFEE00900 demo_cpu)).1 = 0xFEE00900.
Proof. rewrite (msr_roundtrip 0x1B 0xFEE00900 demo_cpu); [reflexivity | by split]. Defined.

Lemma sse_init_ready_witness : exists c', sse_init demo_cpu = Ret c' /\ xcr0 c' = 7 /\ Z.testbit (cr0 c') 2 = false.
Proof.
  destruct (sse_init_ready demo_cpu) as (c' & Hc & Hr). exists c'. split; [exact Hc|].
  change (has_feature_sse demo_cpu) with true in Hr. destruct Hr as [H0 _ Hx]. split; [exact Hx|].
  exact (H0 2 ltac:(lia)).
Defined.

Lemma cpu_vendor_bytes_witness :
  cpu_vendor demo_cpu = [71; 101; 110; 117; 105; 110; 101; 73; 110; 116; 101; 108].
Proof. apply cpu_vendor_bytes; [apply bytes_ok_check; reflexivity | reflexivity | by split]. Defined.
