(* ===== verification/Tsc.v ===== *)
(** The time stamp counter, [src/kern/arch/x86_64/tsc.rs]: calibration against
    the interval timer and the conversions.  The timer is a port device; what
    the calibration relies on, two clocks of fixed rates and operations that
    take a bounded time, is stated in [PitClock]. *)
From S2P Require Import Prelude Word Port.

(** [rdtsc] and [rdtscp]: [eax], [edx], and [ecx] for the latter. *)
Class TscInsn (D : Type) := {
  insn_rdtsc : D -> Z * Z * D;
  insn_rdtscp : D -> Z * Z * Z * D;
}.

Section code.
Context {D : Type} `{PortDevice D, TscInsn D}.
Implicit Types (d : D).

Definition rdtsc d : Z * D := let '(lo, hi, d) := insn_rdtsc d in (Z.lor (wshl 64 hi 32) lo, d).

Definition rdtscp d : Z * Z * D :=
  let '(lo, hi, aux, d) := insn_rdtscp d in (Z.lor (wshl 64 hi 32) lo, aux, d).

Definition pit_freq : Z := 1193182.
Definition target_ms : Z := 10.
Definition pit_count : Z := wrap 16 (pit_freq ⊠ target_ms / 1000).

(** The loop: latch and read the counter until it has passed zero. *)
Fixpoint wait_zero (fuel : nat) d : outcome D :=
  match fuel with
  | O => Crash OutOfFuel
  | S fuel =>
      let d := outb 0x43 0x00 d in
      let '(lo, d) := inb 0x40 d in
      let '(hi, d) := inb 0x40 d in
      let current := Z.lor (wshl 16 hi 8) lo in
      if (current =? 0) || (pit_count <? current) then Ret d else wait_zero fuel d
  end.

(** The value stored in [TSC_FREQ_KHZ]. *)
Definition calibrate (fuel : nat) d : outcome (Z * D) :=
  let d := outb 0x43 0x30 d in
  let d := outb 0x40 (wrap 8 (Z.land pit_count 0xFF)) d in
  let d := outb 0x40 (wrap 8 (wshr 16 pit_count 8)) d in
  let '(start, d) := rdtsc d in
  d ← wait_zero fuel d;
  let '(end_, d) := rdtsc d in
  let ticks := end_ ⊟ start in
  let freq_khz := ticks / target_ms in
  Ret (freq_khz, d).
End code.

(** The functions that read [TSC_FREQ_KHZ], here an argument. *)
Definition freq_khz (TSC_FREQ_KHZ : Z) : Z := TSC_FREQ_KHZ.
Definition freq_mhz (TSC_FREQ_KHZ : Z) : Z := freq_khz TSC_FREQ_KHZ / 1000.

Definition ticks_to_ns (TSC_FREQ_KHZ ticks : Z) : Z :=
  let freq := freq_khz TSC_FREQ_KHZ in
  if freq =? 0 then 0 else (ticks ⊠ 1000000) / freq.

Definition ticks_to_us (TSC_FREQ_KHZ ticks : Z) : Z :=
  let freq := freq_khz TSC_FREQ_KHZ in
  if freq =? 0 then 0 else (ticks ⊠ 1000) / freq.

Definition uptime_ms {D} `{TscInsn D} (TSC_FREQ_KHZ : Z) (d : D) : Z * D :=
  let freq := freq_khz TSC_FREQ_KHZ in
  if freq =? 0 then (0, d) else let '(t, d) := rdtsc d in (t / freq, d).

(** * The two clocks *)

(** The time stamp counter runs at [F] Hz, the interval timer at 1193182 Hz with some phase.
    [clock d] is the value of the former; an operation never takes longer than [delta] ticks of
    the timer.  In mode 0 the counter runs down from the loaded count, through 0 and on from
    0xFFFF; a latch command freezes one of its values for the two reads that follow. *)
Class PitClock (D : Type) `{PortDevice D, TscInsn D} (F phase delta : Z) := {
  clock : D -> Z;
  (** the timer counts down from [n] since its tick [a] *)
  counting : Z -> Z -> D -> Prop;
  pit d := (clock d * pit_freq + phase) / F;
  clock_pos n a d : counting n a d -> 0 <= clock d;
  arm_law lo hi d : 0 <= clock d -> in_word 8 lo -> in_word 8 hi ->
    let d' := outb 0x40 hi (outb 0x40 lo (outb 0x43 0x30 d)) in
    exists a, counting (256 * hi + lo) a d' /\ a <= pit d' <= a + delta;
  latch_law n a d : counting n a d ->
    let '(lo, d1) := inb 0x40 (outb 0x43 0x00 d) in
    let '(hi, d2) := inb 0x40 d1 in
    counting n a d2 /\ clock d < clock d2 /\ pit d2 <= pit d + delta /\
    exists p, pit d <= p <= pit d2 /\ 256 * hi + lo = (n - (p - a)) mod 2 ^ 16;
  tsc_law n a d : counting n a d ->
    let '(lo, hi, d') := insn_rdtsc d in
    counting n a d' /\ in_word 32 lo /\ in_word 32 hi /\ pit d' <= pit d + delta /\
    exists t, clock d <= t <= clock d' /\ hi * 2 ^ 32 + lo = t mod 2 ^ 64;
}.

Section calibration.
Context {D : Type} (F phase delta : Z) `{PitClock D F phase delta}.
Context (HF : 0 < F) (Hphase : 0 <= phase) (Hdelta : 0 <= delta <= 10000).
Implicit Types (d : D).

Lemma pit_count_val : pit_count = 11931.
Proof. reflexivity. Qed.

Lemma rdtsc_spec n a d : counting n a d ->
  let '(x, d') := rdtsc d in
  counting n a d' /\ pit d' <= pit d + delta /\ exists t, clock d <= t <= clock d' /\ x = t mod 2 ^ 64.
Proof.
  intros Hc. pose proof (tsc_law n a d Hc) as Hl. unfold rdtsc. destruct (insn_rdtsc d) as [[lo hi] d'].
  destruct Hl as (Hc' & Hlo & Hhi & Hp & t & Ht & Hx).
  rewrite wshl_small, Z.lor_comm, (lor_shifted 32) by (done || unfold in_word in *; lia).
  split; [exact Hc'|]. split; [exact Hp|]. exists t. split; [exact Ht | lia].
Qed.

(** The timer's tick is monotone in the clock. *)
Lemma pit_mono t1 t2 : t1 <= t2 -> (t1 * pit_freq + phase) / F <= (t2 * pit_freq + phase) / F.
Proof. intros Ht. apply Z.div_le_mono; unfold pit_freq; lia. Qed.

(** The loop ends, soon after the counter has passed zero.  Until then the timer is at most
    [delta] past the tick before. *)
Lemma wait_zero_spec fuel : forall a d, counting pit_count a d -> a <= pit d -> pit d <= a + 11930 + delta ->
  F * (11932 + delta + a) - clock d < Z.of_nat fuel ->
  returns (wait_zero fuel d) (fun d' => counting pit_count a d' /\ clock d <= clock d' /\
    a + 11931 <= pit d' <= a + 11930 + 2 * delta).
Proof.
  induction fuel as [|fuel IH]; intros a d Hc Ha Hlate Hfuel.
  { exfalso. pose proof (clock_pos _ _ d Hc). unfold pit in Hlate.
    assert (clock d * pit_freq + phase < F * (a + 11931 + delta)).
    { assert ((clock d * pit_freq + phase) / F < a + 11931 + delta) by lia.
      pose proof (Z.mul_succ_div_gt (clock d * pit_freq + phase) F HF). nia. }
    unfold pit_freq in *. nia. }
  simpl. pose proof (latch_law pit_count a d Hc) as Hl.
  pose proof (inb_byte 0x40 (outb 0x43 0x00 d)) as Blo.
  destruct (inb 0x40 (outb 0x43 0x00 d)) as [lo d1] eqn:E1. cbn [fst] in Blo.
  pose proof (inb_byte 0x40 d1) as Bhi.
  destruct (inb 0x40 d1) as [hi d2] eqn:E2. cbn [fst] in Bhi.
  destruct Hl as (Hc2 & Hclk & Hp2 & p & Hp & Hval).
  assert (Z.lor (wshl 16 hi 8) lo = 256 * hi + lo) as ->.
  { unfold in_word in *. change (2 ^ 8) with 256 in *. rewrite wshl_small by (unfold in_word; lia).
    rewrite Z.lor_comm, (lor_shifted 8) by (done || unfold in_word; lia). lia. }
  rewrite Hval, pit_count_val in *. change (2 ^ 16) with 65536 in *.
  destruct (Z.le_gt_cases (a + 11931) p) as [Hpast|Hbefore].
  - replace (((11931 - (p - a)) mod 65536 =? 0) || (11931 <? (11931 - (p - a)) mod 65536)) with true.
    + apply returns_ret. split; [exact Hc2|]. split; [lia|]. lia.
    + symmetry. apply orb_true_iff. rewrite Z.eqb_eq, Z.ltb_lt. destruct (decide (p = a + 11931)) as [->|]; [left|right].
      * by replace (11931 - (a + 11931 - a)) with 0 by lia.
      * rewrite <- (Z.mod_add _ 1) by lia. rewrite Z.mod_small; lia.
  - rewrite Z.mod_small by lia. decide_tests. cbn [orb].
    eapply returns_mono; [apply (IH a d2 Hc2); lia|].
    intros d' (Hc' & Hclk' & Hp'). split; [exact Hc'|]. split; [lia | exact Hp'].
Qed.

Lemma wait_zero_more n m d d' : (n <= m)%nat -> wait_zero n d = Ret d' -> wait_zero m d = Ret d'.
Proof.
  revert m d. induction n as [|n IH]; intros m d Hm Hn; [discriminate Hn|].
  destruct m as [|m]; [lia|]. simpl in *. destruct (inb _ _) as [lo d1]. destruct (inb _ d1) as [hi d2].
  destruct (_ || _); [exact Hn|]. apply IH; [lia | exact Hn].
Qed.

(** Elapsed counter ticks bound elapsed timer ticks. *)
Lemma elapsed_bounds t1 t2 a lo hi lam : a <= (t1 * pit_freq + phase) / F <= a + lam ->
  a + lo <= (t2 * pit_freq + phase) / F <= a + hi ->
  F * (lo - lam - 1) < (t2 - t1) * pit_freq < F * (hi + 1).
Proof.
  intros B1 B2. pose proof (Z.mul_succ_div_gt (t1 * pit_freq + phase) F HF).
  pose proof (Z.mul_div_le (t1 * pit_freq + phase) F HF). pose proof (Z.mul_succ_div_gt (t2 * pit_freq + phase) F HF).
  pose proof (Z.mul_div_le (t2 * pit_freq + phase) F HF).
  set (q1 := _ / F) in *. set (q2 := _ / F) in *. nia.
Qed.

Lemma calibrate_runs (HF2 : F < 2 ^ 48) d (Hclock : 0 <= clock d) :
  exists n f d', (forall fuel, (n <= fuel)%nat -> calibrate fuel d = Ret (f, d')) /\ in_word 64 f /\
    11931820 * f < F * (11931 + 3 * delta) /\ F * (11930 - 2 * delta) < 11931820 * (f + 1).
Proof.
  destruct (arm_law (wrap 8 (Z.land pit_count 0xFF)) (wrap 8 (wshr 16 pit_count 8)) d) as (a & Hc0 & Hp0);
    [exact Hclock | by apply wrap_in_word..|].
  change (256 * wrap 8 (wshr 16 pit_count 8) + wrap 8 (Z.land pit_count 0xFF)) with pit_count in Hc0.
  set (d1 := outb 0x40 _ (outb 0x40 _ (outb 0x43 0x30 d))) in *.
  pose proof (rdtsc_spec pit_count a d1 Hc0) as Hstart. destruct (rdtsc d1) as [start d2] eqn:E1.
  destruct Hstart as (Hc2 & Hp2 & ts & Hts & ->).
  assert (pit d1 <= pit d2) as Hm12 by (apply pit_mono; lia).
  set (n := Z.to_nat (F * (11932 + delta + a) - clock d2 + 1)).
  destruct (wait_zero_spec n a d2 Hc2) as (d3 & Hw & Hc3 & Hclk3 & Hp3); [lia | lia | unfold n; lia |].
  pose proof (rdtsc_spec pit_count a d3 Hc3) as Hend. destruct (rdtsc d3) as [end_ d4] eqn:E2.
  destruct Hend as (Hc4 & Hp4 & te & Hte & ->).
  exists n, ((te - ts) / 10), d4.
  assert (pit d1 <= (ts * pit_freq + phase) / F <= pit d2) as Hs by (split; apply pit_mono; lia).
  assert (pit d3 <= (te * pit_freq + phase) / F <= pit d4) as He by (split; apply pit_mono; lia).
  destruct (elapsed_bounds ts te a 11931 (11930 + 3 * delta) (2 * delta)) as [Hlo Hhi]; [lia | lia |].
  assert (0 <= te - ts < 2 ^ 64) as Hticks by (split; [lia | unfold pit_freq in *; nia]).
  split; [|split].
  - intros fuel Hfuel. unfold calibrate. fold d1. rewrite E1, (wait_zero_more n fuel d2 d3 Hfuel Hw), bind_ret, E2.
    unfold wsub, wrap. rewrite <- Zminus_mod, (Z.mod_small (te - ts)) by lia. reflexivity.
  - unfold in_word. Z.to_euclidean_division_equations. lia.
  - unfold pit_freq in *. Z.to_euclidean_division_equations. nia.
Qed.

(** C30: Calibration ends and is accurate.  Whatever the rates, if no operation takes longer than
    [delta] timer ticks, the loop terminates, whatever the counter does after passing zero, and
    the result differs from the true frequency only by the truncation of the 10 ms count, the rounding
    of the division and the latency of the operations: [F] lies between
    [11931820 f / (11931 + 3 delta)] and [11931820 (f + 1) / (11930 - 2 delta)] for the stored
    value [f] in kHz. *)
Theorem calibrate_accurate (HF2 : F < 2 ^ 48) d (Hclock : 0 <= clock d) :
  exists n f d', (forall fuel, (n <= fuel)%nat -> calibrate fuel d = Ret (f, d')) /\
    11931820 * f < F * (11931 + 3 * delta) /\ F * (11930 - 2 * delta) < 11931820 * (f + 1).
Proof.
  destruct (calibrate_runs HF2 d Hclock) as (n & f & d' & Hr & _ & Hf). by exists n, f, d'.
Qed.
End calibration.

(** What port accesses of the timer and the counter leave alone, calibration does. *)
Lemma calibrate_keeps {D} `{PortDevice D, TscInsn D} (P : D -> Prop) :
  (forall d, P d -> P (port_in 0x40 d).2) -> (forall p v d, p = 0x40 \/ p = 0x43 -> P d -> P (port_out p v d)) ->
  (forall d, P d -> P (insn_rdtsc d).2) ->
  forall fuel d f d', P d -> calibrate fuel d = Ret (f, d') -> P d'.
Proof.
  intros Hin Hout Htsc.
  assert (forall d, P d -> P (rdtsc d).2) as Hrd.
  { intros d Hd. unfold rdtsc. specialize (Htsc d Hd). by destruct (insn_rdtsc d) as [[lo hi] d1]. }
  assert (forall d, P d -> P (inb 0x40 d).2) as Hinb.
  { intros d Hd. unfold inb. specialize (Hin d Hd). by destruct (port_in 0x40 d). }
  assert (forall fuel d d', P d -> wait_zero fuel d = Ret d' -> P d') as Hwait.
  { induction fuel as [|fuel IH]; intros d d' Hd; cbn [wait_zero]; [done|].
    assert (P (outb 0x43 0 d)) as H1 by (apply Hout; [by right | done]).
    specialize (Hinb _ H1) as H2. destruct (inb 0x40 (outb 0x43 0 d)) as [lo d2]. simpl in H2.
    specialize (Hinb _ H2) as H3. destruct (inb 0x40 d2) as [hi d3]. simpl in H3.
    destruct (_ || _); [by intros [= <-] | by apply IH]. }
  intros fuel d f d' Hd. unfold calibrate.
  set (d1 := outb 0x40 _ (outb 0x40 _ (outb 0x43 0x30 d))).
  assert (P d1) as Hd1 by (apply Hout; [by left|]; apply Hout; [by left|]; apply Hout; [by right | done]).
  specialize (Hrd _ Hd1) as Hd2. destruct (rdtsc d1) as [start d2]. simpl in Hd2.
  intros (d3 & H3 & H4)%bind_ret_inv. specialize (Hrd d3 (Hwait _ _ _ Hd2 H3)) as Hd4.
  destruct (rdtsc d3) as [end_ d4]. simpl in Hd4. by injection H4 as _ <-.
Qed.

(** The conversions are exact while the product fits 64 bits and restart from zero after that: at
    3 GHz [ticks_to_ns] does so every 6149 seconds of up time. *)
Theorem conversions (f ticks : Z) (Hf : 0 < f) (Ht : 0 <= ticks) :
  (ticks * 1000000 < 2 ^ 64 -> ticks_to_ns f ticks = ticks * 1000000 / f) /\
  (ticks * 1000 < 2 ^ 64 -> ticks_to_us f ticks = ticks * 1000 / f) /\
  (ticks_to_ns f ticks <= (2 ^ 64 - 1) / f) /\
  (3000000 * 6149 * 1000 < 18446744073710 + 300000000 /\ ticks_to_ns 3000000 18446744073710 = 0).
Proof.
  unfold ticks_to_ns, ticks_to_us, freq_khz. rewrite (proj2 (Z.eqb_neq f 0)) by lia.
  split; [|split; [|split]].
  - intros Hs. by rewrite wmul_small by (unfold in_word; lia).
  - intros Hs. by rewrite wmul_small by (unfold in_word; lia).
  - apply Z.div_le_mono; [done|]. pose proof (wrap_in_word 64 (ticks * 1000000) ltac:(lia)) as [_ Hw].
    unfold wmul. lia.
  - split; [lia | reflexivity].
Qed.

(** * A timer *)

(** Every operation takes two cycles, one timer tick. *)
Record DemoPit := mkPit { p_clock : Z; p_count : Z; p_since : Z; p_low : option Z; p_latch : list Z }.

Definition demo_counter (d : DemoPit) : Z := (p_count d - (p_clock d / 2 - p_since d)) mod 2 ^ 16.

#[export] Instance demo_ports : PortDevice DemoPit := {|
  port_in port d := (hd 0 (p_latch d), mkPit (p_clock d + 2) (p_count d) (p_since d) (p_low d) (tl (p_latch d)));
  port_out port v d :=
    let t := p_clock d + 2 in
    if port =? 0x43 then
      if v =? 0 then mkPit t (p_count d) (p_since d) (p_low d) [demo_counter d mod 256; demo_counter d / 256]
      else mkPit t (p_count d) (p_since d) None []
    else match p_low d with
         | None => mkPit t (p_count d) (p_since d) (Some v) (p_latch d)
         | Some lo => mkPit t (256 * v + lo) (t / 2) None (p_latch d)
         end |}.

#[export] Instance demo_tsc : TscInsn DemoPit := {|
  insn_rdtsc d := (p_clock d mod 2 ^ 32, p_clock d / 2 ^ 32 mod 2 ^ 32,
    mkPit (p_clock d + 2) (p_count d) (p_since d) (p_low d) (p_latch d));
  insn_rdtscp d := (p_clock d mod 2 ^ 32, p_clock d / 2 ^ 32 mod 2 ^ 32, 0,
    mkPit (p_clock d + 2) (p_count d) (p_since d) (p_low d) (p_latch d)) |}.

#[export] Program Instance demo_clock : PitClock DemoPit 2386364 0 3 := {|
  clock := p_clock;
  counting n a d := p_count d = n /\ p_since d = a /\ 0 <= p_clock d |}.
Next Obligation. intros n a d (_ & _ & Hd). exact Hd. Qed.
Next Obligation.
  intros lo hi d Hd Hlo Hhi. exists ((p_clock d + 2 + 2 + 2) / 2). unfold outb. simpl. split; [by repeat split; lia|].
  unfold pit_freq. Z.to_euclidean_division_equations. lia.
Qed.
Next Obligation.
  intros n a d (<- & <- & Hd). unfold inb, outb. simpl. split; [by repeat split; lia|].
  split; [lia|]. unfold pit_freq. split; [Z.to_euclidean_division_equations; lia|].
  exists (p_clock d / 2). split; [Z.to_euclidean_division_equations; lia|].
  unfold demo_counter, wrap. simpl. pose proof (Z.mod_pos_bound (p_count d - (p_clock d / 2 - p_since d)) (2 ^ 16)).
  change (2 ^ 8) with 256. change (2 ^ 16) with 65536 in *. change (65536 mod 2) with 0. clear Hd.
  set (x := (_ mod 65536)) in *. Z.to_euclidean_division_equations. lia.
Qed.
Next Obligation.
  intros n a d (<- & <- & Hd). simpl. split; [by repeat split; lia|].
  split; [by apply wrap_in_word|]. split; [by apply wrap_in_word|].
  unfold pit_freq. split; [Z.to_euclidean_division_equations; lia|].
  exists (p_clock d). split; [lia|]. Z.to_euclidean_division_equations. lia.
Qed.

Definition demo_timer : DemoPit := mkPit 1000 0 0 None [].

Lemma calibrate_accurate_witness : exists fuel f d', calibrate fuel demo_timer = Ret (f, d') /\ 2384 <= f <= 2388.
Proof.
  destruct (calibrate_accurate (D := DemoPit) 2386364 0 3) with (d := demo_timer)
    as (n & f & d' & Hrun & Hlo & Hhi); [lia | lia | lia | lia | simpl; lia |].
  exists n, f, d'. split; [apply Hrun; lia | lia].
Defined.

Lemma conversions_witness : ticks_to_ns 3000000 9000 = 3000.
Proof. destruct (conversions 3000000 9000) as [Hns _]; [lia | lia | exact (Hns ltac:(lia))]. Defined.
