(* ===== verification/Smp.v ===== *)
(** Start of the secondary processors, [src/kern/arch/x86_64/smp.rs]: the
    boot processor releases the others and waits at a barrier until all of
    them run.  The processors interleave at their accesses to the shared
    atomics; an access that publishes to another processor is a release
    store and is read by an acquire load, so interleaving covers the
    orders that can be observed. *)
From S2P Require Import Prelude Word.

Definition MAX_CPUS : Z := 64.

(** Where the boot processor is in [init], and a secondary one in [ap_entry]; a processor is
    [Off] until its [goto_address] is written. *)
Inductive bsp_pc := BStart | BRelease (i : nat) | BWait | BGo | BDone.
Inductive ap_pc := Off | Entry | Marked | Spinning | Halted.

#[export] Instance bsp_pc_eq : EqDecision bsp_pc.
Proof. solve_decision. Defined.
#[export] Instance ap_pc_eq : EqDecision ap_pc.
Proof. solve_decision. Defined.

Record Smp := mkSmp {
  CPU_COUNT : Z;
  BSP_LAPIC_ID : Z;
  APS_READY : Z;
  ALL_GO : bool;
  CPU_ONLINE : list bool;
  bsp : bsp_pc;
  aps : list ap_pc;
}.

(** The statics at boot, [n] processors. *)
Definition boot (n : nat) : Smp :=
  mkSmp 1 0 0 false (replicate (Z.to_nat MAX_CPUS) false) BStart (replicate n Off).

Definition slot (lapic_id : Z) : Z := lapic_id mod MAX_CPUS.

Definition cpu_count (s : Smp) : Z := CPU_COUNT s.
Definition get_bsp_id (s : Smp) : Z := BSP_LAPIC_ID s.
Definition is_online (lapic_id : Z) (s : Smp) : outcome bool := arr_get (CPU_ONLINE s) (slot lapic_id).

(** [count += 1] for a processor that is online. *)
Definition count_online (b : bool) (count : Z) : Z := if b then wadd 32 count 1 else count.

Definition online_count (s : Smp) : outcome Z :=
  for_range (fun i count => b ← arr_get (CPU_ONLINE s) i; Ret (count_online b count)) 0 MAX_CPUS 0.

Section code.
(** The processors of the boot loader's response, by LAPIC id. *)
Context (cpus : list Z) (bsp_id : Z).

Definition at_pc (p : bsp_pc) (s : Smp) : Smp :=
  mkSmp (CPU_COUNT s) (BSP_LAPIC_ID s) (APS_READY s) (ALL_GO s) (CPU_ONLINE s) p (aps s).

Definition set_ap (j : nat) (p : ap_pc) (s : Smp) : Smp :=
  mkSmp (CPU_COUNT s) (BSP_LAPIC_ID s) (APS_READY s) (ALL_GO s) (CPU_ONLINE s) (bsp s) (<[j := p]> (aps s)).

Definition set_online (k : Z) (s : Smp) : outcome Smp :=
  online ← arr_set (CPU_ONLINE s) k true;
  Ret (mkSmp (CPU_COUNT s) (BSP_LAPIC_ID s) (APS_READY s) (ALL_GO s) online (bsp s) (aps s)).

(** One access of [init]. *)
Definition bsp_step (s : Smp) : outcome Smp :=
  match bsp s with
  | BStart =>
      let s := mkSmp (wrap 32 (zlen cpus)) bsp_id (APS_READY s) (ALL_GO s) (CPU_ONLINE s) (bsp s) (aps s) in
      s ← set_online (slot bsp_id) s;
      Ret (at_pc (BRelease 0) s)
  | BRelease i =>
      match cpus !! i with
      | Some lapic_id =>
          if lapic_id =? bsp_id then Ret (at_pc (BRelease (S i)) s)
          else Ret (at_pc (BRelease (S i)) (set_ap i Entry s))
      | None => Ret (at_pc BWait s)
      end
  | BWait => if APS_READY s <? wsub 32 (wrap 32 (zlen cpus)) 1 then Ret s else Ret (at_pc BGo s)
  | BGo => Ret (at_pc BDone (mkSmp (CPU_COUNT s) (BSP_LAPIC_ID s) (APS_READY s) true (CPU_ONLINE s) (bsp s) (aps s)))
  | BDone => Ret s
  end.

(** One access of [ap_entry] on processor [j]. *)
Definition ap_step (j : nat) (lapic_id : Z) (s : Smp) : outcome Smp :=
  match aps s !! j with
  | Some Entry => s ← set_online (slot lapic_id) s; Ret (set_ap j Marked s)
  | Some Marked =>
      Ret (set_ap j Spinning (mkSmp (CPU_COUNT s) (BSP_LAPIC_ID s) (wadd 32 (APS_READY s) 1) (ALL_GO s)
        (CPU_ONLINE s) (bsp s) (aps s)))
  | Some Spinning => if ALL_GO s then Ret (set_ap j Halted s) else Ret s
  | _ => Ret s
  end.

Inductive step : Smp -> Smp -> Prop :=
  | step_bsp s s' : bsp_step s = Ret s' -> step s s'
  | step_ap s s' j id : cpus !! j = Some id -> ap_step j id s = Ret s' -> step s s'.

Definition init (s : Smp) : Prop := s = boot (length cpus).

(** Everybody has passed the barrier. *)
Definition finished (s : Smp) : Prop :=
  bsp s = BDone /\ forall j id, cpus !! j = Some id -> id <> bsp_id -> aps s !! j = Some Halted.
End code.

(** * Counting *)

Definition ready (p : ap_pc) : bool := match p with Spinning | Halted => true | _ => false end.
Definition marked (p : ap_pc) : bool := match p with Marked | Spinning | Halted => true | _ => false end.

Definition one (b : bool) : Z := if b then 1 else 0.

Fixpoint total (w : ap_pc -> Z) (l : list ap_pc) : Z :=
  match l with [] => 0 | p :: l => w p + total w l end.

Lemma total_insert w l j p q : l !! j = Some p -> total w (<[j := q]> l) = total w l - w p + w q.
Proof.
  revert j. induction l as [|x l IH]; intros [|j] Hj; simpl in *; [done | done | by injection Hj as ->; lia|].
  rewrite (IH j Hj). lia.
Qed.

Definition ready_count (l : list ap_pc) : Z := total (fun p => one (ready p)) l.

Lemma one_range b : 0 <= one b <= 1.
Proof. by destruct b. Qed.

Lemma one_full b : 1 <= one b -> b = true.
Proof. by destruct b. Qed.

Lemma ready_count_le l : 0 <= ready_count l <= zlen l.
Proof.
  unfold ready_count. induction l as [|p l IH]; cbn [total]; [by split|]. rewrite zlen_cons.
  pose proof (one_range (ready p)). lia.
Qed.

Lemma ready_count_full l : zlen l <= ready_count l -> forall j p, l !! j = Some p -> ready p = true.
Proof.
  induction l as [|x l IH]; intros Hl j p Hj; [done|]. rewrite zlen_cons in Hl. unfold ready_count in Hl. cbn [total] in Hl.
  pose proof (ready_count_le l) as Hle. unfold ready_count in Hle. pose proof (one_range (ready x)).
  destruct j as [|j]; simpl in Hj; [injection Hj as ->; apply one_full; lia|].
  apply IH with j; [unfold ready_count; lia | exact Hj].
Qed.

(** When all but one count as ready, all others are. *)
Lemma ready_count_but_one l b p : l !! b = Some p -> ready p = false -> zlen l - 1 <= ready_count l ->
  forall j q, l !! j = Some q -> j <> b -> ready q = true.
Proof.
  intros Hb Hp Hl j q Hj Hne. apply (ready_count_full (<[b := Halted]> l)) with (j := j).
  - unfold ready_count in *. rewrite (total_insert _ _ _ p) by done. rewrite Hp. simpl.
    unfold zlen in *. rewrite length_insert. lia.
  - by rewrite list_lookup_insert_ne.
Qed.

Lemma ready_count_missing l : ready_count l < zlen l -> exists j p, l !! j = Some p /\ ready p = false.
Proof.
  induction l as [|x l IH]; [done|]. unfold ready_count. cbn [total]. rewrite zlen_cons. intros Hl.
  destruct (ready x) eqn:Hx; [|by exists 0%nat, x]. simpl in Hl.
  destruct IH as (j & p & Hj & Hp); [unfold ready_count; lia|]. by exists (S j), p.
Qed.

Lemma ready_count_missing_two l b : l !! b = Some Off -> ready_count l < zlen l - 1 ->
  exists j p, l !! j = Some p /\ j <> b /\ ready p = false.
Proof.
  intros Hb Hl. destruct (ready_count_missing (<[b := Halted]> l)) as (j & p & Hj & Hp).
  { unfold ready_count in *. rewrite (total_insert _ _ _ Off) by done. unfold zlen in *. rewrite length_insert. simpl. lia. }
  exists j, p. destruct (decide (j = b)) as [->|Hne]; [|by rewrite list_lookup_insert_ne in Hj].
  rewrite list_lookup_insert_eq in Hj by (by eapply lookup_lt_Some). by injection Hj as <-.
Qed.

Lemma ready_count_room l b p : l !! b = Some p -> ready p = false -> ready_count l < zlen l.
Proof.
  intros Hb Hp. pose proof (ready_count_le (<[b := Halted]> l)) as [_ Hle]. unfold ready_count in *.
  rewrite (total_insert _ _ _ p) in Hle by done. rewrite Hp in Hle. simpl in Hle.
  unfold zlen in *. rewrite length_insert in Hle. lia.
Qed.

(** * The invariant *)

Ltac smp_simpl := unfold set_ap, at_pc in *; cbn [CPU_COUNT BSP_LAPIC_ID APS_READY ALL_GO CPU_ONLINE bsp aps] in *.

Section facts.
Context (cpus : list Z) (bsp_id : Z) (b : nat).
Context (Hnd : NoDup cpus) (Hb : cpus !! b = Some bsp_id) (Hlen : zlen cpus < 2 ^ 32).

(** Processor [j] has been given its entry point. *)
Definition released (p : bsp_pc) (j : nat) : Prop :=
  match p with BStart => False | BRelease i => (j < i)%nat | _ => True end.

Record inv (s : Smp) : Prop := {
  i_len : length (aps s) = length cpus;
  i_online : zlen (CPU_ONLINE s) = MAX_CPUS;
  i_ready : APS_READY s = ready_count (aps s);
  i_bsp : aps s !! b = Some Off;
  i_off j p : aps s !! j = Some p -> j <> b -> (p <> Off <-> released (bsp s) j);
  i_marked j id p : cpus !! j = Some id -> aps s !! j = Some p -> marked p = true ->
    zget (CPU_ONLINE s) (slot id) = Some true;
  i_self : bsp s <> BStart -> zget (CPU_ONLINE s) (slot bsp_id) = Some true /\
    CPU_COUNT s = zlen cpus /\ BSP_LAPIC_ID s = bsp_id;
  i_only k : zget (CPU_ONLINE s) k = Some true -> exists j id p, cpus !! j = Some id /\ aps s !! j = Some p /\
    k = slot id /\ (marked p = true \/ j = b /\ bsp s <> BStart);
  i_go : ALL_GO s = true <-> bsp s = BDone;
  i_barrier : bsp s = BGo \/ bsp s = BDone -> forall j p, aps s !! j = Some p -> j <> b -> ready p = true;
  i_halted j : aps s !! j = Some Halted -> ALL_GO s = true;
}.

Lemma smp_init_inv s : init cpus s -> inv s.
Proof.
  intros ->. unfold boot. set (online := replicate (Z.to_nat MAX_CPUS) false). assert (forall j p, replicate (length cpus) Off !! j = Some p -> p = Off) as Hoff
    by (intros j p [Hp _]%lookup_replicate; done).
  split; simpl.
  - by rewrite length_replicate.
  - reflexivity.
  - assert (forall n, ready_count (replicate n Off) = 0) as Hz by (induction n; done). by rewrite Hz.
  - apply lookup_replicate. split; [done | by eapply lookup_lt_Some].
  - intros j p ->%Hoff _. done.
  - intros j id p _ ->%Hoff. done.
  - done.
  - intros k Hk. exfalso. unfold zget in Hk. destruct (0 <=? k); [|done].
    unfold online in Hk. apply lookup_replicate in Hk as [Hk _]. done.
  - done.
  - by intros [?|?].
  - intros j Hj%Hoff. done.
Qed.

(** A secondary processor moves from [p] to [q]. *)
Lemma ap_moves s j id p q ready' online' : inv s -> cpus !! j = Some id -> aps s !! j = Some p ->
  p <> Off -> q <> Off -> (ready p = true -> ready q = true) -> (marked p = true -> marked q = true) ->
  (q = Halted -> ALL_GO s = true) ->
  ready' = APS_READY s - one (ready p) + one (ready q) ->
  zlen online' = MAX_CPUS ->
  (forall k, zget (CPU_ONLINE s) k = Some true -> zget online' k = Some true) ->
  (marked q = true -> zget online' (slot id) = Some true) ->
  (forall k, zget online' k = Some true -> zget (CPU_ONLINE s) k = Some true \/ k = slot id /\ marked q = true) ->
  inv (mkSmp (CPU_COUNT s) (BSP_LAPIC_ID s) ready' (ALL_GO s) online' (bsp s) (<[j := q]> (aps s))).
Proof.
  intros [I1 I2 I3 I4 I5 I6 I7 I8 I9 I10 I11] Hid Hj Hp Hq Hr Hm Hh Hready Hol Hkeep Hset Honly.
  assert (j <> b) as Hne by (intros ->; congruence).
  assert (forall i x, <[j := q]> (aps s) !! i = Some x -> i = j /\ x = q \/ i <> j /\ aps s !! i = Some x) as Hlook.
  { intros i x Hi. destruct (decide (i = j)) as [->|].
    - rewrite list_lookup_insert_eq in Hi by (by eapply lookup_lt_Some). injection Hi as ->. by left.
    - rewrite list_lookup_insert_ne in Hi by done. by right. }
  assert (<[j := q]> (aps s) !! j = Some q) as Hself by (apply list_lookup_insert_eq; by eapply lookup_lt_Some).
  split; simpl.
  - by rewrite length_insert.
  - exact Hol.
  - unfold ready_count in *. rewrite (total_insert _ _ _ p) by done. lia.
  - by rewrite list_lookup_insert_ne.
  - intros i x [[-> ->]|[Hi Hx]]%Hlook Hib; [|by apply I5]. split; [intros _; by apply (I5 j p Hj) | done].
  - intros i id' x Hid' [[-> ->]|[Hi Hx]]%Hlook Hmx; [|apply Hkeep; by eapply I6].
    rewrite Hid in Hid'. injection Hid' as <-. by apply Hset.
  - intros Hpc. destruct (I7 Hpc) as [Hs Hst]. split; [by apply Hkeep | exact Hst].
  - intros k [Hk|[-> Hmq]]%Honly; [|by exists j, id, q; auto].
    destruct (I8 k Hk) as (i & id' & x & Hid' & Hx & -> & Hwhy).
    destruct (decide (i = j)) as [->|Hij]; [|exists i, id', x; by rewrite list_lookup_insert_ne].
    rewrite Hj in Hx. injection Hx as <-. exists j, id', q. do 3 (split; [done|]).
    destruct Hwhy as [Hmp|[-> _]]; [left; by apply Hm | done].
  - exact I9.
  - intros Hpc i x [[-> ->]|[Hi Hx]]%Hlook Hib; [apply Hr; by apply (I10 Hpc j) | by apply (I10 Hpc i)].
  - intros i [[-> <-]|[Hi Hx]]%Hlook; [by apply Hh | by apply (I11 i)].
Qed.

Lemma smp_slot_range id : 0 <= slot id < MAX_CPUS.
Proof. apply Z.mod_pos_bound. done. Qed.

Lemma ap_step_inv s s' j id : inv s -> cpus !! j = Some id -> ap_step j id s = Ret s' -> inv s'.
Proof.
  intros Hi Hid. pose proof (smp_slot_range id) as Hslot. pose proof (i_online s Hi) as Hol. unfold ap_step.
  destruct (aps s !! j) as [[]|] eqn:Hj; try (by intros [= <-]).
  - unfold set_online. rewrite arr_set_ok, !bind_ret by lia. intros [= <-]. smp_simpl.
    eapply (ap_moves s j id Entry Marked); try done; [simpl; lia | by rewrite zlen_zset | | |].
    + intros k Hk. destruct (decide (k = slot id)) as [->|]; [rewrite zget_zset_eq by lia; done | by rewrite zget_zset_ne].
    + intros _. rewrite zget_zset_eq by lia. done.
    + intros k Hk. destruct (decide (k = slot id)) as [->|]; [by right | left; by rewrite zget_zset_ne in Hk].
  - intros [= <-]. smp_simpl. apply (ap_moves s j id Marked Spinning); try done.
    + rewrite wadd_small; [simpl; lia|]. rewrite (i_ready s Hi).
      pose proof (ready_count_room _ _ _ Hj eq_refl). pose proof (ready_count_le (aps s)).
      assert (zlen (aps s) = zlen cpus) by (unfold zlen; by rewrite (i_len s Hi)). unfold in_word. lia.
    + intros _. by apply (i_marked s Hi j id Marked).
    + intros k Hk. by left.
  - destruct (ALL_GO s) eqn:Hgo; intros [= <-]; [|done]. smp_simpl.
    apply (ap_moves s j id Spinning Halted); try done; [simpl; lia | | by left; eauto].
    intros _. by apply (i_marked s Hi j id Spinning).
Qed.

Lemma bsp_position j id : cpus !! j = Some id -> (id = bsp_id <-> j = b).
Proof.
  intros Hj. split; [intros ->; by eapply NoDup_lookup | intros ->; congruence].
Qed.

Lemma aps_lookup s j : inv s -> (j < length cpus)%nat -> exists p, aps s !! j = Some p.
Proof. intros Hi Hj. apply lookup_lt_is_Some_2. by rewrite (i_len s Hi). Qed.

(** A step of the boot processor that leaves the others alone. *)
Lemma bsp_moves s pc : inv s -> bsp s <> BStart -> pc <> BStart ->
  (forall j, (j < length cpus)%nat -> j <> b -> released (bsp s) j <-> released pc j) ->
  (bsp s = BDone <-> pc = BDone) ->
  (pc = BGo \/ pc = BDone -> forall j p, aps s !! j = Some p -> j <> b -> ready p = true) ->
  inv (at_pc pc s).
Proof.
  intros Hi Hpc Hpc' Hrel Hdone Hbar. pose proof Hi as [I1 I2 I3 I4 I5 I6 I7 I8 I9 I10 I11].
  split; smp_simpl; try done.
  - intros j p Hj Hne. rewrite <- Hrel; [by apply I5 | | exact Hne]. rewrite <- I1. by eapply lookup_lt_Some.
  - intros _. by apply I7.
  - intros k Hk. destruct (I8 k Hk) as (j & id & p & ? & ? & ? & [?|[-> _]]); [by exists j, id, p; auto|].
    exists b, id, p. do 3 (split; [done|]). by right.
  - by rewrite I9.
Qed.

(** The boot processor registers itself. *)
Lemma bsp_start_inv s : inv s -> bsp s = BStart ->
  inv (mkSmp (wrap 32 (zlen cpus)) bsp_id (APS_READY s) (ALL_GO s) (zset (CPU_ONLINE s) (slot bsp_id) true) (BRelease 0) (aps s)).
Proof.
  intros Hi Hpc. pose proof (smp_slot_range bsp_id) as Hslot. pose proof Hi as [I1 I2 I3 I4 I5 I6 I7 I8 I9 I10 I11].
  rewrite Hpc in *. assert (forall j p, aps s !! j = Some p -> p = Off) as Hoff.
  { intros j p Hj. destruct (decide (j = b)) as [->|Hne]; [congruence|].
    destruct (decide (p = Off)) as [|Hp]; [done|]. destruct (proj1 (I5 j p Hj Hne) Hp). }
  split; smp_simpl; try done.
  - by rewrite zlen_zset.
  - intros j p Hj Hne. simpl. split; [intros Hp; by destruct Hp; eapply Hoff | lia].
  - intros j id p Hid Hj Hm. by rewrite (Hoff j p Hj) in Hm.
  - intros _. rewrite zget_zset_eq by lia. split; [done|]. split; [|done]. apply wrap_small.
    pose proof (zlen_nonneg cpus). by split.
  - intros k Hk. destruct (decide (k = slot bsp_id)) as [->|Hne].
    + exists b, bsp_id, Off. do 3 (split; [done|]). by right.
    + rewrite zget_zset_ne in Hk by done. destruct (I8 k Hk) as (j & id & p & ? & Hj & ? & [Hm|[-> Hn]]); [|done].
      by rewrite (Hoff j p Hj) in Hm.
  - rewrite I9. done.
  - by intros [?|?].
Qed.

(** It releases processor [i]. *)
Lemma bsp_release_inv s i id : inv s -> bsp s = BRelease i -> cpus !! i = Some id -> id <> bsp_id ->
  inv (at_pc (BRelease (S i)) (set_ap i Entry s)).
Proof.
  intros Hi Hpc Hid Hne. pose proof Hi as [I1 I2 I3 I4 I5 I6 I7 I8 I9 I10 I11]. rewrite Hpc in *.
  assert (i <> b) as Hib by (intros ->; by apply Hne, (bsp_position b id Hid)).
  assert (aps s !! i = Some Off) as Hoff.
  { destruct (aps_lookup s i Hi) as [p Hp]; [by eapply lookup_lt_Some|].
    destruct (decide (p = Off)) as [->|Hn]; [done|]. apply (I5 i p Hp Hib) in Hn. simpl in Hn. lia. }
  assert (forall j x, <[i := Entry]> (aps s) !! j = Some x -> j = i /\ x = Entry \/ j <> i /\ aps s !! j = Some x) as Hlook.
  { intros j x Hj. destruct (decide (j = i)) as [->|].
    - rewrite list_lookup_insert_eq in Hj by (by eapply lookup_lt_Some). injection Hj as ->. by left.
    - rewrite list_lookup_insert_ne in Hj by done. by right. }
  split; smp_simpl; try done.
  - by rewrite length_insert.
  - unfold ready_count in *. rewrite (total_insert _ _ _ Off) by done. simpl. lia.
  - by rewrite list_lookup_insert_ne.
  - intros j x [[-> ->]|[Hj Hx]]%Hlook Hjb; simpl; [split; [lia | done]|].
    rewrite (I5 j x Hx Hjb). simpl. lia.
  - intros j id' x Hid' [[-> ->]|[Hj Hx]]%Hlook Hm; [done | by eapply I6].
  - intros _. by apply I7.
  - intros k Hk. destruct (I8 k Hk) as (j & id' & x & ? & Hx & ? & Hwhy). destruct (decide (j = i)) as [->|].
    + rewrite Hoff in Hx. injection Hx as <-. by destruct Hwhy as [?|[? _]].
    + exists j, id', x. rewrite list_lookup_insert_ne by done. do 3 (split; [done|]).
      destruct Hwhy as [?|[? _]]; [by left | by right].
  - by rewrite I9.
  - by intros [?|?].
  - intros j [[-> ?]|[Hj Hx]]%Hlook; [done | by apply (I11 j)].
Qed.

Lemma bsp_step_inv s s' : inv s -> bsp_step cpus bsp_id s = Ret s' -> inv s'.
Proof.
  intros Hi. pose proof (smp_slot_range bsp_id) as Hslot. pose proof Hi as [I1 I2 I3 I4 I5 I6 I7 I8 I9 I10 I11]. unfold bsp_step.
  assert (zlen (aps s) = zlen cpus) as Hz by (unfold zlen; by rewrite I1).
  destruct (bsp s) as [|i| | |] eqn:Hpc; try rewrite Hpc in *.
  - unfold set_online. cbn [CPU_ONLINE]. rewrite arr_set_ok, !bind_ret by lia. intros [= <-].
    exact (bsp_start_inv s Hi Hpc).
  - destruct (cpus !! i) as [id|] eqn:Hid.
    2:{ intros [= <-]. apply lookup_ge_None in Hid. apply bsp_moves; rewrite ?Hpc; try done.
        - intros j Hj _. simpl. lia.
        - by intros [?|?]. }
    destruct (Z.eqb_spec id bsp_id) as [->|Hne]; intros [= <-]; [|by eapply bsp_release_inv].
    apply (bsp_position i) in Hid as Hb'. destruct Hb' as [Hb' _]. specialize (Hb' eq_refl). subst i.
    apply bsp_moves; rewrite ?Hpc; try done.
    + intros j Hj Hne. simpl. lia.
    + by intros [?|?].
  - case_ltb; intros [= <-]; [done|]. apply bsp_moves; rewrite ?Hpc; try done.
    intros _. apply (ready_count_but_one _ b Off I4 eq_refl). rewrite Hz, <- I3.
    assert (1 <= zlen cpus) by (apply lookup_lt_Some in Hb; unfold zlen; lia).
    rewrite wrap_small, wsub_small in H by (unfold in_word; lia). lia.
  - intros [= <-]. split; smp_simpl; try done; try (by rewrite Hpc in *).
    + intros _. by apply I7.
    + intros k Hk. destruct (I8 k Hk) as (j & id & p & ? & ? & ? & [?|[-> _]]); [by exists j, id, p; auto|].
      exists b, id, p. do 3 (split; [done|]). by right.
    + intros _. apply I10. by left.
  - by intros [= <-].
Qed.

Lemma smp_reachable_inv s : reachable (init cpus) (step cpus bsp_id) s -> inv s.
Proof.
  apply reachable_invariant; [exact smp_init_inv|].
  intros s1 s2 Hi Hs. destruct Hs as [s1 s2 Hs|s1 s2 j id Hj Hs]; [by eapply bsp_step_inv | by eapply ap_step_inv].
Qed.

(** ** Progress *)

(** Accesses that are still to come. *)
Definition bsp_left (p : bsp_pc) : Z :=
  match p with BStart => zlen cpus + 5 | BRelease i => Z.max 0 (zlen cpus - Z.of_nat i) + 4 | BWait => 2 | BGo => 1 | BDone => 0 end.
Definition ap_left (p : ap_pc) : Z := match p with Off => 4 | Entry => 3 | Marked => 2 | Spinning => 1 | Halted => 0 end.
Definition left_to_do (s : Smp) : Z := bsp_left (bsp s) + total ap_left (aps s).

Lemma left_nonneg s : 0 <= left_to_do s.
Proof.
  unfold left_to_do. assert (0 <= bsp_left (bsp s)) by (pose proof (zlen_nonneg cpus); unfold bsp_left; case_match; lia).
  assert (forall l, 0 <= total ap_left l) as Ht by (induction l as [|p l IH]; simpl; [done | destruct p; simpl; lia]).
  pose proof (Ht (aps s)). lia.
Qed.

Lemma ap_left_step s j p q s' : aps s !! j = Some p -> ap_left q < ap_left p ->
  bsp s' = bsp s -> aps s' = <[j := q]> (aps s) -> left_to_do s' < left_to_do s.
Proof.
  intros Hj Hq Hbsp Haps. unfold left_to_do. rewrite Hbsp, Haps, (total_insert _ _ _ p) by done. lia.
Qed.

(** A step that is not a round of a spin loop brings the end nearer. *)
Lemma step_left s s' : inv s -> step cpus bsp_id s s' -> s' = s \/ left_to_do s' < left_to_do s.
Proof.
  intros Hi Hs. pose proof (zlen_nonneg cpus) as Hz. destruct Hs as [s s' Hs|s s' j id Hj Hs].
  - unfold bsp_step, set_online in Hs. destruct (bsp s) as [|i| | |] eqn:Hpc.
    + cbn [CPU_ONLINE] in Hs. rewrite arr_set_ok, !bind_ret in Hs by (rewrite (i_online s Hi); apply smp_slot_range).
      injection Hs as <-. right. unfold left_to_do. smp_simpl. rewrite Hpc. simpl. lia.
    + destruct (cpus !! i) as [id|] eqn:Hid.
      * apply lookup_lt_Some in Hid as Hlt.
        assert (bsp_left (BRelease (S i)) < bsp_left (BRelease i)) as Hd by (unfold bsp_left, zlen in *; lia).
        right. destruct (Z.eqb_spec id bsp_id) as [->|Hne]; injection Hs as <-; unfold left_to_do; smp_simpl; rewrite Hpc; [lia|].
        destruct (aps_lookup s i Hi Hlt) as [p Hp]. rewrite (total_insert _ _ _ p) by done.
        assert (p = Off) as ->; [|simpl ap_left; lia].
        destruct (decide (p = Off)) as [|Hn]; [done|]. apply (i_off s Hi i p Hp) in Hn; [rewrite Hpc in Hn; simpl in Hn; lia|].
        intros ->. by apply Hne, (bsp_position b id Hid).
      * injection Hs as <-. right. apply lookup_ge_None in Hid. unfold left_to_do. smp_simpl. rewrite Hpc. unfold bsp_left. lia.
    + destruct (_ <? _); injection Hs as <-; [by left|]. right. unfold left_to_do. smp_simpl. rewrite Hpc. simpl. lia.
    + injection Hs as <-. right. unfold left_to_do. smp_simpl. rewrite Hpc. simpl. lia.
    + injection Hs as <-. by left.
  - unfold ap_step, set_online in Hs. destruct (aps s !! j) as [[]|] eqn:Hp; try (injection Hs as <-; by left).
    + rewrite arr_set_ok, !bind_ret in Hs by (rewrite (i_online s Hi); apply smp_slot_range). injection Hs as <-. right.
      by apply (ap_left_step s j Entry Marked).
    + injection Hs as <-. right. by apply (ap_left_step s j Marked Spinning).
    + destruct (ALL_GO s); injection Hs as <-; [|by left]. right. by apply (ap_left_step s j Spinning Halted).
Qed.

(** A secondary processor that is neither off, nor halted, nor waiting can move. *)
Lemma ap_can_move s j id p : inv s -> cpus !! j = Some id -> aps s !! j = Some p ->
  p = Entry \/ p = Marked \/ p = Spinning /\ ALL_GO s = true -> exists s', step cpus bsp_id s s' /\ s' <> s.
Proof.
  intros Hi Hj Hp Hwhich. assert (j < length (aps s))%nat as Hlt by (by eapply lookup_lt_Some).
  enough (exists s', ap_step j id s = Ret s' /\ aps s' !! j <> aps s !! j) as (s' & Hs & Hne).
  { exists s'. split; [by eapply step_ap | intros ->; done]. }
  unfold ap_step, set_online. rewrite Hp. destruct Hwhich as [->|[->|[-> Hgo]]].
  - rewrite arr_set_ok, !bind_ret by (rewrite (i_online s Hi); apply smp_slot_range).
    eexists. split; [reflexivity|]. smp_simpl. by rewrite list_lookup_insert_eq.
  - eexists. split; [reflexivity|]. smp_simpl. by rewrite list_lookup_insert_eq.
  - rewrite Hgo. eexists. split; [reflexivity|]. smp_simpl. by rewrite list_lookup_insert_eq.
Qed.

(** The steps that are not rounds of a spin loop: a processor can make one until all are done. *)
Lemma progress s : inv s -> finished cpus bsp_id s \/ exists s', step cpus bsp_id s s' /\ s' <> s.
Proof.
  intros Hi. pose proof Hi as [I1 I2 I3 I4 I5 I6 I7 I8 I9 I10 I11].
  assert (forall s', bsp_step cpus bsp_id s = Ret s' -> bsp s' <> bsp s ->
    finished cpus bsp_id s \/ exists s', step cpus bsp_id s s' /\ s' <> s) as Hbsp.
  { intros s' Hs Hne. right. exists s'. split; [by apply step_bsp|]. intros ->. done. }
  assert (forall j id p, cpus !! j = Some id -> aps s !! j = Some p -> p = Entry \/ p = Marked \/ p = Spinning /\ ALL_GO s = true ->
    finished cpus bsp_id s \/ exists s', step cpus bsp_id s s' /\ s' <> s) as Hmove by (intros; right; by eapply ap_can_move).
  destruct (bsp s) as [|i| | |] eqn:Hpc.
  - destruct (bsp_step cpus bsp_id s) as [s'|] eqn:Hs; unfold bsp_step, set_online in Hs; rewrite Hpc in Hs; cbn [CPU_ONLINE] in Hs;
      rewrite arr_set_ok, !bind_ret in Hs by (rewrite I2; apply smp_slot_range); [|done].
    apply (Hbsp s'); [reflexivity | by injection Hs as <-].
  - destruct (bsp_step cpus bsp_id s) as [s'|] eqn:Hs; unfold bsp_step in Hs; rewrite Hpc in Hs.
    + apply (Hbsp s'); [reflexivity|].
      destruct (cpus !! i); [destruct (_ =? _)|]; injection Hs as <-; smp_simpl; intros [= ?]; lia.
    + destruct (cpus !! i); [destruct (_ =? _)|]; done.
  - destruct (Z.ltb_spec (APS_READY s) (wsub 32 (wrap 32 (zlen cpus)) 1)) as [Hlt|Hge].
    2:{ apply (Hbsp (at_pc BGo s)); [unfold bsp_step; rewrite Hpc; by decide_tests | done]. }
    assert (1 <= zlen cpus) by (apply lookup_lt_Some in Hb; unfold zlen; lia).
    rewrite wrap_small, wsub_small in Hlt by (unfold in_word; lia).
    destruct (ready_count_missing_two (aps s) b I4) as (j & p & Hj & Hne & Hr);
      [rewrite <- I3; unfold zlen in *; rewrite I1; lia|].
    destruct (lookup_lt_is_Some_2 cpus j) as [id Hid]; [rewrite <- I1; by eapply lookup_lt_Some|].
    apply (Hmove j id p Hid Hj). pose proof (proj2 (I5 j p Hj Hne) I) as Hoff. destruct p; auto; done.
  - destruct (bsp_step cpus bsp_id s) as [s'|] eqn:Hs; unfold bsp_step in Hs; rewrite Hpc in Hs; [|done].
    apply (Hbsp s'); [reflexivity | by injection Hs as <-].
  - assert (ALL_GO s = true) as Hgo by (by apply I9).
    destruct (decide (Forall (fun p => p = Off \/ p = Halted) (aps s))) as [Hall|Hex].
    + left. split; [done|]. intros j id Hid Hne. destruct (aps_lookup s j Hi) as [p Hp]; [by eapply lookup_lt_Some|].
      rewrite Forall_lookup in Hall. destruct (Hall j p Hp) as [->| ->]; [|done]. exfalso.
      apply (proj2 (I5 j Off Hp ltac:(intros ->; by apply Hne, (bsp_position b id Hid))) I). done.
    + apply not_Forall_Exists in Hex; [|intros p; apply _]. apply Exists_exists in Hex as (p & Hin & Hp).
      apply list_elem_of_lookup_1 in Hin as [j Hj].
      destruct (lookup_lt_is_Some_2 cpus j) as [id Hid]; [rewrite <- I1; by eapply lookup_lt_Some|].
      apply (Hmove j id p Hid Hj). simpl in Hp. clear - Hp Hgo. destruct p; naive_solver.
Qed.

(** ** The answers afterwards *)

Lemma count_loop n l count : zlen l = MAX_CPUS -> 0 <= count -> forall i, 0 <= i -> i + Z.of_nat n = MAX_CPUS -> count <= i ->
  for_from (fun i count => b ← arr_get l i; Ret (count_online b count)) i n count =
  Ret (count + zlen (List.filter (fun k => default false (zget l k)) (zseq i n))).
Proof.
  intros Hl. revert count. induction n as [|n IH]; intros count Hc i Hi Hn Hci; cbn [for_from zseq List.filter].
  { by rewrite Z.add_0_r. }
  destruct (zget_is_Some l i) as [x Hx]; [lia|]. rewrite (proj2 (arr_get_Ret _ _ x)) by done. rewrite !bind_ret, Hx.
  unfold MAX_CPUS in *. destruct x; simpl.
  - rewrite wadd_small by (unfold in_word; lia). rewrite IH, zlen_cons by lia. f_equal. lia.
  - by rewrite IH by lia.
Qed.

(** The slots in use. *)
Definition slots : list Z := remove_dups (slot <$> cpus).

(** Once the boot processor is through, all are counted. *)
Lemma online_count_done s : inv s -> bsp s = BDone -> online_count s = Ret (zlen slots).
Proof.
  intros Hi Hpc. unfold online_count, for_range. rewrite Z.sub_0_r.
  rewrite count_loop by (done || apply (i_online s Hi)). f_equal. rewrite Z.add_0_l. unfold zlen. f_equal.
  apply Permutation_length, NoDup_Permutation.
  - apply NoDup_ListNoDup, List.NoDup_filter, NoDup_ListNoDup, NoDup_zseq.
  - apply NoDup_remove_dups.
  - intros k. unfold slots. rewrite elem_of_remove_dups, list_elem_of_fmap, list_elem_of_In, filter_In, <- list_elem_of_In, elem_of_zseq.
    split.
    + intros [_ Hk]. destruct (zget (CPU_ONLINE s) k) as [[]|] eqn:Hg; try done.
      destruct (i_only s Hi k Hg) as (j & id & p & Hid & _ & -> & _). exists id. split; [done|]. by eapply list_elem_of_lookup_2.
    + intros (id & -> & [j Hj]%list_elem_of_lookup_1). pose proof (smp_slot_range id). unfold MAX_CPUS in *. split; [lia|].
      assert (zget (CPU_ONLINE s) (slot id) = Some true) as ->; [|done].
      destruct (decide (id = bsp_id)) as [->|Hne]; [apply (i_self s Hi); by rewrite Hpc|].
      destruct (aps_lookup s j Hi) as [p Hp]; [by eapply lookup_lt_Some|].
      apply (i_marked s Hi j id p Hj Hp). assert (ready p = true) as Hr; [|by destruct p].
      apply (i_barrier s Hi (or_intror Hpc) j p Hp). intros ->. by apply Hne, (bsp_position b id Hj).
Qed.
End facts.

(** A schedule: the boot processor or a secondary one makes a step. *)
Fixpoint run (cpus : list Z) (bsp_id : Z) (who : list (option nat)) (s : Smp) : outcome Smp :=
  match who with
  | [] => Ret s
  | w :: who =>
      s ← match w with
          | None => bsp_step cpus bsp_id s
          | Some j => match cpus !! j with Some id => ap_step j id s | None => Ret s end
          end;
      run cpus bsp_id who s
  end.

Lemma run_reachable cpus bsp_id who : forall s s', reachable (init cpus) (step cpus bsp_id) s ->
  run cpus bsp_id who s = Ret s' -> reachable (init cpus) (step cpus bsp_id) s'.
Proof.
  induction who as [|w who IH]; intros s s' Hr Hs; simpl in Hs; [by injection Hs as <-|].
  apply bind_ret_inv in Hs as (s1 & H1 & H2). apply (IH s1); [|done]. destruct w as [j|].
  - destruct (cpus !! j) as [id|] eqn:Hj; [|by injection H1 as <-]. eapply reach_step; [exact Hr | by eapply step_ap].
  - eapply reach_step; [exact Hr | by apply step_bsp].
Qed.

(** [init] as the boot processor sees it, the processors interleaved by [who]: it returns when the boot
    processor is through.  A schedule that is too short for that is not enough fuel. *)
Definition smp_init (cpus : list Z) (bsp_id : Z) (who : list (option nat)) (s : Smp) : outcome Smp :=
  s ← run cpus bsp_id who s;
  if decide (bsp s = BDone) then Ret s else Crash OutOfFuel.

Lemma run_app cpus bsp_id l1 l2 : forall s, run cpus bsp_id (l1 ++ l2) s = (s ← run cpus bsp_id l1 s; run cpus bsp_id l2 s).
Proof.
  induction l1 as [|w l1 IH]; intros s; [done|]. cbn [app run].
  destruct (match w with None => _ | Some j => _ end) as [s1|c]; [apply IH | done].
Qed.

Lemma run_ends cpus bsp_id b s (Hnd : NoDup cpus) (Hb : cpus !! b = Some bsp_id) (Hlen : zlen cpus < 2 ^ 32) :
  inv cpus bsp_id b s -> exists who s', run cpus bsp_id who s = Ret s' /\ finished cpus bsp_id s'.
Proof.
  assert (forall n s, left_to_do cpus s < Z.of_nat n -> inv cpus bsp_id b s ->
    exists who s', run cpus bsp_id who s = Ret s' /\ finished cpus bsp_id s') as Hind.
  { intros n. induction n as [|n IH]; intros s0 Hn Hi; [pose proof (left_nonneg cpus s0); lia|].
    destruct (progress cpus bsp_id b Hnd Hb Hlen s0 Hi) as [Hfin|(s1 & Hs & Hne)]; [by exists [], s0|].
    destruct (step_left cpus bsp_id b Hnd Hb s0 s1 Hi Hs) as [?|Hlt]; [done|].
    assert (inv cpus bsp_id b s1) as Hi1
      by (destruct Hs; [by eapply bsp_step_inv | by eapply ap_step_inv]).
    destruct (IH s1 ltac:(lia) Hi1) as (who & s2 & Hrun & Hfin).
    destruct Hs as [s0 s1 Hs|s0 s1 j id Hj Hs]; [exists (None :: who), s2 | exists (Some j :: who), s2];
      (split; [|done]); cbn [run]; [by rewrite Hs | by rewrite Hj, Hs]. }
  intros Hi. apply (Hind (Z.to_nat (left_to_do cpus s + 1))); [|done]. pose proof (left_nonneg cpus s). lia.
Qed.

(** What [init] leaves, whatever the interleaving. *)
Lemma smp_init_spec cpus bsp_id who s (Hnd : NoDup cpus) (Hin : bsp_id ∈ cpus) (Hlen : zlen cpus < 2 ^ 32) :
  smp_init cpus bsp_id who (boot (length cpus)) = Ret s ->
  reachable (init cpus) (step cpus bsp_id) s /\ bsp s = BDone /\ cpu_count s = zlen cpus /\ get_bsp_id s = bsp_id /\
  online_count s = Ret (zlen (slots cpus)).
Proof.
  unfold smp_init. intros (s1 & Hrun & Hs)%bind_ret_inv. destruct (decide _) as [Hpc|]; [|done]. injection Hs as <-.
  assert (reachable (init cpus) (step cpus bsp_id) s1) as Hr by (eapply run_reachable; [by apply reach_init | exact Hrun]).
  apply list_elem_of_lookup_1 in Hin as [b Hb]. pose proof (smp_reachable_inv cpus bsp_id b Hnd Hb Hlen s1 Hr) as Hi.
  destruct (i_self _ _ _ s1 Hi) as (_ & Hc & Hid); [by rewrite Hpc|].
  do 4 (split; [done|]). by apply (online_count_done cpus bsp_id b).
Qed.

(** * Properties *)

(** No schedule is a dead end: however the processors have been interleaved so far, [init] can still
    return, and with the right continuation everybody gets through. *)
Theorem smp_init_can_return cpus bsp_id who s (Hnd : NoDup cpus) (Hin : bsp_id ∈ cpus) (Hlen : zlen cpus < 2 ^ 32) :
  run cpus bsp_id who (boot (length cpus)) = Ret s ->
  exists who' s', smp_init cpus bsp_id (who ++ who') (boot (length cpus)) = Ret s' /\ finished cpus bsp_id s'.
Proof.
  intros Hrun. apply list_elem_of_lookup_1 in Hin as [b Hb].
  assert (reachable (init cpus) (step cpus bsp_id) s) as Hr by (eapply run_reachable; [by apply reach_init | exact Hrun]).
  destruct (run_ends cpus bsp_id b s Hnd Hb Hlen) as (who' & s' & Hrun' & Hfin); [by apply smp_reachable_inv|].
  exists who', s'. split; [|done]. unfold smp_init. rewrite run_app, Hrun, bind_ret, Hrun', bind_ret.
  destruct Hfin as [Hpc _]. by rewrite decide_True.
Qed.

(** C29: The barrier holds.  In every interleaving of the processors, once the boot processor has
    opened the barrier every other processor of the machine is marked online and waits at the
    barrier or is through; nobody gets through before that.  Until then the counter of ready
    processors equals the number of those that have arrived, and a processor is reported online
    only if one with the same slot is. *)
Theorem startup_barrier (cpus : list Z) (bsp_id : Z) (s : Smp)
    (Hnd : NoDup cpus) (Hbsp : bsp_id ∈ cpus) (Hlen : zlen cpus < 2 ^ 32)
    (Hr : reachable (init cpus) (step cpus bsp_id) s) :
  (ALL_GO s = true -> forall j id, cpus !! j = Some id -> id <> bsp_id ->
     (aps s !! j = Some Spinning \/ aps s !! j = Some Halted) /\ is_online id s = Ret true) /\
  (forall j, aps s !! j = Some Halted -> ALL_GO s = true) /\
  APS_READY s = ready_count (aps s) /\
  (forall id, is_online id s = Ret true -> exists id', id' ∈ cpus /\ slot id' = slot id).
Proof.
  apply list_elem_of_lookup_1 in Hbsp as [b Hb]. pose proof (smp_reachable_inv cpus bsp_id b Hnd Hb Hlen s Hr) as Hi.
  split; [|split; [exact (i_halted _ _ _ s Hi) | split; [exact (i_ready _ _ _ s Hi)|]]].
  - intros Hgo j id Hj Hne. assert (j <> b) as Hjb by (intros ->; congruence).
    destruct (aps_lookup cpus bsp_id b s j Hi) as [p Hp]; [by eapply lookup_lt_Some|].
    apply (i_go _ _ _ s Hi) in Hgo. pose proof (i_barrier _ _ _ s Hi (or_intror Hgo) j p Hp Hjb) as Hready.
    split; [destruct p; auto; done|]. apply arr_get_Ret. apply (i_marked _ _ _ s Hi j id p Hj Hp). by destruct p.
  - intros id Hid%arr_get_Ret. destruct (i_only _ _ _ s Hi _ Hid) as (j & id' & p & Hj & _ & Heq & _).
    exists id'. split; [by eapply list_elem_of_lookup_2 | done].
Qed.

(** C36: Start-up completes.  From every reachable state each step is a round of a spin loop or brings
    the end nearer, and unless everybody is through some processor can make a step of the second
    kind: no interleaving deadlocks, and only finitely many such steps are made.  At the end the kernel knows
    the number of processors and the boot processor's id, and [online_count] is the number of
    distinct slots, which is the number of processors if their ids are below 64. *)
Theorem startup_completes (cpus : list Z) (bsp_id : Z) (s : Smp)
    (Hnd : NoDup cpus) (Hbsp : bsp_id ∈ cpus) (Hlen : zlen cpus < 2 ^ 32)
    (Hr : reachable (init cpus) (step cpus bsp_id) s) :
  (forall s', step cpus bsp_id s s' -> s' = s \/ 0 <= left_to_do cpus s' < left_to_do cpus s) /\
  (finished cpus bsp_id s \/ exists s', step cpus bsp_id s s' /\ s' <> s) /\
  (finished cpus bsp_id s -> cpu_count s = zlen cpus /\ get_bsp_id s = bsp_id /\
     online_count s = Ret (zlen (slots cpus)) /\
     (Forall (in_word 6) cpus -> online_count s = Ret (zlen cpus))).
Proof.
  apply list_elem_of_lookup_1 in Hbsp as [b Hb]. pose proof (smp_reachable_inv cpus bsp_id b Hnd Hb Hlen s Hr) as Hi.
  split; [|split; [by apply (progress cpus bsp_id b)|]].
  - intros s' Hs. destruct (step_left cpus bsp_id b Hnd Hb s s' Hi Hs) as [->|Hlt]; [by left|]. right.
    split; [apply left_nonneg | exact Hlt].
  - intros Hfin. destruct (i_self _ _ _ s Hi) as (_ & Hc & Hid); [by rewrite (proj1 Hfin)|].
    split; [exact Hc|]. split; [exact Hid|]. split; [by apply (online_count_done cpus bsp_id b), Hfin|].
    intros Hsmall. rewrite (online_count_done cpus bsp_id b Hnd Hb s Hi (proj1 Hfin)). f_equal. unfold slots.
    assert (slot <$> cpus = cpus) as ->.
    { clear - Hsmall. induction Hsmall as [|x l Hx Hl IH]; [done|]. rewrite fmap_cons, IH. f_equal.
      unfold in_word, slot, MAX_CPUS in *. by apply Z.mod_small. }
    unfold zlen. f_equal. apply Permutation_length, NoDup_Permutation; [apply NoDup_remove_dups | done |].
    intros x. by rewrite elem_of_remove_dups.
Qed.

(** Three processors, two of them sharing a slot. *)
Definition demo_cpus : list Z := [0; 1; 65].
Definition demo_schedule : list (option nat) :=
  replicate 5 None ++ [Some 2; None; Some 1; Some 2; Some 1; None; None; Some 1; Some 2]%nat.

Lemma demo_run s : run demo_cpus 0 demo_schedule (boot 3) = Ret s ->
  reachable (init demo_cpus) (step demo_cpus 0) s.
Proof. apply run_reachable. by apply reach_init. Qed.

Lemma startup_barrier_witness : exists s, run demo_cpus 0 demo_schedule (boot 3) = Ret s /\
  is_online 65 s = Ret true.
Proof.
  destruct (run demo_cpus 0 demo_schedule (boot 3)) as [s|] eqn:Hs; [|vm_compute in Hs; discriminate Hs].
  exists s. split; [reflexivity|].
  destruct (startup_barrier demo_cpus 0 s) as (Hgo & _); [by apply (bool_decide_unpack _) | left | done | by apply demo_run |].
  apply (Hgo ltac:(vm_compute in Hs; by injection Hs as <-) 2%nat 65 eq_refl). done.
Defined.

Lemma startup_completes_witness : exists s, run demo_cpus 0 demo_schedule (boot 3) = Ret s /\
  online_count s = Ret 2.
Proof.
  destruct (run demo_cpus 0 demo_schedule (boot 3)) as [s|] eqn:Hs; [|vm_compute in Hs; discriminate Hs].
  exists s. split; [reflexivity|].
  destruct (startup_completes demo_cpus 0 s) as (_ & _ & Hfin); [by apply (bool_decide_unpack _) | left | done | by apply demo_run |].
  destruct Hfin as (_ & _ & Hc & _); [|exact Hc].
  vm_compute in Hs. injection Hs as <-. split; [reflexivity|].
  intros [|[|[|j]]] id [= <-] Hne; by vm_compute.
Defined.

Lemma smp_init_can_return_witness : exists who' s',
  smp_init demo_cpus 0 (replicate 9 None ++ who') (boot 3) = Ret s' /\ finished demo_cpus 0 s'.
Proof.
  destruct (run demo_cpus 0 (replicate 9 None) (boot 3)) as [s|] eqn:Hs; [|vm_compute in Hs; discriminate Hs].
  apply (smp_init_can_return demo_cpus 0 (replicate 9 None) s); [by apply (bool_decide_unpack _) | left | done | exact Hs].
Defined.
