(* ===== verification/Start.v ===== *)
(** The first half of [_start] in [src/main.rs], from the serial port to the
    memory map, and the panic handler: the components' initialisation in its order,
    with what it prints and where it stops when the boot loader's answers are missing.
    What follows is in [Kernel]. *)
From Stdlib Require Import String Ascii.
From S2P Require Import Prelude Word Port PageSource Buddy Slab Mem Pic Serial Vfs Utf8 Idt Gdt Syscall Gfx Cpu Tsc.

(** * The code *)

(** A frame buffer as the boot loader describes it. *)
Record FbInfo := mkFbInfo { fi_width : Z; fi_height : Z; fi_pitch : Z; fi_bpp : Z }.

(** The boot loader's answers; [None] is a request without response. *)
Record Responses := mkResponses {
  base_revision : bool;                   (* [BASE_REVISION.is_supported()] *)
  framebuffers : option (list FbInfo);    (* FB_REQ *)
  hhdm_offset : option Z;                 (* HHDM_REQ *)
  memory_map : option (list Entry);       (* MMAP_REQ *)
}.

(** Link addresses of the statics and functions the tables point to. *)
Record Image := mkImage {
  GDT_addr : Z; TSS_addr : Z; IDT_addr : Z; KERNEL_STACK : Z; RETURN_STACK : Z;
  hlt_trampoline_addr : Z; isr : Z -> Z;
}.

Section code.
Context {D C : Type} `{PortDevice D, TscInsn D, Processor C}.

(** Devices, processor and statics. *)
Record Machine := mkMachine {
  dev : D;
  cpu : C;
  segs : SegRegs;
  idtr : Z * Z;
  gdt : list GdtEntry;
  tss : Tss;
  idt : Idt;
  tables : Tables D;
  TSC_FREQ_KHZ : Z;
  HHDM_OFFSET : Z;
  mem : KMem;
}.

Definition set_dev d (m : Machine) : Machine :=
  mkMachine d (cpu m) (segs m) (idtr m) (gdt m) (tss m) (idt m) (tables m) (TSC_FREQ_KHZ m) (HHDM_OFFSET m) (mem m).
Definition set_cpu c (m : Machine) : Machine :=
  mkMachine (dev m) c (segs m) (idtr m) (gdt m) (tss m) (idt m) (tables m) (TSC_FREQ_KHZ m) (HHDM_OFFSET m) (mem m).
Definition set_segs s (m : Machine) : Machine :=
  mkMachine (dev m) (cpu m) s (idtr m) (gdt m) (tss m) (idt m) (tables m) (TSC_FREQ_KHZ m) (HHDM_OFFSET m) (mem m).
Definition set_gdt g (m : Machine) : Machine :=
  mkMachine (dev m) (cpu m) (segs m) (idtr m) g (tss m) (idt m) (tables m) (TSC_FREQ_KHZ m) (HHDM_OFFSET m) (mem m).
Definition set_tss t (m : Machine) : Machine :=
  mkMachine (dev m) (cpu m) (segs m) (idtr m) (gdt m) t (idt m) (tables m) (TSC_FREQ_KHZ m) (HHDM_OFFSET m) (mem m).
Definition set_idt i r (m : Machine) : Machine :=
  mkMachine (dev m) (cpu m) (segs m) r (gdt m) (tss m) i (tables m) (TSC_FREQ_KHZ m) (HHDM_OFFSET m) (mem m).
Definition set_tables t (m : Machine) : Machine :=
  mkMachine (dev m) (cpu m) (segs m) (idtr m) (gdt m) (tss m) (idt m) t (TSC_FREQ_KHZ m) (HHDM_OFFSET m) (mem m).
Definition set_khz f (m : Machine) : Machine :=
  mkMachine (dev m) (cpu m) (segs m) (idtr m) (gdt m) (tss m) (idt m) (tables m) f (HHDM_OFFSET m) (mem m).
Definition set_hhdm h (m : Machine) : Machine :=
  mkMachine (dev m) (cpu m) (segs m) (idtr m) (gdt m) (tss m) (idt m) (tables m) (TSC_FREQ_KHZ m) h (mem m).
Definition set_mem k (m : Machine) : Machine :=
  mkMachine (dev m) (cpu m) (segs m) (idtr m) (gdt m) (tss m) (idt m) (tables m) (TSC_FREQ_KHZ m) (HHDM_OFFSET m) k.

(** ** Statements

    A statement changes the machine and goes on with a value, or ends in the loop
    of [hlt] ([None]). *)
Definition Run (A : Type) : Type := Machine -> outcome (option A * Machine).

#[global] Instance run_ret : MRet Run := fun A a m => Ret (Some a, m).
#[global] Instance run_bind : MBind Run := fun A B f x m =>
  '(r, m) ← x m; match r with Some a => f a m | None => Ret (None, m) end.

Definition hlt_loop {A} : Run A := fun m => Ret (None, m).

Definition get {A} (f : Machine -> A) : Run A := fun m => Ret (Some (f m), m).

Definition modify (f : Machine -> Machine) : Run unit := fun m => Ret (Some tt, f m).

(** A call that can crash, on one part of the machine. *)
Definition lift {A} (o : outcome A) : Run A := fun m => a ← o; Ret (Some a, m).

(** Bounds of the polling loops: the serial port's and the timer's. *)
Context (fuel tfuel : nat).
(** Physical memory for the system calls, and the link addresses. *)
Context (ram : Z -> option Z) (img : Image).

Definition print (l : list piece) : Run unit := fun m => d ← log fuel l (dev m); Ret (Some tt, set_dev d m).

Definition say (s : string) : Run unit := print [Lit (text s)].

(** [serial::puts] with a line break at its end. *)
Definition line (s : string) : Run unit := print [Lit (text s ++ [10])].

(** GDT to system calls. *)
Definition load_tables : Run unit :=
  modify (fun m => set_segs (gdt_init (GDT_addr img) (segs m)) m);;
  line "GDT loaded";;
  i ← get idt; i ← lift (Idt.init (isr img) i);
  modify (set_idt i (idt_ptr (IDT_addr img)));;
  line "IDT loaded";;
  modify (fun m => set_dev (Pic.disable (Pic.remap 32 40 (dev m))) m);;
  line "PIC remapped & disabled";;
  modify (fun m => set_tss (tss_init (KERNEL_STACK img) (tss m)) m);;
  g ← get gdt; g ← lift (install_tss (TSS_addr img) tss_size g);
  modify (fun m => set_segs (tss_load TSS_SEL (segs m)) (set_gdt g m));;
  line "TSS loaded";;
  t ← get tables; i ← get idt; r ← get idtr;
  '(t, i) ← lift (Syscall.init fuel ram (hlt_trampoline_addr img) (RETURN_STACK img) t i);
  modify (fun m => set_tables t (set_idt i r m));;
  line "syscall: int 0x80 registered (DPL=3)".

(** [if .. { serial::puts(..) }] *)
Definition say_if (b : bool) (s : string) : Run unit := if b then say s else mret tt.

Definition report_sse : Run unit :=
  c ← get cpu; c ← lift (sse_init c);
  modify (set_cpu c);;
  say "SSE/AVX ";;
  say_if (has_feature_sse c) "SSE ";;
  say_if (has_feature_sse2 c) "SSE2 ";;
  say_if (has_feature_sse3 c) "SSE3 ";;
  say_if (has_feature_sse41 c) "SSE4.1 ";;
  say_if (has_feature_sse42 c) "SSE4.2 ";;
  say_if (has_feature_avx c) "AVX ";;
  line "".

Definition report_tsc : Run unit :=
  c ← get cpu;
  if has_tsc c then
    d ← get dev; '(f, d) ← lift (calibrate tfuel d);
    modify (fun m => set_khz f (set_dev d m));;
    say "TSC: ";;
    f ← get TSC_FREQ_KHZ;
    print [Deca (freq_mhz f)];;
    say " MHz";;
    say_if (has_invariant_tsc c) " (invariant)";;
    line ""
  else mret tt.

Definition report_vendor : Run unit :=
  c ← get cpu;
  let vendor := cpu_vendor c in
  say "CPU: ";;
  (if utf8 vendor then print [Lit vendor] else mret tt);;
  line "".

Definition take_framebuffer (fbs : option (list FbInfo)) : Run Vesa.Framebuffer :=
  match fbs with
  | Some (f :: _) =>
      say "FB ";; print [Deca (fi_width f)];; say "x";; print [Deca (fi_height f)];; line "";;
      mret (Vesa.mkFramebuffer (fi_width f) (fi_height f) (fi_pitch f) (fi_bpp f / 8))
  | Some [] => line "FATAL: no framebuffer";; hlt_loop
  | None => line "FATAL: framebuffer request failed";; hlt_loop
  end.

Definition take_hhdm (resp : option Z) : Run Z :=
  match resp with
  | Some off => say "HHDM offset=0x";; print [Hexa off];; line "";; mret off
  | None => line "FATAL: HHDM request failed";; hlt_loop
  end.

Definition take_memory (off : Z) (mmap : option (list Entry)) : Run unit :=
  match mmap with
  | Some entries =>
      k ← get mem; k ← lift (Mem.init off entries k);
      modify (set_mem k);;
      say "Memory: ";;
      print [Deca (total_pages (BUDDY k) ⊠ 4)];;
      say " KB (";;
      print [Deca (total_pages (BUDDY k))];;
      line " pages)"
  | None => line "FATAL: memory map request failed";; hlt_loop
  end.

(** [_start] up to the memory map. *)
Definition start (resp : Responses) : Run Vesa.Framebuffer :=
  modify (fun m => set_dev (Serial.init (dev m)) m);;
  line "avaria booting...";;
  (if base_revision resp then mret tt else line "FATAL: base revision not supported";; hlt_loop);;
  load_tables;;
  report_sse;;
  report_tsc;;
  report_vendor;;
  fb ← take_framebuffer (framebuffers resp);
  off ← take_hhdm (hhdm_offset resp);
  modify (set_hhdm off);;
  take_memory off (memory_map resp);;
  mret fb.

(** The panic handler: [location] is the file name and the line. *)
Definition panic (location : option (list Z * Z)) : Run unit :=
  print [Lit ([10] ++ text "!!! KERNEL PANIC !!!" ++ [10])];;
  match location with
  | Some (file, ln) => say "  ";; print [Lit file];; say ":";; print [Deca ln];; line ""
  | None => mret tt
  end;;
  hlt_loop.
End code.
Arguments Machine : clear implicits.

(** * What it leaves

    ** The board

    Reading a port and the counter disturb neither the transmitter nor the interrupt controllers,
    and time does not run backwards. *)
Definition undisturbed {D} `{Uart D, !Pic8259 D} (d d' : D) : Prop :=
  uart_sent d' = uart_sent d /\ uart_dlab d' = uart_dlab d /\ (uart_busy d' <= uart_busy d)%nat /\
  chip1 d' = chip1 d /\ chip2 d' = chip2 d.

Class Board (D : Type) (F phase delta : Z) `{PD : PortDevice D, !Uart D, !Pic8259 D, TI : TscInsn D,
    !PitClock D F phase delta} := {
  in_quiet p (d : D) : undisturbed d (port_in p d).2 /\ clock d <= clock (port_in p d).2;
  tsc_quiet (d : D) : undisturbed d (insn_rdtsc d).2 /\ clock d <= clock (insn_rdtsc d).2;
  out_time p v (d : D) : clock d <= clock (port_out p v d);
}.

(** ** What is printed *)

Definition note (s : string) : piece := Lit (text s ++ [10]).

Definition note_if (b : bool) (s : string) : list piece := if b then [Lit (text s)] else [].

Definition tables_log : list piece :=
  [note "GDT loaded"; note "IDT loaded"; note "PIC remapped & disabled"; note "TSS loaded";
   note "syscall: int 0x80 registered (DPL=3)"].

Definition sse_log {C} `{Processor C} (c : C) : list piece :=
  [Lit (text "SSE/AVX ")] ++ note_if (has_feature_sse c) "SSE " ++ note_if (has_feature_sse2 c) "SSE2 " ++
  note_if (has_feature_sse3 c) "SSE3 " ++ note_if (has_feature_sse41 c) "SSE4.1 " ++
  note_if (has_feature_sse42 c) "SSE4.2 " ++ note_if (has_feature_avx c) "AVX " ++ [note ""].

Definition tsc_log {C} `{Processor C} (c : C) (khz : Z) : list piece :=
  if has_tsc c then
    [Lit (text "TSC: "); Deca (khz / 1000); Lit (text " MHz")] ++ note_if (has_invariant_tsc c) " (invariant)" ++ [note ""]
  else [].

Definition vendor_log {C} `{Processor C} (c : C) : list piece :=
  [Lit (text "CPU: ")] ++ (if utf8 (cpu_vendor c) then [Lit (cpu_vendor c)] else []) ++ [note ""].

(** The log of the whole, up to the first answer that is missing; [pages] is the size of the heap. *)
Definition start_log {C} `{Processor C} (resp : Responses) (c : C) (khz pages : Z) : list piece :=
  note "avaria booting..." ::
  if negb (base_revision resp) then [note "FATAL: base revision not supported"]
  else tables_log ++ sse_log c ++ tsc_log c khz ++ vendor_log c ++
    match framebuffers resp with
    | None => [note "FATAL: framebuffer request failed"]
    | Some [] => [note "FATAL: no framebuffer"]
    | Some (f :: _) =>
        [Lit (text "FB "); Deca (fi_width f); Lit (text "x"); Deca (fi_height f); note ""] ++
        match hhdm_offset resp with
        | None => [note "FATAL: HHDM request failed"]
        | Some off =>
            [Lit (text "HHDM offset=0x"); Hexa off; note ""] ++
            match memory_map resp with
            | None => [note "FATAL: memory map request failed"]
            | Some _ => [Lit (text "Memory: "); Deca (4 * pages); Lit (text " KB ("); Deca pages; note " pages)"]
            end
        end
    end.

(** The answers, when none is missing. *)
Definition complete (resp : Responses) : option (FbInfo * Z * list Entry) :=
  match base_revision resp, framebuffers resp, hhdm_offset resp, memory_map resp with
  | true, Some (f :: _), Some off, Some entries => Some (f, off, entries)
  | _, _, _, _ => None
  end.

(** ** Program logic *)

Section logic.
Context {D C : Type} {F phase delta : Z} `{PD : PortDevice D, UA : !Uart D, PI : !Pic8259 D, TI : TscInsn D,
  PC : !PitClock D F phase delta, !Board D F phase delta, PR : Processor C}.
Context (fuel : nat) (Hfuel : (uart_polls < fuel)%nat).
Abbreviation Mach := (Machine D C).

Definition live (d : D) : Prop := ready d /\ 0 <= clock d.

Definition chips (d : D) : chip * chip := (chip1 d, chip2 d).

(** With a long enough wait for the timer, [x] ends with [Q] of its result and of
    what it printed. *)
Definition ends {A} (x : nat -> Run (D:=D) (C:=C) A) (m : Mach) (Q : option A -> list piece -> Mach -> Prop) : Prop :=
  exists n r m' l o, (forall tfuel, (n <= tfuel)%nat -> x tfuel m = Ret (r, m')) /\ reads l o /\
    uart_sent (dev m') = uart_sent (dev m) ++ o /\ live (dev m') /\ Q r l m'.

Lemma ends_now {A} (x : nat -> Run A) m r (Q : option A -> list piece -> Mach -> Prop) : live (dev m) -> (forall tfuel, x tfuel m = Ret (r, m)) ->
  Q r [] m -> ends x m Q.
Proof.
  intros Hm Hx HQ. exists O, r, m, [], []. split; [by intros|]. split; [constructor|]. by rewrite app_nil_r.
Qed.

Lemma ends_bind {A B} (x : nat -> Run A) (f : nat -> A -> Run B) m Q (R : option B -> list piece -> Mach -> Prop) :
  ends x m Q ->
  (forall a l m1, live (dev m1) -> Q (Some a) l m1 -> ends (fun t => f t a) m1 (fun r l' => R r (l ++ l'))) ->
  (forall l m1, live (dev m1) -> Q None l m1 -> R None l m1) ->
  ends (fun t => x t ≫= f t) m R.
Proof.
  intros (n & r & m1 & l & o & Hx & Hl & Ho & Hm & HQ) Hf Hn. destruct r as [a|].
  - destruct (Hf a l m1 Hm HQ) as (n2 & r & m2 & l2 & o2 & Hx2 & Hl2 & Ho2 & Hm2 & HR).
    exists (max n n2), r, m2, (l ++ l2), (o ++ o2). split; [|split; [by apply reads_app|]].
    + intros t Ht. unfold mbind, run_bind. rewrite Hx by lia. cbn [mbind outcome_bind]. apply Hx2. lia.
    + split; [by rewrite Ho2, Ho, app_assoc | done].
  - exists n, None, m1, l, o. split; [|auto]. intros t Ht. unfold mbind, run_bind. by rewrite Hx by lia.
Qed.

(** A part of the program with a specification of its own, that goes on. *)
Lemma ends_call {A B} (x : nat -> Run A) (f : nat -> A -> Run B) m (Q : A -> list piece -> Mach -> Prop)
    (R : option B -> list piece -> Mach -> Prop) :
  ends x m (fun r l m' => exists a, r = Some a /\ Q a l m') ->
  (forall a l m1, live (dev m1) -> Q a l m1 -> ends (fun t => f t a) m1 (fun r l' => R r (l ++ l'))) ->
  ends (fun t => x t ≫= f t) m R.
Proof.
  intros Hx Hf. eapply ends_bind; [exact Hx | |].
  - intros a l' m1 Hm (? & [= <-] & HQ). by apply Hf.
  - by intros l' m1 _ (? & ? & _).
Qed.

(** Output goes to the console and nowhere else. *)
Lemma log_quiet l d : ready d -> Forall piece_ok l ->
  exists d' o, log fuel l d = Ret d' /\ reads l o /\ ready d' /\ uart_sent d' = uart_sent d ++ o /\
    clock d <= clock d' /\ chips d' = chips d.
Proof.
  intros Hr Hl. destruct (log_logs fuel Hfuel l d Hr Hl) as (o & Ho & d' & Hd & Hrd & Hs). exists d', o. do 4 (split; [done|]).
  apply (log_keeps fuel (fun x => clock d <= clock x /\ chips x = chips d)) with (l := l) (d := d); [| |by split|exact Hd].
  - intros d1 [H1 H2]. destruct (in_quiet (COM1 + 5) d1) as [(_ & _ & _ & E1 & E2) Ht]. unfold chips in *.
    rewrite E1, E2. split; [lia | done].
  - intros v d1 [H1 H2]. pose proof (out_time COM1 v d1). split; [lia|]. rewrite <- H2. unfold chips.
    by rewrite write_chip1, write_chip2.
Qed.

Lemma print_then {B} l (k : nat -> Run B) m (R : option B -> list piece -> Mach -> Prop) : live (dev m) -> Forall piece_ok l ->
  (forall d, live d -> chips d = chips (dev m) -> ends k (set_dev d m) (fun r l' => R r (l ++ l'))) ->
  ends (fun t => print fuel l;; k t) m R.
Proof.
  intros [Hr Hc] Hl Hk. destruct (log_quiet l (dev m) Hr Hl) as (d & o & Hd & Ho & Hrd & Hs & Hcd & Hch).
  destruct (Hk d) as (n & r & m' & l2 & o2 & Hx & Hl2 & Ho2 & Hm2 & HR); [split; [done | lia] | done |].
  exists n, r, m', (l ++ l2), (o ++ o2). split; [|split; [by apply reads_app|]].
  - intros t Ht. unfold print, mbind at 1, run_bind. rewrite Hd. apply Hx, Ht.
  - split; [|done]. simpl in Ho2. by rewrite Ho2, Hs, app_assoc.
Qed.

Lemma print_last l m (R : option unit -> list piece -> Mach -> Prop) : live (dev m) -> Forall piece_ok l ->
  (forall d, live d -> chips d = chips (dev m) -> R (Some tt) l (set_dev d m)) -> ends (fun _ => print fuel l) m R.
Proof.
  intros Hm Hl HR. destruct (print_then l (fun _ => mret tt) m R Hm Hl) as (n & r & m' & l' & o & Hx & H).
  - intros d Hd Hc. apply (ends_now _ _ (Some tt)); [done | done |]. rewrite app_nil_r. by apply HR.
  - exists n, r, m', l', o. split; [|exact H]. intros t Ht. rewrite <- (Hx t Ht).
    unfold print, mbind, run_bind, outcome_bind. by destruct (log fuel l (dev m)).
Qed.

Lemma modify_then {B} f (k : nat -> Run B) m (R : option B -> list piece -> Mach -> Prop) :
  uart_sent (dev (f m)) = uart_sent (dev m) -> ends k (f m) R -> ends (fun t => modify f;; k t) m R.
Proof.
  intros Hs (n & r & m' & l & o & Hx & Hl & Ho & H). exists n, r, m', l, o. split; [exact Hx|]. split; [done|].
  by rewrite Ho, Hs.
Qed.

Lemma ret_then {A B} (a : A) (k : nat -> A -> Run B) m R : ends (fun t => k t a) m R -> ends (fun t => mret a ≫= k t) m R.
Proof. intros Hk. exact Hk. Qed.

Lemma get_then {A B} (f : Mach -> A) (k : nat -> A -> Run B) m R :
  ends (fun t => k t (f m)) m R -> ends (fun t => get f ≫= k t) m R.
Proof. intros Hk. exact Hk. Qed.

Lemma lift_then {A B} (x : nat -> outcome A) a (k : nat -> A -> Run B) m R : (exists n, forall t, (n <= t)%nat -> x t = Ret a) ->
  ends (fun t => k t a) m R -> ends (fun t => lift (x t) ≫= k t) m R.
Proof.
  intros [n0 Hx0] (n & r & m' & l & o & Hx & H). exists (max n0 n), r, m', l, o. split; [|exact H].
  intros t Ht. unfold lift, mbind at 1, run_bind. rewrite Hx0 by lia. apply Hx. lia.
Qed.

Lemma say_if_then {B} b s (k : nat -> Run B) m (R : option B -> list piece -> Mach -> Prop) : live (dev m) ->
  (forall d, live d -> chips d = chips (dev m) -> ends k (set_dev d m) (fun r l' => R r (note_if b s ++ l'))) ->
  ends (fun t => say_if fuel b s;; k t) m R.
Proof.
  intros Hm Hk. destruct b; [apply print_then; [done | by repeat constructor | exact Hk]|].
  assert (set_dev (dev m) m = m) as E by by destruct m. rewrite <- E. by apply (Hk (dev m)).
Qed.

(** The controllers along a chain of prints. *)
Ltac same_chips := cbn [dev set_dev set_cpu set_khz set_hhdm set_mem] in *; congruence.

(** ** The stages *)

Context (ram : Z -> option Z) (img : Image).
Context (Himg : in_word 64 (TSS_addr img)) (Hisr : forall i, in_word 64 (isr img i)).

(** The processor's tables as [_start] sets them up from those of [m0]: segments, stack for
    interrupts, gates for the stubs (0x80 open to user mode), the handler of system calls, every
    hardware interrupt masked and remapped to vectors 32 to 47. *)
Record tables_up (m0 m : Mach) : Prop := {
  tu_segs : segments_ok (GDT_addr img) (TSS_addr img) (gdt m) (segs m);
  tu_stack : Gdt.rsp0 (tss m) = KERNEL_STACK img ⊞ 0x4000;
  tu_idtr : idtr m = (16 * zlen (idt m) - 1, IDT_addr img);
  tu_gates i : 0 <= i < IDT_ENTRIES -> exists e, zget (idt m) i = Some e /\
    if (i <? 48) || (i =? 0x80) then
      let g := gate_bytes e in
      gate_target g = isr img i /\ gate_selector g = 0x08 /\ gate_present g = true /\ gate_type g = 0xE /\
      gate_dpl g = if i =? 0x80 then 3 else 0
    else zget (idt m0) i = Some e;
  tu_calls : installed fuel ram (hlt_trampoline_addr img) (RETURN_STACK img) (tables m);
  tu_lines : chips (dev m) = (mkChip 0xFF 32 Operational true, mkChip 0xFF 40 Operational true);
}.

(** Nothing changes but the console, memory and the linear map's offset. *)
Record same_core (m m' : Mach) : Prop := {
  sc_cpu : cpu m' = cpu m; sc_segs : segs m' = segs m; sc_gdt : gdt m' = gdt m; sc_tss : tss m' = tss m;
  sc_idtr : idtr m' = idtr m; sc_idt : idt m' = idt m; sc_tables : tables m' = tables m;
  sc_khz : TSC_FREQ_KHZ m' = TSC_FREQ_KHZ m; sc_chips : chips (dev m') = chips (dev m);
}.

#[export] Instance same_core_trans : Transitive same_core.
Proof. intros m1 m2 m3 [] []. split; congruence. Qed.

Lemma tables_up_frame m0 m m' : tables_up m0 m -> segs m' = segs m -> gdt m' = gdt m -> tss m' = tss m ->
  idtr m' = idtr m -> idt m' = idt m -> tables m' = tables m -> chips (dev m') = chips (dev m) -> tables_up m0 m'.
Proof. intros [] E1 E2 E3 E4 E5 E6 E7. split; rewrite ?E1, ?E2, ?E3, ?E4, ?E5, ?E6, ?E7; done. Qed.

(** Accesses to other devices than the serial port. *)
Definition still (s : list Z) (d : D) : Prop := live d /\ uart_sent d = s.

Lemma still_out s p v d : p <> COM1 -> p <> COM1 + 3 -> still s d -> still s (outb p v d).
Proof.
  intros H1 H2 [[Hr Hc] Hs]. destruct (ready_outb p v d H1 H2 Hr) as [Hr' Hs']. pose proof (out_time p v d).
  unfold still, live, outb in *. split; [split; [done | lia] | by rewrite Hs'].
Qed.

Lemma still_undisturbed s d d' : undisturbed d d' /\ clock d <= clock d' -> still s d -> still s d'.
Proof.
  intros [(E1 & E2 & E3 & _) Ht] [[[Hd Hb] Hc] Hs]. unfold still, live, ready. rewrite E1, E2.
  split; [|done]. split; [split; [done | lia] | lia].
Qed.

Lemma still_in s p d : still s d -> still s (inb p d).2.
Proof.
  intros Hs. unfold inb. pose proof (still_undisturbed s d _ (in_quiet p d) Hs) as H. by destruct (port_in p d).
Qed.

Lemma still_pics s offset1 offset2 d : still s d -> still s (Pic.disable (Pic.remap offset1 offset2 d)).
Proof.
  intros Hs. unfold Pic.disable, Pic.remap, Pic.io_wait.
  pose proof (still_in s PIC1_DATA d Hs) as H1. destruct (inb PIC1_DATA d) as [m1 d1]. simpl in H1.
  pose proof (still_in s PIC2_DATA d1 H1) as H2. destruct (inb PIC2_DATA d1) as [m2 d2]. simpl in H2.
  repeat (apply still_out; [done | done |]). exact H2.
Qed.

(** Gates, and the one for system calls. *)
Lemma gates_set i0 : zlen i0 = IDT_ENTRIES -> exists i1 i2, Idt.init (isr img) i0 = Ret i1 /\
  set_gate_dpl 0x80 3 i1 = Ret i2 /\ zlen i2 = IDT_ENTRIES /\
  forall i, 0 <= i < IDT_ENTRIES -> exists e0, zget i0 i = Some e0 /\
    zget i2 i = Some (if i =? 0x80 then set_dpl 3 (set_handler (isr img i) e0)
                      else if i <? 48 then set_handler (isr img i) e0 else e0).
Proof.
  intros Hl. destruct (init_spec (isr img) i0 Hl) as (i1 & E1 & Hl1 & H1).
  destruct (H1 0x80) as (e & He & He1); [unfold IDT_ENTRIES; lia|]. simpl in He1.
  assert (0x80 < zlen i1) as Hb by (rewrite Hl1; by vm_compute).
  eexists i1, _. split; [exact E1|]. unfold set_gate_dpl. change (0x80 <? IDT_ENTRIES) with true.
  unfold arr_get. rewrite He1, bind_ret, arr_set_ok by lia. split; [reflexivity|].
  split; [by rewrite zlen_zset|]. intros i Hi. destruct (H1 i Hi) as (e0 & He0 & Hi1). exists e0. split; [done|].
  destruct (Z.eqb_spec i 0x80) as [->|Hne].
  - rewrite zget_zset_eq by lia. congruence.
  - rewrite zget_zset_ne by done. by rewrite Hi1, orb_false_r.
Qed.

(** The machine as the image is loaded. *)
Record fresh (m : Mach) : Prop := {
  fr_gdt : gdt m = GDT;
  fr_idt : zlen (idt m) = IDT_ENTRIES;
  fr_tables : tables m = no_handlers;
  fr_mem : mem m = Mem.boot;
}.

Lemma note_ok s : Forall piece_ok [note s].
Proof. by repeat constructor. Qed.

Lemma load_tables_ends m : fresh m -> live (dev m) ->
  ends (fun _ => load_tables fuel ram img) m (fun r l m' => exists a, r = Some a /\ l = tables_log /\ tables_up m m' /\
    cpu m' = cpu m /\ mem m' = mem m /\ TSC_FREQ_KHZ m' = TSC_FREQ_KHZ m).
Proof.
  intros [Hg Hi Ht _] Hm.
  destruct (gates_set (idt m) Hi) as (i1 & i2 & Ei1 & Ei2 & Hi2 & Hgates).
  destruct (segments_loaded (GDT_addr img) (TSS_addr img) (segs m) Himg) as (g & s & Hs & Hok).
  unfold load_segments in Hs. apply bind_ret_inv in Hs as (g' & Eg & [= -> <-]).
  assert (exists t, register_ctx_handler 0x80 (syscall_dispatch fuel ram (hlt_trampoline_addr img) (RETURN_STACK img)) no_handlers
    = Ret t) as [t Et] by (eexists; reflexivity).
  unfold load_tables.
  apply modify_then; [done|]. apply print_then; [done | apply note_ok |]. intros d1 Hd1 Hc1.
  apply get_then. apply (lift_then (fun _ => Idt.init (isr img) (idt m)) i1); [by exists O|]. apply modify_then; [done|].
  apply print_then; [done | apply note_ok |]. intros d2 Hd2 Hc2.
  destruct (still_pics _ 32 40 d2 (conj Hd2 eq_refl)) as [Hd3 Hs3].
  apply modify_then; [exact Hs3|]. apply print_then; [exact Hd3 | apply note_ok |]. intros d4 Hd4 Hc4.
  apply modify_then; [done|]. apply get_then. cbn [gdt set_dev set_tss set_idt set_segs]. rewrite Hg.
  apply (lift_then (fun _ => install_tss (TSS_addr img) tss_size GDT) g); [by exists O|]. apply modify_then; [done|].
  apply print_then; [done | apply note_ok |]. intros d5 Hd5 Hc5.
  do 3 apply get_then. cbn [tables idt idtr set_dev set_tss set_idt set_segs set_gdt]. rewrite Ht.
  apply (lift_then (fun _ => Syscall.init fuel ram (hlt_trampoline_addr img) (RETURN_STACK img) no_handlers i1) (t, i2)).
  { exists O. intros _ _. unfold Syscall.init. by rewrite Et, bind_ret, Ei2, bind_ret. }
  apply modify_then; [done|]. apply print_last; [done | apply note_ok |]. intros d6 Hd6 Hc6.
  exists tt. split; [done|]. split; [done|]. split; [|done].
  assert (chips d6 = (mkChip 0xFF 32 Operational true, mkChip 0xFF 40 Operational true)) as Hc.
  { rewrite Hc6. cbn [dev set_tables set_idt set_dev]. rewrite Hc5. cbn [dev set_segs set_gdt set_tss set_dev]. rewrite Hc4.
    cbn [dev set_dev]. unfold chips. by destruct (remap_disable 32 40 d2) as [-> ->]. }
  split; cbn [dev segs gdt tss idtr idt tables set_tables set_idt set_dev set_segs set_gdt set_tss]; [exact Hok | done | by rewrite Hi2 | | | exact Hc].
  - intros i Hib. destruct (Hgates i Hib) as (e0 & He0 & Hi'). eexists. split; [exact Hi'|].
    destruct (gate_roundtrip (isr img i) 3 e0 (Hisr i)) as (H1 & H2 & H3 & H4 & H5 & H6 & H7 & H8 & H9 & H10); [unfold in_word; lia|].
    destruct (Z.eqb_spec i 0x80) as [->|Hne]; [by rewrite orb_true_r|]. rewrite orb_false_r. by destruct (i <? 48).
  - exists no_handlers. split; [reflexivity|]. split; [reflexivity | exact Et].
Qed.

Context {PL : ProcessorLaws C}.
Context (HF : 0 < F < 2 ^ 48) (Hphase : 0 <= phase) (Hdelta : 0 <= delta <= 10000).

(** The vector units are on, as far as the processor has them. *)
Definition sse_up (c c' : C) : Prop := if has_feature_sse c then sse_ready c c' else c' = c.

(** A calibrated frequency, in kHz. *)
Definition accurate (f : Z) : Prop :=
  11931820 * f < F * (11931 + 3 * delta) /\ F * (11930 - 2 * delta) < 11931820 * (f + 1).

Lemma report_sse_ends m : live (dev m) ->
  ends (fun _ => report_sse fuel) m (fun r l m' => exists a, r = Some a /\ l = sse_log (cpu m') /\
    exists d c, m' = set_dev d (set_cpu c m) /\ chips d = chips (dev m) /\ sse_up (cpu m) c).
Proof.
  intros Hm. destruct (sse_init_runs (cpu m)) as (c & Ec & Hc). unfold report_sse.
  apply get_then. apply (lift_then (fun _ => sse_init (cpu m)) c); [by exists O|]. apply modify_then; [done|].
  apply print_then; [done | by repeat constructor |]. intros d1 H1 C1.
  do 6 (apply say_if_then; [done|]; intros ? ? ?).
  apply print_last; [done | by repeat constructor |]. intros d9 Hd9 Cd9. exists tt. split; [done|]. split; [done|].
  exists d9, c. split; [done|]. split; [|done]. same_chips.
Qed.

Lemma report_tsc_ends m : live (dev m) ->
  ends (fun t => report_tsc fuel t) m (fun r l m' => exists a, r = Some a /\ l = tsc_log (cpu m') (TSC_FREQ_KHZ m') /\
    exists d f, m' = set_dev d (set_khz f m) /\ chips d = chips (dev m) /\
      if has_tsc (cpu m) then accurate f else f = TSC_FREQ_KHZ m).
Proof.
  intros Hm. unfold report_tsc. apply get_then. unfold tsc_log. destruct (has_tsc (cpu m)) eqn:Htsc.
  2: { apply (ends_now _ _ (Some tt)); [done | done |]. exists tt. rewrite Htsc. do 2 (split; [done|]).
    exists (dev m), (TSC_FREQ_KHZ m). by destruct m. }
  destruct Hm as [Hr Hc0].
  destruct (calibrate_runs F phase delta (proj1 HF) Hphase Hdelta (proj2 HF) (dev m) Hc0) as (n & f & d & Hrun & Hf & Hacc).
  assert (still (uart_sent (dev m)) d /\ chips d = chips (dev m)) as [[Hd Hs] Hch].
  { apply (calibrate_keeps (fun d => still (uart_sent (dev m)) d /\ chips d = chips (dev m)))
      with (fuel := n) (d := dev m) (f := f); [| | |by repeat split; try apply Hr|by apply Hrun].
    - intros d1 [H1 H2]. split; [eapply still_undisturbed; [apply in_quiet | done]|].
      destruct (in_quiet 0x40 d1) as [(_ & _ & _ & E1 & E2) _]. rewrite <- H2. unfold chips. by rewrite E1, E2.
    - intros p v d1 Hp [H1 H2]. split; [apply still_out; [destruct Hp; subst p; done..|done]|].
      rewrite <- H2. unfold chips. rewrite write_chip1, write_chip2. by destruct Hp; subst p.
    - intros d1 [H1 H2]. split; [eapply still_undisturbed; [apply tsc_quiet | done]|].
      destruct (tsc_quiet d1) as [(_ & _ & _ & E1 & E2) _]. rewrite <- H2. unfold chips. by rewrite E1, E2. }
  apply get_then. apply (lift_then (fun t => calibrate t (dev m)) (f, d)); [by exists n|]. apply modify_then; [exact Hs|].
  apply print_then; [done | by repeat constructor |]. intros d1 H1 C1. apply get_then.
  apply print_then; [done | |].
  { constructor; [|done]. simpl. unfold freq_mhz, freq_khz, in_word in *. Z.to_euclidean_division_equations. lia. }
  intros d2 H2 C2. apply print_then; [done | by repeat constructor |]. intros d3 H3 C3.
  apply say_if_then; [done|]. intros d4 H4 C4.
  apply print_last; [done | by repeat constructor |]. intros d5 H5 C5.
  exists tt. split; [done|]. split; [cbn; by rewrite Htsc|]. exists d5, f. split; [done|]. split; [|done].
  same_chips.
Qed.

Lemma report_vendor_ends m : live (dev m) ->
  ends (fun _ => report_vendor fuel) m (fun r l m' => exists a, r = Some a /\ l = vendor_log (cpu m') /\
    exists d, m' = set_dev d m /\ chips d = chips (dev m)).
Proof.
  intros Hm. unfold report_vendor. apply get_then.
  apply print_then; [done | by repeat constructor |]. intros d1 H1 C1. unfold vendor_log.
  destruct (utf8 (cpu_vendor (cpu m))) eqn:Hu.
  - apply print_then; [done | by repeat constructor |]. intros d2 H2 C2.
    apply print_last; [done | by repeat constructor |]. intros d3 H3 C3.
    exists tt. split; [done|]. split; [cbn; by rewrite Hu|]. exists d3. split; [done|]. same_chips.
  - apply print_last; [done | by repeat constructor |]. intros d3 H3 C3.
    exists tt. split; [done|]. split; [cbn; by rewrite Hu|]. exists d3. split; [done|]. same_chips.
Qed.

(** Answers with the widths of their types; the linear map of every entry fits the address space. *)
Record answers_ok (resp : Responses) : Prop := {
  an_fb f fs : framebuffers resp = Some (f :: fs) -> in_word 64 (fi_width f) /\ in_word 64 (fi_height f);
  an_hhdm off : hhdm_offset resp = Some off -> in_word 64 off;
  an_map off entries e : hhdm_offset resp = Some off -> memory_map resp = Some entries -> e ∈ entries ->
    0 <= e_base e /\ 0 <= e_length e /\ off + e_base e + e_length e < 2 ^ 64;
}.

(** The heap over a largest usable entry, if there is one. *)
Definition heap_up (off : Z) (entries : list Entry) (k : KMem) : Prop := HHDM k = off /\
  ((forall e, e ∈ entries -> e_usable e = true -> e_length e = 0) /\ BUDDY k = Buddy.new \/
   Mem.wf k /\ exists e, e ∈ entries /\ e_usable e = true /\
     (forall e', e' ∈ entries -> e_usable e' = true -> e_length e' <= e_length e) /\
     init_post (off + e_base e) (e_length e) (BUDDY k)).

Lemma heap_pages off entries k : (forall e, e ∈ entries -> 0 <= e_base e /\ 0 <= e_length e /\ off + e_base e + e_length e < 2 ^ 64) ->
  0 <= off -> heap_up off entries k -> 0 <= 4 * total_pages (BUDDY k) < 2 ^ 64.
Proof.
  intros He Hoff (_ & [[_ ->]|(_ & e & Hin & _ & _ & _ & _ & Hp & _)]); [done|]. specialize (He e Hin).
  rewrite Hp. unfold Buddy.PAGE_SIZE. Z.to_euclidean_division_equations. lia.
Qed.

(** Only the device changes. *)
Definition only_prints (m m' : Mach) : Prop := exists d, m' = set_dev d m /\ chips d = chips (dev m).

Lemma fatal_ends {A} s m (R : option A -> list piece -> Mach -> Prop) : live (dev m) ->
  (forall m', only_prints m m' -> R None [note s] m') -> ends (fun _ => line fuel s;; hlt_loop) m R.
Proof.
  intros Hm HR. apply print_then; [done | apply note_ok |]. intros d Hd Hc.
  apply (ends_now _ _ None); [done | done |]. rewrite app_nil_r. apply HR. by exists d.
Qed.

Lemma take_framebuffer_ends fbs m : live (dev m) ->
  (forall f fs, fbs = Some (f :: fs) -> in_word 64 (fi_width f) /\ in_word 64 (fi_height f)) ->
  ends (fun _ => take_framebuffer fuel fbs) m (fun r l m' => only_prints m m' /\
    match fbs with
    | Some (f :: _) => r = Some (Vesa.mkFramebuffer (fi_width f) (fi_height f) (fi_pitch f) (fi_bpp f / 8)) /\
        l = [Lit (text "FB "); Deca (fi_width f); Lit (text "x"); Deca (fi_height f); note ""]
    | Some [] => r = None /\ l = [note "FATAL: no framebuffer"]
    | None => r = None /\ l = [note "FATAL: framebuffer request failed"]
    end).
Proof.
  intros Hm Hfbs. unfold take_framebuffer. destruct fbs as [[|f fs]|]; [by apply fatal_ends| |by apply fatal_ends].
  destruct (Hfbs f fs eq_refl) as [Hw Hh].
  apply print_then; [done | by repeat constructor |]. intros d1 H1 C1.
  apply print_then; [done | by constructor |]. intros d2 H2 C2.
  apply print_then; [done | by repeat constructor |]. intros d3 H3 C3.
  apply print_then; [done | by constructor |]. intros d4 H4 C4.
  apply print_then; [done | by repeat constructor |]. intros d5 H5 C5.
  eapply ends_now; [done | done |]. split; [|done]. exists d5. split; [done|]. same_chips.
Qed.

Lemma take_hhdm_ends resp m : live (dev m) -> (forall off, resp = Some off -> in_word 64 off) ->
  ends (fun _ => take_hhdm fuel resp) m (fun r l m' => only_prints m m' /\
    match resp with
    | Some off => r = Some off /\ l = [Lit (text "HHDM offset=0x"); Hexa off; note ""]
    | None => r = None /\ l = [note "FATAL: HHDM request failed"]
    end).
Proof.
  intros Hm Hr. unfold take_hhdm. destruct resp as [off|]; [|by apply fatal_ends].
  apply print_then; [done | by repeat constructor |]. intros d1 H1 C1.
  apply print_then; [done | constructor; [by apply Hr | done] |]. intros d2 H2 C2.
  apply print_then; [done | by repeat constructor |]. intros d3 H3 C3.
  eapply ends_now; [done | done |]. split; [|done]. exists d3. split; [done|]. same_chips.
Qed.

Lemma take_memory_ends off mmap m : live (dev m) -> mem m = Mem.boot -> in_word 64 off ->
  (forall entries e, mmap = Some entries -> e ∈ entries ->
     0 <= e_base e /\ 0 <= e_length e /\ off + e_base e + e_length e < 2 ^ 64) ->
  ends (fun _ => take_memory fuel off mmap) m (fun r l m' =>
    match mmap with
    | Some entries => r = Some tt /\ exists k, only_prints (set_mem k m) m' /\ heap_up off entries k /\
        l = [Lit (text "Memory: "); Deca (4 * total_pages (BUDDY k)); Lit (text " KB (");
             Deca (total_pages (BUDDY k)); note " pages)"]
    | None => r = None /\ only_prints m m' /\ l = [note "FATAL: memory map request failed"]
    end).
Proof.
  intros Hm Hb Hoff Hes. unfold take_memory. destruct mmap as [entries|]; [|by apply fatal_ends].
  destruct (init_manages_largest off entries) as (k & Ek & Hk); [apply Hoff | by intros; eapply Hes |].
  assert (0 <= 4 * total_pages (BUDDY k) < 2 ^ 64) as Hp.
  { apply (heap_pages off entries); [by intros; eapply Hes | apply Hoff | done]. }
  apply get_then. rewrite Hb. apply (lift_then (fun _ => Mem.init off entries Mem.boot) k); [by exists O|].
  apply modify_then; [done|]. assert (total_pages (BUDDY k) ⊠ 4 = 4 * total_pages (BUDDY k)) as ->.
  { rewrite wmul_small; [lia | unfold in_word; lia]. }
  apply print_then; [done | by repeat constructor |]. intros d1 H1 C1.
  apply print_then; [done | constructor; [done | done] |]. intros d2 H2 C2.
  apply print_then; [done | by repeat constructor |]. intros d3 H3 C3.
  apply print_then; [done | constructor; [simpl; unfold in_word; lia | done] |]. intros d4 H4 C4.
  apply print_last; [done | by repeat constructor |]. intros d5 H5 C5.
  split; [done|]. exists k. split; [|done]. exists d5. split; [done|]. same_chips.
Qed.

(** The processor and its tables after the first half of start-up. *)
Record core_up (m0 m : Mach) : Prop := {
  cu_tables : tables_up m0 m;
  cu_sse : sse_up (cpu m0) (cpu m);
  cu_tsc : if has_tsc (cpu m) then accurate (TSC_FREQ_KHZ m) else TSC_FREQ_KHZ m = TSC_FREQ_KHZ m0;
}.

Lemma core_up_frame m0 m m' : core_up m0 m -> same_core m m' -> core_up m0 m'.
Proof.
  intros [Ht Hs Hf] []. split; [by eapply tables_up_frame | congruence | by rewrite sc_cpu0, sc_khz0].
Qed.

Lemma prints_core m m' : only_prints m m' -> same_core m m'.
Proof. by intros (d & -> & Hd). Qed.

(** Tables, vector units, counter and vendor, with their log. *)
Lemma core_ends {B} (k : nat -> Run B) m0 m R : fresh m0 -> live (dev m) -> only_prints m0 m ->
  (forall m1, live (dev m1) -> core_up m0 m1 -> mem m1 = Mem.boot ->
     ends k m1 (fun r l => R r (tables_log ++ sse_log (cpu m1) ++ tsc_log (cpu m1) (TSC_FREQ_KHZ m1) ++ vendor_log (cpu m1) ++ l))) ->
  ends (fun t => load_tables fuel ram img;; report_sse fuel;; report_tsc fuel t;; report_vendor fuel;; k t) m R.
Proof.
  intros Hf Hm (d0 & -> & Hd0) Hk.
  assert (fresh (set_dev d0 m0)) as Hf' by by destruct Hf.
  eapply ends_call; [by apply load_tables_ends|]. intros ? l1 m1 Hm1 (-> & Ht & Hc1 & Hmem1 & Hk1).
  eapply ends_call; [by apply report_sse_ends|]. intros ? l2 m2 Hm2 (-> & d2 & c & -> & Hd2 & Hsse).
  eapply ends_call; [by apply report_tsc_ends|]. intros ? l3 m3 Hm3 (-> & d3 & f & -> & Hd3 & Hf3).
  eapply ends_call; [by apply report_vendor_ends|]. intros ? l4 m4 Hm4 (-> & d4 & -> & Hd4).
  refine (Hk _ Hm4 _ _); [|by rewrite <- (fr_mem m0 Hf)].
  split; [| |].
  - eapply (tables_up_frame _ m1); [|done..|same_chips]. destruct Ht. split; done.
  - cbn [cpu set_dev set_cpu set_khz] in *. by rewrite <- Hc1.
  - cbn [cpu TSC_FREQ_KHZ set_dev set_cpu set_khz] in *. destruct (has_tsc c); [done|]. congruence.
Qed.

Lemma prints_trans m1 m2 m3 : only_prints m1 m2 -> only_prints m2 m3 -> only_prints m1 m3.
Proof. intros (d & -> & Hd) (e & -> & He). exists e. split; [done|]. same_chips. Qed.

(** The rest, from the frame buffer on. *)
Lemma answers_ends resp m0 m (R : option Vesa.Framebuffer -> list piece -> Mach -> Prop) : answers_ok resp -> base_revision resp = true ->
  live (dev m) -> core_up m0 m -> mem m = Mem.boot ->
  (forall r m' log, core_up m0 m' -> cpu m' = cpu m -> TSC_FREQ_KHZ m' = TSC_FREQ_KHZ m ->
     match complete resp with
     | Some (f, off, entries) => r = Some (Vesa.mkFramebuffer (fi_width f) (fi_height f) (fi_pitch f) (fi_bpp f / 8)) /\
         HHDM_OFFSET m' = off /\ heap_up off entries (mem m')
     | None => r = None
     end ->
     start_log resp (cpu m) (TSC_FREQ_KHZ m) (total_pages (BUDDY (mem m'))) =
       [note "avaria booting..."] ++ tables_log ++ sse_log (cpu m) ++ tsc_log (cpu m) (TSC_FREQ_KHZ m) ++ vendor_log (cpu m) ++ log ->
     R r log m') ->
  ends (fun _ => fb ← take_framebuffer fuel (framebuffers resp); off ← take_hhdm fuel (hhdm_offset resp);
                 modify (set_hhdm off);; take_memory fuel off (memory_map resp);; mret fb) m R.
Proof.
  intros [Hfb Hoff Hmap] Hb Hm Hup Hmem HR. unfold start_log, complete in HR. rewrite Hb in HR. cbn [negb] in HR.
  eapply ends_bind; [by apply take_framebuffer_ends | |].
  2: { intros l m1 Hm1 [Hp Hfbs]. apply HR; [by eapply core_up_frame, prints_core | by destruct Hp as (? & -> & _)..| |];
    destruct (framebuffers resp) as [[|f fs]|]; by destruct Hfbs as [? ->]. }
  intros fb l1 m1 Hm1 [Hp1 Hfbs]. destruct (framebuffers resp) as [[|f fs]|]; destruct Hfbs as [[= ->] ->].
  eapply ends_bind; [by apply take_hhdm_ends | |].
  2: { intros l m2 Hm2 [Hp2 Ho]. pose proof (prints_trans _ _ _ Hp1 Hp2) as Hp.
    apply HR; [by eapply core_up_frame, prints_core | by destruct Hp as (? & -> & _)..| |];
    destruct (hhdm_offset resp) as [off|]; by destruct Ho as [? ->]. }
  intros off l2 m2 Hm2 [Hp2 Ho]. pose proof (prints_trans _ _ _ Hp1 Hp2) as Hp.
  destruct (hhdm_offset resp) as [off'|]; destruct Ho as [[= ->] ->]. apply modify_then; [done|].
  assert (same_core m (set_hhdm off' m2)) as Hs2 by (by destruct Hp as (d & -> & Hd)).
  eapply ends_bind; [apply take_memory_ends; [done | by destruct Hp as (d & -> & Hd); rewrite <- Hmem | by apply Hoff | by intros; eapply Hmap] | |].
  2: { intros l m3 Hm3 Hmm. destruct (memory_map resp) as [entries|]; [by destruct Hmm|]. destruct Hmm as (_ & Hp3 & ->).
    pose proof (transitivity Hs2 (prints_core _ _ Hp3)) as Hs.
    apply HR; [by eapply core_up_frame | apply Hs | apply Hs | done..]. }
  intros [] l3 m3 Hm3 Hmm. destruct (memory_map resp) as [entries|]; [|by destruct Hmm].
  destruct Hmm as (_ & k & (d3 & -> & Hd3) & Hk & ->).
  assert (same_core m (set_dev d3 (set_mem k (set_hhdm off' m2)))) as Hs by (destruct Hs2; split; same_chips || done).
  eapply ends_now; [done | done |]. rewrite app_nil_r.
  apply HR; [by eapply core_up_frame | apply Hs | apply Hs | done | done].
Qed.

(** How the first half ends: with the console at the end of the log, the machine set up, and the
    frame buffer or, after the first missing answer, nothing. *)
Definition started resp m (r : option Vesa.Framebuffer) m' : Prop :=
  ready (dev m') /\
  (exists o, uart_sent (dev m') = uart_sent (dev m) ++ o /\
     reads (start_log resp (cpu m') (TSC_FREQ_KHZ m') (total_pages (BUDDY (mem m')))) o) /\
  (base_revision resp = true -> core_up m m') /\
  match complete resp with
  | Some (f, off, entries) => r = Some (Vesa.mkFramebuffer (fi_width f) (fi_height f) (fi_pitch f) (fi_bpp f / 8)) /\
      HHDM_OFFSET m' = off /\ heap_up off entries (mem m')
  | None => r = None
  end.

Lemma start_spec m resp : fresh m -> (uart_busy (dev m) <= uart_polls)%nat -> 0 <= clock (dev m) -> answers_ok resp ->
  exists n r m', (forall tfuel, (n <= tfuel)%nat -> start fuel tfuel ram img resp m = Ret (r, m')) /\ started resp m r m'.
Proof.
  intros Hf Hb Hc Ha. set (d0 := Serial.init (dev m)).
  destruct (init_ready (dev m) Hb) as [Hr Hs].
  assert (0 <= clock d0 /\ chips d0 = chips (dev m)) as [Hc0 Hch0].
  { unfold d0, Serial.init, outbs, outb. cbn [fold_left]. split.
    - repeat (etransitivity; [|apply out_time]). exact Hc.
    - unfold chips. by rewrite !write_chip1, !write_chip2. }
  enough (ends (fun t => start fuel t ram img resp) m (fun r l m' =>
    l = start_log resp (cpu m') (TSC_FREQ_KHZ m') (total_pages (BUDDY (mem m'))) /\
    (base_revision resp = true -> core_up m m') /\
    match complete resp with
    | Some (f, off, entries) => r = Some (Vesa.mkFramebuffer (fi_width f) (fi_height f) (fi_pitch f) (fi_bpp f / 8)) /\
        HHDM_OFFSET m' = off /\ heap_up off entries (mem m')
    | None => r = None
    end)) as (n & r & m' & l & o & Hx & Hl & Ho & [Hr' _] & -> & H1 & H2)
    by (exists n, r, m'; split; [done|]; split; [done|]; split; [by exists o | done]).
  unfold start. apply modify_then; [exact Hs|].
  apply print_then; [by split | apply note_ok |]. intros d1 Hd1 Hc1.
  assert (only_prints m (set_dev d1 (set_dev d0 m))) as Hp by (exists d1; split; [done | by rewrite Hc1]).
  destruct (base_revision resp) eqn:Hrev.
  - apply ret_then. refine (core_ends _ m _ _ Hf _ Hp _); [exact Hd1|]. intros m1 Hm1 Hup Hmem.
    apply (answers_ends resp m); [done..|]. intros r m' log Hup' Hcpu Hkhz Hans Hlog.
    rewrite Hcpu, Hkhz. split; [by rewrite Hlog | done].
  - eapply ends_bind; [by apply (fatal_ends (A:=unit) _ _ (fun r l _ => r = None /\ l = [note "FATAL: base revision not supported"])) | by intros a l m1 _ [? _] |].
    intros l m1 _ [_ ->]. unfold start_log, complete. rewrite Hrev. done.
Qed.

(** C28: The first half of start-up, on every machine and for every answer of the
    boot loader.  It never crashes and every wait ends; the console shows exactly the log,
    up to the message for the first missing answer, where the processor halts, and otherwise
    to the size of memory.  Unless the protocol revision is refused, segments, stack, gates, the system-call
    handler, vector units and clock are set up as the components promise and every hardware
    interrupt is masked; with all answers the heap manages a largest usable region, and the frame
    buffer is the boot loader's first. *)
Theorem early_boot m resp : fresh m -> (uart_busy (dev m) <= uart_polls)%nat -> 0 <= clock (dev m) -> answers_ok resp ->
  exists n r m', (forall tfuel, (n <= tfuel)%nat -> start fuel tfuel ram img resp m = Ret (r, m')) /\ started resp m r m'.
Proof. apply start_spec. Qed.

(** The panic handler prints where it happened and halts. *)
Definition panic_log (location : option (list Z * Z)) : list piece :=
  Lit ([10] ++ text "!!! KERNEL PANIC !!!" ++ [10]) ::
  match location with
  | Some (file, ln) => [Lit (text "  "); Lit file; Lit (text ":"); Deca ln; note ""]
  | None => []
  end.

Theorem panic_reports location m : live (dev m) -> (forall file ln, location = Some (file, ln) -> in_word 32 ln) ->
  ends (fun _ => panic fuel location) m (fun r l m' => r = None /\ l = panic_log location /\ only_prints m m').
Proof.
  intros Hm Hloc. unfold panic. apply print_then; [done | by repeat constructor |]. intros d1 H1 C1.
  destruct location as [[file ln]|]; [specialize (Hloc file ln eq_refl)|].
  - eapply (ends_bind _ _ _ (fun r l m' => r = Some tt /\ l = [Lit (text "  "); Lit file; Lit (text ":"); Deca ln; note ""] /\ only_prints m m')).
    + apply print_then; [done | by repeat constructor |]. intros d2 H2 C2.
      apply print_then; [done | by repeat constructor |]. intros d3 H3 C3.
      apply print_then; [done | by repeat constructor |]. intros d4 H4 C4.
      apply print_then; [done | constructor; [simpl; unfold in_word in *; lia | done] |]. intros d5 H5 C5.
      apply print_last; [done | by repeat constructor |]. intros d6 H6 C6.
      split; [done|]. split; [done|]. exists d6. split; [done|]. same_chips.
    + intros a l m1 Hm1 (_ & -> & Hp). by apply (ends_now _ _ None).
    + by intros l m1 _ [? _].
  - apply ret_then, (ends_now _ _ None); [done | done |]. split; [done|]. split; [done|]. by exists d1.
Qed.
End logic.

(** * A board *)

Record DemoBoard := mkBoard { b_uart : Uart16550; b_pics : chip * chip; b_timer : DemoPit }.

Definition with_timer (d : DemoBoard) (t : DemoPit) : DemoBoard := mkBoard (b_uart d) (b_pics d) t.

#[export] Instance demo_board_ports : PortDevice DemoBoard := {|
  port_in p d :=
    if p =? COM1 + 5 then let '(v, u) := port_in p (b_uart d) in (v, mkBoard u (b_pics d) (b_timer d))
    else if (p =? PIC1_DATA) || (p =? PIC2_DATA) then ((port_in p (b_pics d)).1, d)
    else if p =? 0x40 then let '(v, t) := port_in p (b_timer d) in (v, with_timer d t)
    else (0, d);
  port_out p v d :=
    mkBoard (port_out p v (b_uart d)) (port_out p v (b_pics d))
      (if (p =? 0x40) || (p =? 0x43) then port_out p v (b_timer d) else b_timer d);
|}.

#[export] Program Instance demo_board_uart : Uart DemoBoard := {|
  uart_sent d := u_sent (b_uart d); uart_busy d := u_busy (b_uart d); uart_dlab d := u_dlab (b_uart d); uart_polls := 2;
|}.
Next Obligation. intros d. simpl. split; [|done]. by destruct (decide (u_busy (b_uart d) = O)); case_bool_decide. Qed.
Next Obligation. intros p v d. simpl. split; [done|]. split; [done|]. destruct (p =? COM1); lia. Qed.

#[export] Program Instance demo_board_pics : Pic8259 DemoBoard := {| chip1 d := (b_pics d).1; chip2 d := (b_pics d).2 |}.
Next Obligation. done. Qed.
Next Obligation. done. Qed.
Next Obligation. done. Qed.
Next Obligation. done. Qed.

#[export] Instance demo_board_tsc : TscInsn DemoBoard := {|
  insn_rdtsc d := let '(lo, hi, t) := insn_rdtsc (b_timer d) in (lo, hi, with_timer d t);
  insn_rdtscp d := let '(lo, hi, aux, t) := insn_rdtscp (b_timer d) in (lo, hi, aux, with_timer d t);
|}.

#[export] Program Instance demo_board_clock : PitClock DemoBoard 2386364 0 3 := {|
  clock d := p_clock (b_timer d);
  counting n a d := counting n a (b_timer d);
|}.
Next Obligation. intros n a d Hc. exact (clock_pos (D:=DemoPit) n a (b_timer d) Hc). Qed.
Next Obligation. intros lo hi d Hd Hlo Hhi. exact (arm_law (D:=DemoPit) lo hi (b_timer d) Hd Hlo Hhi). Qed.
Next Obligation. intros n a d Hc. exact (latch_law (D:=DemoPit) n a (b_timer d) Hc). Qed.
Next Obligation. intros n a d Hc. exact (tsc_law (D:=DemoPit) n a (b_timer d) Hc). Qed.

#[export] Program Instance demo_board : Board DemoBoard 2386364 0 3.
Next Obligation.
  intros p d. unfold undisturbed. simpl. repeat case_match; simplify_eq; simpl; repeat split; try done; try lia.
Qed.
Next Obligation. intros d. simpl. repeat split; try done; lia. Qed.
Next Obligation. intros p v d. simpl. repeat case_match; simpl; lia. Qed.

Definition demo_image : Image := mkImage 0xFFFFFFFF80001000 0xFFFFFFFF80002000 0xFFFFFFFF80003000 0xFFFFFFFF80004000
  0xFFFFFFFF80009000 0xFFFFFFFF80100000 (fun _ => 0xFFFFFFFF80200000).

Definition demo_machine : Machine DemoBoard DemoCpu :=
  mkMachine (mkBoard (mkUart [] 0 true) demo_pics demo_timer) Cpu.demo_cpu (mkSegs (0, 0) 0 0 0 0 0 0 0) (0, 0) GDT tss_new
    demo_idt no_handlers 0 0 Mem.boot.

Definition demo_responses : Responses := mkResponses true (Some [mkFbInfo 800 600 3200 32]) (Some 0xFFFF800000000000)
  (Some [mkEntry false 0 0x1000; mkEntry true 0x100000 0x4000000]).

Lemma early_boot_witness : exists n r m', (forall tfuel, (n <= tfuel)%nat ->
    start 3 tfuel (fun _ => None) demo_image demo_responses demo_machine = Ret (r, m')) /\
  r = Some (Vesa.mkFramebuffer 800 600 3200 4) /\ HHDM_OFFSET m' = 0xFFFF800000000000.
Proof.
  assert (uart_polls (D:=DemoBoard) < 3)%nat as Hp by exact (le_n 3).
  destruct (@early_boot DemoBoard DemoCpu 2386364 0 3 _ _ _ _ _ demo_board _ 3 Hp (fun _ => None) demo_image) with
    (PL := demo_laws) (m := demo_machine) (resp := demo_responses) as (n & r & m' & Hrun & _ & _ & _ & H); try lia.
  - split; simpl; lia.
  - intros i. split; simpl; lia.
  - split; reflexivity.
  - simpl. lia.
  - simpl. lia.
  - split; simpl.
    + intros f fs [= <- <-]. unfold in_word. simpl. lia.
    + intros off [= <-]. unfold in_word. lia.
    + intros off entries e [= <-] [= <-] [->|[->|[]%elem_of_nil]%elem_of_cons]%elem_of_cons; simpl; lia.
  - exists n, r, m'. split; [exact Hrun|]. destruct H as (-> & H & _). split; [reflexivity | exact H].
Defined.

Lemma panic_reports_witness : ends (phase:=0) (delta:=3) (F:=2386364)
  (fun _ => panic 3 (Some (text "src/main.rs", 42))) (set_dev (mkBoard (mkUart [] 0 false) demo_pics demo_timer) demo_machine)
  (fun r _ _ => r = None).
Proof.
  assert (uart_polls (D:=DemoBoard) < 3)%nat as Hp by exact (le_n 3).
  destruct (@panic_reports DemoBoard DemoCpu 2386364 0 3 _ _ _ _ _ demo_board 3 Hp (Some (text "src/main.rs", 42))
    (set_dev (mkBoard (mkUart [] 0 false) demo_pics demo_timer) demo_machine)) as (n & r & m' & l & o & H1 & H2 & H3 & H4 & H5 & _).
  - split; [split; [done | simpl; lia] | simpl; lia].
  - intros file ln [= <- <-]. unfold in_word. lia.
  - exists n, r, m', l, o. done.
Defined.
