(* ===== verification/Boot.v ===== *)
(** The last part of [_start] of [src/main.rs]: from the initial RAM disk to
    the first switch to a task.  Module files are loaded into fixed buffers
    and become kernel tasks; the components used are those of [Initrd],
    [Gfx], [Elf], [Paging] and [Sched].  Its lines on the console are those of [main.rs]; the
    scheduler's own are left out. *)
From Stdlib Require Import String Ascii.
From S2P Require Import Prelude Word Tsc Start Port PageSource Buddy Slab Mem Idt Pic Serial Utf8 Sched Vfs Initrd Elf Paging Gfx.

Definition MAX_MODULES : Z := 16.
Definition MODULE_BUF_SIZE : Z := 0x10000.

(** "initrd", "boot/modules/", ".ko", "shell", "res/UniCyrX-ibm-8x16.psf" *)
Definition INITRD : list Z := [105; 110; 105; 116; 114; 100].
Definition MODULE_DIR : list Z := [98; 111; 111; 116; 47; 109; 111; 100; 117; 108; 101; 115; 47].
Definition MODULE_SUFFIX : list Z := [46; 107; 111].
Definition SHELL_NAME : list Z := [115; 104; 101; 108; 108].
Definition FONT_PATH : list Z :=
  [114; 101; 115; 47; 85; 110; 105; 67; 121; 114; 88; 45; 105; 98; 109; 45; 56; 120; 49; 54; 46; 112; 115; 102].
(** The characters of the greeting. *)
Definition GREETING : list Z := [0x420; 0x412; 0x418; 0x20; 0x41F; 0x418; 0x5A; 0x414; 0x423].

(** The first boot module with that command line; [response] is the boot loader's list of command
    lines and contents. *)
Definition find_module (response : option (list (list Z * list Z))) (nm : list Z) : option (list Z) :=
  resp ← response;
  m ← List.find (fun m => bool_decide (m.1 = nm)) resp;
  Some m.2.

(** The interrupt controllers are not the console. *)
Lemma clear_mask_console {D} `{UA : Uart D, PI : !Pic8259 D} irq (d : D) : 0 <= irq < 8 -> Serial.ready d ->
  Serial.ready (Pic.clear_mask irq d) /\ uart_sent (Pic.clear_mask irq d) = uart_sent d.
Proof.
  intros Hi Hr. unfold Pic.clear_mask, mask_port. rewrite (proj2 (Z.ltb_lt irq 8)) by lia.
  unfold inb. rewrite read_imr1. by apply ready_outb.
Qed.

Section code.
Context {D : Type} {PD : PortDevice D}.
(** The bound of the waits for the serial port. *)
Context (fuel : nat).
(** Addresses: the entry points, the static buffers, the table of the module interface. *)
Context (task_trampoline shell_task_entry MODULE_BUFS_addr AVARIA_API_addr hhdm cr3 : Z).

(** The state the loading loop changes. *)
Record Loader := mkLoader {
  mod_idx : Z;
  MODULE_BUFS : list (list Z);
  tables : Words;
  tasks : Sched.Sched D;
}.

(** Statements of [serial]; the console is among the scheduler's devices. *)
Definition say (l : list piece) (s : Sched.Sched D) : outcome (Sched.Sched D) :=
  d ← log fuel l (Sched.dev s); Ret (Sched.with_dev s d).

(** The closure passed to [for_each_matching]. *)
Definition load_module (path ko_data : list Z) (st : Loader) : outcome Loader :=
  if MAX_MODULES <=? mod_idx st then
    s ← say [Lit (text "WARN: too many modules, skipping "); Lit path; Lit [10]] (tasks st);
    Ret (mkLoader (mod_idx st) (MODULE_BUFS st) (tables st) s)
  else
    s ← say [Lit (text "Loading "); Lit path; Lit (text ", size="); Deca (zlen ko_data); Lit [10]] (tasks st);
    buf ← arr_get (MODULE_BUFS st) (mod_idx st);
    '(r, buf) ← load_at ko_data buf (MODULE_BUFS_addr + mod_idx st * MODULE_BUF_SIZE);
    let bufs := zset (MODULE_BUFS st) (mod_idx st) buf in
    match r with
    | Ok loaded =>
        m ← make_executable hhdm cr3 (load_base loaded) (load_size loaded) (tables st);
        '(_, s) ← Sched.spawn task_trampoline (Elf.entry loaded) AVARIA_API_addr path s;
        Ret (mkLoader (mod_idx st ⊞ 1) bufs m s)
    | Err _ =>
        s ← say [Lit (text "WARN: failed to load "); Lit path; Lit [10]] s;
        Ret (mkLoader (mod_idx st) bufs (tables st) s)
    end.

Definition load_modules (fs : TarFs) (st : Loader) : outcome Loader :=
  r ← for_each_matching MODULE_DIR MODULE_SUFFIX
        (fun path data (r : outcome Loader) => st ← r; load_module path data st) fs (Ret st);
  r.

(** The font, which is tried out with a greeting. *)
Definition load_font (fs : TarFs) (fb : Vesa.Framebuffer) (mem : list Z) (s : Sched.Sched D) :
    outcome (option Psf.PsfFont * list Z * Sched.Sched D) :=
  font_data ← read fs FONT_PATH;
  match font_data with
  | Some data =>
      s ← say [Lit (text "Font loaded, size="); Deca (zlen data); Lit [10]] s;
      f ← Psf.parse data;
      match f with
      | Some f => mem ← Psf.draw_str f fb 16 16 GREETING 0xFFFFFF 0x000080 mem; Ret (Some f, mem, s)
      | None => s ← say [note "WARN: failed to parse PSF font"] s; Ret (None, mem, s)
      end
  | None => s ← say [note "WARN: font not found in initrd"] s; Ret (None, mem, s)
  end.

(** What the kernel has when it starts the scheduler. *)
Record Kernel := mkKernel {
  KERNEL_FS : TarFs;
  KERNEL_FONT : option Psf.PsfFont;
  screen : list Z;
  loader : Loader;
}.

(** The scheduler starts, or the processor halts because the RAM disk is missing or malformed. *)
Inductive Booting := Started (k : Kernel) | Halted (s : Sched.Sched D).

Definition boot_from_initrd (response : option (list (list Z * list Z))) (fb : Vesa.Framebuffer)
    (mem : list Z) (bufs : list (list Z)) (m : Words) (s : Sched.Sched D) : outcome Booting :=
  match find_module response INITRD with
  | None => s ← say [note "WARN: initrd not found"; note "avaria ready."] s; Ret (Halted s)
  | Some initrd_data =>
      fs ← Initrd.parse initrd_data;
      match fs with
      | None => s ← say [note "FATAL: failed to parse initrd"] s; Ret (Halted s)
      | Some fs =>
          s ← say [note "initrd: tarfs mounted"] s;
          '(font, mem, s) ← load_font fs fb mem s;
          s ← Sched.init s;
          st ← load_modules fs (mkLoader 0 bufs m s);
          '(_, s) ← Sched.spawn task_trampoline shell_task_entry 0 SHELL_NAME (tasks st);
          s ← say [note "avaria ready."] s;
          Ret (Started (mkKernel fs font mem (mkLoader (mod_idx st) (MODULE_BUFS st) (tables st) (Sched.start s))))
      end
  end.

(** * The modules that end up loaded *)

Abbreviation file := (list Z * list Z)%type.

(** A file that loads: well-formed and no larger in memory than a buffer. *)
Definition loadable (data : list Z) : Prop :=
  elf_ok data /\ high (phdrs_of data) - low (phdrs_of data) <= MODULE_BUF_SIZE.

(** A file the loader reports an error for. *)
Definition refused (data : list Z) : Prop := forall buf base, zlen buf = MODULE_BUF_SIZE ->
  exists e b, load_at data buf base = Ret (Err e, b) /\ zlen b = zlen buf.

(** [mods] are the loadable ones of [files], in order. *)
Inductive selects : list file -> list file -> Prop :=
  | sel_nil : selects [] []
  | sel_load path data files mods : loadable data -> selects files mods ->
      selects ((path, data) :: files) ((path, data) :: mods)
  | sel_skip path data files mods : refused data -> selects files mods -> selects ((path, data) :: files) mods.

(** The lines about a file. *)
Definition skipping (path : list Z) : list piece := [Lit (text "WARN: too many modules, skipping "); Lit path; Lit [10]].
Definition loading (path data : list Z) : list piece :=
  [Lit (text "Loading "); Lit path; Lit (text ", size="); Deca (zlen data); Lit [10]].
Definition failing (path : list Z) : list piece := [Lit (text "WARN: failed to load "); Lit path; Lit [10]].

Definition buf_addr (k : Z) : Z := MODULE_BUFS_addr + k * MODULE_BUF_SIZE.

(** Where a module loaded at [base] starts. *)
Definition module_entry (data : list Z) (base : Z) : Z :=
  (e_entry (header_of_bytes (sub data 0 64)) + (base - low (phdrs_of data))) mod 2 ^ 64.

(** The tasks of modules [k], [k + 1], ... *)
Fixpoint spawn_all (k : Z) (mods : list file) (s : Sched.Sched D) : outcome (Sched.Sched D) :=
  match mods with
  | [] => Ret s
  | (path, data) :: mods =>
      '(_, s) ← Sched.spawn task_trampoline (module_entry data (buf_addr k)) AVARIA_API_addr path s;
      spawn_all (k + 1) mods s
  end.

(** The buffer holds the memory image of the module. *)
Definition holds (buf : list Z) (data : list Z) : Prop :=
  forall x, 0 <= x < high (phdrs_of data) - low (phdrs_of data) -> zget buf x = Some (image_byte data (phdrs_of data) x).

(** What is printed for the files, [k] modules being loaded already. *)
Inductive module_lines : Z -> list file -> list piece -> Prop :=
  | ml_nil k : module_lines k [] []
  | ml_skip k path data files l : MAX_MODULES <= k -> module_lines k files l ->
      module_lines k ((path, data) :: files) (skipping path ++ l)
  | ml_load k path data files l : k < MAX_MODULES -> loadable data -> module_lines (k + 1) files l ->
      module_lines k ((path, data) :: files) (loading path data ++ l)
  | ml_refuse k path data files l : k < MAX_MODULES -> refused data -> module_lines k files l ->
      module_lines k ((path, data) :: files) (loading path data ++ failing path ++ l).

Context `{UA : !Uart D}.

(** The loader after the modules [mods], with [l] printed, from tables [m0] and tasks [s0]. *)
Record loaded (m0 : Words) (s0 : Sched.Sched D) (mods : list file) (l : list piece) (st : Loader) : Prop := {
  ld_idx : mod_idx st = zlen mods;
  ld_bufs : zlen (MODULE_BUFS st) = MAX_MODULES /\ Forall (fun b => zlen b = MODULE_BUF_SIZE) (MODULE_BUFS st);
  ld_image k path data : mods !! k = Some (path, data) ->
    exists buf, zget (MODULE_BUFS st) (Z.of_nat k) = Some buf /\ holds buf data;
  ld_tasks : exists s, spawn_all 0 mods s0 = Ret s /\ tasks st = Sched.with_dev s (Sched.dev (tasks st));
  ld_inv : inv (tasks st) /\ in_state (tasks st) (CURRENT (tasks st)) Running;
  ld_tables : grants m0 (tables st) /\ forall v, translate hhdm cr3 (tables st) v = translate hhdm cr3 m0 v;
  ld_log : log fuel l (Sched.dev s0) = Ret (Sched.dev (tasks st)) /\ Serial.ready (Sched.dev (tasks st));
}.

Lemma spawn_all_snoc mods path data : forall k s,
  spawn_all k (mods ++ [(path, data)]) s =
  (s ← spawn_all k mods s;
   '(_, s) ← Sched.spawn task_trampoline (module_entry data (buf_addr (k + zlen mods))) AVARIA_API_addr path s; Ret s).
Proof.
  induction mods as [|[p d] mods IH]; intros k s; simpl.
  - rewrite zlen_nil, Z.add_0_r. reflexivity.
  - destruct (Sched.spawn _ _ _ _ s) as [[r s1]|]; simpl; [|done]. rewrite IH, zlen_cons. by rewrite <- Z.add_assoc, (Z.add_comm 1).
Qed.

Lemma spawn_all_dev mods : forall k s s', spawn_all k mods s = Ret s' -> Sched.dev s' = Sched.dev s.
Proof.
  induction mods as [|[path data] mods IH]; intros k s s' Hs; cbn [spawn_all] in Hs; [by injection Hs as <-|].
  apply bind_ret_inv in Hs as ([r s1] & Hs1 & Hs). rewrite (IH _ _ _ Hs). by eapply spawn_dev.
Qed.

Context `{PI : !Pic8259 D} (Hfuel : (uart_polls < fuel)%nat).
Context (Haddr : 0 <= MODULE_BUFS_addr /\ MODULE_BUFS_addr + (MAX_MODULES + 1) * MODULE_BUF_SIZE <= 2 ^ 64).

Lemma say_spec l s : Serial.ready (Sched.dev s) -> Forall piece_ok l ->
  exists d, say l s = Ret (Sched.with_dev s d) /\ log fuel l (Sched.dev s) = Ret d /\ Serial.ready d.
Proof.
  intros Hr Hl. destruct (logs_returns _ _ _ (log_logs fuel Hfuel l (Sched.dev s) Hr Hl)) as (d & o & He & Hd & _).
  exists d. unfold say. by rewrite He.
Qed.

Definition with_console (st : Loader) (d : D) : Loader :=
  mkLoader (mod_idx st) (MODULE_BUFS st) (tables st) (Sched.with_dev (tasks st) d).

Lemma loaded_says m0 s0 mods l l' st : loaded m0 s0 mods l st -> Forall piece_ok l' ->
  exists d, say l' (tasks st) = Ret (Sched.with_dev (tasks st) d) /\ loaded m0 s0 mods (l ++ l') (with_console st d).
Proof.
  intros [Hi Hb Him (s & Hs & Ht) [Hinv Hrun] Hm [Hl Hr]] Hl'.
  destruct (say_spec l' (tasks st) Hr Hl') as (d & He & Hd & Hrd). exists d. split; [exact He|].
  split; cbn [with_console mod_idx MODULE_BUFS tables tasks Sched.with_dev Sched.dev]; try done.
  - exists s. split; [exact Hs|]. by rewrite Ht.
  - split; [by apply inv_with_dev | exact Hrun].
  - by rewrite log_app, Hl, bind_ret.
Qed.

Lemma loaded_buffer m0 s0 mods l st : loaded m0 s0 mods l st -> zlen mods < MAX_MODULES ->
  exists buf, arr_get (MODULE_BUFS st) (zlen mods) = Ret buf /\ zlen buf = MODULE_BUF_SIZE.
Proof.
  intros [_ [Hb1 Hb2] _ _ _ _ _] Hlt. pose proof (zlen_nonneg mods).
  destruct (zget_is_Some (MODULE_BUFS st) (zlen mods)) as [buf Hbuf]; [lia|]. exists buf.
  split; [by apply arr_get_Ret | exact (Forall_zget _ _ _ _ Hb2 Hbuf)].
Qed.

(** Another buffer is written, and the images stay. *)
Lemma loaded_writes m0 s0 mods l st b : loaded m0 s0 mods l st -> zlen mods < MAX_MODULES -> zlen b = MODULE_BUF_SIZE ->
  loaded m0 s0 mods l (mkLoader (mod_idx st) (zset (MODULE_BUFS st) (zlen mods) b) (tables st) (tasks st)).
Proof.
  intros [Hi [Hb1 Hb2] Him Ht Hinv Hm Hl] Hlt Hb. split; cbn [mod_idx MODULE_BUFS tables tasks]; try done.
  - rewrite zlen_zset. split; [exact Hb1|]. by apply Forall_zset.
  - intros k p d Hk. destruct (Him k p d Hk) as (buf' & Hg & Hh). exists buf'. split; [|exact Hh].
    apply lookup_lt_Some in Hk. rewrite zget_zset_ne; [exact Hg | unfold zlen in *; lia].
Qed.

(** The task of the module whose image is in the next buffer. *)
Lemma loaded_spawns m0 s0 mods l st path data b m' : loaded m0 s0 mods l st -> zlen mods < MAX_MODULES ->
  zget (MODULE_BUFS st) (zlen mods) = Some b -> holds b data ->
  grants (tables st) m' -> (forall v, translate hhdm cr3 m' v = translate hhdm cr3 (tables st) v) ->
  exists r s', Sched.spawn task_trampoline (module_entry data (buf_addr (zlen mods))) AVARIA_API_addr path (tasks st) = Ret (r, s') /\
    loaded m0 s0 (mods ++ [(path, data)]) l (mkLoader (mod_idx st ⊞ 1) (MODULE_BUFS st) m' s').
Proof.
  intros [Hi Hb Him (s & Hs & Ht) [Hinv Hrun] [Hg Htr] Hl] Hlt Hbuf Hh Hg' Htr'. pose proof (zlen_nonneg mods).
  pose proof (spawn_all_snoc mods path data 0 s0) as Hsnoc. rewrite Hs, bind_ret, Z.add_0_l in Hsnoc.
  destruct (Sched.spawn_spec task_trampoline (module_entry data (buf_addr (zlen mods))) AVARIA_API_addr path (tasks st) Hinv Hrun)
    as (r & s' & He & Hinv' & Hcur & Hres). exists r, s'. split; [exact He|].
  pose proof (spawn_dev _ _ _ _ _ _ _ He) as Hdev. pose proof He as He2. rewrite Ht, spawn_with_dev in He2.
  apply bind_ret_inv in He2 as ([r2 s2] & He2 & [= -> <-]). rewrite He2, bind_ret in Hsnoc.
  split; cbn [mod_idx MODULE_BUFS tables tasks].
  - rewrite zlen_app, Hi. change (zlen [(path, data)]) with 1. apply wadd_small. unfold in_word, MAX_MODULES in *. lia.
  - exact Hb.
  - intros k p d Hk. destruct (decide (k = length mods)) as [->|Hne].
    + rewrite list_lookup_middle in Hk by done. injection Hk as <- <-. by exists b.
    + rewrite lookup_app_l in Hk; [by apply (Him k p d)|]. apply lookup_lt_Some in Hk. rewrite length_app in Hk. simpl in Hk. lia.
  - by exists s2.
  - split; [exact Hinv'|]. rewrite Hcur. by eapply spawn_keeps_running.
  - split; [by transitivity (tables st)|]. intros v. by rewrite Htr'.
  - rewrite Hdev. exact Hl.
Qed.

(** One file of each kind. *)
Lemma load_module_skips m0 s0 mods l st path data : loaded m0 s0 mods l st -> MAX_MODULES <= zlen mods ->
  returns (load_module path data st) (loaded m0 s0 mods (l ++ skipping path)).
Proof.
  intros Hld Hge. unfold load_module. rewrite (ld_idx _ _ _ _ _ Hld). decide_tests.
  destruct (loaded_says _ _ _ _ (skipping path) st Hld) as (d & He & Hd); [by repeat constructor|].
  unfold skipping in He. rewrite He, bind_ret, <- (ld_idx _ _ _ _ _ Hld). by apply returns_ret.
Qed.

Lemma load_module_refused m0 s0 mods l st path data : loaded m0 s0 mods l st -> zlen mods < MAX_MODULES ->
  refused data -> zlen data < 2 ^ 62 -> returns (load_module path data st) (loaded m0 s0 mods (l ++ loading path data ++ failing path)).
Proof.
  intros Hld Hlt Hr Hlen. unfold load_module. rewrite (ld_idx _ _ _ _ _ Hld). decide_tests. pose proof (zlen_nonneg data).
  destruct (loaded_says _ _ _ _ (loading path data) st Hld) as (d & He & Hd); [repeat constructor; lia|].
  unfold loading in He. rewrite He, bind_ret.
  destruct (loaded_buffer _ _ _ _ _ Hd Hlt) as (buf & Hbuf & Hbl). cbn [with_console MODULE_BUFS] in Hbuf. rewrite Hbuf, bind_ret.
  destruct (Hr buf (MODULE_BUFS_addr + zlen mods * MODULE_BUF_SIZE) Hbl) as (e & b & -> & Hb). rewrite bind_ret.
  apply (loaded_writes _ _ _ _ _ b) in Hd; [|exact Hlt | by rewrite Hb].
  destruct (loaded_says _ _ _ _ (failing path) _ Hd) as (d2 & He2 & Hd2); [by repeat constructor|].
  unfold failing in He2. cbn [tasks with_console] in He2. rewrite He2, bind_ret. apply returns_ret.
  rewrite <- app_assoc in Hd2. unfold with_console in Hd2. cbn [mod_idx MODULE_BUFS tables tasks] in Hd2.
  rewrite (ld_idx _ _ _ _ _ Hld) in Hd2. exact Hd2.
Qed.

Lemma load_module_loadable m0 s0 mods l st path data : loaded m0 s0 mods l st -> zlen mods < MAX_MODULES ->
  loadable data -> zlen data < 2 ^ 62 -> returns (load_module path data st) (loaded m0 s0 (mods ++ [(path, data)]) (l ++ loading path data)).
Proof.
  intros Hld Hlt [Hok Hfit] Hlen. unfold load_module. rewrite (ld_idx _ _ _ _ _ Hld). decide_tests.
  pose proof (zlen_nonneg data). pose proof (zlen_nonneg mods).
  destruct (loaded_says _ _ _ _ (loading path data) st Hld) as (d & He & Hd); [repeat constructor; lia|].
  unfold loading in He. rewrite He, bind_ret.
  destruct (loaded_buffer _ _ _ _ _ Hd Hlt) as (buf & Hbuf & Hbl). cbn [with_console MODULE_BUFS] in Hbuf. rewrite Hbuf, bind_ret.
  destruct (load_image_all data buf (buf_addr (zlen mods)) Hok) as (b & Hload & Hbl' & Himg & _);
    [rewrite Hbl; unfold MODULE_BUF_SIZE in *; lia | unfold buf_addr; lia |].
  unfold buf_addr in Hload. rewrite Hload, bind_ret. cbn [load_base load_size Elf.entry].
  destruct (make_executable_all hhdm cr3 (MODULE_BUFS_addr + zlen mods * MODULE_BUF_SIZE)
    (high (phdrs_of data) - low (phdrs_of data)) (tables st)) as (m' & -> & Hg & Htr & _).
  { unfold MODULE_BUF_SIZE in *. lia. }
  { destruct (span_bounds data Hok) as (? & ? & _). lia. }
  { unfold MODULE_BUF_SIZE, MAX_MODULES in *. lia. }
  rewrite bind_ret. apply (loaded_writes _ _ _ _ _ b) in Hd as Hd2; [|exact Hlt | by rewrite Hbl'].
  destruct (loaded_spawns _ _ _ _ _ path data b m' Hd2 Hlt) as (r & s' & Hs & Hres); [| exact Himg | exact Hg | exact Htr |].
  { cbn [MODULE_BUFS]. apply zget_zset_eq. rewrite (proj1 (ld_bufs _ _ _ _ _ Hd)). lia. }
  unfold module_entry, buf_addr in Hs. cbn [tasks with_console] in Hs. rewrite Hs, bind_ret.
  apply returns_ret. cbn [with_console mod_idx MODULE_BUFS] in Hres. rewrite (ld_idx _ _ _ _ _ Hld) in Hres. exact Hres.
Qed.

(** The rounds of the loop. *)
Lemma load_files m0 s0 files mods : selects files mods -> Forall (fun f : file => zlen f.2 < 2 ^ 62) files -> forall done_ l st,
  loaded m0 s0 done_ l st -> zlen done_ <= MAX_MODULES ->
  returns (fold_left (fun (r : outcome Loader) (f : file) => st ← r; load_module f.1 f.2 st) files (Ret st))
    (fun st' => exists l', module_lines (zlen done_) files l' /\ loaded m0 s0 (take (Z.to_nat MAX_MODULES) (done_ ++ mods)) (l ++ l') st').
Proof.
  assert (forall done_ : list file, zlen done_ <= MAX_MODULES -> take (Z.to_nat MAX_MODULES) done_ = done_) as Htake
    by (intros done_ Hd; apply take_ge; unfold zlen, MAX_MODULES in *; lia).
  assert (forall (done_ : list file) x mods, MAX_MODULES <= zlen done_ -> zlen done_ <= MAX_MODULES ->
    take (Z.to_nat MAX_MODULES) (done_ ++ x :: mods) = take (Z.to_nat MAX_MODULES) (done_ ++ mods)) as Hfull
    by (intros; by rewrite !take_app_le by (unfold zlen in *; lia)).
  induction 1 as [|path data files mods Hl Hs IH|path data files mods Hr Hs IH]; intros Hf done_ l st Hst Hd; cbn [fold_left].
  - apply returns_ret. exists []. rewrite !app_nil_r, Htake by done. split; [constructor | exact Hst].
  - apply Forall_cons in Hf as [Hlen Hf]. rewrite bind_ret. cbn [fst snd].
    destruct (Z.lt_ge_cases (zlen done_) MAX_MODULES) as [Hlt|Hge].
    + destruct (load_module_loadable m0 s0 done_ l st path data Hst Hlt Hl Hlen) as (st' & -> & Hst').
      eapply returns_mono; [apply (IH Hf _ _ st' Hst'); rewrite zlen_app; change (zlen [(path, data)]) with 1; lia|].
      intros st2 (l' & Hl' & Hres). exists (loading path data ++ l'). rewrite zlen_app in Hl'. rewrite <- !app_assoc in Hres.
      split; [by apply ml_load | exact Hres].
    + destruct (load_module_skips m0 s0 done_ l st path data Hst Hge) as (st' & -> & Hst').
      eapply returns_mono; [apply (IH Hf _ _ st' Hst' Hd)|]. intros st2 (l' & Hl' & Hres). exists (skipping path ++ l').
      rewrite <- app_assoc in Hres. rewrite Hfull by done. split; [by apply ml_skip | exact Hres].
  - apply Forall_cons in Hf as [Hlen Hf]. rewrite bind_ret. cbn [fst snd].
    destruct (Z.lt_ge_cases (zlen done_) MAX_MODULES) as [Hlt|Hge].
    + destruct (load_module_refused m0 s0 done_ l st path data Hst Hlt Hr Hlen) as (st' & -> & Hst').
      eapply returns_mono; [apply (IH Hf _ _ st' Hst' Hd)|]. intros st2 (l' & Hl' & Hres).
      exists (loading path data ++ failing path ++ l'). rewrite <- !app_assoc in Hres. split; [by apply ml_refuse | exact Hres].
    + destruct (load_module_skips m0 s0 done_ l st path data Hst Hge) as (st' & -> & Hst').
      eapply returns_mono; [apply (IH Hf _ _ st' Hst' Hd)|]. intros st2 (l' & Hl' & Hres). exists (skipping path ++ l').
      rewrite <- app_assoc in Hres. split; [by apply ml_skip | exact Hres].
Qed.

Lemma fold_left_fmap {A B R} (h : A -> B) (g : R -> B -> R) l : forall r,
  fold_left g (h <$> l) r = fold_left (fun r x => g r (h x)) l r.
Proof. induction l as [|x l IH]; intros r; simpl; [done | apply IH]. Qed.

(** The module files of an archive. *)
Definition module_files (items : list Item) : list file :=
  (fun it => (trim_end_matches slash (i_name it), i_data it)) <$> List.filter (spec_matches MODULE_DIR MODULE_SUFFIX) items.

Definition font_file (items : list Item) : option (list Z) :=
  it ← spec_find items FONT_PATH; if i_dir it then None else Some (i_data it).

Lemma font_file_in items data : font_file items = Some data -> exists it, it ∈ items /\ i_data it = data.
Proof.
  unfold font_file, spec_find. intros Hd. destruct (List.find _ items) as [it|] eqn:Hf; [|done]. simpl in Hd.
  apply List.find_some in Hf as [Hin _]. apply list_elem_of_In in Hin. destruct (i_dir it); [done|]. injection Hd as <-. by exists it.
Qed.

Definition font_lines (items : list Item) : list piece :=
  match font_file items with
  | Some data => [Lit (text "Font loaded, size="); Deca (zlen data); Lit [10]] ++
      match Psf.parse data with Ret None => [note "WARN: failed to parse PSF font"] | _ => [] end
  | None => [note "WARN: font not found in initrd"]
  end.

(** [s] after the output [l]. *)
Definition says (l : list piece) (s s' : Sched.Sched D) : Prop :=
  exists d, s' = Sched.with_dev s d /\ log fuel l (Sched.dev s) = Ret d /\ Serial.ready d.

Lemma say_says l s : Serial.ready (Sched.dev s) -> Forall piece_ok l -> returns (say l s) (says l s).
Proof. intros Hr Hl. destruct (say_spec l s Hr Hl) as (d & -> & Hd). apply returns_ret. by exists d. Qed.

Lemma says_app l1 l2 s s1 s2 : says l1 s s1 -> says l2 s1 s2 -> says (l1 ++ l2) s s2.
Proof.
  intros (d1 & -> & H1 & _) (d2 & -> & H2 & Hr). exists d2. split; [done|]. split; [|exact Hr]. by rewrite log_app, H1.
Qed.

Lemma says_ready l s s' : says l s s' -> Serial.ready (Sched.dev s').
Proof. by intros (d & -> & _ & Hr). Qed.

(** The characters. *)
Lemma log_sent l d d' : Serial.ready d -> Forall piece_ok l -> log fuel l d = Ret d' ->
  exists o, reads l o /\ uart_sent d' = uart_sent d ++ o.
Proof.
  intros Hr Hl Hd. destruct (logs_returns _ _ _ (log_logs fuel Hfuel l _ Hr Hl)) as (d2 & o & He & _ & Ho & Hs).
  rewrite Hd in He. injection He as ->. by exists o.
Qed.

Lemma load_font_spec fs items fb mem s : read fs FONT_PATH = Ret (font_file items) ->
  Forall (fun it => bytes_ok (i_data it) /\ zlen (i_data it) < 2 ^ 62) items ->
  Vesa.wf fb mem -> Vesa.width fb < 2 ^ 62 -> Vesa.height fb < 2 ^ 62 -> Serial.ready (Sched.dev s) ->
  returns (load_font fs fb mem s) (fun '(font, mem', s') => Vesa.wf fb mem' /\ says (font_lines items) s s' /\
    match font_file items with Some data => Psf.parse data = Ret font | None => font = None end).
Proof.
  intros Hread Hitems Hwf HW HH Hr. unfold load_font, font_lines. rewrite Hread, bind_ret.
  destruct (font_file items) as [data|] eqn:Hd.
  2: { eapply returns_bind; [apply say_says; [done | by repeat constructor]|]. intros s1 Hs1. by apply returns_ret. }
  apply font_file_in in Hd as (it & Hin & <-). rewrite Forall_forall in Hitems. destruct (Hitems it Hin) as [Hb Hl].
  set (data := i_data it) in *.
  pose proof (zlen_nonneg data). eapply returns_bind; [apply say_says; [done | repeat constructor; lia]|]. intros s1 Hs1.
  destruct (Psf.parse_cases data Hb Hl) as [->|(f & -> & Hf)]; rewrite bind_ret.
  - eapply returns_bind; [apply say_says; [by eapply says_ready | by repeat constructor]|]. intros s2 Hs2.
    apply returns_ret. split; [done|]. split; [by eapply says_app | done].
  - assert (Forall (in_word 32) GREETING) as Hg by (by repeat constructor).
    eapply returns_bind; [apply Psf.draw_chars_paints; try done; change (zlen GREETING) with 9; lia|].
    intros mem' Hp. apply returns_ret. split; [by eapply Vesa.paints_wf|]. by rewrite app_nil_r.
Qed.

(** [Sched.init] leaves the console as it is. *)
Lemma init_console km d s : Serial.ready d -> Sched.init (Sched.boot km d) = Ret s ->
  Serial.ready (Sched.dev s) /\ uart_sent (Sched.dev s) = uart_sent d.
Proof.
  intros Hr (lo & hi & ->)%init_dev.
  destruct (ready_outb PIT_CMD 0x34 d) as [H1 E1]; [done..|].
  destruct (ready_outb PIT_CH0_DATA lo (outb PIT_CMD 0x34 d)) as [H2 E2]; [done | done | exact H1|].
  destruct (ready_outb PIT_CH0_DATA hi (outb PIT_CH0_DATA lo (outb PIT_CMD 0x34 d))) as [H3 E3]; [done | done | exact H2|].
  destruct (clear_mask_console 0 (outb PIT_CH0_DATA hi (outb PIT_CH0_DATA lo (outb PIT_CMD 0x34 d)))) as [H4 E4]; [lia | exact H3|]. split; [exact H4 | congruence].
Qed.

(** What the boot loader and the start-up so far provide: a well-formed archive as boot module
    "initrd" with the loadable modules [mods], a frame buffer and the static buffers. *)
Record bootable (items : list Item) (response : option (list (list Z * list Z))) (fb : Vesa.Framebuffer)
    (mem : list Z) (bufs : list (list Z)) (mods : list file) : Prop := {
  ba_items : Forall item_ok items /\ zlen items <= MAX_ENTRIES /\ zlen (archive_of items) < 2 ^ 62;
  ba_bytes : Forall (fun it => bytes_ok (i_data it)) items;
  ba_module : find_module response INITRD = Some (archive_of items);
  ba_fb : Vesa.wf fb mem /\ Vesa.width fb < 2 ^ 62 /\ Vesa.height fb < 2 ^ 62;
  ba_bufs : zlen bufs = MAX_MODULES /\ Forall (fun b => zlen b = MODULE_BUF_SIZE) bufs;
  ba_mods : selects (module_files items) mods;
}.

Definition MOUNTED : piece := note "initrd: tarfs mounted".
Definition READY : piece := note "avaria ready.".

(** The kernel with everything loaded: archive, font, picture, the first 16 modules [ms] in their buffers and
    executable, the tasks, started from [s0], and what the console shows of that. *)
Record booted (items : list Item) (ms : list file) (fb : Vesa.Framebuffer) (m : Words) (s0 : Sched.Sched D) (k : Kernel) : Prop := {
  bt_fs : Initrd.parse (archive_of items) = Ret (Some (KERNEL_FS k));
  bt_font : match font_file items with Some data => Psf.parse data = Ret (KERNEL_FONT k) | None => KERNEL_FONT k = None end;
  bt_screen : Vesa.wf fb (screen k);
  bt_count : mod_idx (loader k) = zlen ms;
  bt_images i path data : ms !! i = Some (path, data) ->
    exists buf, zget (MODULE_BUFS (loader k)) (Z.of_nat i) = Some buf /\ holds buf data;
  bt_tables : grants m (tables (loader k)) /\ forall v, translate hhdm cr3 (tables (loader k)) v = translate hhdm cr3 m v;
  bt_tasks : exists sf s1 s2 r s3 l, says (MOUNTED :: font_lines items) s0 sf /\ Sched.init sf = Ret s1 /\
    spawn_all 0 ms s1 = Ret s2 /\ Sched.spawn task_trampoline shell_task_entry 0 SHELL_NAME s2 = Ret (r, s3) /\
    module_lines 0 (module_files items) l /\ exists d, log fuel (l ++ [READY]) (Sched.dev s1) = Ret d /\
      tasks (loader k) = Sched.start (Sched.with_dev s3 d);
  bt_log : exists l o, module_lines 0 (module_files items) l /\ reads (MOUNTED :: font_lines items ++ l ++ [READY]) o /\
    uart_sent (Sched.dev (tasks (loader k))) = uart_sent (Sched.dev s0) ++ o;
  bt_inv : inv (tasks (loader k));
}.

Lemma module_lines_ok k files l : module_lines k files l -> Forall (fun f : file => zlen f.2 < 2 ^ 62) files -> Forall piece_ok l.
Proof.
  assert (forall path data, zlen data < 2 ^ 62 -> Forall piece_ok (loading path data)) as Hload.
  { intros path data Hd. pose proof (zlen_nonneg data). repeat constructor; lia. }
  induction 1 as [k|k path data files l _ _ IH|k path data files l _ _ _ IH|k path data files l _ _ _ IH];
    rewrite ?Forall_cons; [constructor|..]; intros [Hlen Hf]; simpl in Hlen; repeat apply Forall_app_2; auto; by repeat constructor.
Qed.

Lemma files_size items : Forall (fun it => zlen (i_data it) < 2 ^ 62) items -> Forall (fun f : file => zlen f.2 < 2 ^ 62) (module_files items).
Proof.
  intros Hitems. apply Forall_fmap, Forall_forall. intros it Hin. apply list_elem_of_In, List.filter_In in Hin as [Hin _].
  apply list_elem_of_In in Hin. rewrite Forall_forall in Hitems. by apply Hitems.
Qed.

Lemma font_lines_ok items : Forall (fun it => zlen (i_data it) < 2 ^ 62) items -> Forall piece_ok (font_lines items).
Proof.
  intros Hitems. unfold font_lines. destruct (font_file items) as [data|] eqn:Hd; [|by repeat constructor].
  apply font_file_in in Hd as (it & Hin & <-). rewrite Forall_forall in Hitems. specialize (Hitems it Hin).
  pose proof (zlen_nonneg (i_data it)). assert (in_word 64 (zlen (i_data it))) by (unfold in_word; lia).
  destruct (Psf.parse (i_data it)) as [[f|]|]; repeat (apply Forall_cons; split; [done|]); by apply Forall_nil.
Qed.

(** From the start of the scheduler's set-up to the last module. *)
Lemma modules_spec items mods fs bufs m km d : Serial.ready d -> Buddy.wf (BUDDY km) ->
  zlen bufs = MAX_MODULES /\ Forall (fun b => zlen b = MODULE_BUF_SIZE) bufs ->
  selects (module_files items) mods -> Forall (fun f : file => zlen f.2 < 2 ^ 62) (module_files items) ->
  (forall (f : list Z -> list Z -> outcome Loader -> outcome Loader) acc,
     for_each_matching MODULE_DIR MODULE_SUFFIX f fs acc = Ret (fold_left (fun r x => f x.1 x.2 r) (module_files items) acc)) ->
  exists s1 st l, Sched.init (Sched.boot km d) = Ret s1 /\ load_modules fs (mkLoader 0 bufs m s1) = Ret st /\
    module_lines 0 (module_files items) l /\ loaded m s1 (take (Z.to_nat MAX_MODULES) mods) l st.
Proof.
  intros Hr Hheap Hbufs Hsel Hlen Heach. destruct (Sched.init (Sched.boot km d)) as [s1|] eqn:Hinit; [|discriminate Hinit].
  assert (sched_init s1) as Hsi by (by exists km, d). apply sched_init_inv in Hsi as Hinv.
  assert (in_state s1 (CURRENT s1) Running) as Hrun by (injection Hinit as <-; by eexists).
  destruct (init_console km d s1 Hr Hinit) as [Hr1 _]. exists s1.
  destruct (load_files m s1 (module_files items) mods Hsel Hlen [] [] (mkLoader 0 bufs m s1)) as (st & Hst & l & Hl & Hld); [|done|].
  { split; cbn [mod_idx MODULE_BUFS tables tasks]; try done. exists s1. by destruct s1. }
  exists st, l. split; [done|]. split; [|done]. unfold load_modules. rewrite Heach, bind_ret. exact Hst.
Qed.

(** The shell and the last line. *)
Lemma shell_spec m s1 ms l st : loaded m s1 ms l st ->
  exists r s2 s3 s3' d, spawn_all 0 ms s1 = Ret s2 /\
    Sched.spawn task_trampoline shell_task_entry 0 SHELL_NAME s2 = Ret (r, s3) /\
    Sched.spawn task_trampoline shell_task_entry 0 SHELL_NAME (tasks st) = Ret (r, s3') /\
    log fuel (l ++ [READY]) (Sched.dev s1) = Ret d /\ Serial.ready d /\ say [READY] s3' = Ret (Sched.with_dev s3 d) /\
    inv (Sched.with_dev s3 d).
Proof.
  intros [_ _ _ (s2 & Hs2 & Ht) [Hinv Hrun] _ [Hl Hr]].
  destruct (Sched.spawn_spec task_trampoline shell_task_entry 0 SHELL_NAME (tasks st) Hinv Hrun) as (r & s3' & He & Hinv3 & _).
  pose proof He as He2. rewrite Ht, spawn_with_dev in He2. apply bind_ret_inv in He2 as ([r2 s3] & He2 & [= -> <-]).
  destruct (say_spec [READY] (Sched.with_dev s3 (Sched.dev (tasks st))) Hr) as (d & Hs & Hd & Hrd); [by repeat constructor|].
  exists r, s2, s3, (Sched.with_dev s3 (Sched.dev (tasks st))), d. do 3 (split; [done|]).
  split; [by rewrite log_app, Hl|]. split; [done|]. split; [exact Hs|]. by apply (inv_with_dev _ d) in Hinv3.
Qed.

Lemma boot_spec items response fb mem bufs m km d mods : bootable items response fb mem bufs mods -> Buddy.wf (BUDDY km) ->
  Serial.ready d -> exists k, boot_from_initrd response fb mem bufs m (Sched.boot km d) = Ret (Started k) /\
    booted items (take (Z.to_nat MAX_MODULES) mods) fb m (Sched.boot km d) k.
Proof.
  intros [(Hok & Hn & Hal) Hbytes Hresp (Hwf & HW & HH) Hbufs Hsel] Hheap Hr.
  assert (Forall (fun it => zlen (i_data it) < 2 ^ 62) items) as Hsize
    by (eapply Forall_impl; [exact Hok|]; intros it Hit; pose proof (ok_size it Hit); lia).
  destruct (archive_parsed items Hok Hn Hal) as (fs & Hparse & Hread & Heach).
  unfold boot_from_initrd. rewrite Hresp, Hparse, bind_ret. set (s0 := Sched.boot km d).
  destruct (say_says [MOUNTED] s0 Hr) as (sm & Hsm & Hm); [by repeat constructor|].
  change [note "initrd: tarfs mounted"] with [MOUNTED]. rewrite Hsm, bind_ret.
  destruct (Hread FONT_PATH) as [Hfont _]. cbv zeta in Hfont. change (trim_start_matches slash FONT_PATH) with FONT_PATH in Hfont.
  destruct (load_font_spec fs items fb mem sm Hfont) as ([[font mem'] sf] & -> & Hwf' & Hf & Hpf); [|done..|by eapply says_ready|].
  { apply Forall_and. split; [exact Hbytes | exact Hsize]. }
  rewrite bind_ret. pose proof (says_app _ _ _ _ _ Hm Hf) as Hsf. pose proof Hsf as (df & -> & Hdf & Hrf).
  destruct (modules_spec items mods fs bufs m km df Hrf Hheap Hbufs Hsel) as (s1 & st & l & Hinit & Hload & Hl & Hld).
  { apply files_size, Hsize. }
  { intros f acc. rewrite Heach. unfold module_files. by rewrite fold_left_fmap. }
  destruct (init_console km df s1 Hrf Hinit) as [Hr1 Hsent].
  destruct (shell_spec _ _ _ _ _ Hld) as (r & s2 & s3 & s3' & d4 & H2 & H3 & H3' & Hd4 & Hr4 & Hsay & Hinv).
  change (Sched.with_dev s0 df) with (Sched.boot km df) in *. change [note "avaria ready."] with [READY].
  rewrite Hinit, bind_ret, Hload, bind_ret, H3', bind_ret, Hsay, bind_ret.
  destruct (log_sent (MOUNTED :: font_lines items) d df Hr) as (o1 & R1 & S1); [|exact Hdf|].
  { constructor; [done | by apply font_lines_ok]. }
  destruct (log_sent (l ++ [READY]) (Sched.dev s1) d4 Hr1) as (o2 & R2 & S2); [|exact Hd4|].
  { apply Forall_app_2; [|by repeat constructor]. eapply module_lines_ok; [exact Hl | by apply files_size]. }
  eexists. split; [reflexivity|]. destruct Hld as [Hidx _ Himg _ _ [Hgr Htr] _].
  split; cbn [KERNEL_FS KERNEL_FONT screen loader mod_idx MODULE_BUFS tables tasks]; try done.
  - exists (Sched.boot km df), s1, s2, r, s3, l. do 5 (split; [done|]). by exists d4.
  - exists l, (o1 ++ o2). split; [exact Hl|]. split; [exact (reads_app _ _ _ _ R1 R2)|].
    cbn [Sched.start Sched.with_dev Sched.boot Sched.dev s0]. by rewrite S2, Hsent, S1, app_assoc.
  - by destruct Hinv.
Qed.

(** Without a usable RAM disk the processor halts, after saying so. *)
Lemma boot_halts response fb mem bufs m s : Serial.ready (Sched.dev s) ->
  match find_module response INITRD with None => True | Some data => Initrd.parse data = Ret None end ->
  exists s', boot_from_initrd response fb mem bufs m s = Ret (Halted s') /\
    says (match find_module response INITRD with
          | None => [note "WARN: initrd not found"; READY]
          | Some _ => [note "FATAL: failed to parse initrd"]
          end) s s'.
Proof.
  intros Hr Hp. unfold boot_from_initrd. destruct (find_module response INITRD) as [data|].
  - rewrite Hp, bind_ret. destruct (say_says [note "FATAL: failed to parse initrd"] s Hr) as (s' & -> & Hs); [by repeat constructor|].
    by exists s'.
  - destruct (say_says [note "WARN: initrd not found"; READY] s Hr) as (s' & He & Hs); [by repeat constructor|].
    exists s'. unfold READY in He. by rewrite He.
Qed.

(** The kernel boots what the RAM disk holds.  Given a well-formed archive as boot module "initrd",
    no step crashes: the archive is mounted; the font, if the file is there and parses, is kept and the greeting
    drawn inside the frame buffer; the well-formed modules among the files "boot/modules/*.ko", at
    most the first 16 of them, are loaded in archive order, each complete in a buffer of its own that
    no later module touches, and made executable without changing a translation; in the same order each
    becomes a task at its relocated entry point; refused files are skipped.  Then the shell is created, and the
    scheduler starts in a state that satisfies its invariant.  The console shows a line for the archive, the font and
    every module file, with a warning for each one that is refused or too many. *)
Theorem boot_loads_modules (items : list Item) (response : option (list (list Z * list Z))) (fb : Vesa.Framebuffer)
    (mem : list Z) (bufs : list (list Z)) (m : Words) (km : KMem) (d : D) (mods : list file)
    (Hboot : bootable items response fb mem bufs mods) (Hheap : Buddy.wf (BUDDY km)) (Hready : Serial.ready d) :
  exists k, boot_from_initrd response fb mem bufs m (Sched.boot km d) = Ret (Started k) /\
    booted items (take (Z.to_nat MAX_MODULES) mods) fb m (Sched.boot km d) k.
Proof. by apply boot_spec. Qed.

(** With fifteen live tasks beside the idle task, which the loader alone can create, the shell
    is not started: the kernel ignores [spawn]'s answer, and goes on to say that it is ready. *)
Theorem shell_crowded_out (s : Sched.Sched D) (Hinv : inv s) (Hrun : in_state s (CURRENT s) Running)
    (Hfull : forall i, 1 <= i < MAX_TASKS -> in_state s i Ready \/ in_state s i Running) :
  exists s', Sched.spawn task_trampoline shell_task_entry 0 SHELL_NAME s = Ret (None, s') /\ TASKS s' = TASKS s.
Proof.
  destruct (Sched.spawn_spec task_trampoline shell_task_entry 0 SHELL_NAME s Hinv Hrun) as ([i|] & s' & Hs & _ & _ & Hr);
    [exfalso | by exists s'].
  destruct Hr as (Hi & Hfree & _). destruct (Hfull i Hi) as [Hl|Hl], Hfree as [Hf|Hf];
    by pose proof (in_state_unique _ _ _ _ Hl Hf).
Qed.
End code.

(** * An example *)

(** [boot/modules/a.ko], a module, and [boot/modules/b.ko], an empty file. *)
Definition demo_disk : list Item :=
  [demo_item (MODULE_DIR ++ [97] ++ MODULE_SUFFIX) (demo_elf 64) false;
   demo_item (MODULE_DIR ++ [98] ++ MODULE_SUFFIX) [] false].

Lemma demo_disk_ok : Forall item_ok demo_disk.
Proof.
  repeat (apply Forall_cons; split; [split; try reflexivity; try done;
    repeat (apply Forall_cons; split; [done|]); by apply Forall_nil|]).
  by apply Forall_nil.
Qed.

Lemma demo_refused : refused [].
Proof. intros buf base _. by eexists _, buf. Qed.

Lemma demo_selects : exists p, selects (module_files demo_disk) [(p, demo_elf 64)].
Proof.
  eexists. apply sel_load; [|apply sel_skip; [exact demo_refused | apply sel_nil]].
  split; [exact demo_elf_ok | vm_compute; discriminate].
Qed.

Lemma demo_bootable p : selects (module_files demo_disk) [(p, demo_elf 64)] ->
  bootable demo_disk (Some [(INITRD, archive_of demo_disk)]) demo_fb demo_mem (replicate 16 (replicate (Z.to_nat 0x10000) 0))
    [(p, demo_elf 64)].
Proof.
  intros Hsel. split.
  - split; [exact demo_disk_ok|]. by split.
  - apply Forall_cons; split; [apply demo_elf_bytes|]. apply Forall_cons; split; by apply Forall_nil.
  - reflexivity.
  - split; [exact demo_fb_wf | done].
  - split; [by rewrite zlen_replicate|]. apply Forall_replicate. by rewrite zlen_replicate.
  - exact Hsel.
Qed.

(** The board of [Start], with its serial port initialised. *)
Definition demo_console : DemoBoard := mkBoard (mkUart [] 0 false) demo_pics demo_timer.

Lemma boot_loads_modules_witness : exists k,
  boot_from_initrd 3 0x5000 0x6000 0x700000 0x8000 0 0x1000 (Some [(INITRD, archive_of demo_disk)]) demo_fb demo_mem
    (replicate 16 (replicate (Z.to_nat 0x10000) 0)) ∅ (Sched.boot demo_heap demo_console) = Ret (Started k) /\
  mod_idx (loader k) = 1.
Proof.
  destruct demo_selects as (p & Hsel).
  assert (uart_polls (D:=DemoBoard) < 3)%nat as Hp by exact (le_n 3).
  destruct (boot_loads_modules (D := DemoBoard) 3 0x5000 0x6000 0x700000 0x8000 0 0x1000 Hp ltac:(done) _ _ _ _ _ ∅ demo_heap demo_console _
    (demo_bootable p Hsel) demo_wf) as (k & Hk & Hb); [by split; simpl; lia|].
  exists k. split; [exact Hk | by apply bt_count in Hb].
Defined.

Definition demo_full : Sched.Sched Recorder :=
  Sched.with_tasks (Sched.boot demo_heap (mkRecorder [] [])) (demo_task Running 0 :: replicate 15 (demo_task Ready 1)).

Lemma demo_full_lookup i t : task_at demo_full i t -> i = 0 /\ t = demo_task Running 0 \/ 1 <= i < MAX_TASKS /\ t = demo_task Ready 1.
Proof.
  intros Ht. pose proof (zget_Some _ _ _ Ht) as Hi. change (zlen (TASKS demo_full)) with 16 in Hi. unfold task_at in Ht.
  destruct (decide (i = 0)) as [->|Hne]; [injection Ht as <-; by left|]. right. split; [unfold MAX_TASKS; lia|].
  unfold demo_full, zget in Ht. cbn [TASKS Sched.with_tasks] in Ht. destruct (0 <=? i); [|done].
  destruct (Z.to_nat i) as [|n] eqn:Hn; [lia|]. change (replicate 15 (demo_task Ready 1) !! n = Some t) in Ht.
  by apply lookup_replicate in Ht as [-> _].
Qed.

Lemma shell_crowded_out_witness : exists s', Sched.spawn 0x5000 0x6000 0 SHELL_NAME demo_full = Ret (None, s').
Proof.
  assert (in_state demo_full (CURRENT demo_full) Running) as Hrun by (by exists (demo_task Running 0)).
  destruct (shell_crowded_out 0x5000 0x6000 demo_full) as (s' & Hs & _); [|exact Hrun| |by exists s'].
  - split; [reflexivity | simpl; unfold MAX_TASKS; lia | left; by exists (demo_task Running 0)
      | left; by exists (demo_task Running 0) | | apply demo_wf | simpl; lia].
    intros i (t & [[-> ->]|[_ ->]]%demo_full_lookup & Hst); [reflexivity | discriminate Hst].
  - intros i Hi. left. exists (demo_task Ready 1). split; [|done]. unfold task_at, demo_full. cbn [TASKS Sched.with_tasks].
    unfold zget. decide_tests. destruct (Z.to_nat i) as [|n] eqn:Hn; [lia|].
    change (replicate 15 (demo_task Ready 1) !! n = Some (demo_task Ready 1)). apply lookup_replicate.
    unfold MAX_TASKS in Hi. split; [done | lia].
Defined.
