(* ===== verification/Api.v ===== *)
(** The interface of kernel modules: the calls of [crates/avaria-api] and the
    kernel's functions behind them in [src/main.rs].  [HostLaws] is what a module may
    rely on; the kernel keeps it. *)
From stdpp Require Import gmap.
From S2P Require Import Prelude Word Port PageSource Buddy Slab Mem Heap Serial Idt Sched Vfs Initrd Gfx Tsc Utf8.

(** * The table of functions *)

(** The functions act on the kernel's state [S].  A pointer and a length that
    describe a string are its bytes; a pointer that the kernel stores for the module, [out_ptr]
    of [fs_read], is the memory it points to, [None] for null. *)
Record avariaApi (S : Type) := mkApi {
  serial_puts : list Z -> S -> outcome S;
  fb_draw_str : Z -> Z -> list Z -> Z -> Z -> S -> outcome S;
  fs_read : list Z -> option (list Z) -> Z -> S -> outcome (Z * option (list Z) * Z);
  tsc_read : S -> Z * S;
  tsc_freq_khz : S -> Z;
  kmalloc : Z -> S -> outcome (Z * S);
  kfree : Z -> Z -> S -> outcome S;
  preempt_disable : S -> S;
  preempt_enable : S -> S;
}.
Arguments serial_puts {S} _. Arguments fb_draw_str {S} _. Arguments fs_read {S} _.
Arguments tsc_read {S} _. Arguments tsc_freq_khz {S} _. Arguments kmalloc {S} _.
Arguments kfree {S} _. Arguments preempt_disable {S} _. Arguments preempt_enable {S} _.

(** ** The module's side *)

Module Client.
Section methods.
Context {S : Type} (self : avariaApi S).
Implicit Types (k : S).

Definition serial_print (s : list Z) k : outcome S := serial_puts self s k.

Definition draw_str (x y : Z) (s : list Z) (fg bg : Z) k : outcome S := fb_draw_str self x y s fg bg k.

(** [from_raw_parts(ptr, len)] *)
Definition from_raw_parts (ptr : list Z) (len : Z) : outcome (list Z) :=
  if len <=? zlen ptr then Ret (take (Z.to_nat len) ptr) else Crash UndefinedBehaviour.

Definition fs_read_file (path : list Z) k : outcome (option (list Z)) :=
  '(ret, ptr, len) ← fs_read self path None 0 k;
  match ptr with
  | Some ptr => if ret =? 0 then s ← from_raw_parts ptr len; Ret (Some s) else Ret None
  | None => Ret None
  end.

Definition rdtsc k : Z * S := tsc_read self k.

Definition tsc_khz k : Z := tsc_freq_khz self k.

Definition ticks_to_us (ticks : Z) k : Z :=
  let freq := tsc_khz k in
  if freq =? 0 then 0 else ticks ⊠ 1000 / freq.

Definition ticks_to_ms (ticks : Z) k : Z :=
  let freq := tsc_khz k in
  if freq =? 0 then 0 else ticks / freq.

Definition alloc (size : Z) k : outcome (Z * S) := kmalloc self size k.

Definition free (ptr size : Z) k : outcome S := kfree self ptr size k.

Definition disable_preempt k : S := preempt_disable self k.

Definition enable_preempt k : S := preempt_enable self k.
End methods.
End Client.

(** ** The kernel's side *)

Section kernel.
Context {D : Type} `{PortDevice D, TscInsn D}.
(** Bound on the polls of the serial port. *)
Context (fuel : nat).

(** What the functions reach: the statics of [main.rs], the frame buffer's
    memory, scheduler, heap and devices ([sched]), the frequency of the counter, and the bytes of
    the heap's region. *)
Record Kern := mkKern {
  KERNEL_FB : option Vesa.Framebuffer;
  KERNEL_FONT : option Psf.PsfFont;
  KERNEL_FS : option TarFs;
  screen : list Z;
  sched : Sched D;
  TSC_FREQ_KHZ : Z;
  ram : gmap Z Z;
}.

Definition with_screen (k : Kern) (mem : list Z) : Kern :=
  mkKern (KERNEL_FB k) (KERNEL_FONT k) (KERNEL_FS k) mem (sched k) (TSC_FREQ_KHZ k) (ram k).

Definition with_sched (k : Kern) (s : Sched D) : Kern :=
  mkKern (KERNEL_FB k) (KERNEL_FONT k) (KERNEL_FS k) (screen k) s (TSC_FREQ_KHZ k) (ram k).

Definition with_ram (k : Kern) (m : gmap Z Z) : Kern :=
  mkKern (KERNEL_FB k) (KERNEL_FONT k) (KERNEL_FS k) (screen k) (sched k) (TSC_FREQ_KHZ k) m.

Definition with_heap (s : Sched D) (m : KMem) : Sched D :=
  mkSched (TASKS s) (CURRENT s) (ACTIVE s) (TICK_COUNT s) (PREEMPT_COUNT s) (rsp0 s) m (IF s) (dev s).

Definition api_serial_puts (s : list Z) (k : Kern) : outcome Kern :=
  d ← Serial.puts fuel s (dev (sched k));
  Ret (with_sched k (with_dev (sched k) d)).

Definition api_fb_draw_str (x y : Z) (s : list Z) (fg bg : Z) (k : Kern) : outcome Kern :=
  match KERNEL_FB k, KERNEL_FONT k with
  | Some f, Some fnt =>
      cs ← chars s;
      mem ← Psf.draw_str fnt f x y cs fg bg (screen k);
      Ret (with_screen k mem)
  | _, _ => Ret k
  end.

(** The result, [*out_ptr] and [*out_len]. *)
Definition api_fs_read (path : list Z) (out_ptr : option (list Z)) (out_len : Z) (k : Kern) :
    outcome (Z * option (list Z) * Z) :=
  match KERNEL_FS k with
  | Some f =>
      data ← Initrd.fs_read f path;
      match data with
      | Some data => Ret (0, Some data, zlen data)
      | None => Ret (-1, out_ptr, out_len)
      end
  | None => Ret (-1, out_ptr, out_len)
  end.

Definition api_tsc_read (k : Kern) : Z * Kern :=
  let '(t, d) := Tsc.rdtsc (dev (sched k)) in (t, with_sched k (with_dev (sched k) d)).

Definition api_tsc_freq_khz (k : Kern) : Z := Tsc.freq_khz (TSC_FREQ_KHZ k).

Definition api_kmalloc (size : Z) (k : Kern) : outcome (Z * Kern) :=
  '(ptr, m) ← Mem.kmalloc size (heap (sched k));
  Ret (ptr, with_sched k (with_heap (sched k) m)).

Definition api_kfree (ptr size : Z) (k : Kern) : outcome Kern :=
  m ← Mem.kfree ptr size (heap (sched k));
  Ret (with_sched k (with_heap (sched k) m)).

Definition api_preempt_disable (k : Kern) : Kern := with_sched k (Sched.preempt_disable (sched k)).

Definition api_preempt_enable (k : Kern) : Kern := with_sched k (Sched.preempt_enable (sched k)).

Definition AVARIA_API : avariaApi Kern :=
  mkApi Kern api_serial_puts api_fb_draw_str api_fs_read api_tsc_read api_tsc_freq_khz
    api_kmalloc api_kfree api_preempt_disable api_preempt_enable.
End kernel.
Arguments Kern : clear implicits.

(** * What a module may rely on *)

(** [store p v] is the module's own store of a byte; [good] states are those in which the
    promises hold, [output] is the serial line, [preempt] the nesting of sections without preemption. *)
Class HostLaws {S : Type} (api : avariaApi S) (store : Z -> Z -> S -> outcome S) := {
  good : S -> Prop;
  output : S -> list Z;
  preempt : S -> Z;
  writable : S -> Z -> Prop;
  quiet k k' := good k' /\ output k' = output k /\ preempt k' = preempt k /\
    tsc_freq_khz api k' = tsc_freq_khz api k;
  khz_law k : good k -> in_word 64 (tsc_freq_khz api k);
  puts_law s k : good k -> returns (serial_puts api s k) (fun k' => good k' /\
    output k' = output k ++ s /\ preempt k' = preempt k /\ tsc_freq_khz api k' = tsc_freq_khz api k);
  tsc_law k : good k -> in_word 64 (tsc_read api k).1 /\ quiet k (tsc_read api k).2;
  kmalloc_law size k : good k -> in_word 64 size ->
    returns (kmalloc api size k) (fun '(p, k') => quiet k k' /\ in_word 64 p /\
      (p <> 0 -> writable k' p));
  store_law p v k : good k -> writable k p -> in_word 8 v -> returns (store p v k) (quiet k);
  kfree_law p size k : good k -> in_word 64 p -> in_word 64 size -> returns (kfree api p size k) (quiet k);
  disable_law k : good k -> preempt k + 1 < 2 ^ 32 ->
    let k' := preempt_disable api k in good k' /\ output k' = output k /\ preempt k' = preempt k + 1 /\
      tsc_freq_khz api k' = tsc_freq_khz api k;
  enable_law k : good k -> 0 < preempt k ->
    let k' := preempt_enable api k in good k' /\ output k' = output k /\ preempt k' = preempt k - 1 /\
      tsc_freq_khz api k' = tsc_freq_khz api k;
}.

(** ** The kernel keeps the promises *)

(** The counter delivers 32-bit halves and reading it does not touch the
    serial port, which may become free in the meantime. *)
Class QuietTsc (D : Type) `{Uart D, TscInsn D} := {
  tsc_halves d : in_word 32 (insn_rdtsc d).1.1 /\ in_word 32 (insn_rdtsc d).1.2;
  tsc_quiet d : let d' := (insn_rdtsc d).2 in
    uart_sent d' = uart_sent d /\ uart_dlab d' = uart_dlab d /\ (uart_busy d' <= uart_busy d)%nat;
}.

Section host.
Context {D : Type} `{QuietTsc D}.
Context (fuel : nat) (Hfuel : (uart_polls < fuel)%nat).

Abbreviation K := (Kern D).
Abbreviation API := (AVARIA_API (D:=D) fuel).

(** A store of the module into the heap's region. *)
Definition store_byte (p v : Z) (k : K) : outcome K :=
  if bool_decide (Buddy.base (BUDDY (heap (sched k))) <= p) &&
     bool_decide (p + 1 <= Buddy.base (BUDDY (heap (sched k))) + total_pages (BUDDY (heap (sched k))) * 4096)
  then Ret (with_ram k (<[p := v]> (ram k))) else Crash UndefinedBehaviour.

Record sound (k : K) : Prop := {
  so_console : ready (dev (sched k));
  so_heap : robust (heap (sched k));
  so_count : in_word 32 (PREEMPT_COUNT (sched k));
  so_khz : in_word 64 (TSC_FREQ_KHZ k);
}.

Lemma rdtsc_word (d : D) : in_word 64 (Tsc.rdtsc d).1 /\ (Tsc.rdtsc d).2 = (insn_rdtsc d).2.
Proof.
  unfold Tsc.rdtsc. destruct (tsc_halves d) as [Hlo Hhi].
  destruct (insn_rdtsc d) as [[lo hi] d']. simpl in *. split; [|done].
  unfold in_word in *. rewrite wshl_small by (unfold in_word; lia).
  rewrite Z.lor_comm, lor_shifted by (unfold in_word; lia). lia.
Qed.

Lemma tsc_ready (d : D) : ready d -> ready (insn_rdtsc d).2 /\ uart_sent (insn_rdtsc d).2 = uart_sent d.
Proof. intros [Hd Hb]. destruct (tsc_quiet d) as (-> & E & Hle). unfold ready. rewrite E. split; [|done]. split; [done | lia]. Qed.

#[export] Program Instance kernel_host : HostLaws API store_byte := {|
  good := sound;
  output k := uart_sent (dev (sched k));
  preempt k := PREEMPT_COUNT (sched k);
  writable k p := inside (BUDDY (heap (sched k))) p 1;
|}.
Next Obligation. intros k Hk. apply Hk. Qed.
Next Obligation.
  intros s k [Hc Hh Hn Hf]. simpl. unfold api_serial_puts.
  destruct (puts_spec fuel Hfuel s (dev (sched k)) Hc) as (d & -> & Hr & Hs). by apply returns_ret.
Qed.
Next Obligation.
  intros k [Hc Hh Hn Hf]. simpl. unfold api_tsc_read.
  destruct (rdtsc_word (dev (sched k))) as [Hw He]. destruct (Tsc.rdtsc (dev (sched k))) as [t d]. simpl in *. subst d.
  destruct (tsc_ready (dev (sched k)) Hc) as [Hr Hs]. done.
Qed.
Next Obligation.
  intros size k [Hc Hh Hn Hf] Hs. simpl. unfold api_kmalloc.
  destruct (kmalloc_ok size (heap (sched k)) Hh Hs) as (p & m & -> & [Hm Hreg] & Hin). apply returns_ret.
  pose proof Hh as [Hb _]. split; [done|].
  assert (p <> 0 -> inside (BUDDY m) p 1) as Hp by (intros Hne; eapply inside_region; [exact Hreg | by apply Hin]).
  split; [|exact Hp]. destruct (decide (p = 0)) as [->|Hne]; [unfold in_word; lia|].
  apply (inside_word (BUDDY m) p 1); [apply Hm | by apply Hp | lia].
Qed.
Next Obligation.
  intros p v k [Hc Hh Hn Hf] [Hlo Hhi] Hv. unfold store_byte. unfold Buddy.PAGE_SIZE in Hhi.
  rewrite !bool_decide_true by done. by apply returns_ret.
Qed.
Next Obligation.
  intros p size k [Hc Hh Hn Hf] Hp Hs. simpl. unfold api_kfree.
  destruct (kfree_ok p size (heap (sched k)) Hh Hp Hs) as (m & -> & [Hm Hreg]). by apply returns_ret.
Qed.
Next Obligation.
  intros k [Hc Hh Hn Hf] Hlt. unfold in_word in *. simpl.
  assert (wadd 32 (PREEMPT_COUNT (sched k)) 1 = PREEMPT_COUNT (sched k) + 1) as E
    by (apply wadd_small; unfold in_word; lia).
  split; [|by rewrite E]. split; simpl; [done | done | | done]. rewrite E. unfold in_word. lia.
Qed.
Next Obligation.
  intros k [Hc Hh Hn Hf] Hpos. unfold in_word in *. simpl. unfold api_preempt_enable, Sched.preempt_enable.
  decide_tests. simpl. split; [|done]. split; simpl; [done | done | unfold in_word; lia | done].
Qed.
End host.

(** * Theorems *)

(** A file read through the pointer and length the kernel stores. *)
Lemma fs_read_file_eq {D} `{PortDevice D, TscInsn D} fuel (k : Kern D) fs path r :
  KERNEL_FS k = Some fs -> Initrd.fs_read fs path = Ret r ->
  Client.fs_read_file (AVARIA_API fuel) path k = Ret r.
Proof.
  intros Hfs Hr. unfold Client.fs_read_file. simpl. unfold api_fs_read. rewrite Hfs, Hr, bind_ret.
  destruct r as [data|]; [|done]. rewrite bind_ret. simpl.
  unfold Client.from_raw_parts. decide_tests. rewrite bind_ret. do 2 f_equal.
  unfold zlen. rewrite Nat2Z.id. by rewrite take_ge.
Qed.

(** C24: The calls of a module arrive at the kernel's components with nothing
    lost in between: text is transmitted byte by byte; a string is drawn as the font draws
    its characters, though it crosses the interface in UTF-8; a file that is read is the
    archive member's contents, a missing file or a directory is [None]; memory is the heap's; the
    conversion of ticks is the kernel's own.  Without frame buffer and font drawing does nothing, without file
    system no file exists. *)
Theorem api_reaches_components {D} `{QuietTsc D} fuel (k : Kern D) : (uart_polls < fuel)%nat -> sound k ->
  (forall s, exists d, Client.serial_print (AVARIA_API fuel) s k = Ret (with_sched k (with_dev (sched k) d)) /\
     ready d /\ uart_sent d = uart_sent (dev (sched k)) ++ s) /\
  (forall x y cs fg bg, Forall code_point cs ->
     Client.draw_str (AVARIA_API fuel) x y (encode cs) fg bg k =
       match KERNEL_FB k, KERNEL_FONT k with
       | Some fb, Some f => mem ← Psf.draw_str f fb x y cs fg bg (screen k); Ret (with_screen k mem)
       | _, _ => Ret k
       end) /\
  (forall items path, Forall item_ok items -> zlen items <= MAX_ENTRIES -> zlen (archive_of items) < 2 ^ 62 ->
     parse (archive_of items) = Ret (KERNEL_FS k) ->
     Client.fs_read_file (AVARIA_API fuel) path k =
       Ret (it ← spec_find items (trim_start_matches slash path);
            if i_dir it then None else Some (i_data it))) /\
  (forall path, KERNEL_FS k = None -> Client.fs_read_file (AVARIA_API fuel) path k = Ret None) /\
  (forall size, Client.alloc (AVARIA_API fuel) size k =
     ('(p, m) ← Mem.kmalloc size (heap (sched k)); Ret (p, with_sched k (with_heap (sched k) m)))) /\
  (forall ticks, Client.ticks_to_us (AVARIA_API fuel) ticks k = Tsc.ticks_to_us (TSC_FREQ_KHZ k) ticks).
Proof.
  intros Hfuel [Hc Hh Hn Hf]. split; [|split; [|split; [|split; [|done]]]].
  - intros s. destruct (puts_spec fuel Hfuel s _ Hc) as (d & Hd & Hr & Hs). exists d. split; [|done].
    unfold Client.serial_print. simpl. unfold api_serial_puts. by rewrite Hd.
  - intros x y cs fg bg Hcs. unfold Client.draw_str. simpl. unfold api_fb_draw_str.
    rewrite chars_encode by done. done.
  - intros items path Hit Hlen Hsz Hp.
    destruct (archive_parsed items Hit Hlen Hsz) as (fs & Hfs & Hread & _).
    destruct (KERNEL_FS k) as [fs'|] eqn:Ek; [|congruence].
    assert (fs' = fs) as -> by congruence. eapply fs_read_file_eq; [done|]. apply Hread.
  - intros path Hk. unfold Client.fs_read_file. simpl. unfold api_fs_read. by rewrite Hk.
Qed.

(** A processor with the console of [Serial]: the counter shows how much was
    transmitted. *)
#[export] Instance demo_tsc : TscInsn Uart16550 := {|
  insn_rdtsc u := (zlen (u_sent u) mod 2 ^ 32, 0, u);
  insn_rdtscp u := (zlen (u_sent u) mod 2 ^ 32, 0, 0, u);
|}.

#[export] Instance demo_quiet : QuietTsc Uart16550.
Proof.
  split; [|done]. intros d. simpl. split; unfold in_word; [apply Z.mod_pos_bound | ]; lia.
Qed.

Definition demo_kernel (fs : option TarFs) : Kern Uart16550 :=
  mkKern None None fs [] (Sched.boot demo_heap (mkUart [] 0 false)) 2400000 ∅.

Lemma demo_sound fs : sound (demo_kernel fs).
Proof.
  split; [split; [done | simpl; lia] | exact (wf_robust _ demo_heap_wf) | |]; unfold in_word; simpl; lia.
Qed.

(** A module reads res/a. *)
Lemma api_reaches_components_witness : exists fs,
  Client.fs_read_file (AVARIA_API 3) [114; 101; 115; 47; 97] (demo_kernel fs) = Ret (Some [1; 2; 3]).
Proof.
  assert (zlen demo_items <= MAX_ENTRIES) as Hn by (vm_compute; discriminate).
  assert (zlen (archive_of demo_items) < 2 ^ 62) as Hl by (vm_compute; reflexivity).
  destruct (archive_parsed demo_items demo_items_ok Hn Hl) as (fs & Hfs & _). exists (Some fs).
  destruct (@api_reaches_components Uart16550 _ _ _ _ 3 (demo_kernel (Some fs))) as (_ & _ & Hr & _);
    [exact (le_n 3) | apply demo_sound |].
  rewrite (Hr demo_items _ demo_items_ok Hn Hl Hfs). reflexivity.
Defined.
