(* ===== verification/Memtest.v ===== *)
(** The module [modules/memtest]: a benchmark of the kernel's allocators,
    written against the interface of [Api].  Every host that keeps [HostLaws] runs it to
    the end; the kernel is one. *)
From Stdlib Require Import String Ascii.
From S2P Require Import Prelude Word Port PageSource Buddy Slab Mem Heap Serial Idt Sched Vfs Utf8 Initrd Gfx Tsc Api.

Definition ITERS : Z := 1000000.

Section code.
Context {S : Type} (api : avariaApi S).
(** [write_volatile(ptr, byte)] *)
Context (store : Z -> Z -> S -> outcome S).
Implicit Types (k : S).

Definition say (s : string) k : outcome S := Client.serial_print api (text s) k.

(** [while v > 0] of [print_num] *)
Fixpoint num_fill (rounds : nat) (v : Z) (buf : list Z) (i : nat) : outcome (list Z * nat) :=
  match rounds with
  | O => Crash OutOfFuel
  | Datatypes.S rounds =>
      if 0 <? v then
        buf ← arr_set buf (Z.of_nat i) (wadd 8 48 (wrap 8 (v mod 10)));
        num_fill rounds (v / 10) buf (Datatypes.S i)
      else Ret (buf, i)
  end.

(** [while i > 0] of [print_num] *)
Fixpoint print_back (buf : list Z) (i : nat) k : outcome S :=
  match i with
  | O => Ret k
  | Datatypes.S i =>
      b ← arr_get buf (Z.of_nat i);
      k ← Client.serial_print api [b] k;
      print_back buf i k
  end.

Definition print_num (v : Z) k : outcome S :=
  if v =? 0 then say "0" k
  else
    '(buf, i) ← num_fill 65 v (replicate 20 0) 0;
    print_back buf i k.

(** One round of the loops: allocate, touch, free. *)
Definition round (size byte : Z) k : outcome S :=
  '(ptr, k) ← Client.alloc api size k;
  if negb (ptr =? 0) then
    k ← store ptr byte k;
    Client.free api ptr size k
  else Ret k.

(** The measured part: the loop without preemption, between two readings of
    the counter. *)
Definition measure (body : Z -> S -> outcome S) k : outcome (Z * S) :=
  let k := Client.disable_preempt api k in
  let '(start, k) := Client.rdtsc api k in
  k ← for_range body 0 ITERS k;
  let '(end_, k) := Client.rdtsc api k in
  let k := Client.enable_preempt api k in
  Ret (Client.ticks_to_us api (end_ ⊟ start) k, k).

(** Milliseconds with three decimals. *)
Definition print_us (us : Z) k : outcome S :=
  let ms := us / 1000 in
  let us_frac := us mod 1000 in
  k ← print_num ms k;
  k ← say "." k;
  k ← (if us_frac <? 100 then say "0" k else Ret k);
  k ← (if us_frac <? 10 then say "0" k else Ret k);
  k ← print_num us_frac k;
  Client.serial_print api (text " ms" ++ [10]) k.

Definition bench_slab (size : Z) k : outcome S :=
  k ← say "  slab " k;
  k ← print_num size k;
  k ← say "B x" k;
  k ← print_num ITERS k;
  k ← say ": " k;
  '(us, k) ← measure (fun _ => round size 0xAA) k;
  print_us us k.

Definition bench_buddy (order : Z) k : outcome S :=
  let pages := wshl 64 1 order in
  let size := pages ⊠ 4096 in
  k ← say "  buddy order=" k;
  k ← print_num order k;
  k ← say " (" k;
  k ← print_num (size / 1024) k;
  k ← say "K) x" k;
  k ← print_num ITERS k;
  k ← say ": " k;
  '(us, k) ← measure (fun _ => round size 0xBB) k;
  print_us us k.

Definition bench_mixed k : outcome S :=
  k ← say "  mixed alloc/free x" k;
  k ← print_num ITERS k;
  k ← say ": " k;
  '(us, k) ← measure (fun i => round (16 ⊞ i mod 8 ⊠ 32) 0xCC) k;
  print_us us k.

(** [for] a list of arguments, as the entry writes its calls. *)
Fixpoint each {A} (f : A -> S -> outcome S) (l : list A) k : outcome S :=
  match l with
  | [] => Ret k
  | x :: l => k ← f x k; each f l k
  end.

Definition line (s : string) k : outcome S := Client.serial_print api (text s ++ [10]) k.

Definition report k : outcome S :=
  k ← Client.serial_print api ([10] ++ text "Memtest: alloc benchmark" ++ [10]) k;
  k ← say "TSC freq: " k;
  k ← print_num (Client.tsc_khz api k / 1000) k;
  k ← Client.serial_print api (text " MHz" ++ [10; 10]) k;
  k ← line "[slab allocator]" k;
  k ← each bench_slab [16; 32; 64; 128; 256; 512; 1024; 2048] k;
  k ← Client.serial_print api ([10] ++ text "[buddy allocator]" ++ [10]) k;
  k ← each bench_buddy [0; 1; 2; 4] k;
  k ← Client.serial_print api ([10] ++ text "[mixed workload]" ++ [10]) k;
  k ← bench_mixed k;
  Client.serial_print api ([10] ++ text "done." ++ [10]) k.

Definition _module_entry k : outcome (Z * S) := k ← report k; Ret (0, k).
End code.

#[global] Opaque ITERS.

(** * What is printed *)

(** Pieces of the report: a text, a number, a measured time. *)
Inductive item :=
  | Txt (s : string)
  | Newline
  | Num (v : Z)
  | Time.

(** A time is a decimal numeral, a point and exactly three digits, together some number of
    microseconds in milliseconds. *)
Inductive prints : list item -> list Z -> Prop :=
  | prints_nil : prints [] []
  | prints_txt s l o : prints l o -> prints (Txt s :: l) (text s ++ o)
  | prints_newline l o : prints l o -> prints (Newline :: l) (10 :: o)
  | prints_num v n l o : is_decimal v n -> prints l o -> prints (Num v :: l) (n ++ o)
  | prints_time us n f l o : in_word 64 us -> is_decimal (us / 1000) n -> zlen f = 3 ->
      numeral 10 f = Some (us mod 1000) -> prints l o -> prints (Time :: l) (n ++ [46] ++ f ++ o).

Lemma prints_app l1 l2 o1 o2 : prints l1 o1 -> prints l2 o2 -> prints (l1 ++ l2) (o1 ++ o2).
Proof.
  induction 1; intros Hp; simpl; rewrite <- ?app_assoc; [done | constructor; auto..|].
  simpl. rewrite <- app_assoc. econstructor; eauto.
Qed.

(** A benchmark of one size, and the whole report. *)
Definition slab_line (size : Z) : list item :=
  [Txt "  slab "; Num size; Txt "B x"; Num 1000000; Txt ": "; Time; Txt " ms"; Newline].

Definition buddy_line (order : Z) : list item :=
  [Txt "  buddy order="; Num order; Txt " ("; Num (4 * 2 ^ order); Txt "K) x"; Num 1000000; Txt ": "; Time;
   Txt " ms"; Newline].

Definition transcript (mhz : Z) : list item :=
  [Newline; Txt "Memtest: alloc benchmark"; Newline; Txt "TSC freq: "; Num mhz; Txt " MHz"; Newline; Newline;
   Txt "[slab allocator]"; Newline] ++
  mjoin (slab_line <$> [16; 32; 64; 128; 256; 512; 1024; 2048]) ++
  [Newline; Txt "[buddy allocator]"; Newline] ++
  mjoin (buddy_line <$> [0; 1; 2; 4]) ++
  [Newline; Txt "[mixed workload]"; Newline; Txt "  mixed alloc/free x"; Num 1000000; Txt ": "; Time; Txt " ms";
   Newline; Newline; Txt "done."; Newline].

(** ** Three decimals *)

(** A numeral without leading zeros has as many digits as its value needs. *)
Lemma decimal_length v s j : is_decimal v s -> 0 < j -> 10 ^ (j - 1) <= v < 10 ^ j \/ (v = 0 /\ j = 1) -> zlen s = j.
Proof.
  intros [Hn Hz] Hj Hv. destruct s as [|c s]; [done|]. cbn [numeral numeral_from] in Hn.
  destruct (decide (c = 48)) as [->|Hc].
  { injection (Hz eq_refl) as ->. injection Hn as <-. destruct Hv as [Hv|[_ ->]]; [|done].
    pose proof (Z.pow_pos_nonneg 10 (j - 1)). lia. }
  destruct (char_value c) as [d|] eqn:Hd; [|done]. destruct (Z.ltb_spec d 10) as [Hlt|]; [|done].
  apply numeral_from_bounds in Hn; [|lia]. rewrite zlen_cons. pose proof (zlen_nonneg s).
  apply char_value_zero in Hd as [Hd0 Hd1]. assert (d <> 0) by (intros E; auto).
  pose proof (Z.pow_pos_nonneg 10 (zlen s) ltac:(lia) ltac:(lia)).
  assert (10 ^ zlen s <= v < 10 ^ (zlen s + 1)) as Hb.
  { rewrite Z.pow_add_r, Z.pow_1_r by lia. nia. }
  destruct Hv as [Hv|[-> ->]]; [|lia].
  destruct (Z.lt_trichotomy (zlen s + 1) j) as [Hl|[He|Hg]]; [|done|].
  - pose proof (Z.pow_le_mono_r 10 (zlen s + 1) (j - 1) ltac:(lia) ltac:(lia)). lia.
  - pose proof (Z.pow_le_mono_r 10 j (zlen s) ltac:(lia) ltac:(lia)). lia.
Qed.

(** The zeros that the printer adds make it three digits. *)
Lemma padded v s : 0 <= v < 1000 -> is_decimal v s ->
  let f := (if v <? 100 then [48] else []) ++ (if v <? 10 then [48] else []) ++ s in
  zlen f = 3 /\ numeral 10 f = Some v.
Proof.
  intros Hv Hs f. pose proof Hs as [Hn _].
  assert (s <> []) as Hne by (by intros ->). assert (numeral_from 10 0 s = Some v) as Hn' by (by destruct s).
  assert (zlen s = if v <? 10 then 1 else if v <? 100 then 2 else 3) as Hl.
  { repeat case_ltb; apply (decimal_length v); try done; try lia. }
  subst f. rewrite !zlen_app, Hl. repeat case_ltb; try lia; simpl; (split; [done|]); rewrite ?Hn'; done.
Qed.

(** * Execution *)

Section host.
Context {S : Type} {api : avariaApi S} {store : Z -> Z -> S -> outcome S} `{!HostLaws api store}.
Implicit Types (k : S).

(** [m] ends in a state that differs by an output that satisfies [P] only, as
    far as a module sees. *)
Definition writes (m : outcome S) (P : list Z -> Prop) k : Prop :=
  returns m (fun k' => good k' /\ preempt k' = preempt k /\ tsc_freq_khz api k' = tsc_freq_khz api k /\
    exists o, P o /\ output k' = output k ++ o).

Definition emits (m : outcome S) (l : list item) k : Prop := writes m (prints l) k.

Lemma writes_ret k (P : list Z -> Prop) : good k -> P [] -> writes (Ret k) P k.
Proof. intros Hk HP. apply returns_ret. do 3 (split; [done|]). exists []. by rewrite app_nil_r. Qed.

Lemma writes_mono m (P Q : list Z -> Prop) k : writes m P k -> (forall o, P o -> Q o) -> writes m Q k.
Proof.
  intros Hm HPQ. eapply returns_mono; [exact Hm|]. intros k' (H1 & H2 & H3 & o & Ho & E).
  do 3 (split; [done|]). exists o. auto.
Qed.

Lemma writes_bind m (f : S -> outcome S) (P Q R : list Z -> Prop) k : writes m P k ->
  (forall k', good k' -> preempt k' = preempt k -> tsc_freq_khz api k' = tsc_freq_khz api k -> writes (f k') Q k') ->
  (forall o1 o2, P o1 -> Q o2 -> R (o1 ++ o2)) -> writes (m ≫= f) R k.
Proof.
  intros Hm Hf HR. eapply returns_bind; [exact Hm|]. intros k1 (Hk & Hp & Hq & o1 & Ho1 & E1).
  eapply returns_mono; [by apply Hf|]. intros k2 (Hk2 & Hp2 & Hq2 & o2 & Ho2 & E2).
  split; [done|]. split; [congruence|]. split; [congruence|]. exists (o1 ++ o2).
  split; [by apply HR|]. by rewrite E2, E1, app_assoc.
Qed.

Lemma emits_nil k : good k -> emits (Ret k) [] k.
Proof. intros Hk. apply writes_ret; [done | constructor]. Qed.

Lemma emits_bind m (f : S -> outcome S) l1 l2 k : emits m l1 k ->
  (forall k', good k' -> preempt k' = preempt k -> tsc_freq_khz api k' = tsc_freq_khz api k -> emits (f k') l2 k') ->
  emits (m ≫= f) (l1 ++ l2) k.
Proof. intros Hm Hf. eapply writes_bind; [exact Hm | exact Hf | apply prints_app]. Qed.

Lemma writes_puts s k : good k -> writes (Client.serial_print api s k) (fun o => o = s) k.
Proof.
  intros Hk. eapply returns_mono; [by apply (puts_law s k)|].
  intros k' (Hk' & Ho & Hp & Hq). do 3 (split; [done|]). by exists s.
Qed.

Lemma emits_puts s l k : good k -> prints l s -> emits (Client.serial_print api s k) l k.
Proof. intros Hk Hl. eapply writes_mono; [by apply writes_puts|]. by intros o ->. Qed.

Lemma prints_one_txt s : prints [Txt s] (text s).
Proof. rewrite <- (app_nil_r (text s)). repeat constructor. Qed.

Lemma emits_say s k : good k -> emits (say api s k) [Txt s] k.
Proof. intros Hk. apply emits_puts; [done | apply prints_one_txt]. Qed.

(** ** Numbers *)

Lemma num_fill_eq rounds v buf i : num_fill rounds v buf i = fill 10 rounds v buf i.
Proof. rewrite <- dec_fill_eq. revert v buf i. induction rounds as [|n IH]; intros v buf i; simpl; [done|].
  destruct (0 <? v); [|done]. destruct (arr_set _ _ _); [apply IH | done].
Qed.

Lemma print_back_writes buf i k : good k -> Z.of_nat i <= zlen buf ->
  writes (print_back api buf i k) (fun o => o = printed buf i) k.
Proof.
  revert k. induction i as [|i IH]; intros k Hk Hi; cbn [print_back printed]; [by apply writes_ret|].
  destruct (zget_is_Some buf (Z.of_nat i)) as [c Hc]; [lia|]. unfold arr_get. rewrite Hc, bind_ret. simpl.
  eapply writes_bind; [by apply writes_puts | intros k1 Hk1 _ _; apply IH; [done | lia]|].
  by intros o1 o2 -> ->.
Qed.

(** The numeral as a string, for the callers that pad it. *)
Lemma print_num_writes v k : good k -> in_word 64 v -> writes (print_num api v k) (is_decimal v) k.
Proof.
  intros Hk Hv. unfold print_num. destruct (Z.eqb_spec v 0) as [->|Hne].
  { eapply writes_mono; [by apply writes_puts|]. by intros o ->. }
  unfold in_word in Hv. rewrite num_fill_eq.
  eapply returns_bind; [apply (fill_spec 10 65 v (replicate 20 0) 0 20); [done | lia | done | simpl; lia | simpl; lia | lia | lia]|].
  intros [buf i] (Hl & Hi & s & Hp & Hs & Hhd & Hnn). simpl in Hp. rewrite app_nil_r in Hp.
  eapply writes_mono; [apply print_back_writes; [done | lia]|]. intros o ->. rewrite Hp.
  split; [by destruct s; [destruct Hnn|] | done].
Qed.

Lemma emits_num v k : good k -> in_word 64 v -> emits (print_num api v k) [Num v] k.
Proof.
  intros Hk Hv. eapply writes_mono; [by apply print_num_writes|]. intros o Ho.
  rewrite <- (app_nil_r o). by apply prints_num; [|constructor].
Qed.

Lemma writes_pad (b : bool) k : good k ->
  writes (if b then say api "0" k else Ret k) (fun o => o = if b then [48] else []) k.
Proof. intros Hk. destruct b; [by apply writes_puts | by apply writes_ret]. Qed.

Lemma emits_us us k : good k -> in_word 64 us -> emits (print_us api us k) [Time; Txt " ms"; Newline] k.
Proof.
  intros Hk Hus. unfold print_us. pose proof (Z.mod_pos_bound us 1000).
  assert (in_word 64 (us / 1000)) as Hms.
  { unfold in_word in *. split; [apply Z.div_pos; lia | apply Z.div_lt_upper_bound; lia]. }
  eapply writes_bind; [by apply print_num_writes | intros k1 Hk1 _ _ |
    intros n o Hn Ho; exact (Ho n Hn)].
  apply (writes_mono _ (fun o => forall n, is_decimal (us / 1000) n ->
    prints [Time; Txt " ms"; Newline] (n ++ o))); [|done].
  eapply writes_bind; [by apply writes_puts | intros k2 Hk2 _ _ | intros ? o -> Ho; exact Ho].
  eapply writes_bind; [by apply writes_pad | intros k3 Hk3 _ _ | intros ? o -> Ho; exact Ho].
  eapply writes_bind; [by apply writes_pad | intros k4 Hk4 _ _ | intros ? o -> Ho; exact Ho].
  eapply writes_bind; [apply print_num_writes; [done | unfold in_word; lia] | intros k5 Hk5 _ _ |
    intros f o Hf Ho; exact (Ho f Hf)].
  eapply writes_mono; [by apply writes_puts|]. intros ? ->. intros f Hf n Hn.
  destruct (padded (us mod 1000) f) as [Hl Hv]; [lia | done|].
  replace (_ ++ _) with (n ++ [46] ++ ((if us mod 1000 <? 100 then [48] else []) ++ (if us mod 1000 <? 10 then [48] else []) ++ f)
    ++ (text " ms" ++ 10 :: [])); [|by rewrite <- !app_assoc].
  eapply prints_time; [exact Hus | done | exact Hl | exact Hv | repeat constructor].
Qed.

(** ** The benchmarks *)

Lemma quiet_trans k1 k2 k3 : quiet k1 k2 -> quiet k2 k3 -> quiet k1 k3.
Proof. intros (H1 & H2 & H3 & H4) (H5 & H6 & H7 & H8). split; [done|]. split; [congruence|]. split; congruence. Qed.

Lemma round_quiet size byte k : good k -> in_word 64 size -> in_word 8 byte ->
  returns (round api store size byte k) (quiet k).
Proof.
  intros Hk Hs Hb. unfold round. eapply returns_bind; [by apply (kmalloc_law size k)|].
  intros [ptr k1] (Hq1 & Hp & Hw). destruct (Z.eqb_spec ptr 0) as [|Hne]; [by apply returns_ret|]. simpl.
  eapply returns_bind; [apply (store_law ptr byte k1); [apply Hq1 | by apply Hw | done]|]. intros k2 Hq2.
  eapply returns_mono; [apply (kfree_law ptr size k2); [apply Hq2 | done | done]|]. intros k3 Hq3.
  by eapply quiet_trans; [|eapply quiet_trans].
Qed.

Lemma ticks_word ticks k : in_word 64 ticks -> good k -> in_word 64 (Client.ticks_to_us api ticks k).
Proof.
  intros Ht Hk. unfold Client.ticks_to_us, Client.tsc_khz. pose proof (khz_law k Hk) as Hf.
  case_ltb; [unfold in_word; lia|]. assert (in_word 64 (ticks ⊠ 1000)) as Hw by (by apply wrap_in_word).
  unfold in_word in *. split; [apply Z.div_pos; lia | apply Z.div_lt_upper_bound; nia].
Qed.

(** A loop of quiet rounds is measured without output, and preemption is
    as before. *)
Lemma measure_quiet body k : good k -> 0 <= preempt k -> preempt k + 1 < 2 ^ 32 ->
  (forall i k, 0 <= i < ITERS -> good k -> returns (body i k) (quiet k)) ->
  returns (measure api body k) (fun '(us, k') => in_word 64 us /\ quiet k k').
Proof.
  intros Hk Hp0 Hp Hbody. unfold measure, Client.disable_preempt, Client.rdtsc.
  destruct (disable_law k Hk Hp) as (Hk1 & Ho1 & Hp1 & Hq1). set (k1 := preempt_disable api k) in *. cbv zeta.
  destruct (tsc_law k1 Hk1) as (Ht2 & Hq2). destruct (tsc_read api k1) as [start k2]. simpl in Ht2, Hq2.
  eapply returns_bind.
  { apply (for_range_inv body (fun _ k' => quiet k2 k') 0 ITERS); [done | by destruct Hq2 |].
    intros i k' Hi Hq. eapply returns_mono; [apply Hbody; [done | apply Hq]|]. intros k'' Hq'. by eapply quiet_trans. }
  intros k3 Hq3. destruct (tsc_law k3 (proj1 Hq3)) as (Ht4 & Hq4).
  destruct (tsc_read api k3) as [end_ k4]. simpl in Ht4, Hq4.
  assert (quiet k1 k4) as Hq14 by (by eapply quiet_trans; [|eapply quiet_trans]).
  destruct Hq14 as (Hk4 & Ho4 & Hp4 & Hf4).
  destruct (enable_law k4 Hk4) as (Hk5 & Ho5 & Hp5 & Hf5); [lia|].
  apply returns_ret. split.
  - apply ticks_word; [by apply wrap_in_word | exact Hk5].
  - split; [exact Hk5|]. unfold Client.enable_preempt. split; [congruence|]. split; [lia | congruence].
Qed.

Lemma emits_measure body k : good k -> 0 <= preempt k -> preempt k + 1 < 2 ^ 32 ->
  (forall i k, 0 <= i < ITERS -> good k -> returns (body i k) (quiet k)) ->
  emits ('(us, k) ← measure api body k; print_us api us k) [Time; Txt " ms"; Newline] k.
Proof.
  intros Hk Hp0 Hp Hbody. eapply returns_bind; [by apply measure_quiet|].
  intros [us k1] (Hus & Hk1 & Ho & Hp1 & Hf). eapply returns_mono; [by apply emits_us|].
  intros k2 (Hk2 & Hp2 & Hf2 & o & Hpr & Ho2). split; [done|]. split; [congruence|]. split; [congruence|].
  exists o. split; [done|]. congruence.
Qed.

(** The state has room for one more section without preemption. *)
Definition calm k : Prop := good k /\ 0 <= preempt k /\ preempt k + 1 < 2 ^ 32.

Lemma calm_kept k k' : calm k -> good k' -> preempt k' = preempt k -> calm k'.
Proof. intros (_ & H1 & H2) Hk Hp. unfold calm. by rewrite Hp. Qed.
(** Steps of a program that prints. *)
Lemma then_emits m (f : S -> outcome S) l1 l2 k : calm k -> emits m l1 k ->
  (forall k', calm k' -> tsc_freq_khz api k' = tsc_freq_khz api k -> emits (f k') l2 k') ->
  emits (m ≫= f) (l1 ++ l2) k.
Proof.
  intros Hk Hm Hf. eapply emits_bind; [exact Hm|]. intros k' Hk' Hp Hq. apply Hf; [by eapply calm_kept | done].
Qed.

Lemma say_then s (f : S -> outcome S) l k : calm k ->
  (forall k', calm k' -> tsc_freq_khz api k' = tsc_freq_khz api k -> emits (f k') l k') ->
  emits (say api s k ≫= f) (Txt s :: l) k.
Proof. intros Hk. apply (then_emits _ f [Txt s] l k Hk). apply emits_say, Hk. Qed.

Lemma num_then v (f : S -> outcome S) l k : calm k -> in_word 64 v ->
  (forall k', calm k' -> tsc_freq_khz api k' = tsc_freq_khz api k -> emits (f k') l k') ->
  emits (print_num api v k ≫= f) (Num v :: l) k.
Proof. intros Hk Hv. apply (then_emits _ f [Num v] l k Hk). apply emits_num; [apply Hk | done]. Qed.

Lemma puts_then l1 s (f : S -> outcome S) l2 k : calm k -> prints l1 s ->
  (forall k', calm k' -> tsc_freq_khz api k' = tsc_freq_khz api k -> emits (f k') l2 k') ->
  emits (Client.serial_print api s k ≫= f) (l1 ++ l2) k.
Proof. intros Hk Hs. apply then_emits; [done|]. apply emits_puts; [apply Hk | done]. Qed.

Lemma each_emits {A} (f : A -> S -> outcome S) (g : A -> list item) l k : calm k ->
  (forall x k, x ∈ l -> calm k -> emits (f x k) (g x) k) -> emits (each f l k) (mjoin (g <$> l)) k.
Proof.
  revert k. induction l as [|x l IH]; intros k Hk Hf; [apply emits_nil, Hk|].
  cbn [each]. rewrite fmap_cons. cbn [mjoin list_join].
  apply then_emits; [done | apply Hf; [by left | done] |]. intros k1 Hk1 _.
  apply IH; [done|]. intros y k2 Hy. apply Hf. by right.
Qed.

Lemma bench_slab_emits size k : calm k -> in_word 64 size -> emits (bench_slab api store size k) (slab_line size) k.
Proof.
  intros Hk Hs. unfold bench_slab, slab_line.
  apply say_then; [done|]. intros k1 Hk1 _. apply num_then; [done..|]. intros k2 Hk2 _.
  apply say_then; [done|]. intros k3 Hk3 _. apply num_then; [done | unfold in_word; lia|]. intros k4 Hk4 _.
  apply say_then; [done|]. intros k5 Hk5 _. apply emits_measure; [apply Hk5..|].
  intros i k' _ Hk'. apply round_quiet; [done | done | unfold in_word; lia].
Qed.

Lemma bench_buddy_emits order k : calm k -> 0 <= order <= 4 -> emits (bench_buddy api store order k) (buddy_line order) k.
Proof.
  intros Hk Ho. unfold bench_buddy, buddy_line. rewrite wshl_1 by lia.
  assert (1 <= 2 ^ order <= 2 ^ 4) as Hpow.
  { split; [pose proof (Z.pow_pos_nonneg 2 order); lia | apply Z.pow_le_mono_r; lia]. }
  rewrite wmul_small by (unfold in_word; lia). cbv zeta.
  replace (2 ^ order * 4096 / 1024) with (4 * 2 ^ order)
    by (replace (2 ^ order * 4096) with (4 * 2 ^ order * 1024) by lia; by rewrite Z.div_mul).
  apply say_then; [done|]. intros k1 Hk1 _. apply num_then; [done | unfold in_word; lia|]. intros k2 Hk2 _.
  apply say_then; [done|]. intros k3 Hk3 _. apply num_then; [done | unfold in_word; lia|]. intros k4 Hk4 _.
  apply say_then; [done|]. intros k5 Hk5 _. apply num_then; [done | unfold in_word; lia|]. intros k6 Hk6 _.
  apply say_then; [done|]. intros k7 Hk7 _. apply emits_measure; [apply Hk7..|].
  intros i k' _ Hk'. apply round_quiet; [done | unfold in_word; lia..].
Qed.

Lemma bench_mixed_emits k : calm k ->
  emits (bench_mixed api store k) [Txt "  mixed alloc/free x"; Num 1000000; Txt ": "; Time; Txt " ms"; Newline] k.
Proof.
  intros Hk. unfold bench_mixed.
  apply say_then; [done|]. intros k1 Hk1 _. apply num_then; [done | unfold in_word; lia|]. intros k2 Hk2 _.
  apply say_then; [done|]. intros k3 Hk3 _. apply emits_measure; [apply Hk3..|].
  intros i k' _ Hk'. pose proof (Z.mod_pos_bound i 8). apply round_quiet; [done | by apply wrap_in_word | unfold in_word; lia].
Qed.
Lemma report_emits k : calm k -> emits (report api store k) (transcript (tsc_freq_khz api k / 1000)) k.
Proof.
  intros Hk. unfold report, transcript. pose proof (khz_law k (proj1 Hk)) as Hf.
  apply (puts_then [Newline; Txt _; Newline]); [done | repeat constructor|]. intros k1 Hk1 E1.
  apply say_then; [done|]. intros k2 Hk2 E2. unfold Client.tsc_khz. rewrite E2, E1.
  apply num_then; [done | unfold in_word in *; split; [apply Z.div_pos | apply Z.div_lt_upper_bound]; lia |].
  intros k3 Hk3 _. apply (puts_then [Txt _; Newline; Newline]); [done | repeat constructor|]. intros k4 Hk4 _.
  apply (puts_then [Txt _; Newline]); [done | repeat constructor|]. intros k5 Hk5 _.
  apply then_emits; [done | apply each_emits; [done|] |].
  { intros size k' Hin Hk'. apply bench_slab_emits; [done|].
    repeat (apply elem_of_cons in Hin as [->|Hin]; [unfold in_word; lia|]). by apply not_elem_of_nil in Hin. }
  intros k6 Hk6 _. apply (puts_then [Newline; Txt _; Newline]); [done | repeat constructor|]. intros k7 Hk7 _.
  apply then_emits; [done | apply each_emits; [done|] |].
  { intros order k' Hin Hk'. apply bench_buddy_emits; [done|].
    repeat (apply elem_of_cons in Hin as [->|Hin]; [lia|]). by apply not_elem_of_nil in Hin. }
  intros k8 Hk8 _. apply (puts_then [Newline; Txt _; Newline]); [done | repeat constructor|]. intros k9 Hk9 _.
  apply (then_emits _ _ [Txt _; Num _; Txt _; Time; Txt _; Newline] [Newline; Txt _; Newline]);
    [done | by apply bench_mixed_emits |].
  intros k10 Hk10 _. apply emits_puts; [apply Hk10 | repeat constructor].
Qed.
End host.

(** C25: The benchmark runs to the end on every host that keeps the promises
    of the interface: it returns 0, its output has exactly the form of the report (texts, sizes
    and orders in decimal, every time with three decimals), the
    host's promises still hold, and preemption is enabled again as it was. *)
Theorem memtest_reports {S} (api : avariaApi S) store `{!HostLaws api store} (k : S) : calm k ->
  exists k' o, _module_entry api store k = Ret (0, k') /\ good k' /\ preempt k' = preempt k /\
    output k' = output k ++ o /\ prints (transcript (tsc_freq_khz api k / 1000)) o.
Proof.
  intros Hk. destruct (report_emits k Hk) as (k' & Hr & Hg & Hp & _ & o & Ho & Hout).
  exists k', o. unfold _module_entry. rewrite Hr. done.
Qed.

(** The kernel runs it. *)
Lemma memtest_reports_witness : exists k' o,
  _module_entry (AVARIA_API 3) store_byte (demo_kernel None) = Ret (0, k') /\
  uart_sent (dev (sched k')) = o /\ prints (transcript 2400) o.
Proof.
  assert (uart_polls (D:=Uart16550) < 3)%nat as Hf by exact (le_n 3).
  set (H := kernel_host (D:=Uart16550) 3 Hf).
  destruct (@memtest_reports _ _ store_byte H (demo_kernel None)) as (k' & o & Hr & _ & _ & Ho & Hp).
  { split; [exact (demo_sound None) | simpl; lia]. }
  exists k', o. split; [exact Hr|]. split; [exact Ho | exact Hp].
Defined.
