(* ===== verification/Task.v ===== *)
(** A module as a kernel task: [task_trampoline] and [task_exit] of [kern/sched.rs]
    with what they print, around a module entry of [Memtest]'s kind. *)
From Stdlib Require Import String Ascii.
From stdpp Require Import gmap.
From S2P Require Import Prelude Word Port PageSource Buddy Slab Mem Heap Serial Idt Sched Vfs Initrd Gfx Tsc Utf8 Api Memtest.

Section code.
Context {D : Type} `{PortDevice D, TscInsn D}.
Context (fuel : nat).

(** [Sched.task_exit] with its two lines of output, up to the loop of [hlt]. *)
Definition task_exit (s : Sched D) : outcome (Sched D) :=
  let s := cli s in
  let cur := CURRENT s in
  s ← update_task cur (with_state Exited) s;
  d ← log fuel [Lit (text "sched: task "); Deca cur; Lit (text " exited" ++ [10])] (dev s);
  Ret (sti (with_dev s d)).

(** [entry_fn] is the code at the task's entry, [ret] an [i32]. *)
Definition task_trampoline (entry_fn : Kern D -> outcome (Z * Kern D)) (k : Kern D) : outcome (Kern D) :=
  '(ret, k) ← entry_fn k;
  d ← log fuel [Lit (text "sched: task exited, ret="); Deca (wrap 64 ret); Lit [10]] (dev (sched k));
  s ← task_exit (with_dev (sched k) d);
  Ret (with_sched k s).
End code.

Section proof.
Context {D : Type} `{QuietTsc D}.
Context (fuel : nat) (Hfuel : (uart_polls < fuel)%nat).
Abbreviation K := (Kern D).
Abbreviation API := (AVARIA_API (D:=D) fuel).

(** Output apart, it is the scheduler's operation. *)
Lemma task_exit_refines (s s' : Sched D) : ready (dev s) -> in_word 64 (CURRENT s) -> Sched.task_exit s = Ret s' ->
  exists n d, task_exit fuel s = Ret (with_dev s' d) /\ is_decimal (CURRENT s) n /\ ready d /\
    uart_sent d = uart_sent (dev s) ++ text "sched: task " ++ n ++ text " exited" ++ [10].
Proof.
  intros Hr Hc. unfold Sched.task_exit, task_exit. intros (s1 & E & [= <-])%bind_ret_inv. rewrite E, bind_ret.
  assert (dev s1 = dev s) as Hd.
  { unfold update_task in E. do 2 inv_bind E. by simplify_eq. }
  rewrite Hd. destruct (log_logs fuel Hfuel [Lit (text "sched: task "); Deca (CURRENT (cli s)); Lit (text " exited" ++ [10])] (dev s) Hr) as (o & Ho & d & -> & Hrd & Hs).
  { do 2 (constructor; [done|]). by repeat constructor. }
  inversion Ho as [|x l o1 Ho1| |]; subst. inversion Ho1 as [| | |v n l o2 Hn Ho2]; subst.
  inversion Ho2 as [|x l o3 Ho3| |]; subst. inversion Ho3; subst.
  exists n, d. split; [done|]. split; [done|]. split; [done|]. by rewrite Hs, app_nil_r.
Qed.

(** ** Calls of a module leave the tasks alone *)

Definition same_tasks (k k' : K) : Prop :=
  TASKS (sched k') = TASKS (sched k) /\ CURRENT (sched k') = CURRENT (sched k).

(** The kernel as the host of one task, [k0] being its state when the task starts. *)
#[export] Program Instance task_host (k0 : K) : HostLaws API (store_byte (D:=D)) := {|
  good k := sound k /\ same_tasks k0 k;
  output k := uart_sent (dev (sched k));
  preempt k := PREEMPT_COUNT (sched k);
  writable k p := inside (BUDDY (heap (sched k))) p 1;
|}.
Next Obligation. intros k0 k [Hk _]. exact (khz_law (HostLaws:=kernel_host fuel Hfuel) k Hk). Qed.
Next Obligation.
  intros k0 s k [Hk Ht]. destruct (puts_law (HostLaws:=kernel_host fuel Hfuel) s k Hk) as (k' & E & Hg & Hrest).
  exists k'. split; [exact E|]. split; [|exact Hrest]. split; [exact Hg|].
  cbn in E. unfold api_serial_puts in E. inv_bind E. by simplify_eq.
Qed.
Next Obligation.
  intros k0 k [Hk Ht]. destruct (tsc_law (HostLaws:=kernel_host fuel Hfuel) k Hk) as [Hw [Hg Hrest]].
  split; [exact Hw|]. split; [|exact Hrest]. split; [exact Hg|].
  simpl. unfold api_tsc_read. by destruct (Tsc.rdtsc _).
Qed.
Next Obligation.
  intros k0 size k [Hk Ht] Hs. destruct (kmalloc_law (HostLaws:=kernel_host fuel Hfuel) size k Hk Hs) as ([p k'] & E & [Hg Hrest] & Hp).
  exists (p, k'). split; [exact E|]. split; [|exact Hp]. split; [|exact Hrest]. split; [exact Hg|].
  cbn in E. unfold api_kmalloc in E. inv_bind E. case_match. by simplify_eq.
Qed.
Next Obligation.
  intros k0 p v k [Hk Ht] Hp Hv. destruct (store_law (HostLaws:=kernel_host fuel Hfuel) p v k Hk Hp Hv) as (k' & E & [Hg Hrest]).
  exists k'. split; [exact E|]. split; [|exact Hrest]. split; [exact Hg|].
  unfold store_byte in E. destruct (_ && _); [by injection E as <- | done].
Qed.
Next Obligation.
  intros k0 p size k [Hk Ht] Hp Hs. destruct (kfree_law (HostLaws:=kernel_host fuel Hfuel) p size k Hk Hp Hs) as (k' & E & [Hg Hrest]).
  exists k'. split; [exact E|]. split; [|exact Hrest]. split; [exact Hg|].
  cbn in E. unfold api_kfree in E. inv_bind E. by simplify_eq.
Qed.
Next Obligation.
  intros k0 k [Hk Ht] Hlt. destruct (disable_law (HostLaws:=kernel_host fuel Hfuel) k Hk Hlt) as [Hg Hrest].
  split; [by split | exact Hrest].
Qed.
Next Obligation.
  intros k0 k [Hk Ht] Hpos. destruct (enable_law (HostLaws:=kernel_host fuel Hfuel) k Hk Hpos) as [Hg Hrest].
  split; [split; [exact Hg|] | exact Hrest]. cbn. unfold api_preempt_enable, Sched.preempt_enable.
  by destruct (0 <? _).
Qed.

Lemma inv_moved (s s' : Sched D) : Sched.inv s -> TASKS s' = TASKS s -> CURRENT s' = CURRENT s ->
  Buddy.wf (BUDDY (heap s')) -> 0 <= PREEMPT_COUNT s' -> Sched.inv s'.
Proof.
  intros [A1 A2 A3 A4 A5 A6 A7] Et Ec Hb Hp. unfold in_state, task_at in *.
  split; unfold in_state, task_at; rewrite ?Et, ?Ec; done.
Qed.

(** What an exit does to the table. *)
Lemma task_exit_tasks (s : Sched D) t : task_at s (CURRENT s) t ->
  exists s', Sched.task_exit s = Ret s' /\ TASKS s' = zset (TASKS s) (CURRENT s) (with_state Exited t) /\
    CURRENT s' = CURRENT s /\ PREEMPT_COUNT s' = PREEMPT_COUNT s /\ heap s' = heap s.
Proof.
  intros Ht. unfold Sched.task_exit. rewrite (update_task_eq _ _ (cli s) t) by exact Ht. by eexists.
Qed.

End proof.

Lemma one_decimal s : is_decimal 1 s -> s = [49].
Proof.
  intros Hs. pose proof (decimal_length 1 s 1 Hs) as Hl. destruct Hs as [Hn _].
  destruct s as [|c [|c' s]]; [done | | rewrite !zlen_cons in Hl; pose proof (zlen_nonneg s); lia].
  cbn [numeral numeral_from] in Hn. destruct (char_value c) as [v|] eqn:Hv; [|done].
  destruct (v <? 10) eqn:Hlt; [|done]. injection Hn as Hn. assert (v = 1) as -> by lia.
  unfold char_value in Hv. repeat case_match; simplify_eq; try lia. f_equal. lia.
Qed.

(** The idle task and the benchmark, which runs. *)
Definition demo_running : Sched Uart16550 :=
  mkSched ([demo_task Ready 1; demo_task Running 2] ++ replicate 14 empty_task) 1 true 0 0 0 demo_heap true (mkUart [] 0 false).

Lemma demo_running_lookup i t : task_at demo_running i t ->
  (i = 0 /\ t = demo_task Ready 1) \/ (i = 1 /\ t = demo_task Running 2) \/ (2 <= i /\ t = empty_task).
Proof.
  unfold task_at. intros Hi. pose proof (zget_Some _ _ _ Hi) as Hr.
  change (zlen (TASKS demo_running)) with 16 in Hr.
  destruct (decide (i = 0)) as [->|]; [left; by injection Hi as <-|].
  destruct (decide (i = 1)) as [->|]; [right; left; by injection Hi as <-|].
  do 2 right. split; [lia|]. unfold zget in Hi. destruct (Z.leb_spec 0 i); [|done].
  cbn [demo_running TASKS] in Hi. rewrite lookup_app_r in Hi by (simpl; lia).
  by apply lookup_replicate in Hi as [-> _].
Qed.

Lemma demo_running_inv : Sched.inv demo_running.
Proof.
  split.
  - reflexivity.
  - simpl. unfold MAX_TASKS. lia.
  - right. by exists (demo_task Ready 1).
  - left. by exists (demo_task Running 2).
  - intros i (t & [[-> ->]|[[-> ->]|[_ ->]]]%demo_running_lookup & Hst); done.
  - apply demo_heap_wf.
  - simpl. lia.
Qed.

