(* ===== verification/User.v ===== *)
(** The user program [modules/init]: its system calls, through the interrupt
    path of [Idt] and the handler of [Syscall], up to the point where the kernel takes
    the processor back. *)
From Stdlib Require Import String Ascii.
From S2P Require Import Prelude Word Port Serial Idt Utf8 Syscall.

Definition SYS_EXIT : Z := 0.
Definition SYS_SERIAL_WRITE : Z := 1.

(** A string of the program: where its bytes are linked. *)
Record literal := mkLiteral { l_addr : Z; l_bytes : list Z }.

(** Execution of the program: it goes on, or the processor is elsewhere. *)
Inductive exec (D : Type) :=
  | Goes (ret : Z) (cpu : Cpu) (d : D)
  | Leaves (cpu : Cpu) (d : D).
Arguments Goes {D}. Arguments Leaves {D}.

Section code.
Context {D : Type} `{PortDevice D}.
(** The kernel's handlers, and what their calls leave in registers. *)
Context (t : Tables D) (clobbered : regs).
(** "Hello from ring 3 userspace!\n", "init: calling exit(0)\n", "init: PANIC!\n" *)
Context (hello calling panicked : literal).
Implicit Types (cpu : Cpu) (d : D).

(** The registers an [asm!] statement loads. *)
Definition load (rs : list (reg * Z)) cpu : Cpu :=
  mkCpu (fold_left (fun g x r => if decide (r = x.1) then x.2 else g r) rs (gpr cpu))
    (rip cpu) (cs cpu) (rflags cpu) (rsp cpu) (ss cpu).

(** [int 0x80]; the program continues when the handler returns to it. *)
Definition int_0x80 cpu d : outcome (exec D) :=
  '(cpu', d) ← interrupt t 0x80 None clobbered cpu d;
  if decide (rip cpu' = rip cpu /\ cs cpu' = cs cpu) then Ret (Goes (gpr cpu' RAX) cpu' d)
  else Ret (Leaves cpu' d).

Definition syscall1 (nr arg1 : Z) cpu d : outcome (exec D) := int_0x80 (load [(RAX, nr); (RDI, arg1)] cpu) d.

Definition syscall2 (nr arg1 arg2 : Z) cpu d : outcome (exec D) :=
  int_0x80 (load [(RAX, nr); (RDI, arg1); (RSI, arg2)] cpu) d.

(** The next statement, when the program is still running. *)
Definition seq (m : outcome (exec D)) (f : Cpu -> D -> outcome (exec D)) : outcome (exec D) :=
  x ← m; match x with Goes _ cpu d => f cpu d | Leaves cpu d => Ret (Leaves cpu d) end.

Definition serial_print (s : literal) cpu d : outcome (exec D) :=
  syscall2 SYS_SERIAL_WRITE (l_addr s) (zlen (l_bytes s)) cpu d.

(** The loop of [hlt] after the call is not reached: see [init_runs]. *)
Definition exit (code : Z) cpu d : outcome (exec D) := syscall1 SYS_EXIT code cpu d.

Definition _start cpu d : outcome (exec D) :=
  seq (serial_print hello cpu d) (fun cpu d =>
  seq (serial_print calling cpu d) (fun cpu d =>
  exit 0 cpu d)).

Definition panic cpu d : outcome (exec D) :=
  seq (serial_print panicked cpu d) (fun cpu d => exit 1 cpu d).
End code.

(** Where SYS_EXIT sends the processor, without the final loop of [hlt]. *)
Definition hlt_trampoline {D} `{PortDevice D} (fuel : nat) (d : D) : outcome D :=
  Serial.puts fuel (text "ring3 task exited, back in kernel" ++ [10]) d.

(** * The program runs *)

Section proof.
Context {D : Type} `{Uart D}.
Context (fuel : nat) (Hfuel : (uart_polls < fuel)%nat).
Context (ram : Z -> option Z) (trampoline return_stack : Z).
Context (t : Tables D) (clobbered : regs) (Hinst : installed fuel ram trampoline return_stack t).
Implicit Types (cpu : Cpu) (d : D).

(** A string in mapped memory that the kernel accepts. *)
Definition linked (s : literal) : Prop :=
  0 < l_addr s /\ zlen (l_bytes s) < 4096 /\ mapped_bytes ram (l_addr s) (l_bytes s).

(** The program is still where it was, in the same mode. *)
Definition same_place cpu cpu' : Prop :=
  rip cpu' = rip cpu /\ cs cpu' = cs cpu /\ rflags cpu' = rflags cpu /\ rsp cpu' = rsp cpu /\ ss cpu' = ss cpu.

Lemma serial_print_spec s cpu d : linked s -> ready d ->
  exists cpu' d', serial_print t clobbered s cpu d = Ret (Goes 0 cpu' d') /\ same_place cpu cpu' /\
    ready d' /\ uart_sent d' = uart_sent d ++ l_bytes s.
Proof.
  intros (Hp & Hlen & Hm) Hd. unfold serial_print, syscall2, int_0x80.
  set (cpu1 := load _ cpu).
  destruct (int80 fuel Hfuel ram trampoline return_stack t clobbered cpu1 d _ _ Hinst
    (write_spec fuel Hfuel ram trampoline return_stack (ctx_of_cpu 0x80 0 cpu1) d (l_bytes s)
      eq_refl Hp eq_refl Hlen Hm Hd)) as (cpu' & d' & Hi & Hr & Hd' & Hs).
  apply with_rax_continues in Hr as (Hg & H1 & H2 & H3 & H4 & H5). rewrite Hi, bind_ret.
  rewrite decide_True by done. rewrite Hg, decide_True by done. by exists cpu', d'.
Qed.

Lemma exit_leaves code cpu d : in_word 64 code -> ready d -> cs cpu <> 0x08 ->
  exists num cpu' d', exit t clobbered code cpu d = Ret (Leaves cpu' d') /\ is_decimal code num /\
    rip cpu' = trampoline /\ cs cpu' = 0x08 /\ ss cpu' = 0x10 /\ rflags cpu' = 0x202 /\
    rsp cpu' = return_stack ⊞ 0x2000 /\
    ready d' /\ uart_sent d' = uart_sent d ++ text "syscall: exit(" ++ num ++ text ")" ++ [10].
Proof.
  intros Hc Hd Hcs. unfold exit, syscall1, int_0x80. set (cpu1 := load _ cpu).
  destruct (exit_spec fuel Hfuel ram trampoline return_stack (ctx_of_cpu 0x80 0 cpu1) d eq_refl Hc Hd)
    as (num & Hnum & Hh).
  destruct (int80 fuel Hfuel ram trampoline return_stack t clobbered cpu1 d _ _ Hinst Hh)
    as (cpu' & d' & Hi & (Hr & H1 & H2 & H3 & H4 & H5) & Hd' & Hs).
  exists num, cpu', d'. rewrite Hi, bind_ret. rewrite decide_False; [done|]. intros [_ E].
  apply Hcs. transitivity (cs cpu'); [symmetry; exact E | exact H2].
Qed.
End proof.

(** C27: [init] from its entry in user mode: both texts and the report of the
    exit appear on the console, in this order and nothing else, then the processor is back
    in the kernel: at the trampoline, privilege level 0, interrupts enabled, on the kernel's stack
    for it; the code after [exit] never runs. *)
Theorem init_runs {D} `{Uart D} fuel ram trampoline return_stack t clobbered (hello calling : literal) (cpu : Cpu) (d : D) :
  (uart_polls < fuel)%nat -> installed fuel ram trampoline return_stack t -> ready d ->
  linked ram hello -> linked ram calling ->
  l_bytes hello = text "Hello from ring 3 userspace!" ++ [10] ->
  l_bytes calling = text "init: calling exit(0)" ++ [10] -> cs cpu mod 4 = 3 ->
  exists cpu' d1 d2, _start t clobbered hello calling cpu d = Ret (Leaves cpu' d1) /\
    rip cpu' = trampoline /\ cs cpu' mod 4 = 0 /\ Z.testbit (rflags cpu') 9 = true /\
    rsp cpu' = return_stack ⊞ 0x2000 /\
    hlt_trampoline fuel d1 = Ret d2 /\
    uart_sent d2 = uart_sent d ++ text "Hello from ring 3 userspace!" ++ [10] ++
      text "init: calling exit(0)" ++ [10] ++ text "syscall: exit(0)" ++ [10] ++
      text "ring3 task exited, back in kernel" ++ [10].
Proof.
  intros Hfuel Hinst Hd Hh Hc Eh Ec Hcs. unfold _start.
  destruct (serial_print_spec fuel Hfuel ram trampoline return_stack t clobbered Hinst hello cpu d Hh Hd)
    as (cpu1 & d1 & -> & (_ & Hcs1 & _) & Hd1 & Hs1). cbn [seq mbind outcome_bind].
  destruct (serial_print_spec fuel Hfuel ram trampoline return_stack t clobbered Hinst calling cpu1 d1 Hc Hd1)
    as (cpu2 & d2 & -> & (_ & Hcs2 & _) & Hd2 & Hs2). cbn [seq mbind outcome_bind].
  destruct (exit_leaves fuel Hfuel ram trampoline return_stack t clobbered Hinst 0 cpu2 d2)
    as (num & cpu3 & d3 & He & Hnum & H1 & H2 & H3 & H4 & H5 & Hd3 & Hs3); [unfold in_word; lia | done | |].
  { rewrite Hcs2, Hcs1. intros E. by rewrite E in Hcs. }
  apply zero_decimal in Hnum as ->.
  destruct (puts_spec fuel Hfuel (text "ring3 task exited, back in kernel" ++ [10]) d3 Hd3) as (d4 & H6 & Hd4 & Hs4).
  exists cpu3, d3, d4. split; [exact He|]. split; [done|]. rewrite H2, H4. do 2 (split; [done|]).
  split; [done|]. split; [exact H6|]. rewrite Hs4, Hs3, Hs2, Hs1, Eh, Ec. by rewrite <- !app_assoc.
Qed.

(** Memory with the two texts, and a processor in user mode. *)
Definition demo_texts : list Z := text "Hello from ring 3 userspace!" ++ [10] ++ text "init: calling exit(0)" ++ [10].

Definition demo_user_ram (a : Z) : option Z := zget demo_texts (a - 0x400000).

(** The bytes of a literal are those of the memory at its address. *)
Definition literal_at (s : literal) : bool :=
  (0x400000 <=? l_addr s) && (l_addr s + zlen (l_bytes s) <=? 0x400100) &&
  forallb (fun i => bool_decide (demo_user_ram (l_addr s + i) = zget (l_bytes s) i)) (zseq 0 (length (l_bytes s))).

Lemma demo_linked s : literal_at s = true -> linked demo_user_ram s.
Proof.
  unfold literal_at. rewrite !andb_true_iff, forallb_forall, !Z.leb_le. intros [[Hlo Hhi] Hb].
  split; [lia|]. split; [lia|]. split; [lia|]. split; [lia|]. intros i Hi.
  apply (bool_decide_eq_true_1 _), Hb, list_elem_of_In, elem_of_zseq. unfold zlen in Hi. lia.
Qed.

Lemma init_runs_witness : exists (t : Tables Uart16550) cpu' d1 d2,
  _start t (fun _ => 0) (mkLiteral 0x400000 (text "Hello from ring 3 userspace!" ++ [10]))
    (mkLiteral 0x40001D (text "init: calling exit(0)" ++ [10])) demo_cpu (mkUart [] 0 false) = Ret (Leaves cpu' d1) /\
  hlt_trampoline 3 d1 = Ret d2 /\ cs cpu' mod 4 = 0 /\
  u_sent d2 = demo_texts ++ text "syscall: exit(0)" ++ [10] ++ text "ring3 task exited, back in kernel" ++ [10].
Proof.
  destruct (demo_table demo_user_ram) as [t Ht]. exists t.
  destruct (@init_runs _ _ uart_laws 3 demo_user_ram 0x1000 0x2000 t (fun _ => 0)
    (mkLiteral 0x400000 (text "Hello from ring 3 userspace!" ++ [10]))
    (mkLiteral 0x40001D (text "init: calling exit(0)" ++ [10])) demo_cpu (mkUart [] 0 false))
    as (cpu' & d1 & d2 & H1 & H2 & H3 & H4 & H5 & H6 & H7).
  - exact (le_n 3).
  - exact Ht.
  - split; [done | simpl; lia].
  - apply demo_linked; [reflexivity..].
  - apply demo_linked; [reflexivity..].
  - reflexivity.
  - reflexivity.
  - reflexivity.
  - exists cpu', d1, d2. split; [exact H1|]. split; [exact H6|]. split; [exact H3 | exact H7].
Defined.
