(* ===== verification/Kernel.v ===== *)
(** The whole of [_start], [src/main.rs]: the first half ([Start]), the secondary processors ([Smp]), the
    local APIC ([Mmio]), the keyboard ([Ps2]), buses and disks ([Bringup]) and the tasks ([Boot]), on one
    machine with one heap and one set of page tables. *)
From Stdlib Require Import String Ascii.
From stdpp Require Import gmap.
From S2P Require Import Prelude Word PageSource Buddy Slab Mem Port Pic Serial Idt Sched Ps2 Vfs Utf8 Initrd Elf.
From S2P Require Import Disk Paging Gdt Syscall Gfx Pci Listing Ahci Storage Bringup Mmio Cpu Tsc Smp Boot Start.

(** * Devices behind the ports

    The keyboard controller answers at its two ports, the board (serial port, interrupt
    controllers, timer) at the others. *)
Record Devices (P D : Type) := mkDevices { controller : P; board : D }.
Arguments mkDevices {P D} _ _.
Arguments controller {P D} _.
Arguments board {P D} _.

Definition keyboard_port (p : Z) : bool := (p =? DATA_PORT) || (p =? STATUS_PORT).

#[export] Instance devices_ports {P D} `{PortDevice P, PortDevice D} : PortDevice (Devices P D) := {|
  port_in p x :=
    if keyboard_port p then let '(v, c) := port_in p (controller x) in (v, mkDevices c (board x))
    else let '(v, d) := port_in p (board x) in (v, mkDevices (controller x) d);
  port_out p v x :=
    if keyboard_port p then mkDevices (port_out p v (controller x)) (board x)
    else mkDevices (controller x) (port_out p v (board x));
|}.

(** * The heap and the page tables

    Both are in memory; a new table is a page of the heap. *)
Record KHeap := mkKHeap { kh_mem : KMem; kh_words : Words; kh_stale : Z -> Z }.

Definition with_mem (m : KMem) (h : KHeap) : KHeap := mkKHeap m (kh_words h) (kh_stale h).

#[export] Instance kheap_ops : HeapOps KHeap := {|
  h_kmalloc n h := '(p, m) ← Mem.kmalloc n (kh_mem h); Ret (p, with_mem m h);
  h_kmalloc_aligned n a h := '(p, m) ← Mem.kmalloc_aligned n a (kh_mem h); Ret (p, with_mem m h);
  h_kfree p n h := m ← Mem.kfree p n (kh_mem h); Ret (with_mem m h);
  h_stale h p n := kh_stale h <$> zseq p (Z.to_nat n);
|}.

(** * The code *)

(** Link addresses of what tasks are made of. *)
Record Link := mkLink { task_trampoline : Z; shell_task_entry : Z; MODULE_BUFS_addr : Z; AVARIA_API_addr : Z }.

(** The boot loader's further answers: the processors with the boot processor's id ([SMP_REQ]), the
    modules ([MODULE_REQ]). *)
Record Requests := mkRequests { processors : option (list Z * Z); modules : option (list (list Z * list Z)) }.

Section code.
Context {D C P G L : Type} {PD : PortDevice D} {TI : TscInsn D} {PR : Processor C} {PK : PortDevice P}.
Context {HO : HbaOps G} {WP : WidePorts G} {LR : LapicRegs L}.

(** What interrupt handlers work on: the scheduler with devices and heap, and the keyboard's state. *)
Definition K : Type := Sched.Sched (Devices P D) * Kb.

(** Everything else that start-up changes. *)
Record World := mkWorld {
  machine : Machine D C;
  smp : Smp;
  keyboard : P;
  handlers : Tables K;
  LAPIC_VIRT : Z;
  apic : L;
  pci : PciTable;
  ahci : Ahci;
  hba : G;
  words : Words;
  stale : Z -> Z;
  screen : list Z;
}.

Definition set_machine m (w : World) : World :=
  mkWorld m (smp w) (keyboard w) (handlers w) (LAPIC_VIRT w) (apic w) (pci w) (ahci w) (hba w) (words w) (stale w) (screen w).
Definition set_smp s (w : World) : World :=
  mkWorld (machine w) s (keyboard w) (handlers w) (LAPIC_VIRT w) (apic w) (pci w) (ahci w) (hba w) (words w) (stale w) (screen w).
Definition set_keyboard k t (w : World) : World :=
  mkWorld (machine w) (smp w) k t (LAPIC_VIRT w) (apic w) (pci w) (ahci w) (hba w) (words w) (stale w) (screen w).
Definition set_apic v a (w : World) : World :=
  mkWorld (machine w) (smp w) (keyboard w) (handlers w) v a (pci w) (ahci w) (hba w) (words w) (stale w) (screen w).
Definition set_disks t s g (w : World) : World :=
  mkWorld (machine w) (smp w) (keyboard w) (handlers w) (LAPIC_VIRT w) (apic w) t s g (words w) (stale w) (screen w).
Definition set_words m (w : World) : World :=
  mkWorld (machine w) (smp w) (keyboard w) (handlers w) (LAPIC_VIRT w) (apic w) (pci w) (ahci w) (hba w) m (stale w) (screen w).
Definition set_screen s (w : World) : World :=
  mkWorld (machine w) (smp w) (keyboard w) (handlers w) (LAPIC_VIRT w) (apic w) (pci w) (ahci w) (hba w) (words w) (stale w) s.

(** The console and the heap are in the machine. *)
Definition console (w : World) : D := Start.dev (machine w).
Definition heap (w : World) : KMem := Start.mem (machine w).
Definition set_console d (w : World) : World := set_machine (set_dev d (machine w)) w.
Definition set_heap k (w : World) : World := set_machine (set_mem k (machine w)) w.

(** ** Handlers on the whole state *)

Definition on_board (h : ctx_handler D) : ctx_handler K := fun c '(s, kb) =>
  '(c, d) ← h c (board (Sched.dev s));
  Ret (c, (Sched.with_dev s (mkDevices (controller (Sched.dev s)) d), kb)).

Definition on_board_plain (h : handler D) : handler K := fun v e '(s, kb) =>
  d ← h v e (board (Sched.dev s));
  Ret (Sched.with_dev s (mkDevices (controller (Sched.dev s)) d), kb).

Definition all_tables (t : Tables D) : Tables K :=
  mkTables (option_map on_board_plain <$> ISR_HANDLERS t) (option_map on_board <$> ISR_CTX_HANDLERS t).

Definition keyboard_handler : ctx_handler K := fun c '(s, kb) =>
  '(kb, x) ← keyboard_irq_handler kb (Sched.dev s);
  Ret (c, (Sched.with_dev s x, kb)).

Definition timer_handler : ctx_handler K := fun c '(s, kb) =>
  '(c, s) ← Sched.timer_tick c s;
  Ret (c, (s, kb)).

(** ** Stages

    [who] interleaves the processors, [fuel] and [tfuel] bound the waits for the serial port and for
    the timer. *)
Context (fuel tfuel : nat) (who : list (option nat)).
Context (ram : Z -> option Z) (img : Image) (link : Link) (cr3 : Z).

Definition start_processors (resp : option (list Z * Z)) (w : World) : outcome World :=
  match resp with
  | Some (cpus, bsp) =>
      d ← log fuel [Lit (text "SMP: "); Deca (zlen cpus); Lit (text " CPUs, BSP LAPIC="); Deca bsp; Lit [10]] (console w);
      s ← smp_init cpus bsp who (smp w);
      n ← online_count s;
      d ← log fuel [Lit (text "SMP: "); Deca n; Lit (text " CPUs online" ++ [10])] d;
      Ret (set_console d (set_smp s w))
  | None => Ret w
  end.

Definition start_lapic (hhdm : Z) (w : World) : outcome World :=
  '(v, m, b, a) ← lapic_init hhdm cr3 (LAPIC_VIRT w) (words w) (BUDDY (heap w)) (apic w);
  Ret (set_apic v a (set_words m (set_heap (with_buddy (heap w) b) w))).

(** [cpu::sti].  Every line of the interrupt controllers is masked here. *)
Definition sti (w : World) : World := set_machine (set_cpu (insn_sti (Start.cpu (machine w))) (machine w)) w.

Definition start_keyboard (w : World) : outcome World :=
  '(t, x) ← Ps2.init keyboard_handler (handlers w) (mkDevices (keyboard w) (console w));
  Ret (set_keyboard (controller x) t (set_console (board x) w)).

(** [mem::map_mmio] on the kernel's tables. *)
Definition kernel_map_mmio (hhdm phys_base num_pages : Z) (x : KHeap * G) : outcome (Z * (KHeap * G)) :=
  let '(h, g) := x in
  '(v, m, b) ← map_mmio hhdm cr3 phys_base num_pages (kh_words h) (BUDDY (kh_mem h));
  Ret (v, (mkKHeap (with_buddy (kh_mem h) b) m (kh_stale h), g)).

Definition start_disks (hhdm : Z) (w : World) : outcome World :=
  '(d, t, s, h, g) ← bring_up fuel hhdm (kernel_map_mmio hhdm) (pci w) (ahci w)
                       (mkKHeap (heap w) (words w) (stale w)) (hba w) (console w);
  Ret (set_console d (set_heap (kh_mem h) (set_words (kh_words h) (set_disks t s g w)))).

(** The RAM disk's part.  [sched::init] registers the timer's handler; nothing else in this part looks at
    the tables. *)
Definition start_tasks (resp : option (list (list Z * list Z))) (hhdm : Z) (fb : Vesa.Framebuffer) (bufs : list (list Z)) (w : World) :
    outcome (option (Boot.Kernel (D := Devices P D)) * World) :=
  k ← boot_from_initrd fuel (task_trampoline link) (shell_task_entry link) (MODULE_BUFS_addr link) (AVARIA_API_addr link) hhdm cr3
        resp fb (screen w) bufs (words w) (Sched.boot (heap w) (mkDevices (keyboard w) (console w)));
  match k with
  | Started k =>
      t ← register_ctx_handler Sched.TIMER_VECTOR timer_handler (handlers w);
      Ret (Some k, set_keyboard (keyboard w) t w)
  | Halted s => Ret (None, set_keyboard (controller (Sched.dev s)) (handlers w) (set_console (board (Sched.dev s)) w))
  end.

(** [_start].  [None]: the processor halts because an answer is missing or the RAM disk cannot be used;
    otherwise what the kernel starts the scheduler with. *)
Definition _start (resp : Responses) (req : Requests) (bufs : list (list Z)) (w : World) :
    outcome (option (Boot.Kernel (D := Devices P D)) * World) :=
  '(fb, m) ← Start.start fuel tfuel ram img resp (machine w);
  let w := set_keyboard (keyboard w) (all_tables (tables m)) (set_machine m w) in
  match fb with
  | None => Ret (None, w)
  | Some init_fb =>
      let hhdm := HHDM_OFFSET m in
      w ← start_processors (processors req) w;
      w ← start_lapic hhdm w;
      w ← start_keyboard (sti w);
      w ← start_disks hhdm w;
      s ← Vesa.clear init_fb 0x00 0x00 0x80 (screen w);
      start_tasks (modules req) hhdm init_fb bufs (set_screen s w)
  end.
End code.
Arguments World : clear implicits.
Arguments K : clear implicits.

(** * The devices keep their behaviour *)

Section devices.
Context {P D : Type} {PK : PortDevice P} {KC : I8042 P} {PD : PortDevice D} {PI : Pic8259 D}.

#[export] Program Instance devices_8042 : I8042 (Devices P D) := {|
  kbc_out x := kbc_out (controller x);
  kbc_config x := kbc_config (controller x);
  kbc_announced x := kbc_announced (controller x);
  kbc_self_test := kbc_self_test (D:=P);
  kbc_reply := kbc_reply (D:=P);
|}.
Next Obligation.
  intros [c d]. simpl. destruct (kbc_status c) as (v & -> & H1 & H2). by exists v.
Qed.
Next Obligation.
  intros b q [c d] Ho Hb. simpl in *. destruct (kbc_read b q c Ho Hb) as (c' & -> & H). by exists (mkDevices c' d).
Qed.
Next Obligation. intros c [k d]. simpl. apply kbc_command. Qed.
Next Obligation. intros v [k d]. simpl. apply kbc_data. Qed.

#[export] Program Instance devices_8259 : Pic8259 (Devices P D) := {|
  chip1 x := chip1 (board x);
  chip2 x := chip2 (board x);
|}.
Next Obligation. intros [c d]. simpl. by rewrite read_imr1. Qed.
Next Obligation. intros [c d]. simpl. by rewrite read_imr2. Qed.
Next Obligation.
  intros p v [c d]. cbn [port_out devices_ports]. unfold keyboard_port.
  destruct (Z.eqb_spec p DATA_PORT) as [->|]; [done|].
  destruct (Z.eqb_spec p STATUS_PORT) as [->|]; [done|]. simpl. apply write_chip1.
Qed.
Next Obligation.
  intros p v [c d]. cbn [port_out devices_ports]. unfold keyboard_port.
  destruct (Z.eqb_spec p DATA_PORT) as [->|]; [done|].
  destruct (Z.eqb_spec p STATUS_PORT) as [->|]; [done|]. simpl. apply write_chip2.
Qed.

#[export] Program Instance devices_uart `{UA : !Uart D} : Uart (Devices P D) := {|
  uart_sent x := uart_sent (board x);
  uart_busy x := uart_busy (board x);
  uart_dlab x := uart_dlab (board x);
  uart_polls := uart_polls (D:=D);
|}.
Next Obligation.
  intros UA [c d]. cbn [port_in devices_ports]. change (keyboard_port (COM1 + 5)) with false. cbv iota.
  pose proof (uart_status d) as H. simpl. by destruct (port_in (COM1 + 5) d).
Qed.
Next Obligation.
  intros UA p v [c d]. cbn [port_out devices_ports]. unfold keyboard_port.
  destruct (Z.eqb_spec p DATA_PORT) as [->|]; [done|].
  destruct (Z.eqb_spec p STATUS_PORT) as [->|]; [done|]. simpl. apply uart_write.
Qed.

(** Setting the keyboard controller up does not touch the board. *)
Lemma set_up_board (x : Devices P D) : board (set_up x).2 = board x.
Proof.
  apply (set_up_keeps (fun y => board y = board x)); [| |done].
  - intros p [c d] [->| ->]; cbn [port_in devices_ports]; unfold keyboard_port; cbn [Z.eqb orb]; simpl;
      intros <-; by destruct (port_in _ c).
  - intros p v [c d] [->| ->]; done.
Qed.
Lemma clear_mask_board irq (x : Devices P D) : clear_mask irq x = mkDevices (controller x) (clear_mask irq (board x)).
Proof.
  destruct x as [c d]. unfold clear_mask, mask_port, inb, outb.
  destruct (irq <? 8); cbn [port_in port_out devices_ports keyboard_port Z.eqb orb board controller];
    [set (p := PIC1_DATA) | set (p := PIC2_DATA)]; change (keyboard_port p) with false; cbv iota;
    destruct (port_in p d); reflexivity.
Qed.
End devices.

(** The masks of both controllers. *)
Definition masks {D} `{Pic8259 D} (d : D) : Z * Z := (imr (chip1 d), imr (chip2 d)).

Lemma clear_mask_low {D} `{Pic8259 D} (d : D) irq : 0 <= irq < 8 -> operational d ->
  chip1 (clear_mask irq d) = mkChip (Z.land (imr (chip1 d)) (wnot 8 (2 ^ irq))) (vec_offset (chip1 d)) Operational (ic4 (chip1 d)) /\
  chip2 (clear_mask irq d) = chip2 d.
Proof.
  intros Hi (H1 & _ & H3 & _). unfold clear_mask, mask_port. rewrite (proj2 (Z.ltb_lt irq 8)) by lia.
  unfold inb. rewrite read_imr1. unfold outb. rewrite write_chip1, write_chip2, wrap_small by done.
  rewrite wshl_1 by lia. split; [|done]. unfold chip_data. simpl. by rewrite H1.
Qed.

(** * The stages *)

Section stages.
Context {D C P G L : Type} {F phase delta : Z} `{PD : PortDevice D, UA : !Uart D, PI : !Pic8259 D, TI : TscInsn D,
  PC : !PitClock D F phase delta, BD : !Board D F phase delta, PR : Processor C, PK : PortDevice P, KC : !I8042 P}.
Context {HO : HbaOps G} {WP : WidePorts G} {PH : PciHost G} {LR : LapicRegs L}.
Context (fuel : nat) (Hfuel : (uart_polls < fuel)%nat) (who : list (option nat)) (cr3 : Z).
Abbreviation W := (World D C P G L).

(** Only the console changed, and only by output that reads [l]. *)
Definition printed (l : list piece) (d d' : D) : Prop :=
  Serial.ready d' /\ chips d' = chips d /\ exists o, reads l o /\ uart_sent d' = uart_sent d ++ o.

Lemma printed_nil d : Serial.ready d -> printed [] d d.
Proof. intros Hd. split; [done|]. split; [done|]. exists []. split; [constructor | by rewrite app_nil_r]. Qed.

Lemma printed_app l1 l2 d1 d2 d3 : printed l1 d1 d2 -> printed l2 d2 d3 -> printed (l1 ++ l2) d1 d3.
Proof.
  intros (_ & C1 & o1 & R1 & S1) (Hd & C2 & o2 & R2 & S2). split; [done|]. split; [congruence|].
  exists (o1 ++ o2). split; [by apply reads_app | by rewrite S2, S1, app_assoc].
Qed.

Lemma log_printed l d : Serial.ready d -> Forall piece_ok l -> exists d', log fuel l d = Ret d' /\ printed l d d'.
Proof.
  intros Hd Hl. destruct (log_quiet (F:=F) (phase:=phase) (delta:=delta) fuel Hfuel l d Hd Hl)
    as (d' & o & He & Ho & Hr & Hs & _ & Hc).
  exists d'. split; [done|]. split; [done|]. split; [done|]. by exists o.
Qed.

(** ** Processors *)

Definition processors_log (resp : option (list Z * Z)) : list piece :=
  match resp with
  | Some (cpus, bsp) =>
      [Lit (text "SMP: "); Deca (zlen cpus); Lit (text " CPUs, BSP LAPIC="); Deca bsp; Lit [10];
       Lit (text "SMP: "); Deca (zlen (slots cpus)); Lit (text " CPUs online" ++ [10])]
  | None => []
  end.

(** The boot loader lists each processor once, the boot processor among them, and the processors' interleaving
    is long enough for the boot processor to get through. *)
Definition processors_ok (resp : option (list Z * Z)) (s : Smp) : Prop :=
  match resp with
  | Some (cpus, bsp) => NoDup cpus /\ bsp ∈ cpus /\ zlen cpus < 2 ^ 32 /\ in_word 32 bsp /\
      s = Smp.boot (length cpus) /\ exists s', smp_init cpus bsp who s = Ret s'
  | None => True
  end.

Definition processors_up (resp : option (list Z * Z)) (s s' : Smp) : Prop :=
  match resp with
  | Some (cpus, bsp) => reachable (Smp.init cpus) (Smp.step cpus bsp) s' /\ ALL_GO s' = true /\
      cpu_count s' = zlen cpus /\ get_bsp_id s' = bsp /\ online_count s' = Ret (zlen (slots cpus))
  | None => s' = s
  end.

Lemma slots_length cpus : zlen (slots cpus) <= zlen cpus.
Proof.
  unfold slots, zlen. rewrite <- (length_fmap slot cpus). apply Nat2Z.inj_le. apply submseteq_length.
  apply NoDup_submseteq; [apply NoDup_remove_dups|]. intros x. by rewrite elem_of_remove_dups.
Qed.

Lemma start_processors_spec resp (w : W) : Serial.ready (console w) -> processors_ok resp (smp w) ->
  exists d s, start_processors fuel who resp w = Ret (set_console d (set_smp s w)) /\
    printed (processors_log resp) (console w) d /\ processors_up resp (smp w) s.
Proof.
  intros Hr Hok. destruct resp as [[cpus bsp]|].
  2: { exists (console w), (smp w). split; [|split; [by apply printed_nil | done]]. destruct w as [m]. by destruct m. }
  destruct Hok as (Hnd & Hin & Hlen & Hbsp & Hs & s & Hrun). pose proof (zlen_nonneg cpus). pose proof (slots_length cpus).
  pose proof (zlen_nonneg (slots cpus)). unfold in_word in Hbsp.
  destruct (log_printed [Lit (text "SMP: "); Deca (zlen cpus); Lit (text " CPUs, BSP LAPIC="); Deca bsp; Lit [10]] (console w) Hr)
    as (d1 & E1 & P1); [repeat constructor; simpl; lia|].
  destruct (log_printed [Lit (text "SMP: "); Deca (zlen (slots cpus)); Lit (text " CPUs online" ++ [10])] d1 (proj1 P1))
    as (d2 & E2 & P2); [repeat constructor; simpl; lia|].
  pose proof Hrun as Hsp. rewrite Hs in Hsp. apply smp_init_spec in Hsp as (Hre & Hpc & Hc & Hid & Hon); [|done..].
  exists d2, s. unfold start_processors. rewrite E1, bind_ret, Hrun, bind_ret, Hon, bind_ret, E2, bind_ret.
  split; [done|]. split; [exact (printed_app _ _ _ _ _ P1 P2)|]. split; [done|]. split; [|done].
  apply list_elem_of_lookup_1 in Hin as [b Hb]. by apply (i_go _ _ _ s (smp_reachable_inv cpus bsp b Hnd Hb Hlen s Hre)).
Qed.

(** ** Local APIC *)

(** Not mapped and as it was, or mapped and passing interrupts on. *)
Definition lapic_up (hhdm : Z) `{!LapicLaws L (hhdm + LAPIC_PHYS)} (w w' : W) : Prop :=
  LAPIC_VIRT w' = LAPIC_VIRT w /\ words w' = words w /\ apic w' = apic w \/
  LAPIC_VIRT w' = hhdm + LAPIC_PHYS /\ lapic_ready (base := hhdm + LAPIC_PHYS) (apic w') /\
    exists a, translate hhdm cr3 (words w') (LAPIC_VIRT w') = Some a /\
      (translate hhdm cr3 (words w) (LAPIC_VIRT w') = None -> a = LAPIC_PHYS).

Definition keeps_translations (hhdm : Z) (m m' : Words) : Prop :=
  forall v x, translate hhdm cr3 m v = Some x -> translate hhdm cr3 m' v = Some x.

Lemma start_lapic_spec hhdm `{!LapicLaws L (hhdm + LAPIC_PHYS)} (w : W) : 0 <= hhdm /\ hhdm mod 4096 = 0 ->
  hhdm + LAPIC_PHYS + 4096 <= 2 ^ 64 -> tables_ok (A := BuddyAllocator) hhdm cr3 (words w) (BUDDY (heap w)) ->
  exists v a m b, let w' := set_apic v a (set_words m (set_heap (with_buddy (heap w) b) w)) in
    start_lapic cr3 hhdm w = Ret w' /\ keeps_translations hhdm (words w) m /\
    tables_ok (A := BuddyAllocator) hhdm cr3 m b /\ lapic_up hhdm w w'.
Proof.
  intros Hh Hv Hok. unfold start_lapic.
  destruct (lapic_init_ready hhdm cr3 (LAPIC_VIRT w) (words w) (BUDDY (heap w)) (apic w) Hh Hv Hok)
    as (v & m & b & a & -> & Hk & Hok' & Hres). rewrite bind_ret.
  exists v, a, m, b. split; [done|]. split; [done|]. split; [done|].
  destruct Hres as [(-> & -> & ->)|(-> & Hres)]; [by left | by right].
Qed.

(** ** Keyboard *)

(** The keyboard controller passes its self-test. *)
Definition keyboard_passes : bool := kbc_self_test (D:=P) =? 0x55.

(** The controller after set-up; its handler is in the tables only if it passed. *)
Definition keyboard_up (k k' : P) (t t' : Tables (K D P)) : Prop :=
  if keyboard_passes then register_ctx_handler KB_VECTOR keyboard_handler t = Ret t' /\
    kbc_out k' = [] /\ kbc_config k' = new_config (kbc_config k)
  else t' = t.

Lemma start_keyboard_spec (w : W) : kbc_found (keyboard w) -> zlen (ISR_CTX_HANDLERS (handlers w)) = IDT_ENTRIES ->
  exists k t, start_keyboard w =
      Ret (set_keyboard k t (set_console (if keyboard_passes then Pic.clear_mask KB_IRQ (console w) else console w) w)) /\
    keyboard_up (keyboard w) k (handlers w) t.
Proof.
  intros Hk Ht. unfold start_keyboard, Ps2.init, keyboard_up, keyboard_passes. set (x := mkDevices (keyboard w) (console w)).
  assert (kbc_found x) as Hx by (unfold kbc_found in Hk |- *; simpl; exact Hk).
  destruct (set_up_configures x Hx) as ([k d] & He & Hc). pose proof (set_up_board x) as Hd. rewrite He in Hd |- *.
  cbn [snd board x] in Hd. subst d. change (kbc_self_test (D:=Devices P D)) with (kbc_self_test (D:=P)) in *.
  destruct (Z.eqb_spec (kbc_self_test (D:=P)) 0x55) as [Heq|].
  - destruct (Hc Heq) as [H1 H2]. unfold register_ctx_handler. change (KB_VECTOR <? IDT_ENTRIES) with true. cbv iota.
    rewrite arr_set_ok by (rewrite Ht; by vm_compute). rewrite !bind_ret, clear_mask_board.
    eexists _, _. split; [reflexivity|]. split; [done|]. split; [exact H1 | exact H2].
  - by exists k, (handlers w).
Qed.

(** ** Disks

    On a machine without an AHCI controller the driver takes the page it identifies disks with, and stops. *)

Lemma init_without_controller hhdm map_mmio t s (h : KHeap) (g : G) : find_by_class 0x01 0x06 0x01 t = Ret None ->
  Buddy.wf (BUDDY (kh_mem h)) ->
  exists s' k, Ahci.init hhdm map_mmio t s h g = Ret (s', with_mem k h, g) /\ active_ports s' = active_ports s /\
    Buddy.wf (BUDDY k) /\ same_region (BUDDY (kh_mem h)) (BUDDY k).
Proof.
  intros Hf Hb. unfold Ahci.init. cbn [h_kmalloc_aligned kheap_ops].
  change (Mem.kmalloc_aligned 4096 4096 (kh_mem h)) with (alloc_block 4096 (kh_mem h)).
  destruct (alloc_block_spec 4096 (kh_mem h) Hb) as ([p k] & -> & Hp). destruct Hp as (_ & _ & Hk & Hreg & _).
  rewrite !bind_ret. destruct (p =? 0); [by exists s, k|]. rewrite Hf, bind_ret. by eexists _, k.
Qed.

Lemma start_disks_spec hhdm (w : W) : Serial.ready (console w) -> pci w = table_init -> active_ports (ahci w) = 0 ->
  controller_at (hba w) = None -> Buddy.wf (BUDDY (heap w)) ->
  exists d s g k, start_disks fuel cr3 hhdm w =
      Ret (set_console d (set_heap k (set_words (words w) (set_disks (scanned_table (hba w)) s g w)))) /\
    printed (mjoin (device_line <$> take (Z.to_nat MAX_PCI_DEVICES) (all_functions (hba w)))) (console w) d /\
    active_ports s = 0 /\ Pci.same (hba w) g /\ Buddy.wf (BUDDY k) /\ same_region (BUDDY (heap w)) (BUDDY k).
Proof.
  intros Hr Ht Hs Hn Hb. unfold start_disks, bring_up. rewrite Ht.
  destruct (scan_finds (hba w) table_init) as ([[g t] cnt] & -> & Hsame & -> & ->); [done|]. rewrite bind_ret.
  pose proof (table_lists (all_functions (hba w))) as Hl.
  destruct (log_printed (mjoin (device_line <$> take (Z.to_nat MAX_PCI_DEVICES) (all_functions (hba w)))) (console w) Hr)
    as (d & Ed & Pd); [apply lines_ok, Forall_take, all_functions_ok|].
  rewrite (dump_log fuel _ _ (console w) Hl), Ed, bind_ret.
  destruct (init_without_controller hhdm (kernel_map_mmio cr3 hhdm) (table_of table_init (all_functions (hba w))) (ahci w)
    (mkKHeap (heap w) (words w) (stale w)) g) as (s & k & -> & Hs' & Hk & Hreg); [|exact Hb|].
  { rewrite find_by_class_table. f_equal. exact Hn. }
  rewrite bind_ret, Hs', Hs. exists d, s, g, k. split; [done|]. split; [exact Pd|]. by rewrite Hs'.
Qed.
End stages.

(** * Handlers *)

Section handlers.
Context {D P : Type} {PD : PortDevice D} {PK : PortDevice P}.
Implicit Types (c : IsrContext) (s : Sched.Sched (Devices P D)) (kb : Kb).

(** The tables of the first half act on the board as before. *)
Lemma all_tables_dispatch (t : Tables D) c s kb :
  interrupt_dispatch (all_tables t) c (s, kb) = on_board (interrupt_dispatch t) c (s, kb).
Proof.
  unfold interrupt_dispatch, on_board, all_tables, arr_get. cbn [ISR_CTX_HANDLERS ISR_HANDLERS].
  assert (Sched.with_dev s (mkDevices (controller (Sched.dev s)) (board (Sched.dev s))) = s) as Hid
    by (destruct s as [? ? ? ? ? ? ? ? [? ?]]; done).
  assert (forall {A B} (f : A -> B) l i, zget (f <$> l) i = f <$> zget l i) as Hget.
  { intros A B f l i. unfold zget. destruct (0 <=? i); [apply list_lookup_fmap | done]. }
  destruct (c_vector c <? IDT_ENTRIES); [|by rewrite bind_ret, Hid]. rewrite !Hget.
  destruct (zget (ISR_CTX_HANDLERS t) (c_vector c)) as [[h|]|]; simpl; [done | | done].
  destruct (zget (ISR_HANDLERS t) (c_vector c)) as [[h|]|]; simpl; [| by rewrite Hid | done].
  by destruct (h _ _ _).
Qed.

(** What each interrupt does once start-up is through: the timer switches tasks, the keyboard's line
    feeds the key buffer if the controller is in order, the rest is as after the first half. *)
Definition handlers_up (t0 : Tables D) (keyboard_ok : bool) (t : Tables (K D P)) : Prop :=
  forall c s kb, 0 <= c_vector c -> interrupt_dispatch t c (s, kb) =
    if c_vector c =? Sched.TIMER_VECTOR then timer_handler c (s, kb)
    else if (c_vector c =? KB_VECTOR) && keyboard_ok then keyboard_handler c (s, kb)
    else on_board (interrupt_dispatch t0) c (s, kb).

Definition full_size {X} (t : Tables X) : Prop :=
  zlen (ISR_CTX_HANDLERS t) = IDT_ENTRIES /\ zlen (ISR_HANDLERS t) = IDT_ENTRIES.

Lemma all_tables_size (t : Tables D) : full_size t -> full_size (all_tables (P:=P) t).
Proof. unfold full_size, zlen. simpl. by rewrite !length_fmap. Qed.

Lemma register_ctx_size {X} v (h : ctx_handler X) t t' : full_size t -> register_ctx_handler v h t = Ret t' -> full_size t'.
Proof.
  intros [H1 H2]. unfold register_ctx_handler, arr_set. destruct (v <? IDT_ENTRIES); [|by intros [= <-]].
  destruct (_ && _); [|done]. rewrite bind_ret. intros [= <-]. unfold full_size. simpl. by rewrite zlen_zset.
Qed.

Lemma installed_size `{!Uart D} fuel ram trampoline stack (t : Tables D) :
  installed fuel ram trampoline stack t -> full_size t.
Proof. intros (t0 & H1 & H2 & Hr). by eapply register_ctx_size. Qed.

(** Registering the timer after the keyboard. *)
Lemma timer_registered (t0 : Tables D) (ok : bool) (t1 : Tables (K D P)) : full_size t0 ->
  (if ok then register_ctx_handler KB_VECTOR keyboard_handler (all_tables t0) = Ret t1 else t1 = all_tables t0) ->
  exists t, register_ctx_handler Sched.TIMER_VECTOR timer_handler t1 = Ret t /\ handlers_up t0 ok t.
Proof.
  intros Hsize H1. pose proof (all_tables_size t0 Hsize) as Hall.
  assert (full_size t1) as [L1 L2] by (destruct ok; [by eapply register_ctx_size | by subst]).
  assert (forall c s kb, 0 <= c_vector c -> interrupt_dispatch t1 c (s, kb) =
    if (c_vector c =? KB_VECTOR) && ok then keyboard_handler c (s, kb) else on_board (interrupt_dispatch t0) c (s, kb)) as Hd1.
  { intros c s kb Hc. destruct ok; [|by rewrite andb_false_r, H1, all_tables_dispatch].
    destruct (dispatch_to (all_tables t0) KB_VECTOR keyboard_handler c (s, kb)) as (t' & Ht' & Hd); [apply Hall..|by vm_compute|done|].
    rewrite H1 in Ht'. injection Ht' as ->. by rewrite Hd, andb_true_r, all_tables_dispatch. }
  assert (exists t, register_ctx_handler Sched.TIMER_VECTOR timer_handler t1 = Ret t) as [t Ht].
  { unfold register_ctx_handler. change (Sched.TIMER_VECTOR <? IDT_ENTRIES) with true. cbv iota.
    rewrite arr_set_ok by (rewrite L1; by vm_compute). rewrite bind_ret. by eexists. }
  exists t. split; [exact Ht|]. intros c s kb Hc.
  destruct (dispatch_to t1 Sched.TIMER_VECTOR timer_handler c (s, kb) L1 L2) as (t' & Ht' & Hd); [by vm_compute|done|].
  rewrite Ht in Ht'. injection Ht' as ->. by rewrite Hd, Hd1.
Qed.
End handlers.

(** * The whole *)

Section whole.
Context {D C P G L : Type} {F phase delta : Z} `{PD : PortDevice D, UA : !Uart D, PI : !Pic8259 D, TI : TscInsn D,
  PC : !PitClock D F phase delta, BD : !Board D F phase delta, PR : Processor C, PL : !ProcessorLaws C,
  PK : PortDevice P, KC : !I8042 P}.
Context {HO : HbaOps G} {WP : WidePorts G} {PH : PciHost G} {LR : LapicRegs L}.
Context (HF : 0 < F < 2 ^ 48) (Hphase : 0 <= phase) (Hdelta : 0 <= delta <= 10000).
Context (fuel : nat) (Hfuel : (uart_polls < fuel)%nat) (who : list (option nat)).
Context (ram : Z -> option Z) (img : Image) (link : Link) (cr3 : Z).
Context (Himg : in_word 64 (TSS_addr img)) (Hisr : forall i, in_word 64 (isr img i)).
Context (Hlink : 0 <= MODULE_BUFS_addr link /\ MODULE_BUFS_addr link + (MAX_MODULES + 1) * MODULE_BUF_SIZE <= 2 ^ 64).
Abbreviation W := (World D C P G L).
Abbreviation start_kernel tfuel := (_start (D:=D) (C:=C) (P:=P) (G:=G) (L:=L) fuel tfuel who ram img link cr3).

(** The machine as the kernel is entered: statics as linked, a serial port, a timer and a keyboard
    controller that work, processors that get through, and no AHCI controller on the bus. *)
Record powered_on (req : Requests) (w : W) : Prop := {
  po_fresh : fresh (machine w);
  po_serial : (uart_busy (console w) <= uart_polls)%nat /\ 0 <= clock (console w);
  po_keyboard : kbc_found (keyboard w);
  po_processors : processors_ok who (processors req) (smp w);
  po_pci : pci w = table_init;
  po_ahci : active_ports (ahci w) = 0;
  po_bus : controller_at (hba w) = None;
}.

Definition frame_buffer (f : FbInfo) : Vesa.Framebuffer :=
  Vesa.mkFramebuffer (fi_width f) (fi_height f) (fi_pitch f) (fi_bpp f / 8).

(** What is printed of the stages after the first half. *)
Definition stages_log (req : Requests) (w : W) : list piece :=
  processors_log (processors req) ++
  mjoin (device_line <$> take (Z.to_nat MAX_PCI_DEVICES) (all_functions (hba w))).

(** Output leaves the interrupt controllers and the keyboard alone. *)
Lemma log_keeps_lines l (x x' : Devices P D) : log fuel l x = Ret x' -> chips (board x') = chips (board x) /\ controller x' = controller x.
Proof.
  apply (log_keeps fuel (fun y => chips (board y) = chips (board x) /\ controller y = controller x)); [| |done].
  - intros [c d]. cbn [port_in devices_ports]. change (keyboard_port (COM1 + 5)) with false. cbv iota. cbn [board controller]. intros [H1 H2].
    destruct (in_quiet (COM1 + 5) d) as [(_ & _ & _ & E1 & E2) _].
    destruct (port_in (COM1 + 5) d) as [v d1]. split; [|exact H2]. rewrite <- H1. unfold chips. simpl in *. by rewrite E1, E2.
  - intros v [c d]. cbn [port_out devices_ports]. change (keyboard_port COM1) with false. cbv iota. simpl.
    unfold chips. by rewrite write_chip1, write_chip2.
Qed.

(** Starting the timer opens its line, and nothing after opens another. *)
Lemma tasks_lines off items ms fb m km x (k : Boot.Kernel) : operational x ->
  booted (D:=Devices P D) fuel (task_trampoline link) (shell_task_entry link) (MODULE_BUFS_addr link) (AVARIA_API_addr link) off cr3
    items ms fb m (Sched.boot km x) k ->
  masks (Sched.dev (Boot.tasks (loader k))) = (Z.land (masks x).1 (wnot 8 1), (masks x).2).
Proof.
  intros Hop [_ _ _ _ _ _ (sf & s1 & s2 & r & s3 & l & (df & -> & Hdf & _) & Hi & _ & _ & _ & d & Hd & ->) _ _].
  cbn [Sched.start Sched.with_dev Sched.boot Sched.dev] in *.
  apply log_keeps_lines in Hdf as [[= C1 C2] _]. apply log_keeps_lines in Hd as [[= C3 C4] _].
  destruct (init_dev _ _ _ Hi) as (lo & hi & Hs1). set (y := outb PIT_CH0_DATA hi _) in *.
  assert (chip1 y = chip1 x /\ chip2 y = chip2 x) as [E1 E2].
  { unfold y, outb. rewrite !write_chip1, !write_chip2. done. }
  assert (operational y) as Hy by (unfold operational in *; by rewrite E1, E2).
  destruct (clear_mask_low y 0) as [M1 M2]; [lia | done|]. rewrite Hs1 in C3, C4.
  change (chip1 d = chip1 (Pic.clear_mask 0 y)) in C3. change (chip2 d = chip2 (Pic.clear_mask 0 y)) in C4.
  unfold masks. by rewrite C3, C4, M1, M2, E1, E2.
Qed.

(** The controllers after the keyboard's stage. *)
Lemma keyboard_lines (d : D) : Serial.ready d ->
  chips d = (mkChip 0xFF 32 Operational true, mkChip 0xFF 40 Operational true) ->
  let d' := if keyboard_passes (P:=P) then clear_mask KB_IRQ d else d in
  Serial.ready d' /\ uart_sent d' = uart_sent d /\ operational d' /\ masks d' = (if keyboard_passes (P:=P) then 0xFD else 0xFF, 0xFF).
Proof.
  intros Hr Hc. unfold chips in Hc. injection Hc as C1 C2.
  assert (operational d) as Hop by (unfold operational; rewrite C1, C2; repeat split; by vm_compute).
  destruct keyboard_passes; cbv zeta.
  - destruct (clear_mask_console 1 d) as [Hr' Hs]; [lia | done|].
    destruct (clear_mask_low d 1) as [M1 M2]; [lia | done|]. rewrite C1 in M1. rewrite C2 in M2.
    unfold KB_IRQ. split; [done|]. split; [done|]. unfold operational, masks. rewrite M1, M2. repeat split; by vm_compute.
  - do 3 (split; [done|]). unfold masks. by rewrite C1, C2.
Qed.

Lemma bootable_screen items resp fb mem mem' bufs mods : bootable items resp fb mem bufs mods -> zlen mem' = zlen mem ->
  bootable items resp fb mem' bufs mods.
Proof.
  intros [B1 B2 B3 (B4 & HW & HH) B5 B6] Hl. split; try done. split; [|done].
  destruct B4 as [? ? ? ? W5 W6]. split; rewrite ?Hl; done.
Qed.

(** From the processors to the disks: [m] is the machine after the first half, [w'] the whole. *)
Record middle (req : Requests) (off : Z) `{!LapicLaws L (off + LAPIC_PHYS)} (w : W) (m : Machine D C) (w' : W) : Prop := {
  mi_machine : exists d, machine w' = set_mem (heap w') (set_dev d (set_cpu (insn_sti (Start.cpu m)) m)) /\ operational d /\
    masks d = (if keyboard_passes (P:=P) then 0xFD else 0xFF, 0xFF) /\
    exists o, reads (stages_log req w) o /\ uart_sent d = uart_sent (Start.dev m) ++ o;
  mi_processors : processors_up (processors req) (smp w) (smp w');
  mi_lapic : lapic_up cr3 off w w' /\ keeps_translations cr3 off (words w) (words w');
  mi_keyboard : keyboard_up (keyboard w) (keyboard w') (all_tables (Start.tables m)) (handlers w');
  mi_pci : pci w' = scanned_table (hba w) /\ active_ports (ahci w') = 0;
  mi_ready : Serial.ready (console w');
  mi_heap : Buddy.wf (BUDDY (heap w'));
  mi_screen : screen w' = screen w;
}.

Lemma middle_spec req off `{!LapicLaws L (off + LAPIC_PHYS)} m (w : W) : powered_on req w ->
  core_up (F:=F) (delta:=delta) fuel ram img (machine w) m -> Serial.ready (Start.dev m) ->
  0 <= off /\ off mod 4096 = 0 -> off + LAPIC_PHYS + 4096 <= 2 ^ 64 ->
  tables_ok (A := BuddyAllocator) off cr3 (words w) (BUDDY (Start.mem m)) ->
  let w0 := set_keyboard (keyboard w) (all_tables (Start.tables m)) (set_machine m w) in
  exists w', (w ← start_processors fuel who (processors req) w0; w ← start_lapic cr3 off w;
              w ← start_keyboard (sti w); start_disks fuel cr3 off w) = Ret w' /\ middle req off w m w'.
Proof.
  intros [_ _ Pk Pp Ppci Pah Pbus] Hcore Hr Hoff Hfit Hok w0.
  pose proof (cu_tables _ _ _ _ _ Hcore) as Htab. pose proof (tu_lines _ _ _ _ _ Htab) as Hchips.
  pose proof (installed_size _ _ _ _ _ (tu_calls _ _ _ _ _ Htab)) as Hsize.
  destruct (start_processors_spec (F:=F) (phase:=phase) (delta:=delta) fuel Hfuel who (processors req) w0 Hr Pp) as (d1 & s1 & -> & P1 & U1).
  rewrite bind_ret. set (w1 := set_console d1 _).
  destruct (start_lapic_spec cr3 off w1 Hoff Hfit Hok) as (v & a & ms & b & He & Hk & Hok' & Hup). cbv zeta in He. rewrite He, bind_ret.
  set (w2 := set_apic v a _) in *.
  destruct (start_keyboard_spec (sti w2) Pk) as (kc & tt & -> & Hkb); [apply (all_tables_size _ Hsize)|]. rewrite bind_ret.
  destruct P1 as (Hr1 & Hc1 & o1 & R1 & S1).
  destruct (keyboard_lines d1) as (Hr2 & Hs2 & Hop & Hmask); [done | by rewrite Hc1|].
  change (console (sti w2)) with d1. set (d2 := if keyboard_passes then _ else _) in *. set (w3 := set_keyboard kc tt _).
  destruct (start_disks_spec (F:=F) (phase:=phase) (delta:=delta) fuel Hfuel cr3 off w3 Hr2 Ppci Pah Pbus (dm_wf _ _ (to_wf _ _ _ _ Hok')))
    as (d3 & s3 & g & k & -> & P3 & Ha & _ & Hwf & _).
  destruct P3 as (Hr3 & Hc3 & o3 & R3 & S3). eexists. split; [reflexivity|]. split; try done.
  - exists d3. split; [done|]. unfold chips in Hc3. injection Hc3 as E1 E2. unfold operational, masks in *.
    change (console w3) with d2 in *. rewrite E1, E2. split; [done|]. split; [done|].
    exists (o1 ++ o3). split; [by apply reads_app|]. rewrite S3. change (console w3) with d2. by rewrite Hs2, S1, app_assoc.
Qed.

(** The console from the first line to the last. *)
Definition boot_log (resp : Responses) (req : Requests) (items : list Item) (w : W) (m : Machine D C) (l : list piece) : list piece :=
  start_log resp (Start.cpu m) (TSC_FREQ_KHZ m) (total_pages (BUDDY (Start.mem m))) ++ stages_log req w ++
  MOUNTED :: font_lines items ++ l ++ [READY].

(** The kernel when it starts the scheduler.  [w'] is the state outside the scheduler, which has taken the
    devices and the heap over. *)
Record running (resp : Responses) (req : Requests) (f : FbInfo) (off : Z) `{!LapicLaws L (off + LAPIC_PHYS)}
    (items : list Item) (ms : list (list Z * list Z)) (w : W) (k : Boot.Kernel (D := Devices P D)) (w' : W) : Prop := {
  ru_core : exists m, started (F:=F) (delta:=delta) fuel ram img resp (machine w) (Some (frame_buffer f)) m /\
    machine w' = set_mem (heap w') (set_dev (console w') (set_cpu (insn_sti (Start.cpu m)) m)) /\
    irq_on (Start.cpu (machine w')) = true /\
    handlers_up (Start.tables m) (keyboard_passes (P:=P)) (handlers w') /\
    exists l o, module_lines 0 (module_files items) l /\ reads (boot_log resp req items w m l) o /\
      uart_sent (Sched.dev (Boot.tasks (loader k))) = uart_sent (console w) ++ o;
  ru_processors : processors_up (processors req) (smp w) (smp w');
  ru_lapic : lapic_up cr3 off w w' /\ keeps_translations cr3 off (words w) (words w');
  ru_keyboard : keyboard_passes (P:=P) = true ->
    kbc_out (keyboard w') = [] /\ kbc_config (keyboard w') = new_config (kbc_config (keyboard w));
  ru_pci : pci w' = scanned_table (hba w) /\ active_ports (ahci w') = 0;
  ru_tasks : booted fuel (task_trampoline link) (shell_task_entry link) (MODULE_BUFS_addr link) (AVARIA_API_addr link) off cr3
    items ms (frame_buffer f) (words w') (Sched.boot (heap w') (mkDevices (keyboard w') (console w'))) k;
  ru_lines : masks (Sched.dev (Boot.tasks (loader k))) = (if keyboard_passes (P:=P) then 0xFC else 0xFE, 0xFF);
}.

(** The tasks' stage after the others. *)
Lemma tasks_spec req off `{!LapicLaws L (off + LAPIC_PHYS)} m f items mods bufs s (w w1 : W) : middle req off w m w1 ->
  full_size (Start.tables m) -> bootable items (modules req) (frame_buffer f) s bufs mods ->
  exists k t, start_tasks fuel link cr3 (modules req) off (frame_buffer f) bufs (set_screen s w1) =
      Ret (Some k, set_keyboard (keyboard w1) t (set_screen s w1)) /\
    handlers_up (Start.tables m) (keyboard_passes (P:=P)) t /\
    booted fuel (task_trampoline link) (shell_task_entry link) (MODULE_BUFS_addr link) (AVARIA_API_addr link) off cr3
      items (take (Z.to_nat MAX_MODULES) mods) (frame_buffer f) (words w1)
      (Sched.boot (heap w1) (mkDevices (keyboard w1) (console w1))) k.
Proof.
  intros M Hsize Hboot. unfold start_tasks. assert (uart_polls (D:=Devices P D) < fuel)%nat as Hpolls by exact Hfuel.
  destruct (boot_spec (D:=Devices P D) fuel (task_trampoline link) (shell_task_entry link) (MODULE_BUFS_addr link) (AVARIA_API_addr link)
    off cr3 Hpolls Hlink items (modules req) (frame_buffer f) s bufs (words w1) (heap w1) (mkDevices (keyboard w1) (console w1)) mods Hboot)
    as (k & Hk & Hbooted); [apply (mi_heap _ _ _ _ _ M) | apply (mi_ready _ _ _ _ _ M)|].
  change (boot_from_initrd _ _ _ _ _ _ _ _ _ _ _ _ _) with (boot_from_initrd fuel (task_trampoline link) (shell_task_entry link)
    (MODULE_BUFS_addr link) (AVARIA_API_addr link) off cr3 (modules req) (frame_buffer f) s bufs (words w1)
    (Sched.boot (heap w1) (mkDevices (keyboard w1) (console w1)))).
  rewrite Hk, bind_ret.
  destruct (timer_registered (Start.tables m) (keyboard_passes (P:=P)) (handlers w1) Hsize) as (t & Ht & Hup).
  { pose proof (mi_keyboard _ _ _ _ _ M) as Hkb. unfold keyboard_up in Hkb. destruct keyboard_passes; [by destruct Hkb | done]. }
  change (handlers (set_screen s w1)) with (handlers w1). rewrite Ht, bind_ret. by exists k, t.
Qed.

Lemma console_log resp req off `{!LapicLaws L (off + LAPIC_PHYS)} items ms fb r (w w1 : W) m k : middle req off w m w1 ->
  started (F:=F) (delta:=delta) fuel ram img resp (machine w) r m ->
  booted fuel (task_trampoline link) (shell_task_entry link) (MODULE_BUFS_addr link) (AVARIA_API_addr link) off cr3
    items ms fb (words w1) (Sched.boot (heap w1) (mkDevices (keyboard w1) (console w1))) k ->
  exists l o, module_lines 0 (module_files items) l /\ reads (boot_log resp req items w m l) o /\
    uart_sent (Sched.dev (Boot.tasks (loader k))) = uart_sent (console w) ++ o.
Proof.
  intros M (_ & (o1 & Hs1 & Ho1) & _) (l & o3 & Hl & Ho3 & Hs3)%bt_log.
  destruct (mi_machine _ _ _ _ _ M) as (d & Hd & _ & _ & o2 & Ho2 & Hs2).
  exists l, (o1 ++ o2 ++ o3). split; [exact Hl|].
  split; [exact (reads_app _ _ _ _ Ho1 (reads_app _ _ _ _ Ho2 Ho3))|].
  rewrite Hs3. assert (console w1 = d) as -> by (unfold console; by rewrite Hd).
  change (uart_sent d ++ o3 = uart_sent (Start.dev (machine w)) ++ o1 ++ o2 ++ o3). by rewrite Hs2, Hs1, !app_assoc.
Qed.


(** With an answer missing, the first half stops the processor, and nothing after it runs. *)
Lemma kernel_halts resp req bufs (w : W) : fresh (machine w) -> (uart_busy (console w) <= uart_polls)%nat ->
  0 <= clock (console w) -> answers_ok resp -> complete resp = None ->
  exists n m, started (F:=F) (delta:=delta) fuel ram img resp (machine w) None m /\
    forall tfuel, (n <= tfuel)%nat -> start_kernel tfuel resp req bufs w =
      Ret (None, set_keyboard (keyboard w) (all_tables (Start.tables m)) (set_machine m w)).
Proof.
  intros Hf Hb Hclk Ha Hc.
  destruct (start_spec fuel Hfuel ram img Himg Hisr HF Hphase Hdelta (machine w) resp Hf Hb Hclk Ha) as (n & r & m & Hrun & Hst).
  pose proof Hst as (_ & _ & _ & Hans). rewrite Hc in Hans. subst r.
  exists n, m. split; [exact Hst|]. intros tfuel Ht. unfold _start. by rewrite (Hrun tfuel Ht).
Qed.
End whole.

(** * A machine *)

(** A host bridge alone on the bus; no device registers. *)
Definition bridge_only (a : PciAddr) (r : Z) : Z :=
  if decide (a = mkPciAddr 0 0 0) then match r with 0 => 0x12378086 | 2 => 0x06000002 | _ => 0 end else 0xFFFFFFFF.

#[local] Instance no_registers : HbaOps PciSim := {|
  mmio_read _ d := (0xFFFFFFFF, d); mmio_write _ _ d := d; ram _ _ := 0; ram_write _ _ d := d;
|}.

#[local] Existing Instances demo_apic_regs demo_apic_laws.

Definition demo_responses : Responses := mkResponses true (Some [mkFbInfo 20 4 64 24]) (Some demo_base)
  (Some [mkEntry false 0 0x1000; mkEntry true 0x200000 0x4000000]).

Definition demo_requests : Requests :=
  mkRequests (Some (demo_cpus, 0)) (Some [(INITRD, archive_of demo_disk)]).

Definition demo_bufs : list (list Z) := replicate 16 (replicate (Z.to_nat 0x10000) 0).

Definition demo_world : World DemoBoard DemoCpu Kbc PciSim demo_apic :=
  mkWorld Start.demo_machine (Smp.boot 3) (mkKbc [0x1C] 0x34 false) no_handlers 0 (0x1FF, LVT_MASKED, LVT_MASKED)
    table_init ahci_boot (mkPciSim 0 bridge_only) ∅ (fun _ => 0) demo_mem.

Lemma demo_powered_on : powered_on (F:=2386364) (phase:=0) (delta:=3) demo_schedule demo_requests demo_world.
Proof.
  split; [by split | split; simpl; lia | | | exact eq_refl | exact eq_refl | by vm_compute].
  { repeat split; try (simpl; lia); repeat (apply Forall_cons; split; [unfold in_word; lia|]); by apply Forall_nil. }
  split; [by apply (bool_decide_unpack _)|]. split; [left|]. do 3 (split; [done|]).
  change (Smp.boot (length demo_cpus)) with (Smp.boot 3).
  destruct (smp_init demo_cpus 0 demo_schedule (Smp.boot 3)) as [s|] eqn:Hs; [by exists s | vm_compute in Hs; discriminate Hs].
Qed.

Lemma demo_answers : answers_ok demo_responses.
Proof.
  split.
  - intros f fs [= <- <-]. unfold in_word. simpl. lia.
  - intros off [= <-]. by split.
  - intros off entries e [= <-] [= <-] [->|[->|[]%elem_of_nil]%elem_of_cons]%elem_of_cons; by split.
Qed.

(** The heap is the region at 2 MiB, the top-level table below it. *)
Lemma demo_heap_tables k : heap_up demo_base [mkEntry false 0 0x1000; mkEntry true 0x200000 0x4000000] k ->
  tables_ok (A := BuddyAllocator) demo_base demo_cr3 ∅ (BUDDY k).
Proof.
  intros (_ & [[Hno _]|(_ & e & Hin & Hu & _ & Hwf & Hb & Ht & _)]).
  { specialize (Hno (mkEntry true 0x200000 0x4000000) ltac:(right; left) eq_refl). discriminate Hno. }
  apply elem_of_cons in Hin as [->|[->|[]%elem_of_nil]%elem_of_cons]; [discriminate Hu|].
  apply empty_tables_ok; [| by vm_compute | by vm_compute | right; by rewrite Hb].
  split; [exact Hwf | by rewrite Hb | by rewrite Hb | by rewrite Hb, Ht].
Qed.

